(* ===== verification/_CoqProject ===== *)
-Q . S2P
Prelude.v
GoStrings.v
Sha256.v
Sorting.v
Domain.v
Codec.v
Config.v
ShardRouter.v
Migrations.v
TransactionRepo.v
TransactionTables.v
TransactionStore.v
TransactionRefines.v
TransactionTheorems.v
PendingBatch.v
StripeTypes.v
Signatures.v
Ports.v
PaymentService.v
PaymentTheorems.v
Concurrency.v
Stripe.v
WebhookService.v
WebhookTheorems.v
CheckoutResolver.v
Reconciliation.v
ReconcileLive.v
SqlFrames.v
Scatter.v
ChainEvents.v
OnchainRepo.v
ChainListener.v
ChainTheorems.v
Merchants.v
MerchantTheorems.v
Api.v
ApiTheorems.v
Lifecycle.v
Cache.v
TokenBucket.v
RateLimiter.v
KafkaConsumer.v
KafkaTheorems.v
Producer.v
Runners.v
Effects.v
Causes.v
CausedRuns.v
System.v
SqlOrigins.v
Callbacks.v
Visitors.v
Server.v
Observability.v
CheckoutPages.v
Metrics.v
Router.v
Wiring.v
Bench.v
BenchTheorems.v
TestEnv.v
Samples.v
Witnesses.v
ListenerWitnesses.v
ApiWitnesses.v
InfraWitnesses.v
OpsWitnesses.v
SystemWitnesses.v
