(* ===== verification/Prelude.v ===== *)
(** * EasyPay: a verification library of the payment gateway

    EasyPay is a payment gateway written in Go.  Merchants create payments over
    a signed HTTP API; a payment is a row in a sharded MySQL database; it is
    paid by card through Stripe (hosted checkout, webhooks, refunds) or in
    crypto (a listener of a smart contract); confirmed payments go to Kafka,
    and a consumer calls the merchant back.  This library translates that
    program into Rocq and proves what it does.

    ** How the program is modelled

    - A fallible Go function returns a [result]: a value or an [error], which
      is a sentinel, a text, or a wrapper that [errIs] walks as [errors.Is]
      does.  Interpolated values of error texts are left out.
    - Code with effects is a function [W -> A * W] on an explicit state ([ST],
      with [let!] for sequencing); a failed call keeps the changes it made.
      Services run on products of states, one factor per component they use.
    - int64 and uint64 arithmetic is on Z with its wrap-around written out
      ([i64], [u64]); byte slices and strings are Rocq strings, byte by byte;
      times and durations are nanoseconds as Z.
    - Loops are structural where the code bounds them.  The others carry fuel
      or their schedule: a backfill pass is followed for a number of rounds, the
      answer [None] is a pass that has not returned by then, and
      [backfill_complete] shows that [head - from + 1] rounds are enough (unless
      the uint64 arithmetic of the loop wraps around); [Run] of the Kafka
      consumer and of the chain subscriber are the first [n] rounds of an
      endless loop, for every [n]; the ticker loops run over any list of ticks
      and cancellations; the workers of the load generator over any list of
      events, whose length [bench_run_bounds] bounds.
    - Calls that run at the same time are lists of steps interleaved in any
      order: [cstep] of Concurrency cuts [Create] at its calls, [benchStep] of
      Bench cuts a worker at its atomic operations.  For the whole server the
      services are run on queues (Effects): each call asks an oracle and is
      recorded, so that a run stands for the service under every interference.
      [reachable] of System interleaves any number of requests, callbacks and
      background loops call by call over one repository; [play] is the same as
      a program, on which the witnesses run schedules.
    - Doubles are rationals with a rounding [fl] after each inexact operation,
      of which the class [Rounding] states what IEEE 754 guarantees.
    - SQL statements are functions on the rows of a table, following the schema
      of migrations/001.  A statement runs, is refused, or takes effect and
      loses its answer, according to a schedule of faults in the state; the
      order in which scattered queries answer is part of the state too.
    - Code outside of the repository is a parameter: the collation and the time
      precision of MySQL ([MySQL]), Unicode tables beyond ASCII ([Unicode]), the
      Stripe API ([Client]), the circuit breaker ([CircuitBreaker]), Redis
      commands (also those a script sends: [RedisStrings], [RedisZSets]), the
      chain client, Kafka reader and writer, JSON decoders, the routing of Fiber
      ([Fiber]), the clock, randomness.  What a theorem needs of one is a class
      of laws ([MySQLLaws], [RedisSetNXLaws], [RedisScriptLaws],
      [RedisZSetLaws], [CircuitBreakerLaws], [FiberLaws]); Samples and the
      files of witnesses instantiate every parameter by a concrete function, and
      the witnesses apply the theorems there.  SHA-256 and HMAC are
      defined and executable, not parameters.

    ** Files

    - Prelude, GoStrings, Sha256, Sorting: errors, the state monad, integers,
      strings.Split and the like, strconv, hex, SHA-256, sorting.
    - Domain (internal/domain), Codec (repository/codec.go), Config
      (internal/config), ShardRouter (repository/shard_router.go, mysql.go),
      Migrations (the migration runner of repository/mysql.go).
    - TransactionRepo (repository/transaction_repo.go): the table, the
      statements and every method.  TransactionTables: what holds of the tables
      in every reachable state.  TransactionStore: the contract, a list of
      payments per shard.  TransactionRefines: the repository satisfies it.
      TransactionTheorems, PendingBatch: reads after writes, the scatter
      queries, the batch of stuck payments.
    - Signatures (pkg/hmac, pkg/checkouttoken, stripe/signature.go),
      StripeTypes and Stripe (provider/stripe: client, breaker, fake).
    - Ports: the interfaces between services.  PaymentService and
      PaymentTheorems (service/payment_service.go), WebhookService and
      WebhookTheorems (service/webhook_service.go), CheckoutResolver
      (service/checkout_resolver.go), Reconciliation
      (service/reconciliation.go); all are proved against TransactionStore.
      Concurrency: interleaved calls of Create.  ReconcileLive: progress of a
      reconciliation pass.  SqlFrames: what both need of the repository.
      Scatter: the goroutines of a cross-shard read as separate steps, with
      other requests in between.
    - ChainEvents, OnchainRepo, ChainListener, ChainTheorems
      (provider/blockchain, repository/onchain_tx_repo.go).
    - Merchants, MerchantTheorems (repository/merchant_repo.go,
      service/merchant_service.go).
    - Api, ApiTheorems (internal/api, pkg/response): middleware, handlers and
      routes over the services.  Lifecycle: a payment from the callback of
      Stripe to the answer of the status API.
    - Cache (the lock and the URL cache), RateLimiter (the sliding window),
      TokenBucket (internal/cache), KafkaConsumer, KafkaTheorems and
      Producer (internal/kafka, internal/consumer).
    - Runners: the loops around the ticks of the workers, the subscription of
      the chain listener and its client.  Server (cmd/server): wiring, start and
      shutdown.  Observability (health, request id, request metrics, logger),
      CheckoutPages (the pages of the hosted checkout), Metrics (the collectors
      and the metered checkout), Router (internal/api/router.go), Wiring (the
      parts of a server from its configuration).  Bench, BenchTheorems
      (cmd/bench): the load generator.  TestEnv (integration_test): the harness.
    - Effects: calls, queues and the logic of backed runs.  Causes: what each
      effect of a request needs to have seen.  CausedRuns: every handler and
      loop keeps to it.  System: histories of concurrent requests and their
      theorems.  SqlOrigins: what System needs of the repository.  Callbacks:
      concurrent deliveries of one event.  Visitors: concurrent visitors of one
      order under the lock in Redis.
    - Samples, Witnesses, ListenerWitnesses, ApiWitnesses, InfraWitnesses,
      OpsWitnesses, SystemWitnesses: the concrete system and the theorems at it.

    ** What the theorems show

    - The whole server, under every interleaving: each effect of a request is
      justified by what that request saw before; a paid payment was paid (a
      verified event with Stripe's answer about its intent, or a verified event
      that has no intent, Stripe's answer about a stuck payment, or a final
      transaction of the chain); a session on a payment was made by
      Stripe for that order; what is announced was stored; concurrent visitors
      of a hosted checkout end up with one session, and while the lock in Redis
      lasts they go to Stripe one after the other, each holding the lock; of the deliveries of one
      Stripe event one at most writes, while the marks in Redis last; the
      handlers of the API are reached only through their guards.
    - Payments: an accepted request leaves its payment in the merchant's shard
      and the answer describes it; a second request for an order adds nothing
      and calls nobody; a retry gets the answer of the first call; a request
      whose id another merchant holds is never accepted.
    - Concurrency: cutting [Create] into its steps changes nothing; whatever
      runs between the steps of concurrent calls, an accepted request has its
      payment stored, and of the calls for one order at most one goes on to
      Stripe.
    - Storage: transaction ids are unique and rows well formed in every
      reachable state, even with lost answers; rows are never removed and keep
      merchant, order, amount and currency; the repository refines the list of
      payments; an inserted payment is read back; a scatter query finds a match
      if one pool has it and says "not found" only if none does; while other
      requests write, what it returns matched when its pool was asked, and "not
      found" means that no pool had a match when it was asked; the stuck batch is the oldest stuck payments in order.
    - Routing: every logical shard has exactly one pool, in contiguous ranges;
      opening the shards yields such a router from any valid configuration.
    - Authenticity: a webhook or an API request acts only under a MAC of the
      right secret and a fresh timestamp (up to the overflow the statement
      shows); checkout tokens verify exactly when issued for this pair and not
      expired, and are refused as expired after that; a merchant sees only its own payments.
    - Webhooks and refunds: at most one status change per event, to the status
      of the event's type, of the order the event names, with the payment
      intent checked at Stripe; a success means the order is stored and
      published; a refund goes to the order's own intent, once, and changes
      nothing stored, whatever its outcome.  When nothing fails,
      a genuine callback makes its order paid and announces it, and the merchant
      that asks for the order is told so.
    - Reconciliation: a pass changes an order only as Stripe says, and when
      nothing fails a stuck payment that has succeeded at Stripe ends up paid
      and announced.
    - Checkout: a redirect goes to the stored session or to a new one recorded
      for this order, under the lock; the hosted link a server hands out passes
      the token check of the same server until it expires; the metrics of a
      visit are those its calls amount to, and recording them changes nothing
      else; the templates of the
      pages hold exactly one verb.
    - Blockchain: the event layout is decoded exactly; a backfill pass
      returns and hands every block to [persist]; cursors move after the row;
      an order is marked paid only by a deep enough, successful transaction of
      its amount.
    - Infrastructure: the rate limiter keeps its limit over every window shortened
      by the delay of its scripts and a millisecond, whatever answers are lost,
      for calls at different nanoseconds; the token bucket keeps its rate over every run of calls of one clock, from
      which that of Redis keeps a constant distance, and the expiry of its key changes no answer; the lock is exclusive and only
      its holder releases it, the merchant cache is
      bounded and answers with rows that were found in the table and cached at
      most five minutes before, whatever happened to the table since; new merchants go to a least-loaded shard, the
      consumer commits only what it handled or dead-lettered, a delivered
      callback is signed; migrations run every statement of every file on every
      pool, or stop at a prefix.
    - Load generator: its run ends, sends at least the requests asked for and at
      most one less than the number of workers beyond, and counts each of them;
      its requests pass the server's authentication; its quantiles are ordered
      samples.
    - Failures the code does not survive, as theorems: a webhook that fails
      after its mark is lost; a receipt that cannot be fetched drops the
      payment; a transaction confirmed before its order stays unpaid; merchant
      ids of more than sixteen bytes can never be paid; callers with different
      clocks defeat the token bucket; the subscriber's backoff is never reset; a
      failed merchant lookup drops a callback; a reconciliation pass can write
      "paid" over a refund; the URL cache can answer one order with the URL of
      another whose key is the same; an event without an intent pays its order
      unasked; the links of the orders "." and ".." lead nowhere; a batch size
      near 2^64 makes the backfill range wrap around.

    ** What is not modelled

    A call of a repository is one step of a history, also where it sends one
    query per pool (Scatter takes the queries apart, for a single read); Stripe,
    Redis, the merchants and the chain answer a history arbitrarily.  Of the
    races that Redis decides, the marks of callbacks and the checkout lock are
    covered across requests (Callbacks and Visitors restrict the histories to
    those in which one Redis answered, and nothing expired meanwhile); the
    limiters are covered by the theorems about runs of calls to them.  In a
    history a request whose
    call is still unanswered may go on as if it had failed, which adds
    behaviours and removes none.  Contexts and deadlines appear as faults.  Left
    out: writing logs, the bridge to the Prometheus library, headers of the JSON
    answers, the go-ethereum, kafka-go and Stripe SDK clients behind their
    interfaces, flag parsing and printing in cmd/, constructors that only store
    their arguments, starting the containers of the integration tests and the
    generated mocks.

    ** Next

    Histories in which the limiters of Redis are shared state too, and in which
    locks and marks expire; scattered reads taken apart inside such histories;
    the effect of a case-insensitive collation on updates. *)

From stdpp Require Export base gmap list strings sorting.
From Stdlib Require Export ZArith Lia.
From Stdlib Require Export Ascii.

#[export] Set Default Goal Selector "!".

(** ** Go errors

    A Go error is a sentinel ([errors.New] stored in a package variable), a
    text with no chain, a wrapper made by [fmt.Errorf] with [%w], or the
    [*ProviderError] of the stripe package.  Interpolated values of a message
    are left out of the model: no code of the repository reads them back. *)

Inductive sentinel : Type :=
  | ErrInvalidOrderID | ErrUnknownShard | ErrNotFound | ErrDuplicateTransaction
  | ErrMerchantNotFound | ErrOnchainTxNotFound
  | ErrInvalidRequest | ErrUnsupportedMethod | ErrTransactionConflict
  | ErrWebhookDuplicate | ErrWebhookOrderMissing
  | ErrOrderNotFound | ErrOrderNotReady | ErrUnavailable
  | ErrLockNotAcquired | ErrRateLimited | ErrCircuitOpen
  | ErrOpenState | ErrTooManyRequests
  | ErrSignatureMissing | ErrSignatureFormat | ErrSignatureMismatch | ErrSignatureExpired
  | ErrMalformed | ErrExpired | ErrSignature
  | ErrUnexpectedLog
  | ErrNoRows | RedisNil | ContextCanceled | ContextDeadlineExceeded.

#[global] Instance sentinel_eq_dec : EqDecision sentinel.
Proof. solve_decision. Defined.

Inductive error : Type :=
  | Sentinel (s : sentinel)
  | Text (m : string)
  | Wrap (ctx : string) (e : error)
  | ProviderErr (op category : string) (e : error).

#[global] Instance error_eq_dec : EqDecision error.
Proof. solve_decision. Defined.

(** [errors.Is]: walk the [Unwrap] chain looking for the sentinel. *)
Fixpoint errIs (e : error) (s : sentinel) : bool :=
  match e with
  | Sentinel s' => bool_decide (s' = s)
  | Text _ => false
  | Wrap _ e' => errIs e' s
  | ProviderErr _ _ e' => errIs e' s
  end.

(** The text of an error, [err.Error()]. *)
Definition sentinel_text (s : sentinel) : string :=
  match s with
  | ErrInvalidOrderID => "invalid order_id"
  | ErrUnknownShard => "unknown shard_index"
  | ErrNotFound => "transaction not found"
  | ErrDuplicateTransaction => "duplicate transaction (transaction_id)"
  | ErrMerchantNotFound => "merchant not found"
  | ErrOnchainTxNotFound => "onchain tx not found"
  | ErrInvalidRequest => "invalid request"
  | ErrUnsupportedMethod => "unsupported payment method"
  | ErrTransactionConflict => "order_id conflicts with existing payment"
  | ErrWebhookDuplicate => "duplicate webhook event"
  | ErrWebhookOrderMissing => "webhook order_id not found in DB"
  | ErrOrderNotFound => "order not found"
  | ErrOrderNotReady => "order not yet available"
  | ErrUnavailable => "checkout temporarily unavailable"
  | ErrLockNotAcquired => "lock not acquired"
  | ErrRateLimited => "rate limited"
  | ErrCircuitOpen => "stripe circuit breaker open"
  | ErrOpenState => "circuit breaker is open"
  | ErrTooManyRequests => "too many requests"
  | ErrSignatureMissing => "stripe-signature header missing"
  | ErrSignatureFormat => "stripe-signature malformed"
  | ErrSignatureMismatch => "stripe signature mismatch"
  | ErrSignatureExpired => "stripe signature timestamp outside tolerance"
  | ErrMalformed => "checkout token malformed"
  | ErrExpired => "checkout token expired"
  | ErrSignature => "checkout token signature mismatch"
  | ErrUnexpectedLog => "log shape does not match PaymentReceived"
  | ErrNoRows => "sql: no rows in result set"
  | RedisNil => "redis: nil"
  | ContextCanceled => "context canceled"
  | ContextDeadlineExceeded => "context deadline exceeded"
  end.

Fixpoint errText (e : error) : string :=
  match e with
  | Sentinel s => sentinel_text s
  | Text m => m
  | Wrap ctx e' => ctx +:+ ": " +:+ errText e'
  | ProviderErr op cat e' => op +:+ ": " +:+ cat +:+ ": " +:+ errText e'
  end.

(** ** Results and the state monad

    A fallible Go function returns a pair of a value and an [error]; the model
    returns a [result].  Code that touches shared state is a function
    [W -> A * W]; Go keeps the state it has already changed when it returns an
    error, so the state is outside of the result. *)

Inductive result (A : Type) : Type :=
  | Ok (a : A)
  | Err (e : error).
Arguments Ok {A} a.
Arguments Err {A} e.

#[global] Instance result_eq_dec {A} `{EqDecision A} : EqDecision (result A).
Proof. solve_decision. Defined.

Definition is_ok {A} (r : result A) : bool := match r with Ok _ => true | Err _ => false end.

Definition rbind {A B} (r : result A) (k : A -> result B) : result B :=
  match r with Ok a => k a | Err e => Err e end.

Definition ST (W A : Type) : Type := W -> A * W.

Definition ret {W A} (a : A) : ST W A := fun w => (a, w).

Definition bind {W A B} (m : ST W A) (k : A -> ST W B) : ST W B :=
  fun w => let '(a, w') := m w in k a w'.

Declare Scope easypay_scope.
Delimit Scope easypay_scope with easypay.

(** [let! x := c in k] runs [c] and continues with its value, whatever it is;
    [try! x := r else wrapper in k] is Go's [if err != nil { return wrapper err }]
    on a pure result. *)
Notation "'let!' x ':=' c 'in' k" := (bind c (fun x => k))
  (at level 10, x name, c at level 100, k at level 200)
  : easypay_scope.
Notation "'try!' x ':=' r 'else' f 'in' k" :=
  (match r with Ok x => k | Err e => Err (f e) end)
  (at level 10, x name, r at level 100, f at level 100, k at level 200)
  : easypay_scope.

(** Running a computation on one half of a product state. *)
Definition on_fst {W V A} (m : ST W A) : ST (W * V) A :=
  fun w => let '(a, w1) := m w.1 in (a, (w1, w.2)).
Definition on_snd {W V A} (m : ST V A) : ST (W * V) A :=
  fun w => let '(a, w2) := m w.2 in (a, (w.1, w2)).

(** ** Machine integers *)

Definition u8 (z : Z) : Z := (z mod 2 ^ 8)%Z.
Definition u64 (z : Z) : Z := (z mod 2 ^ 64)%Z.
Definition i64 (z : Z) : Z := ((z + 2 ^ 63) mod 2 ^ 64 - 2 ^ 63)%Z.
Definition int64_range (z : Z) : Prop := (- 2 ^ 63 <= z < 2 ^ 63)%Z.
Definition uint64_range (z : Z) : Prop := (0 <= z < 2 ^ 64)%Z.
Definition uint8_range (z : Z) : Prop := (0 <= z < 2 ^ 8)%Z.

Section MachineIntegers.
Local Open Scope Z_scope.

Lemma i64_small z : int64_range z -> i64 z = z.
Proof. unfold int64_range, i64. intros Hz. rewrite Z.mod_small; lia. Qed.

Lemma i64_range z : int64_range (i64 z).
Proof.
  unfold int64_range, i64.
  pose proof (Z.mod_pos_bound (z + 2 ^ 63) (2 ^ 64) ltac:(lia)). lia.
Qed.

Lemma u64_small z : uint64_range z -> u64 z = z.
Proof. unfold uint64_range, u64. intros Hz. apply Z.mod_small. lia. Qed.

Lemma u64_range z : uint64_range (u64 z).
Proof. unfold uint64_range, u64. apply Z.mod_pos_bound. lia. Qed.

(** Converting a non-negative int64 to uint64 and back is the identity. *)
Lemma i64_u64 z : 0 <= z < 2 ^ 63 -> i64 (u64 z) = z.
Proof.
  intros Hz. rewrite u64_small by (unfold uint64_range; lia).
  apply i64_small. unfold int64_range. lia.
Qed.

Lemma i64_cases z : - 2 ^ 64 < z < 2 ^ 64 ->
  i64 z = z \/ i64 z = z - 2 ^ 64 \/ i64 z = z + 2 ^ 64.
Proof.
  intros Hz. unfold i64.
  destruct (decide (z + 2 ^ 63 < 0)) as [Hn|Hn].
  - right; right. rewrite <- (Z.mod_unique (z + 2 ^ 63) (2 ^ 64) (-1) (z + 2 ^ 63 + 2 ^ 64)); lia.
  - destruct (decide (z + 2 ^ 63 < 2 ^ 64)) as [Hs|Hs].
    + left. rewrite Z.mod_small; lia.
    + right; left. rewrite <- (Z.mod_unique (z + 2 ^ 63) (2 ^ 64) 1 (z + 2 ^ 63 - 2 ^ 64)); lia.
Qed.
End MachineIntegers.

(** ** Automation *)

Create HintDb easypay.
#[export] Hint Resolve i64_range u64_range : easypay.

(** Split the conditionals and matches of a hypothesis or of the goal, closing
    the branches that contradict the context. *)
Ltac go_case :=
  match goal with
  | H : context [match ?x with _ => _ end] |- _ =>
      lazymatch x with
      | context [match _ with _ => _ end] => fail
      | _ => let E := fresh "E" in destruct x eqn:E; simplify_eq/=
      end
  | |- context [match ?x with _ => _ end] =>
      lazymatch x with
      | context [match _ with _ => _ end] => fail
      | _ => let E := fresh "E" in destruct x eqn:E; simplify_eq/=
      end
  end.
Ltac go_cases := repeat (go_case; try done).

(** ** Generic lemmas *)

Lemma errIs_wrap ctx e s : errIs (Wrap ctx e) s = errIs e s.
Proof. done. Qed.

Lemma bind_eq {W A B} (m : ST W A) (k : A -> ST W B) w a w' :
  m w = (a, w') -> bind m k w = k a w'.
Proof. unfold bind. by intros ->. Qed.

Lemma NoDup_fmap_snoc {A B} (f : A -> B) (l : list A) (x : A) :
  NoDup (f <$> l) -> (forall y, y ∈ l -> f y <> f x) -> NoDup (f <$> (l ++ [x])).
Proof.
  intros Hnd Hx. rewrite fmap_app. apply NoDup_app. split_and!; [done| |apply NoDup_singleton].
  intros z (y & -> & Hy)%list_elem_of_fmap Hz.
  apply list_elem_of_singleton in Hz. by eapply Hx.
Qed.

Lemma find_app_None {A} (P : A -> bool) (l : list A) (x : A) :
  List.find P l = None -> List.find P (l ++ [x]) = if P x then Some x else None.
Proof. induction l as [|a l IH]; simpl; [done|]. by destruct (P a). Qed.

Lemma find_app_Some {A} (P : A -> bool) (l k : list A) x :
  List.find P l = Some x -> List.find P (l ++ k) = Some x.
Proof. induction l as [|a l IH]; simpl; [done|]. by destruct (P a). Qed.

Lemma find_None_iff {A} (P : A -> bool) (l : list A) :
  List.find P l = None <-> forall x, x ∈ l -> P x = false.
Proof.
  split.
  - intros Hf x Hx. eapply List.find_none; [done|]. by apply list_elem_of_In.
  - intros Hall. induction l as [|a l IH]; simpl; [done|].
    rewrite Hall by apply list_elem_of_here. apply IH. intros x Hx. apply Hall. by right.
Qed.
