(* ===== verification/GoStrings.v ===== *)
(** * The parts of Go's standard library the gateway uses on strings

    A Go string is a sequence of bytes, modelled by [string] (eight-bit
    characters).  The file covers [strings] (prefixes, search, splitting, case
    mapping, trimming), [encoding/hex] and [strconv].  The functions of
    [strings] that depend on the Unicode tables take their ASCII path here and
    call the fields of [Unicode] on the rest, which is where Go consults the
    tables of package [unicode]. *)

From S2P Require Import Prelude.
Local Open Scope Z_scope.

(** ** Bytes *)

Definition code (c : Ascii.ascii) : Z := Z.of_N (Ascii.N_of_ascii c).
Definition chr (z : Z) : Ascii.ascii := Ascii.ascii_of_N (Z.to_N z).

Lemma code_range c : 0 <= code c < 256.
Proof. unfold code. pose proof (Ascii.N_ascii_bounded c). lia. Qed.

Lemma chr_code c : chr (code c) = c.
Proof. unfold chr, code. by rewrite N2Z.id, Ascii.ascii_N_embedding. Qed.

Lemma code_chr z : 0 <= z < 256 -> code (chr z) = z.
Proof. intros Hz. unfold code, chr. rewrite Ascii.N_ascii_embedding by lia. lia. Qed.

Definition between (lo hi : Z) (c : Ascii.ascii) : bool := (lo <=? code c) && (code c <=? hi).

(** [len(s)] *)
Definition len (s : string) : Z := Z.of_nat (String.length s).

Lemma len_nonneg s : 0 <= len s.
Proof. unfold len. lia. Qed.

Lemma len_app s t : len (s +:+ t) = len s + len t.
Proof.
  unfold len. induction s as [|c s IH]; [done|].
  change (String c s +:+ t) with (String c (s +:+ t)). cbn [String.length]. lia.
Qed.

Lemma len_cons c s : len (String c s) = 1 + len s.
Proof. unfold len. cbn [String.length]. lia. Qed.

Lemma len_zero s : len s = 0 -> s = "".
Proof. destruct s; unfold len; simpl; [done|lia]. Qed.

Lemma str_app_assoc (a b c : string) : (a +:+ b) +:+ c = a +:+ (b +:+ c).
Proof. induction a as [|x a IH]; [done|]. by apply (f_equal (String x)). Qed.

Lemma str_app_nil (a : string) : a +:+ "" = a.
Proof. induction a as [|x a IH]; [done|]. by apply (f_equal (String x)). Qed.

(** ** Prefixes and search *)

Fixpoint HasPrefix (s p : string) {struct p} : bool :=
  match p, s with
  | EmptyString, _ => true
  | String b p', String a s' => Ascii.eqb a b && HasPrefix s' p'
  | String _ _, EmptyString => false
  end.

Fixpoint Contains (s sub : string) : bool :=
  HasPrefix s sub || match s with EmptyString => false | String _ s' => Contains s' sub end.

Lemma HasPrefix_spec s p : HasPrefix s p = true <-> exists t, s = p +:+ t.
Proof.
  revert s. induction p as [|b p IH]; intros s; simpl.
  { split; [intros _; by exists s|done]. }
  destruct s as [|a s]; [split; [done|intros [t Ht]; discriminate Ht]|].
  rewrite andb_true_iff, IH, Ascii.eqb_eq. split.
  - intros [-> [t ->]]. by exists t.
  - intros [t Ht]. injection Ht as -> ->. split; [done|by exists t].
Qed.

Lemma HasPrefix_app p t : HasPrefix (p +:+ t) p = true.
Proof. apply HasPrefix_spec. by exists t. Qed.

(** ** Splitting on one separator byte *)

(** [strings.SplitN(s, sep, 2)]: [None] when the separator does not occur (a
    one-element slice), otherwise the two pieces around its first occurrence. *)
Fixpoint SplitN2 (sep : Ascii.ascii) (s : string) : option (string * string) :=
  match s with
  | EmptyString => None
  | String c s' =>
      if Ascii.eqb c sep then Some ("", s')
      else match SplitN2 sep s' with Some (a, b) => Some (String c a, b) | None => None end
  end.

(** [strings.Split(s, sep)] for a one-byte separator. *)
Fixpoint Split (sep : Ascii.ascii) (s : string) : list string :=
  match s with
  | EmptyString => [""]
  | String c s' =>
      if Ascii.eqb c sep then "" :: Split sep s'
      else match Split sep s' with
           | p :: ps => String c p :: ps
           | [] => [String c ""]
           end
  end.

Fixpoint occurs (sep : Ascii.ascii) (s : string) : bool :=
  match s with EmptyString => false | String c s' => Ascii.eqb c sep || occurs sep s' end.

Lemma SplitN2_app sep a b : occurs sep a = false -> SplitN2 sep (a +:+ String sep b) = Some (a, b).
Proof.
  induction a as [|c a IH]; simpl; intros Ho.
  - by rewrite Ascii.eqb_refl.
  - apply orb_false_iff in Ho as [-> Ho]. by rewrite IH.
Qed.

Lemma SplitN2_first sep s a b : SplitN2 sep s = Some (a, b) -> occurs sep a = false.
Proof.
  revert a b. induction s as [|c s IH]; simpl; intros a b Hs; [done|]. destruct (Ascii.eqb c sep) eqn:Ec.
  - by injection Hs as <- <-.
  - destruct (SplitN2 sep s) as [[a' b']|]; [|done]. injection Hs as <- <-. simpl. by rewrite Ec, (IH a' b').
Qed.

Lemma SplitN2_join sep s a b : SplitN2 sep s = Some (a, b) -> s = a +:+ String sep b.
Proof.
  revert a b. induction s as [|c s IH]; simpl; intros a b Hs; [done|].
  destruct (Ascii.eqb c sep) eqn:Ec.
  - apply Ascii.eqb_eq in Ec as ->. by injection Hs as <- <-.
  - destruct (SplitN2 sep s) as [[a' b']|]; [|done]. injection Hs as <- <-.
    by rewrite (IH a' b').
Qed.

Lemma Split_no_sep sep s : occurs sep s = false -> Split sep s = [s].
Proof.
  induction s as [|c s IH]; simpl; intros Ho; [done|].
  apply orb_false_iff in Ho as [-> Ho]. by rewrite IH.
Qed.

Lemma Split_app sep a b :
  occurs sep a = false -> Split sep (a +:+ String sep b) = a :: Split sep b.
Proof.
  induction a as [|c a IH]; simpl; intros Ho.
  - by rewrite Ascii.eqb_refl.
  - apply orb_false_iff in Ho as [-> Ho]. by rewrite IH.
Qed.

Lemma occurs_app sep a b : occurs sep (a +:+ b) = occurs sep a || occurs sep b.
Proof.
  induction a as [|c a IH]; [done|]. cbn [occurs]. rewrite <- orb_assoc, <- IH. done.
Qed.

(** ** Case mapping and trimming *)

(** What Go reads from the Unicode tables: the [Map] branch of
    [strings.ToUpper] and [strings.ToLower], the rune loop of
    [strings.EqualFold] and [strings.TrimFunc(s, unicode.IsSpace)]. *)
Class Unicode : Type := {
  uni_upper : string -> string;
  uni_lower : string -> string;
  uni_equalfold : string -> string -> bool;
  uni_trimspace : string -> string;
}.

Definition is_ascii_char (c : Ascii.ascii) : bool := code c <? 128.
Fixpoint isASCII (s : string) : bool :=
  match s with EmptyString => true | String c s' => is_ascii_char c && isASCII s' end.

Fixpoint smap (f : Ascii.ascii -> Ascii.ascii) (s : string) : string :=
  match s with EmptyString => "" | String c s' => String (f c) (smap f s') end.

Definition upper (c : Ascii.ascii) : Ascii.ascii :=
  if between 97 122 c then chr (code c - 32) else c.
Definition lower (c : Ascii.ascii) : Ascii.ascii :=
  if between 65 90 c then chr (code c + 32) else c.

Definition is_space (c : Ascii.ascii) : bool :=
  (code c =? 9) || (code c =? 10) || (code c =? 11) || (code c =? 12) || (code c =? 13) || (code c =? 32).

Section Casing.
Context `{Unicode}.

Definition ToUpper (s : string) : string := if isASCII s then smap upper s else uni_upper s.
Definition ToLower (s : string) : string := if isASCII s then smap lower s else uni_lower s.

(** [strings.EqualFold]: bytes are compared up to ASCII case until one of
    the two strings shows a non-ASCII byte. *)
Fixpoint EqualFold (s t : string) : bool :=
  match s, t with
  | EmptyString, EmptyString => true
  | String a s', String b t' =>
      if negb (is_ascii_char a) || negb (is_ascii_char b) then uni_equalfold s t
      else Ascii.eqb (lower a) (lower b) && EqualFold s' t'
  | _, _ => false
  end.

(** Drop the leading ASCII spaces; [true] says that the scan stopped at a
    non-ASCII byte. *)
Fixpoint trim_left (s : string) : string * bool :=
  match s with
  | EmptyString => ("", false)
  | String c s' =>
      if negb (is_ascii_char c) then (s, true)
      else if is_space c then trim_left s' else (s, false)
  end.

(** The same from the other end. *)
Fixpoint trim_right (s : string) : string * bool :=
  match s with
  | EmptyString => ("", false)
  | String c s' =>
      match trim_right s' with
      | (EmptyString, u) =>
          if u then (String c "", u)
          else if negb (is_ascii_char c) then (String c "", true)
          else if is_space c then ("", false) else (String c "", false)
      | (t, u) => (String c t, u)
      end
  end.

Definition TrimSpace (s : string) : string :=
  let '(l, u) := trim_left s in
  if u then uni_trimspace l
  else let '(r, v) := trim_right l in if v then uni_trimspace r else r.
End Casing.

Ltac all_bytes c := destruct c as [[] [] [] [] [] [] [] []]; try reflexivity.

Lemma upper_idem c : upper (upper c) = upper c.
Proof. all_bytes c. Qed.
Lemma lower_upper c : lower (upper c) = lower c.
Proof. all_bytes c. Qed.
Lemma upper_ascii c : is_ascii_char (upper c) = is_ascii_char c.
Proof. all_bytes c. Qed.

Lemma smap_ascii f s : (forall c, is_ascii_char (f c) = is_ascii_char c) -> isASCII (smap f s) = isASCII s.
Proof. intros Hf. induction s as [|c s IH]; simpl; [done|]. by rewrite Hf, IH. Qed.

Lemma ToUpper_idem_ascii `{Unicode} s : isASCII s = true -> ToUpper (ToUpper s) = ToUpper s.
Proof.
  intros Ha. unfold ToUpper. rewrite Ha, smap_ascii by apply upper_ascii. rewrite Ha.
  clear Ha. induction s as [|c s IH]; simpl; [done|]. by rewrite upper_idem, IH.
Qed.

Lemma EqualFold_refl_ascii `{Unicode} s : isASCII s = true -> EqualFold s s = true.
Proof.
  induction s as [|c s IH]; [done|]. cbn [isASCII EqualFold].
  intros [-> Hs]%andb_true_iff. cbn. by rewrite Ascii.eqb_refl, IH.
Qed.

(** ** [encoding/hex] *)

Definition hexdigit (n : Z) : Ascii.ascii :=
  if n <? 10 then chr (48 + n) else chr (87 + n).

Definition fromHexChar (c : Ascii.ascii) : option Z :=
  if between 48 57 c then Some (code c - 48)
  else if between 97 102 c then Some (code c - 97 + 10)
  else if between 65 70 c then Some (code c - 65 + 10)
  else None.

Fixpoint hexEncode (b : string) : string :=
  match b with
  | EmptyString => ""
  | String c b' =>
      String (hexdigit (Z.shiftr (code c) 4)) (String (hexdigit (Z.land (code c) 15)) (hexEncode b'))
  end.

(** [hex.DecodeString]: pairs of digits of either case; a bad digit or an odd
    length is an error. *)
Fixpoint hexDecode (s : string) : option string :=
  match s with
  | EmptyString => Some ""
  | String a (String b s') =>
      match fromHexChar a, fromHexChar b, hexDecode s' with
      | Some h, Some l, Some r => Some (String (chr (Z.lor (Z.shiftl h 4) l)) r)
      | _, _, _ => None
      end
  | String _ EmptyString => None
  end.

(** Induction on a string two bytes at a time. *)
Lemma string_pair_ind (P : string -> Prop) :
  P "" -> (forall a, P (String a "")) -> (forall a b s, P s -> P (String a (String b s))) ->
  forall s, P s.
Proof.
  intros H0 H1 H2. fix IH 1. intros [|a [|b s]]; [done|done|]. apply H2, IH.
Qed.

Lemma hex_byte_roundtrip c :
  fromHexChar (hexdigit (Z.shiftr (code c) 4)) = Some (Z.shiftr (code c) 4) /\
  fromHexChar (hexdigit (Z.land (code c) 15)) = Some (Z.land (code c) 15) /\
  chr (Z.lor (Z.shiftl (Z.shiftr (code c) 4) 4) (Z.land (code c) 15)) = c.
Proof. all_bytes c; by split_and!. Qed.

Lemma hexDecode_encode b : hexDecode (hexEncode b) = Some b.
Proof.
  induction b as [|c b IH]; [done|]. cbn [hexEncode hexDecode].
  destruct (hex_byte_roundtrip c) as (-> & -> & ->). by rewrite IH.
Qed.

Lemma hexEncode_length b : String.length (hexEncode b) = (2 * String.length b)%nat.
Proof. induction b as [|c b IH]; [done|]. cbn [hexEncode String.length]. lia. Qed.

Lemma hexDecode_length s b : hexDecode s = Some b -> String.length s = (2 * String.length b)%nat.
Proof.
  revert b. induction s as [|a|a c s IH] using string_pair_ind; intros b; cbn [hexDecode].
  - by intros [= <-].
  - done.
  - destruct (fromHexChar a), (fromHexChar c), (hexDecode s) as [r|]; try done.
    intros [= <-]. cbn [String.length]. rewrite (IH r); [lia|done].
Qed.

(** Printing a decoded pair of digits gives back its lower-case form: the
    decoded byte has the two digits as its halves. *)
Lemma fromHexChar_digit c n : fromHexChar c = Some n -> 0 <= n < 16 /\ hexdigit n = lower c.
Proof.
  destruct c as [[] [] [] [] [] [] [] []]; intros H; vm_compute in H; try discriminate H;
    injection H as <-; (split; [lia|reflexivity]).
Qed.

Lemma nibbles h l : 0 <= h < 16 -> 0 <= l < 16 ->
  Z.shiftr (Z.lor (Z.shiftl h 4) l) 4 = h /\ Z.land (Z.lor (Z.shiftl h 4) l) 15 = l /\
  0 <= Z.lor (Z.shiftl h 4) l < 256.
Proof.
  intros Hh Hl.
  assert (Hall : Forall (fun p : Z * Z => let '(h, l) := p in
      Z.shiftr (Z.lor (Z.shiftl h 4) l) 4 = h /\ Z.land (Z.lor (Z.shiftl h 4) l) 15 = l /\
      0 <= Z.lor (Z.shiftl h 4) l < 256)
    (list_prod (Z.of_nat <$> seq 0 16) (Z.of_nat <$> seq 0 16))).
  { apply List.Forall_forall. cbn. intros p Hp.
    repeat destruct Hp as [<-|Hp]; [vm_compute; by split_and!..|done]. }
  rewrite List.Forall_forall in Hall. apply (Hall (h, l)).
  assert (Hin : forall z, 0 <= z < 16 -> In z (Z.of_nat <$> seq 0 16)).
  { intros z Hz. apply list_elem_of_In, list_elem_of_fmap. exists (Z.to_nat z).
    split; [lia|]. apply elem_of_seq. lia. }
  apply List.in_prod; auto.
Qed.

Lemma hexEncode_decode s b : hexDecode s = Some b -> hexEncode b = smap lower s.
Proof.
  revert b. induction s as [|a|a c s IH] using string_pair_ind; intros b; cbn [hexDecode smap].
  - by intros [= <-].
  - done.
  - destruct (fromHexChar a) as [h|] eqn:Ea; [|done].
    destruct (fromHexChar c) as [l|] eqn:Ec; [|done].
    destruct (hexDecode s) as [r|]; [|done]. intros [= <-].
    apply fromHexChar_digit in Ea as [Hh <-]. apply fromHexChar_digit in Ec as [Hl <-].
    destruct (nibbles h l Hh Hl) as (E1 & E2 & Hr).
    cbn [hexEncode]. rewrite code_chr, E1, E2, (IH r) by done. done.
Qed.

(** ** [strconv.FormatInt] and [strconv.ParseInt], base 10, 64 bits *)

Fixpoint digits (fuel : nat) (n : Z) (acc : string) : string :=
  match fuel with
  | O => acc
  | S f =>
      let acc' := String (chr (48 + n mod 10)) acc in
      if n <? 10 then acc' else digits f (n / 10) acc'
  end.

(** Nineteen digits hold every int64, so fuel 20 is never used up. *)
Definition FormatInt (z : Z) : string :=
  if z <? 0 then String "-"%char (digits 20 (- z) "") else digits 20 z "".

Fixpoint parse_digits (v : Z) (s : string) : option Z :=
  match s with
  | EmptyString => Some v
  | String c s' => if between 48 57 c then parse_digits (v * 10 + (code c - 48)) s' else None
  end.

Definition ParseInt (s : string) : option Z :=
  let check (o : option Z) :=
    match o with
    | Some v => if bool_decide (- 2 ^ 63 <= v < 2 ^ 63) then Some v else None
    | None => None
    end in
  match s with
  | EmptyString => None
  | String c s' =>
      if Ascii.eqb c "+"%char || Ascii.eqb c "-"%char then
        match s' with
        | EmptyString => None
        | String _ _ => check (option_map (if Ascii.eqb c "-"%char then Z.opp else id) (parse_digits 0 s'))
        end
      else check (parse_digits 0 s)
  end.

Lemma digit_char d : 0 <= d < 10 ->
  between 48 57 (chr (48 + d)) = true /\ code (chr (48 + d)) - 48 = d.
Proof. intros Hd. unfold between. rewrite code_chr by lia. lia. Qed.

Lemma parse_digits_print fuel n acc :
  0 <= n < 10 ^ Z.of_nat fuel -> (0 < fuel)%nat ->
  parse_digits 0 (digits fuel n acc) = parse_digits n acc.
Proof.
  revert n acc. induction fuel as [|f IH]; intros n acc Hn Hf; [lia|].
  cbn [digits]. pose proof (Z.mod_pos_bound n 10 ltac:(lia)) as Hm.
  destruct (digit_char (n mod 10) Hm) as [Hb Hc].
  destruct (Z.ltb_spec n 10) as [Hlt|Hge].
  - cbn [parse_digits]. rewrite Hb, Hc, Z.mod_small by lia. by f_equal; lia.
  - assert (Hf0 : (0 < f)%nat).
    { destruct f; [|lia]. change (10 ^ Z.of_nat 1) with 10 in Hn. lia. }
    rewrite IH; [|split|done].
    + cbn [parse_digits]. rewrite Hb, Hc. f_equal. pose proof (Z.div_mod n 10). lia.
    + apply Z.div_pos; lia.
    + apply Z.div_lt_upper_bound; [lia|].
      rewrite Nat2Z.inj_succ, Z.pow_succ_r in Hn by lia. lia.
Qed.

(** The printed digits are digits: the first character is neither a sign nor a
    separator. *)
Fixpoint all_chars (P : Ascii.ascii -> bool) (s : string) : bool :=
  match s with EmptyString => true | String c s' => P c && all_chars P s' end.

Lemma all_chars_app P a b : all_chars P (a +:+ b) = all_chars P a && all_chars P b.
Proof. induction a as [|c a IH]; [done|]. cbn [all_chars]. rewrite <- andb_assoc, <- IH. done. Qed.

Lemma digits_all fuel n acc :
  0 <= n -> all_chars (between 48 57) acc = true -> all_chars (between 48 57) (digits fuel n acc) = true.
Proof.
  revert n acc. induction fuel as [|f IH]; intros n acc Hn Hacc; [done|]. cbn [digits].
  pose proof (Z.mod_pos_bound n 10 ltac:(lia)) as Hm.
  destruct (digit_char (n mod 10) Hm) as [Hb _].
  destruct (Z.ltb_spec n 10); [|apply IH; [apply Z.div_pos; lia|]];
    cbn [all_chars]; by rewrite Hb, Hacc.
Qed.

Lemma digits_cons fuel n acc : (0 < fuel)%nat -> exists c s, digits fuel n acc = String c s.
Proof.
  revert n acc. induction fuel as [|f IH]; intros n acc Hf; [lia|]. cbn [digits].
  destruct (n <? 10); [by eexists _, _|]. destruct f; [by eexists _, _|]. apply IH. lia.
Qed.

Lemma digit_not c : between 48 57 c = true ->
  Ascii.eqb c "+"%char = false /\ Ascii.eqb c "-"%char = false /\ Ascii.eqb c "."%char = false /\ Ascii.eqb c ","%char = false /\ Ascii.eqb c "="%char = false.
Proof.
  destruct c as [[] [] [] [] [] [] [] []]; intros H; vm_compute in H; try discriminate H; by split_and!.
Qed.

Lemma ParseInt_FormatInt z : int64_range z -> ParseInt (FormatInt z) = Some z.
Proof.
  unfold int64_range, FormatInt. intros Hz.
  destruct (Z.ltb_spec z 0) as [Hneg|Hpos]; unfold ParseInt.
  - destruct (digits_cons 20 (- z) "" ltac:(lia)) as (c & s & E).
    rewrite E, <- E. cbn [Ascii.eqb Bool.eqb orb option_map].
    rewrite parse_digits_print by (simpl; lia). cbn [parse_digits option_map].
    rewrite bool_decide_true by lia. f_equal. lia.
  - destruct (digits_cons 20 z "" ltac:(lia)) as (c & s & E).
    pose proof (digits_all 20 z "" Hpos eq_refl) as Hd. rewrite E in Hd.
    cbn [all_chars] in Hd. apply andb_true_iff in Hd as [(E1 & E2 & _)%digit_not _].
    rewrite E, E1, E2, <- E. cbn [orb].
    rewrite parse_digits_print by (simpl; lia). cbn [parse_digits].
    by rewrite bool_decide_true by lia.
Qed.

Lemma FormatInt_inj a b : int64_range a -> int64_range b -> FormatInt a = FormatInt b -> a = b.
Proof. intros Ha Hb Heq. apply (inj Some). by rewrite <- !ParseInt_FormatInt, Heq by done. Qed.

Lemma ParseInt_range s z : ParseInt s = Some z -> int64_range z.
Proof.
  unfold ParseInt, int64_range. intros Hs. destruct s as [|c s]; [done|].
  destruct (_ || _); [destruct s as [|c' s]; [done|]|].
  all: destruct (option_map _ _) as [v|] || destruct (parse_digits 0 _) as [v|]; cbn in Hs; try done.
  all: case_bool_decide; simplify_eq; done.
Qed.

(** No printed integer holds the separators of the formats built from it. *)
Lemma FormatInt_no_sep z sep :
  int64_range z -> sep = "."%char \/ sep = ","%char \/ sep = "="%char -> occurs sep (FormatInt z) = false.
Proof.
  intros Hz Hsep.
  assert (Hd : forall s, all_chars (between 48 57) s = true -> occurs sep s = false).
  { induction s as [|c s IH]; [done|]. cbn [all_chars occurs].
    intros [(_ & _ & E1 & E2 & E3)%digit_not Hs]%andb_true_iff.
    rewrite IH by done. destruct Hsep as [->|[->| ->]]; by rewrite ?E1, ?E2, ?E3. }
  unfold FormatInt. destruct (Z.ltb_spec z 0).
  - cbn [occurs]. rewrite Hd by (apply digits_all; [lia|done]).
    by destruct Hsep as [->|[->| ->]].
  - apply Hd, digits_all; [lia|done].
Qed.
