(* ===== verification/Sha256.v ===== *)
(** * SHA-256 and HMAC-SHA256

    The two primitives of Go's [crypto/sha256] and [crypto/hmac] the gateway
    computes with: transaction ids, merchant request signatures, Stripe webhook
    signatures and checkout tokens.  The definitions follow FIPS 180-4 and
    RFC 2104 on 32-bit words kept as [Z]; the examples at the end are the
    published test vectors. *)

From S2P Require Import Prelude GoStrings.
Local Open Scope Z_scope.

Definition w32 (z : Z) : Z := Z.land z (2 ^ 32 - 1).
Definition rotr (n x : Z) : Z := Z.lor (Z.shiftr x n) (w32 (Z.shiftl x (32 - n))).
Definition not32 (x : Z) : Z := Z.lxor x (2 ^ 32 - 1).

Definition Ch (x y z : Z) : Z := Z.lxor (Z.land x y) (Z.land (not32 x) z).
Definition Maj (x y z : Z) : Z := Z.lxor (Z.lxor (Z.land x y) (Z.land x z)) (Z.land y z).
Definition Sigma0 (x : Z) : Z := Z.lxor (Z.lxor (rotr 2 x) (rotr 13 x)) (rotr 22 x).
Definition Sigma1 (x : Z) : Z := Z.lxor (Z.lxor (rotr 6 x) (rotr 11 x)) (rotr 25 x).
Definition sigma0 (x : Z) : Z := Z.lxor (Z.lxor (rotr 7 x) (rotr 18 x)) (Z.shiftr x 3).
Definition sigma1 (x : Z) : Z := Z.lxor (Z.lxor (rotr 17 x) (rotr 19 x)) (Z.shiftr x 10).

(** FIPS 180-4 takes its constants from the first primes: 32 bits of the
    fractional part of their cube roots, and of their square roots. *)
Definition is_prime (n : nat) : bool :=
  forallb (fun d => negb (Nat.eqb (Nat.modulo n d) 0)) (seq 2 (n - 2)).
Definition first_primes : list Z := Z.of_nat <$> List.filter is_prime (seq 2 310).

(** The integer cube root, bit by bit. *)
Fixpoint cbrt_bits (bit : nat) (n r : Z) : Z :=
  match bit with
  | O => r
  | S bit' =>
      let r' := r + 2 ^ Z.of_nat bit' in
      cbrt_bits bit' n (if r' * r' * r' <=? n then r' else r)
  end.

Definition K256 : list Z :=
  Eval vm_compute in (fun p => w32 (cbrt_bits 35 (p * 2 ^ 96) 0)) <$> first_primes.

Record state8 : Type := mk8 { sa : Z; sb : Z; sc : Z; sd : Z; se : Z; sf : Z; sg : Z; sh : Z }.

Definition H0 : state8 :=
  Eval vm_compute in
    let h i := w32 (Z.sqrt (nth i first_primes 0 * 2 ^ 64)) in
    mk8 (h 0%nat) (h 1%nat) (h 2%nat) (h 3%nat) (h 4%nat) (h 5%nat) (h 6%nat) (h 7%nat).

(** One round with the word [w] and the constant [k]. *)
Definition round (s : state8) (k w : Z) : state8 :=
  let T1 := w32 (sh s + Sigma1 (se s) + Ch (se s) (sf s) (sg s) + k + w) in
  let T2 := w32 (Sigma0 (sa s) + Maj (sa s) (sb s) (sc s)) in
  mk8 (w32 (T1 + T2)) (sa s) (sb s) (sc s) (w32 (sd s + T1)) (se s) (sf s) (sg s).

(** The sixteen words of the sliding window are the last sixteen words of the
    message schedule, oldest first; each round consumes the oldest one and
    appends the next. *)
Definition next_word (win : list Z) : Z :=
  w32 (sigma1 (nth 14 win 0) + nth 9 win 0 + sigma0 (nth 1 win 0) + nth 0 win 0).

Fixpoint rounds (ks win : list Z) (s : state8) : state8 :=
  match ks with
  | [] => s
  | k :: ks' => rounds ks' (List.tl win ++ [next_word win]) (round s k (List.hd 0 win))
  end.

Definition add8 (s t : state8) : state8 :=
  mk8 (w32 (sa s + sa t)) (w32 (sb s + sb t)) (w32 (sc s + sc t)) (w32 (sd s + sd t))
      (w32 (se s + se t)) (w32 (sf s + sf t)) (w32 (sg s + sg t)) (w32 (sh s + sh t)).

Definition compress (s : state8) (block : list Z) : state8 := add8 s (rounds K256 block s).

(** Big-endian packing of bytes into words. *)
Fixpoint words (bs : list Z) : list Z :=
  match bs with
  | a :: b :: c :: d :: r => (a * 2 ^ 24 + b * 2 ^ 16 + c * 2 ^ 8 + d) :: words r
  | _ => []
  end.

Definition word_bytes (w : Z) : list Z :=
  [Z.shiftr w 24; Z.land (Z.shiftr w 16) 255; Z.land (Z.shiftr w 8) 255; Z.land w 255].

Definition bytes_of (s : string) : list Z := code <$> String.list_ascii_of_string s.
Definition string_of (bs : list Z) : string := String.string_of_list_ascii (chr <$> bs).

(** Padding: a 1 bit, zeros, the bit length on eight bytes. *)
Definition pad (bs : list Z) : list Z :=
  let n := length bs in
  let zeros := ((119 - n mod 64) mod 64)%nat in
  let bits := Z.of_nat n * 8 in
  bs ++ [128] ++ replicate zeros 0 ++
  word_bytes (w32 (Z.shiftr bits 32)) ++ word_bytes (w32 bits).

Fixpoint blocks (n : nat) (ws : list Z) (s : state8) : state8 :=
  match n with
  | O => s
  | S n' => blocks n' (drop 16 ws) (compress s (take 16 ws))
  end.

(** [sha256.Sum256]: 32 bytes. *)
Definition sha256_bytes (bs : list Z) : list Z :=
  let p := pad bs in
  let s := blocks (length p / 64) (words p) H0 in
  [sa s; sb s; sc s; sd s; se s; sf s; sg s; sh s] ≫= word_bytes.

Definition sha256 (m : string) : string := string_of (sha256_bytes (bytes_of m)).

(** [hmac.New(sha256.New, key)] followed by [Write(msg)] and [Sum(nil)]. *)
Definition hmac_sha256 (key msg : string) : string :=
  let k0 := bytes_of key in
  let k1 := if (64 <? Z.of_nat (length k0)) then sha256_bytes k0 else k0 in
  let k := k1 ++ replicate (64 - length k1) 0 in
  let inner := sha256_bytes (((fun b => Z.lxor b 0x36) <$> k) ++ bytes_of msg) in
  string_of (sha256_bytes (((fun b => Z.lxor b 0x5c) <$> k) ++ inner)).

(** ** Lengths *)

Lemma string_of_length bs : String.length (string_of bs) = length bs.
Proof.
  unfold string_of. induction bs as [|b bs IH]; [done|].
  cbn [fmap list_fmap String.string_of_list_ascii String.length length]. by f_equal.
Qed.

Lemma sha256_bytes_length bs : length (sha256_bytes bs) = 32%nat.
Proof. done. Qed.

Lemma sha256_length m : String.length (sha256 m) = 32%nat.
Proof. apply string_of_length. Qed.

Lemma hmac_sha256_length k m : String.length (hmac_sha256 k m) = 32%nat.
Proof. apply string_of_length. Qed.

#[global] Opaque sha256 hmac_sha256.

(** ** Published test vectors (FIPS 180-4, RFC 4231) *)

Example sha256_abc :
  hexEncode (sha256 "abc") = "ba7816bf8f01cfea414140de5dae2223b00361a396177a9cb410ff61f20015ad".
Proof. vm_compute. reflexivity. Qed.

Example sha256_two_blocks :
  hexEncode (sha256 "abcdbcdecdefdefgefghfghighijhijkijkljklmklmnlmnomnopnopq") =
  "248d6a61d20638b8e5c026930c3e6039a33ce45964ff2167f6ecedd419db06c1".
Proof. vm_compute. reflexivity. Qed.

Example hmac_jefe :
  hexEncode (hmac_sha256 "Jefe" "what do ya want for nothing?") =
  "5bdcc146bf60754e6a042426089575c75a003f089d2739839dec58b964ec3843".
Proof. vm_compute. reflexivity. Qed.
