(* ===== verification/Sorting.v ===== *)
(** * Lists sorted by a total preorder

    Shared by the SQL "ORDER BY ... LIMIT" and by the repository's insertion
    sort: sortedness, permutation, and that a bounded prefix of a sorted list
    holds the smallest elements. *)

From S2P Require Import Prelude.

Section Sorted.
Context {A : Type} (le : A -> A -> bool).
Context (le_total : forall a b, le a b = true \/ le b a = true).
Context (le_trans : forall a b c, le a b = true -> le b c = true -> le a c = true).

Abbreviation sorted := (StronglySorted (fun a b => le a b = true)).

Lemma sorted_app_inv (l k : list A) x y :
  sorted (l ++ k) -> x ∈ l -> y ∈ k -> le x y = true.
Proof.
  induction l as [|a l IH]; cbn; intros Hs Hx Hy; [by apply not_elem_of_nil in Hx|].
  apply StronglySorted_inv in Hs as [Hs Ha]. apply elem_of_cons in Hx as [->|Hx]; [|by apply IH].
  rewrite Forall_forall in Ha. apply Ha, elem_of_app. by right.
Qed.

Lemma sorted_take n (l : list A) : sorted l -> sorted (take n l).
Proof.
  revert n. induction l as [|a l IH]; intros [|n]; cbn; intros Hs; try constructor.
  - apply StronglySorted_inv in Hs as [Hs _]. by apply IH.
  - apply StronglySorted_inv in Hs as [_ Ha]. by apply Forall_take.
Qed.

(** An element cut off by [take n] is preceded by [n] elements. *)
Lemma sorted_cut n (l : list A) x :
  sorted l -> x ∈ l -> x ∈ take n l \/ (length (take n l) = n /\ forall y, y ∈ take n l -> le y x = true).
Proof.
  intros Hs Hx. rewrite <- (take_drop n l) in Hx, Hs. apply elem_of_app in Hx as [Hx|Hx]; [by left|].
  right. split.
  - rewrite length_take. assert (drop n l <> []) by (intros E; rewrite E in Hx; by apply not_elem_of_nil in Hx).
    destruct (decide (n <= length l)%nat); [lia|]. rewrite drop_ge in H by lia. done.
  - intros y Hy. by eapply sorted_app_inv.
Qed.

(** If at least [n] elements satisfy a property that is closed downwards,
    the first [n] elements of a sorted list all do. *)
Lemma sorted_prefix_closed n (l : list A) (P : A -> bool) :
  sorted l -> (forall a b, le a b = true -> P b = true -> P a = true) ->
  (n <= length (filter (fun a => P a = true) l))%nat -> forall y, y ∈ take n l -> P y = true.
Proof.
  intros Hs Hdown Hn y Hy. destruct (P y) eqn:Ey; [done|]. exfalso.
  rewrite <- (take_drop n l) in Hn, Hs. rewrite filter_app, length_app in Hn.
  assert (Hd : filter (fun a => P a = true) (drop n l) = []).
  { destruct (filter (fun a => P a = true) (drop n l)) as [|z zs] eqn:Ez; [done|]. exfalso.
    assert (Hz' : z ∈ filter (fun a => P a = true) (drop n l)) by (rewrite Ez; left).
    apply list_elem_of_filter in Hz' as [Hpz Hz].
    pose proof (sorted_app_inv _ _ y z Hs Hy Hz) as Hyz. rewrite (Hdown y z Hyz Hpz) in Ey. done. }
  rewrite Hd in Hn. cbn in Hn.
  assert (Hlt : (length (filter (fun a => P a = true) (take n l)) < length (take n l))%nat).
  { apply length_filter_lt with y; [done|by rewrite Ey]. }
  rewrite length_take in Hlt. lia.
Qed.

(** Insertion from the right end, on a reversed prefix. *)
Fixpoint insert_rev (x : A) (rp : list A) : list A :=
  match rp with
  | [] => [x]
  | a :: rest => if le a x then x :: a :: rest else a :: insert_rev x rest
  end.

Lemma insert_rev_perm x rp : insert_rev x rp ≡ₚ x :: rp.
Proof.
  induction rp as [|a rp IH]; cbn; [done|]. destruct (le a x); [done|]. rewrite IH. apply perm_swap.
Qed.

Lemma fold_insert_rev_perm l rp : fold_left (fun acc x => insert_rev x acc) l rp ≡ₚ l ++ rp.
Proof.
  revert rp. induction l as [|x l IH]; intros rp; cbn; [done|].
  rewrite IH, insert_rev_perm. by rewrite Permutation_middle.
Qed.

Abbreviation rsorted := (StronglySorted (fun a b => le b a = true)).

Lemma insert_rev_sorted x rp : rsorted rp -> rsorted (insert_rev x rp).
Proof.
  induction rp as [|a rp IH]; cbn; intros Hs; [by repeat constructor|].
  pose proof (StronglySorted_inv Hs) as [Hrp Ha].
  destruct (le a x) eqn:Eax.
  - constructor; [done|]. constructor; [done|]. eapply Forall_impl; [exact Ha|]. cbn. eauto.
  - constructor; [by apply IH|]. rewrite insert_rev_perm. constructor; [|done].
    destruct (le_total a x); congruence.
Qed.

Lemma fold_insert_rev_sorted l rp :
  rsorted rp -> rsorted (fold_left (fun acc x => insert_rev x acc) l rp).
Proof. revert rp. induction l as [|x l IH]; intros rp; cbn; [done|]. intros. by apply IH, insert_rev_sorted. Qed.

Lemma rsorted_reverse l : rsorted l -> sorted (reverse l).
Proof.
  induction 1 as [|a l _ IH Ha]; [constructor|]. rewrite reverse_cons.
  clear -IH Ha. assert (Ha' : Forall (fun b => le b a = true) (reverse l)) by (by apply Forall_reverse).
  revert IH Ha'. generalize (reverse l). clear. induction l as [|b l IHl]; cbn; intros Hs Ha; [by repeat constructor|].
  apply StronglySorted_inv in Hs as [Hs Hb]. apply Forall_cons in Ha as [Hba Ha].
  constructor; [by apply IHl|]. apply Forall_app. split; [done|by repeat constructor].
Qed.

Definition insertion_sort (l : list A) : list A := reverse (fold_left (fun acc x => insert_rev x acc) l []).

Lemma insertion_sort_perm l : insertion_sort l ≡ₚ l.
Proof. unfold insertion_sort. rewrite reverse_Permutation, fold_insert_rev_perm. by rewrite app_nil_r. Qed.

Lemma insertion_sort_sorted l : sorted (insertion_sort l).
Proof. apply rsorted_reverse, fold_insert_rev_sorted. constructor. Qed.
End Sorted.
