(* ===== verification/Domain.v ===== *)
(** * Domain types (internal/domain)

    Records for [Transaction], [Merchant] and [OnchainTransaction], the status
    constants (Go string types, so any string can flow through them) and
    [ValidateOrderID].  A [time.Time] is its distance to the Unix epoch in
    nanoseconds; Go's zero time is January 1 of year 1. *)

From S2P Require Import Prelude GoStrings.
Local Open Scope Z_scope.

Definition second : Z := 10 ^ 9.
Definition minute : Z := 60 * second.
Definition hour : Z := 60 * minute.

Definition zero_time : Z := - 62135596800 * second.
Definition IsZero (t : Z) : bool := t =? zero_time.
(** [t.Unix()]: whole seconds, rounded down. *)
Definition Unix (t : Z) : Z := t / second.

(** ** Transactions *)

Definition TransactionStatusCreated : string := "created".
Definition TransactionStatusPending : string := "pending".
Definition TransactionStatusPaid : string := "paid".
Definition TransactionStatusFailed : string := "failed".
Definition TransactionStatusExpired : string := "expired".
Definition TransactionStatusRefunded : string := "refunded".

Definition TransactionStatus_Valid (s : string) : bool :=
  bool_decide (s ∈ [TransactionStatusCreated; TransactionStatusPending; TransactionStatusPaid;
                    TransactionStatusFailed; TransactionStatusExpired; TransactionStatusRefunded]).

Record Transaction : Type := {
  t_MerchantID : string;
  t_TransactionID : string;
  t_OrderID : string;
  t_Amount : Z;
  t_Currency : string;
  t_Status : string;
  t_PaymentMethod : string;
  t_StripeSessionID : string;
  t_StripePaymentIntentID : string;
  t_CreatedAt : Z;
  t_UpdatedAt : Z;
  t_ShardIndex : Z;
}.

#[global] Instance Transaction_eq_dec : EqDecision Transaction.
Proof. solve_decision. Defined.

(** ** Merchants *)

Definition MerchantStatusActive : string := "active".
Definition MerchantStatusSuspended : string := "suspended".

Record Merchant : Type := {
  m_ID : Z;
  m_MerchantID : string;
  m_Name : string;
  m_APIKey : string;
  m_SecretKey : string;
  m_CallbackURL : string;
  m_RateLimit : Z;
  m_Status : string;
  m_ShardIndex : Z;
  m_CreatedAt : Z;
}.

#[global] Instance Merchant_eq_dec : EqDecision Merchant.
Proof. solve_decision. Defined.

(** ** On-chain transactions *)

Definition OnchainTxStatusPending : string := "pending".
Definition OnchainTxStatusConfirmed : string := "confirmed".
Definition OnchainTxStatusFailed : string := "failed".
Definition OnchainTxStatusReorged : string := "reorged".

(** [Amount] is a [*big.Int]: [None] is the nil pointer. *)
Record OnchainTransaction : Type := {
  o_ID : Z;
  o_TxHash : string;
  o_BlockNumber : Z;
  o_MerchantID : string;
  o_OrderID : string;
  o_Payer : string;
  o_Token : string;
  o_Amount : option Z;
  o_ChainID : Z;
  o_Confirmations : Z;
  o_RequiredConfirm : Z;
  o_Status : string;
  o_CreatedAt : Z;
}.

#[global] Instance OnchainTransaction_eq_dec : EqDecision OnchainTransaction.
Proof. solve_decision. Defined.

(** ** [ValidateOrderID] *)

Definition order_char (c : ascii) : bool :=
  between 65 90 c || between 97 122 c || between 48 57 c ||
  (Ascii.eqb c "." || Ascii.eqb c "_" || Ascii.eqb c ":" || Ascii.eqb c "-")%char.

(** The loop of [ValidateOrderID]: [None] when every byte is accepted,
    otherwise the index of the first rejected one. *)
Fixpoint bad_char (i : Z) (s : string) : option Z :=
  match s with
  | EmptyString => None
  | String c s' => if order_char c then bad_char (i + 1) s' else Some i
  end.

Definition ValidateOrderID (orderID : string) : result unit :=
  let n := len orderID in
  if (n =? 0) || (64 <? n) then Err (Wrap "length must be 1..64" (Sentinel ErrInvalidOrderID))
  else match bad_char 0 orderID with
       | Some _ => Err (Wrap "invalid char" (Sentinel ErrInvalidOrderID))
       | None => Ok tt
       end.

Lemma bad_char_None i s : bad_char i s = None <-> all_chars order_char s = true.
Proof.
  revert i. induction s as [|c s IH]; intros i; [done|]. cbn [bad_char all_chars].
  destruct (order_char c); [apply IH|done].
Qed.

(** What [ValidateOrderID] accepts, and that it has one error. *)
Lemma ValidateOrderID_Ok s :
  ValidateOrderID s = Ok tt <-> (1 <= len s <= 64 /\ all_chars order_char s = true).
Proof.
  unfold ValidateOrderID. pose proof (len_nonneg s).
  destruct (Z.eqb_spec (len s) 0); [split; [done|lia]|].
  destruct (Z.ltb_spec 64 (len s)); [split; [done|lia]|]. cbn [orb].
  rewrite <- (bad_char_None 0). destruct (bad_char 0 s); split; intros; try done.
  - by destruct_and!.
  - split; [lia|done].
Qed.

Lemma ValidateOrderID_Err s e : ValidateOrderID s = Err e -> errIs e ErrInvalidOrderID = true.
Proof. unfold ValidateOrderID. intros. go_cases; reflexivity. Qed.

Lemma ValidateOrderID_nonempty s : ValidateOrderID s = Ok tt -> s <> "".
Proof. intros [Hl _]%ValidateOrderID_Ok ->. change (len "") with 0 in Hl. lia. Qed.

(** An accepted order id survives in a URL path: no slash, question mark, hash
    sign, blank or control byte, and only ASCII. *)
Definition url_safe (c : ascii) : bool :=
  (32 <? code c) && (code c <? 127) &&
  negb (Ascii.eqb c "/" || Ascii.eqb c "?" || Ascii.eqb c "#" || Ascii.eqb c "%")%char.

Lemma order_char_url_safe c : order_char c = true -> url_safe c = true.
Proof. destruct c as [[] [] [] [] [] [] [] []]; intros H; vm_compute in H; try discriminate H; reflexivity. Qed.

Lemma all_chars_impl (P Q : ascii -> bool) s :
  (forall c, P c = true -> Q c = true) -> all_chars P s = true -> all_chars Q s = true.
Proof.
  intros HPQ. induction s as [|c s IH]; [done|]. cbn [all_chars].
  intros [Hc Hs]%andb_true_iff. by rewrite HPQ, IH.
Qed.
