(* ===== verification/Codec.v ===== *)
(** * The on-disk codec (internal/repository/codec.go)

    Status, payment method and currency are integer coded in the
    [transactions] table; ids are hex on the application side and raw bytes on
    disk.  The lookup tables are Go maps, modelled by [gmap]. *)

From S2P Require Import Prelude GoStrings Domain.
Local Open Scope Z_scope.

(** ** Status *)

Definition statusCreated : Z := 0.
Definition statusPending : Z := 1.
Definition statusPaid : Z := 2.
Definition statusFailed : Z := 3.
Definition statusExpired : Z := 4.
Definition statusRefunded : Z := 5.

Definition encodeStatus (s : string) : result Z :=
  if bool_decide (s = TransactionStatusCreated) then Ok statusCreated
  else if bool_decide (s = TransactionStatusPending) then Ok statusPending
  else if bool_decide (s = TransactionStatusPaid) then Ok statusPaid
  else if bool_decide (s = TransactionStatusFailed) then Ok statusFailed
  else if bool_decide (s = TransactionStatusExpired) then Ok statusExpired
  else if bool_decide (s = TransactionStatusRefunded) then Ok statusRefunded
  else Err (Text "encode status: unknown").

Definition decodeStatus (v : Z) : result string :=
  if v =? statusCreated then Ok TransactionStatusCreated
  else if v =? statusPending then Ok TransactionStatusPending
  else if v =? statusPaid then Ok TransactionStatusPaid
  else if v =? statusFailed then Ok TransactionStatusFailed
  else if v =? statusExpired then Ok TransactionStatusExpired
  else if v =? statusRefunded then Ok TransactionStatusRefunded
  else Err (Text "decode status: unknown").

(** ** Payment method *)

Definition methodCard : Z := 0.
Definition methodCryptoEth : Z := 1.
Definition methodWallet : Z := 2.
Definition methodBankTransfer : Z := 3.
Definition methodBNPLKlarna : Z := 4.
Definition methodBNPLAfterpay : Z := 5.
Definition methodBNPLAffirm : Z := 6.
Definition methodSEPA : Z := 7.
Definition methodACH : Z := 8.
Definition methodUnknown : Z := 9.

Definition methodToCode : gmap string Z := list_to_map [
  ("card", methodCard); ("crypto_eth", methodCryptoEth); ("wallet", methodWallet);
  ("bank_transfer", methodBankTransfer); ("klarna", methodBNPLKlarna);
  ("afterpay", methodBNPLAfterpay); ("affirm", methodBNPLAffirm);
  ("sepa_debit", methodSEPA); ("us_bank_account", methodACH)].

Definition codeToMethod : gmap Z string := list_to_map [
  (methodCard, "card"); (methodCryptoEth, "crypto_eth"); (methodWallet, "wallet");
  (methodBankTransfer, "bank_transfer"); (methodBNPLKlarna, "klarna");
  (methodBNPLAfterpay, "afterpay"); (methodBNPLAffirm, "affirm");
  (methodSEPA, "sepa_debit"); (methodACH, "us_bank_account"); (methodUnknown, "unknown")].

Definition decodeMethod (v : Z) : string := default "unknown" (codeToMethod !! v).

(** ** Currency: ISO 4217 numeric codes *)

Definition currencyToCode : gmap string Z := list_to_map [
  ("USD", 840); ("EUR", 978); ("GBP", 826); ("JPY", 392); ("CNY", 156); ("AUD", 36);
  ("CAD", 124); ("CHF", 756); ("HKD", 344); ("IDR", 360); ("INR", 356); ("KRW", 410);
  ("MYR", 458); ("NZD", 554); ("PHP", 608); ("SGD", 702); ("THB", 764); ("TWD", 901);
  ("VND", 704)].

(** The inverse map, filled by ranging over [currencyToCode]. *)
Definition codeToCurrency : gmap Z string :=
  list_to_map (prod_swap <$> map_to_list currencyToCode).

Definition decodeCurrency (v : Z) : result string :=
  match codeToCurrency !! v with
  | Some s => Ok s
  | None => Err (Text "decode currency: unknown numeric")
  end.

Section Encoders.
Context `{Unicode}.

Definition encodeMethod (s : string) : Z := default methodUnknown (methodToCode !! ToLower s).

Definition encodeCurrency (s : string) : result Z :=
  match currencyToCode !! ToUpper s with
  | Some v => Ok v
  | None => Err (Text "encode currency: unknown")
  end.
End Encoders.

(** ** Ids *)

Definition decodeHex16 (s : string) : result string :=
  if negb (len s =? 32) then Err (Text "hex16: want 32 chars")
  else match hexDecode s with
       | Some b => Ok b
       | None => Err (Wrap "hex16" (Text "encoding/hex: invalid byte"))
       end.

(** The repository's own printer (transaction_repo.go): a table lookup on the
    two halves of each byte. *)
Definition hexTable : string := "0123456789abcdef".

Fixpoint hexLower (b : string) : string :=
  match b with
  | EmptyString => ""
  | String v b' =>
      let digit n := default "0"%char (String.get (Z.to_nat n) hexTable) in
      String (digit (Z.shiftr (code v) 4)) (String (digit (Z.land (code v) 15)) (hexLower b'))
  end.

(** ** Lemmas *)

Lemma decodeStatus_encodeStatus s v : encodeStatus s = Ok v -> decodeStatus v = Ok s.
Proof.
  unfold encodeStatus. repeat case_bool_decide; intros [= <-]; subst; reflexivity.
Qed.

Lemma encodeStatus_decodeStatus v s : decodeStatus v = Ok s -> encodeStatus s = Ok v.
Proof.
  unfold decodeStatus.
  repeat match goal with |- context [if ?a =? ?b then _ else _] => destruct (Z.eqb_spec a b) end;
    intros [= <-]; subst; reflexivity.
Qed.

Lemma encodeStatus_Valid s : is_ok (encodeStatus s) = TransactionStatus_Valid s.
Proof.
  unfold encodeStatus, TransactionStatus_Valid.
  repeat (case_bool_decide; subst; [reflexivity|]). cbn [is_ok].
  symmetry. apply bool_decide_false. intros Hin.
  rewrite !elem_of_cons, elem_of_nil in Hin. tauto.
Qed.

Lemma encodeStatus_range s v : encodeStatus s = Ok v -> 0 <= v <= 5.
Proof. unfold encodeStatus. repeat case_bool_decide; intros [= <-]; vm_compute; split; congruence. Qed.


(** A decidable fact about every entry of a concrete map, checked by
    evaluation. *)
Lemma table_forall {K A} `{Countable K} (f : K -> A -> bool) (m : gmap K A) k x :
  m !! k = Some x -> List.forallb (fun p => f p.1 p.2) (map_to_list m) = true -> f k x = true.
Proof.
  intros Hk Hd. rewrite List.forallb_forall in Hd. apply (Hd (k, x)).
  by apply list_elem_of_In, elem_of_map_to_list.
Qed.

Ltac by_table f :=
  intros Hl; apply (table_forall f) in Hl; [|vm_compute; reflexivity];
  apply bool_decide_eq_true_1 in Hl; exact Hl.

Lemma method_table s v : methodToCode !! s = Some v -> codeToMethod !! v = Some s.
Proof.
  by_table (fun s v => bool_decide (codeToMethod !! v = Some s)).
Qed.

Lemma currency_table s v : currencyToCode !! s = Some v -> codeToCurrency !! v = Some s.
Proof.
  by_table (fun s v => bool_decide (codeToCurrency !! v = Some s)).
Qed.

Lemma currency_table_inv v s : codeToCurrency !! v = Some s -> currencyToCode !! s = Some v.
Proof.
  by_table (fun v s => bool_decide (currencyToCode !! s = Some v)).
Qed.

(** The column of [currency_code] is SMALLINT UNSIGNED. *)
Lemma currency_code_range s v : currencyToCode !! s = Some v -> 0 <= v < 65536.
Proof. by_table (fun (_ : string) v => bool_decide (0 <= v < 65536)). Qed.

Lemma currency_ascii_upper s v :
  currencyToCode !! s = Some v -> isASCII s = true /\ smap upper s = s.
Proof. by_table (fun s (_ : Z) => bool_decide (isASCII s = true /\ smap upper s = s)). Qed.

Lemma decodeCurrency_inv v s : decodeCurrency v = Ok s <-> currencyToCode !! s = Some v.
Proof.
  unfold decodeCurrency. split.
  - destruct (codeToCurrency !! v) eqn:E; [|done]. intros [= <-]. by apply currency_table_inv.
  - by intros ->%currency_table.
Qed.

(** A supported currency is its own upper-case form, so it compares equal to
    itself under [EqualFold] and is a fixed point of [ToUpper]. *)
Lemma decodeCurrency_upper `{Unicode} v s :
  decodeCurrency v = Ok s -> isASCII s = true /\ ToUpper s = s.
Proof.
  intros [Ha Hu]%decodeCurrency_inv%currency_ascii_upper. unfold ToUpper. by rewrite Ha.
Qed.

Section EncoderLemmas.
Context `{Unicode}.

Lemma encodeCurrency_decode s v : encodeCurrency s = Ok v -> decodeCurrency v = Ok (ToUpper s).
Proof.
  unfold encodeCurrency. destruct (currencyToCode !! ToUpper s) eqn:E; [|done].
  intros [= <-]. by apply decodeCurrency_inv.
Qed.

Lemma decodeCurrency_encode v s : decodeCurrency v = Ok s -> encodeCurrency s = Ok v.
Proof.
  intros Hd. destruct (decodeCurrency_upper v s Hd) as [_ Hu].
  unfold encodeCurrency. rewrite Hu. by rewrite (proj1 (decodeCurrency_inv v s) Hd).
Qed.

Lemma encodeCurrency_range s v : encodeCurrency s = Ok v -> 0 <= v < 65536.
Proof.
  unfold encodeCurrency. destruct (currencyToCode !! ToUpper s) eqn:E; [|done].
  intros [= <-]. by eapply currency_code_range.
Qed.

(** A supported method comes back in lower case; any other is stored as
    "unknown". *)
Lemma decodeMethod_encodeMethod s :
  decodeMethod (encodeMethod s) =
  if bool_decide (is_Some (methodToCode !! ToLower s)) then ToLower s else "unknown".
Proof.
  unfold encodeMethod, decodeMethod. destruct (methodToCode !! ToLower s) as [v|] eqn:E; simpl.
  - by rewrite (method_table _ _ E).
  - reflexivity.
Qed.

Lemma encodeMethod_range s : 0 <= encodeMethod s <= 9.
Proof.
  unfold encodeMethod. destruct (methodToCode !! ToLower s) as [v|] eqn:E; simpl; [|vm_compute; split; congruence].
  revert E. by_table (fun (_ : string) v => bool_decide (0 <= v <= 9)).
Qed.
End EncoderLemmas.

(** The table printer is [hex.EncodeToString]. *)
Lemma hexLower_hexEncode b : hexLower b = hexEncode b.
Proof.
  induction b as [|v b IH]; [done|]. cbn [hexLower hexEncode]. rewrite IH.
  assert (Hn : forall n, 0 <= n < 16 ->
      default "0"%char (String.get (Z.to_nat n) hexTable) = hexdigit n).
  { intros n Hn. assert (Hz : In n (Z.of_nat <$> seq 0 16)).
    { apply list_elem_of_In, list_elem_of_fmap. exists (Z.to_nat n).
      split; [lia|]. apply elem_of_seq. lia. }
    cbn in Hz. repeat destruct Hz as [<-|Hz]; [reflexivity..|done]. }
  pose proof (code_range v). f_equal; [apply Hn|f_equal; apply Hn].
  - rewrite Z.shiftr_div_pow2 by lia. split; [apply Z.div_pos; lia|apply Z.div_lt_upper_bound; lia].
  - change 15 with (Z.ones 4). rewrite Z.land_ones by lia. apply Z.mod_pos_bound. lia.
Qed.

Lemma decodeHex16_Ok s b :
  decodeHex16 s = Ok b -> String.length b = 16%nat /\ hexLower b = smap lower s.
Proof.
  unfold decodeHex16. destruct (Z.eqb_spec (len s) 32) as [Hl|]; [|done]. cbn [negb].
  destruct (hexDecode s) as [b'|] eqn:E; [|done]. intros [= <-].
  rewrite hexLower_hexEncode. split; [|by apply hexEncode_decode].
  apply hexDecode_length in E. unfold len in Hl. lia.
Qed.

Lemma decodeHex16_encode b : String.length b = 16%nat -> decodeHex16 (hexEncode b) = Ok b.
Proof.
  intros Hl. unfold decodeHex16, len. rewrite hexEncode_length, Hl. simpl.
  by rewrite hexDecode_encode.
Qed.

(** Two ids that decode to the same bytes are equal up to letter case. *)
Lemma decodeHex16_inj s t b : decodeHex16 s = Ok b -> decodeHex16 t = Ok b -> smap lower s = smap lower t.
Proof. intros [_ <-]%decodeHex16_Ok [_ <-]%decodeHex16_Ok. done. Qed.

#[global] Opaque methodToCode codeToMethod currencyToCode codeToCurrency.
