(* ===== verification/Config.v ===== *)
(** * Configuration (internal/config/config.go)

    The loader's raw view of the YAML file, the defaults applied by
    [toConfig] and the checks of [validate].  Decoding YAML is the work of
    gopkg.in/yaml.v3 and is not modelled: [Load] starts from the decoded
    [rawConfig].  [time.ParseDuration] is a parameter. *)

From S2P Require Import Prelude GoStrings Domain.
Local Open Scope Z_scope.

(** ** Configuration records *)

Record AppConfig : Type := {
  app_Env : string;
  app_Port : Z;
  app_LogLevel : string;
  app_PublicBaseURL : string;
  app_LazyCheckout : bool;
  app_CheckoutTokenSecret : string;
  app_CheckoutTokenTTL : Z;
  app_StripeRateLimit : Z;
  app_CheckoutDefaultSuccessURL : string;
  app_CheckoutDefaultCancelURL : string;
  app_LogicalShardCount : Z;
}.

Record ShardDBConfig : Type := {
  sh_DSN : string;
  sh_MaxOpenConns : Z;
  sh_MaxIdleConns : Z;
}.

Record DBConfig : Type := {
  db_DSN : string;
  db_MaxOpenConns : Z;
  db_MaxIdleConns : Z;
  db_Shards : list ShardDBConfig;
}.

Record RedisConfig : Type := { rd_Addr : string; rd_Password : string; rd_DB : Z }.

Record KafkaConfig : Type := {
  kf_Brokers : list string;
  kf_TopicConfirmed : string;
  kf_TopicDLQ : string;
  kf_ConsumerGroup : string;
}.

Record StripeConfig : Type := {
  st_SecretKey : string;
  st_PublishableKey : string;
  st_WebhookSecret : string;
  st_APIVersion : string;
  st_DefaultCurrency : string;
  st_Mode : string;
}.

Record BlockchainConfig : Type := {
  bc_RPCWebsocket : string;
  bc_RPCHTTP : string;
  bc_ContractAddress : string;
  bc_ChainID : Z;
  bc_RequiredConfirmations : Z;
  bc_StartBlock : Z;
}.

Record SecurityConfig : Type := {
  sec_HMACSecret : string;
  sec_HMACTimestampSkew : Z;
  sec_AdminAPIKey : string;
}.

Record Config : Type := {
  App : AppConfig;
  DB : DBConfig;
  Redis : RedisConfig;
  Kafka : KafkaConfig;
  Stripe : StripeConfig;
  Blockchain : BlockchainConfig;
  Security : SecurityConfig;
}.

(** ** The decoded YAML document *)

Record rawAppConfig : Type := {
  rapp_Env : string;
  rapp_Port : Z;
  rapp_LogLevel : string;
  rapp_PublicBaseURL : string;
  rapp_LazyCheckout : bool;
  rapp_CheckoutTokenSecret : string;
  rapp_CheckoutTokenTTL : string;
  rapp_StripeRateLimit : Z;
  rapp_CheckoutDefaultSuccessURL : string;
  rapp_CheckoutDefaultCancelURL : string;
  rapp_LogicalShardCount : Z;
}.

Record rawShardDBConfig : Type := {
  rsh_DSN : string;
  rsh_MaxOpenConns : Z;
  rsh_MaxIdleConns : Z;
}.

Record rawDBConfig : Type := {
  rdb_DSN : string;
  rdb_MaxOpenConns : Z;
  rdb_MaxIdleConns : Z;
  rdb_Shards : list rawShardDBConfig;
}.

Record rawBlockchainConfig : Type := {
  rbc_RPCWebsocket : string;
  rbc_RPCHTTP : string;
  rbc_ContractAddress : string;
  rbc_ChainID : Z;
  rbc_RequiredConfirmations : Z;
  rbc_StartBlock : Z;
}.

Record rawSecurityConfig : Type := {
  rsec_HMACSecret : string;
  rsec_HMACTimestampSkew : string;
  rsec_AdminAPIKey : string;
}.

Record rawRedisConfig : Type := {
  rrd_Addr : string;
  rrd_Password : string;
  rrd_DB : Z;
}.

Record rawKafkaConfig : Type := {
  rkf_Brokers : list string;
  rkf_TopicConfirmed : string;
  rkf_TopicDLQ : string;
  rkf_ConsumerGroup : string;
}.

Record rawStripeConfig : Type := {
  rst_SecretKey : string;
  rst_PublishableKey : string;
  rst_WebhookSecret : string;
  rst_APIVersion : string;
  rst_DefaultCurrency : string;
  rst_Mode : string;
}.

Record rawConfig : Type := {
  rApp : rawAppConfig;
  rDB : rawDBConfig;
  rRedis : rawRedisConfig;
  rKafka : rawKafkaConfig;
  rStripe : rawStripeConfig;
  rBlockchain : rawBlockchainConfig;
  rSecurity : rawSecurityConfig;
}.

(** ** Defaults *)

Definition stringDefault (v def : string) : string := if bool_decide (v = "") then def else v.
Definition intDefault (v def : Z) : Z := if v =? 0 then def else v.
Definition int64Default (v def : Z) : Z := if v =? 0 then def else v.
Definition sliceDefault (v def : list string) : list string :=
  match v with [] => def | _ => v end.

Definition toShardDBConfigs (rs : list rawShardDBConfig) : list ShardDBConfig :=
  (fun s => {| sh_DSN := rsh_DSN s; sh_MaxOpenConns := rsh_MaxOpenConns s;
               sh_MaxIdleConns := rsh_MaxIdleConns s |}) <$> rs.

Definition nonNegUint64 (v : Z) : Z := if v <? 0 then 0 else u64 v.

Definition shardCount (v : Z) : Z :=
  if v <? 1 then 1 else if 255 <? v then 255 else u8 v.

(** [strings.TrimRight(s, "/")]. *)
Fixpoint trim_slashes (s : string) : string :=
  match s with
  | EmptyString => ""
  | String c s' =>
      match trim_slashes s' with
      | EmptyString => if Ascii.eqb c "/" then "" else String c ""
      | t => String c t
      end
  end.

Section Load.
Variable ParseDuration : string -> result Z.

Definition parseDurationDefault (v : string) (def : Z) : result Z :=
  if bool_decide (v = "") then Ok def
  else match ParseDuration v with Ok d => Ok d | Err e => Err e end.

Definition toConfig (r : rawConfig) : result Config :=
  let a := rApp r in
  let publicBase := trim_slashes (stringDefault (rapp_PublicBaseURL a) "http://localhost:8080") in
  (try! tokenTTL := parseDurationDefault (rapp_CheckoutTokenTTL a) (24 * hour)
     else Wrap "app.checkout_token_ttl" in
   try! hmacSkew := parseDurationDefault (rsec_HMACTimestampSkew (rSecurity r)) (5 * minute)
     else Wrap "security.hmac_timestamp_skew" in
   Ok {|
     App := {|
       app_Env := stringDefault (rapp_Env a) "development";
       app_Port := intDefault (rapp_Port a) 8080;
       app_LogLevel := stringDefault (rapp_LogLevel a) "info";
       app_PublicBaseURL := publicBase;
       app_LazyCheckout := rapp_LazyCheckout a;
       app_CheckoutTokenSecret := rapp_CheckoutTokenSecret a;
       app_CheckoutTokenTTL := tokenTTL;
       app_StripeRateLimit := intDefault (rapp_StripeRateLimit a) 80;
       app_CheckoutDefaultSuccessURL :=
         stringDefault (rapp_CheckoutDefaultSuccessURL a) (publicBase +:+ "/checkout/success");
       app_CheckoutDefaultCancelURL :=
         stringDefault (rapp_CheckoutDefaultCancelURL a) (publicBase +:+ "/checkout/cancel");
       app_LogicalShardCount := shardCount (intDefault (rapp_LogicalShardCount a) 16) |};
     DB := {|
       db_DSN := rdb_DSN (rDB r);
       db_MaxOpenConns := intDefault (rdb_MaxOpenConns (rDB r)) 100;
       db_MaxIdleConns := intDefault (rdb_MaxIdleConns (rDB r)) 25;
       db_Shards := toShardDBConfigs (rdb_Shards (rDB r)) |};
     Redis := {|
       rd_Addr := stringDefault (rrd_Addr (rRedis r)) "localhost:6379";
       rd_Password := rrd_Password (rRedis r);
       rd_DB := rrd_DB (rRedis r) |};
     Kafka := {|
       kf_Brokers := sliceDefault (rkf_Brokers (rKafka r)) ["localhost:9092"];
       kf_TopicConfirmed := stringDefault (rkf_TopicConfirmed (rKafka r)) "payment.confirmed";
       kf_TopicDLQ := stringDefault (rkf_TopicDLQ (rKafka r)) "payment.confirmed.dlq";
       kf_ConsumerGroup := stringDefault (rkf_ConsumerGroup (rKafka r)) "payment-engine" |};
     Stripe := {|
       st_SecretKey := rst_SecretKey (rStripe r);
       st_PublishableKey := rst_PublishableKey (rStripe r);
       st_WebhookSecret := rst_WebhookSecret (rStripe r);
       st_APIVersion := stringDefault (rst_APIVersion (rStripe r)) "2024-06-20";
       st_DefaultCurrency := stringDefault (rst_DefaultCurrency (rStripe r)) "USD";
       st_Mode := stringDefault (rst_Mode (rStripe r)) "live" |};
     Blockchain := {|
       bc_RPCWebsocket := rbc_RPCWebsocket (rBlockchain r);
       bc_RPCHTTP := rbc_RPCHTTP (rBlockchain r);
       bc_ContractAddress := rbc_ContractAddress (rBlockchain r);
       bc_ChainID := int64Default (rbc_ChainID (rBlockchain r)) 11155111;
       bc_RequiredConfirmations :=
         nonNegUint64 (int64Default (rbc_RequiredConfirmations (rBlockchain r)) 12);
       bc_StartBlock := nonNegUint64 (rbc_StartBlock (rBlockchain r)) |};
     Security := {|
       sec_HMACSecret := rsec_HMACSecret (rSecurity r);
       sec_HMACTimestampSkew := hmacSkew;
       sec_AdminAPIKey := rsec_AdminAPIKey (rSecurity r) |} |})%easypay.

Definition validate (c : Config) : result unit :=
  let shards := db_Shards (DB c) in
  let n := Z.of_nat (length shards) in
  let L := app_LogicalShardCount (App c) in
  if (n =? 0) && bool_decide (db_DSN (DB c) = "") then Err (Text "db.dsn or db.shards is required")
  else if List.existsb (fun s => bool_decide (sh_DSN s = "")) shards
  then Err (Text "db.shards[].dsn is required")
  else if (0 <? n) && (L <? n)
  then Err (Text "app.logical_shard_count must be >= len(db.shards)")
  else if (0 <? n) && negb (Z.rem L n =? 0)
  then Err (Text "app.logical_shard_count must be divisible by len(db.shards)")
  else if (app_Port (App c) <=? 0) || (65535 <? app_Port (App c))
  then Err (Text "invalid app.port")
  else if len (sec_HMACSecret (Security c)) <? 16
  then Err (Text "security.hmac_secret must be at least 16 chars")
  else if bool_decide (st_Mode (Stripe c) = "live") then
    if bool_decide (st_SecretKey (Stripe c) = "")
    then Err (Text "stripe.secret_key required when stripe.mode=live")
    else if bool_decide (st_WebhookSecret (Stripe c) = "")
    then Err (Text "stripe.webhook_secret required when stripe.mode=live")
    else Ok tt
  else if bool_decide (st_Mode (Stripe c) = "fake") then Ok tt
  else Err (Text "invalid stripe.mode").

(** [Load] after the YAML document has been read and decoded. *)
Definition Load (path : string) (decoded : result rawConfig) : result Config :=
  if bool_decide (path = "") then Err (Text "config path is empty")
  else
    (try! raw := decoded else Wrap "parse config" in
     try! cfg := toConfig raw else Wrap "config" in
     try! _ok := validate cfg else (fun e => e) in
     Ok cfg)%easypay.

(** ** Lemmas *)

Lemma shardCount_range v : 1 <= shardCount v <= 255.
Proof.
  unfold shardCount, u8. destruct (Z.ltb_spec v 1); [lia|].
  destruct (Z.ltb_spec 255 v); [lia|]. rewrite Z.mod_small; lia.
Qed.

Lemma nonNegUint64_range v : int64_range v -> uint64_range (nonNegUint64 v) /\ nonNegUint64 v = Z.max 0 v.
Proof.
  unfold int64_range, uint64_range, nonNegUint64, u64. intros Hv.
  destruct (Z.ltb_spec v 0); [lia|]. rewrite Z.mod_small; lia.
Qed.

(** What the rest of the program may rely on after start-up. *)
Record config_ok (c : Config) : Prop := {
  cfg_logical : 1 <= app_LogicalShardCount (App c) <= 255;
  cfg_shards : db_Shards (DB c) <> [] ->
    Z.of_nat (length (db_Shards (DB c))) <= app_LogicalShardCount (App c) /\
    (Z.of_nat (length (db_Shards (DB c))) | app_LogicalShardCount (App c));
  cfg_dsn : Forall (fun s => sh_DSN s <> "") (db_Shards (DB c));
  cfg_single : db_Shards (DB c) = [] -> db_DSN (DB c) <> "";
  cfg_port : 1 <= app_Port (App c) <= 65535;
  cfg_secret : 16 <= len (sec_HMACSecret (Security c));
  cfg_mode : st_Mode (Stripe c) = "fake" \/
    st_Mode (Stripe c) = "live" /\ st_SecretKey (Stripe c) <> "" /\ st_WebhookSecret (Stripe c) <> "";
}.

Lemma toConfig_logical r c : toConfig r = Ok c -> 1 <= app_LogicalShardCount (App c) <= 255.
Proof.
  unfold toConfig. destruct (parseDurationDefault _ _); [|done].
  destruct (parseDurationDefault _ _); [|done]. intros [= <-]. apply shardCount_range.
Qed.

Lemma validate_ok c :
  1 <= app_LogicalShardCount (App c) <= 255 -> validate c = Ok tt -> config_ok c.
Proof.
  intros HL. unfold validate. set (n := Z.of_nat (length _)). intros Hv.
  destruct ((n =? 0) && _) eqn:E1; [done|].
  destruct (List.existsb _ _) eqn:E2; [done|].
  destruct ((0 <? n) && (_ <? n)) eqn:E3; [done|].
  destruct ((0 <? n) && negb _) eqn:E4; [done|].
  destruct (_ || _) eqn:E5; [done|].
  destruct (len _ <? 16) eqn:E6; [done|].
  assert (Hn : db_Shards (DB c) <> [] -> 0 < n).
  { unfold n. destruct (db_Shards (DB c)); simpl; [done|lia]. }
  split; [done| | | |lia|lia|].
  - intros Hne. specialize (Hn Hne). fold n. split; [lia|].
    apply Z.rem_divide; lia.
  - apply List.Forall_forall. intros s Hs Hd.
    apply Bool.not_true_iff_false in E2. apply E2.
    apply List.existsb_exists. exists s. split; [done|]. by apply bool_decide_eq_true_2.
  - intros Hnil Hd. unfold n in E1. rewrite Hnil, Hd in E1. done.
  - repeat case_bool_decide; simplify_eq; auto.
Qed.
End Load.

(** C38. A configuration that [Load] returns satisfies every start-up
    invariant: the logical shard count is in 1..255 and is a multiple of the
    number of physical shards, every DSN is set, the port and the HMAC secret
    are in range, and live mode has both Stripe secrets. *)
Theorem Load_config_ok ParseDuration path decoded c :
  Load ParseDuration path decoded = Ok c -> config_ok c.
Proof.
  unfold Load. destruct (bool_decide _); [done|].
  destruct decoded as [raw|]; [|done].
  destruct (toConfig _ raw) as [cfg|] eqn:Et; [|done].
  destruct (validate cfg) as [[]|] eqn:Ev; [|done]. intros [= <-].
  apply validate_ok; [by eapply toConfig_logical|done].
Qed.
