(* ===== verification/ShardRouter.v ===== *)
(** * Shard routing (internal/repository/shard_router.go, mysql.go)

    A [*sql.DB] is a pool handle.  The router is built by [OpenShards] from
    the configuration and maps a logical shard index to a handle; the
    repository inverts the mapping with [physicalToFirstLogical]
    (transaction_repo.go).  Opening a pool is done by database/sql and the
    MySQL driver: [sqlOpen] and [ping] are parameters. *)

From S2P Require Import Prelude GoStrings Domain Config.
Local Open Scope Z_scope.

Abbreviation handle := nat.

Record multiShardRouter : Type := {
  pools : list handle;
  logicalToDB : list handle;
  logicalCount : Z;
}.

(** ** Building the table *)

(** [int(i) * n / int(logicalCount)] *)
Definition physical (n L : Z) (i : Z) : Z := Z.quot (i * n) L.

(** The routing table; [None] is the index-out-of-range panic of
    [pools[physical]]. *)
Definition buildTable (ps : list handle) (L : Z) : option (list handle) :=
  mapM (fun i : nat => ps !! Z.to_nat (physical (Z.of_nat (length ps)) L (Z.of_nat i)))
       (seq 0 (Z.to_nat L)).

(** [withClientFoundRows]: make the driver report matched rows. *)
Definition withClientFoundRows (dsn : string) : string :=
  if bool_decide (dsn = "") || Contains dsn "clientFoundRows=" then dsn
  else dsn +:+ (if Contains dsn "?" then "&" else "?") +:+ "clientFoundRows=true".

Section OpenShards.
Variable sqlOpen : string -> Z -> Z -> result handle.
Variable ping : handle -> result unit.

(** [openPool] returns the pool, or an error together with the handle it
    closed (a pool that opened but did not answer the ping). *)
Definition openPool (dsn : string) (maxOpen maxIdle : Z) : result handle * list handle :=
  match sqlOpen (withClientFoundRows dsn) maxOpen maxIdle with
  | Err e => (Err (Wrap "open mysql" e), [])
  | Ok db =>
      match ping db with
      | Err e => (Err (Wrap "ping mysql" e), [db])
      | Ok _ => (Ok db, [])
      end
  end.

(** One shard of the loop, with the connection caps that fall back to the
    cluster-wide ones. *)
Definition openShard (cfg : DBConfig) (sc : ShardDBConfig) : result handle * list handle :=
  let open := intDefault (sh_MaxOpenConns sc) (db_MaxOpenConns cfg) in
  let idle := intDefault (sh_MaxIdleConns sc) (db_MaxIdleConns cfg) in
  openPool (sh_DSN sc) open idle.

(** The opening loop: the pools opened so far, and on failure the list of
    handles that were closed. *)
Fixpoint openAll (cfg : DBConfig) (scs : list ShardDBConfig) (opened : list handle)
    : result (list handle) * list handle :=
  match scs with
  | [] => (Ok opened, [])
  | sc :: rest =>
      match openShard cfg sc with
      | (Ok db, _) => openAll cfg rest (opened ++ [db])
      | (Err e, closed) => (Err (Wrap "shard" e), closed ++ opened)
      end
  end.

(** The shard list, with the single-DSN form as one pool. *)
Definition shardConfigs (cfg : DBConfig) : list ShardDBConfig :=
  match db_Shards cfg with
  | [] => [{| sh_DSN := db_DSN cfg; sh_MaxOpenConns := db_MaxOpenConns cfg;
              sh_MaxIdleConns := db_MaxIdleConns cfg |}]
  | scs => scs
  end.

(** [None] is a panic; the list holds the handles closed on the way. *)
Definition OpenShards (cfg : DBConfig) (L : Z) : option (result multiShardRouter * list handle) :=
  if L =? 0 then Some (Err (Text "logicalCount must be > 0"), [])
  else
    let scs := shardConfigs cfg in
    let n := Z.of_nat (length scs) in
    if L <? n then Some (Err (Text "logical_shard_count < len(shards)"), [])
    else if negb (Z.rem L n =? 0)
    then Some (Err (Text "logical_shard_count not divisible by len(shards)"), [])
    else
      match openAll cfg scs [] with
      | (Err e, closed) => Some (Err e, closed)
      | (Ok ps, _) =>
          match buildTable ps L with
          | None => None
          | Some tbl => Some (Ok {| pools := ps; logicalToDB := tbl; logicalCount := L |}, [])
          end
      end.
End OpenShards.

(** [NewSingleShardRouter] *)
Definition NewSingleShardRouter (db : handle) (L : Z) : multiShardRouter :=
  let L' := if L =? 0 then 1 else L in
  {| pools := [db]; logicalToDB := replicate (Z.to_nat L') db; logicalCount := L' |}.

(** ** Operations *)

Definition For (r : multiShardRouter) (shardIndex : Z) : option (result handle) :=
  if logicalCount r <=? shardIndex then Some (Err (Wrap "" (Sentinel ErrUnknownShard)))
  else Ok <$> logicalToDB r !! Z.to_nat shardIndex.

Definition All (r : multiShardRouter) : list handle := pools r.
Definition Control (r : multiShardRouter) : option handle := head (pools r).
Definition LogicalCount (r : multiShardRouter) : Z := logicalCount r.

(** [Close]: every pool is closed, whatever happens; the first error is
    returned. *)
Section Close.
Context {X : Type}.
Variable db_Close : handle -> ST X (result unit).

Fixpoint closePools (ps : list handle) (firstErr : option error) : ST X (result unit) :=
  match ps with
  | [] => ret (match firstErr with Some e => Err e | None => Ok tt end)
  | db :: rest =>
      (let! r := db_Close db in
       closePools rest (match r, firstErr with Err e, None => Some e | _, _ => firstErr end))%easypay
  end.

Definition Close (r : multiShardRouter) : ST X (result unit) := closePools (pools r) None.
End Close.

(** [physicalToFirstLogical] of transaction_repo.go, with its uint8 cast. *)
Definition physicalToFirstLogical (r : multiShardRouter) (physicalCount : Z) : list Z :=
  let per := Z.quot (LogicalCount r) physicalCount in
  (fun i : nat => u8 (Z.of_nat i * per)) <$> seq 0 (Z.to_nat physicalCount).

(** ** The range partition *)

(** What [OpenShards] establishes: [n] pools share [L] logical shards in equal
    consecutive ranges. *)
Record router_ok (r : multiShardRouter) : Prop := {
  ro_count : 1 <= logicalCount r <= 255;
  ro_pools : pools r <> [];
  ro_div : (Z.of_nat (length (pools r)) | logicalCount r);
  ro_table : buildTable (pools r) (logicalCount r) = Some (logicalToDB r);
}.

(** Logical shards per pool. *)
Definition per (r : multiShardRouter) : Z := logicalCount r / Z.of_nat (length (pools r)).

Lemma physical_div n L i : 0 < n -> 0 < L -> (n | L) -> 0 <= i -> physical n L i = i / (L / n).
Proof.
  intros Hn HL [k ->] Hi. unfold physical.
  rewrite Z.div_mul by lia. rewrite Z.quot_div_nonneg by nia.
  by rewrite Z.div_mul_cancel_r by nia.
Qed.

Lemma physical_range n L i : 0 < n -> 0 <= i < L -> 0 <= physical n L i < n.
Proof.
  intros Hn Hi. unfold physical. rewrite Z.quot_div_nonneg by nia. split.
  - apply Z.div_pos; nia.
  - apply Z.div_lt_upper_bound; nia.
Qed.

Lemma buildTable_total ps L : ps <> [] -> 1 <= L -> exists tbl, buildTable ps L = Some tbl.
Proof.
  intros Hps HL. unfold buildTable. apply mapM_is_Some. apply Forall_forall.
  intros i Hi%elem_of_seq. apply lookup_lt_is_Some.
  assert (Hn : 0 < Z.of_nat (length ps)) by (destruct ps; [done|simpl; lia]).
  pose proof (physical_range (Z.of_nat (length ps)) L (Z.of_nat i) Hn ltac:(lia)). lia.
Qed.

Lemma buildTable_lookup ps L tbl (i : nat) :
  buildTable ps L = Some tbl -> Z.of_nat i < L ->
  tbl !! i = ps !! Z.to_nat (physical (Z.of_nat (length ps)) L (Z.of_nat i)).
Proof.
  unfold buildTable. intros Hm%mapM_Some Hi.
  destruct (tbl !! i) as [h|] eqn:Eh.
  - destruct (Forall2_lookup_r _ _ _ _ _ Hm Eh) as (j & Ej & Hj).
    apply lookup_seq in Ej as [-> _]. cbn in Hj. by rewrite Hj.
  - apply lookup_ge_None in Eh. apply Forall2_length in Hm. rewrite length_seq in Hm. lia.
Qed.

Section Router.
Context (r : multiShardRouter) (Hr : router_ok r).
Local Abbreviation n := (Z.of_nat (length (pools r))).
Local Abbreviation L := (logicalCount r).

Lemma router_n_pos : 0 < n.
Proof. destruct Hr. destruct (pools r); [done|simpl; lia]. Qed.

Lemma router_per : L = per r * n /\ 0 < per r.
Proof.
  pose proof router_n_pos. destruct Hr as [HL _ [k Hk] _]. unfold per. rewrite Hk at 1 2 3.
  rewrite Z.div_mul by lia. nia.
Qed.

(** Total on valid indices, and the pool is the one of the index's range. *)
Lemma For_in_range s :
  0 <= s < L -> exists h, For r s = Some (Ok h) /\ pools r !! Z.to_nat (s / per r) = Some h.
Proof.
  intros Hs. pose proof router_n_pos as Hn. destruct Hr as [HL Hps Hdiv Htbl].
  pose proof (physical_range n L s Hn Hs) as Hp.
  assert (HL0 : 0 < L) by lia.
  rewrite (physical_div n L s Hn HL0 Hdiv ltac:(lia)) in Hp. fold (per r) in Hp.
  destruct (lookup_lt_is_Some_2 (pools r) (Z.to_nat (s / per r))) as [h Hh]; [lia|].
  exists h. split; [|done]. unfold For. destruct (Z.leb_spec L s); [lia|].
  rewrite (buildTable_lookup _ _ _ (Z.to_nat s) Htbl) by lia.
  rewrite Z2Nat.id, (physical_div n L s Hn HL0 Hdiv) by lia. fold (per r). by rewrite Hh.
Qed.

Lemma For_out_of_range s : L <= s -> exists e, For r s = Some (Err e) /\ errIs e ErrUnknownShard = true.
Proof. intros Hs. unfold For. destruct (Z.leb_spec L s); [|lia]. eexists. split; reflexivity. Qed.

(** The inverse used by the scatter-gather reads. *)
Lemma physicalToFirstLogical_lookup (i : nat) :
  Z.of_nat i < n -> physicalToFirstLogical r n !! i = Some (Z.of_nat i * per r).
Proof.
  intros Hi. destruct router_per as [HL Hp]. destruct (ro_count r Hr) as [_ H255].
  unfold physicalToFirstLogical. rewrite list_lookup_fmap, lookup_seq_lt by lia. cbn.
  unfold LogicalCount. rewrite Z.quot_div_nonneg by lia. fold (per r).
  unfold u8. rewrite Z.mod_small by nia. done.
Qed.

Lemma first_logical_range (i : nat) : Z.of_nat i < n -> 0 <= Z.of_nat i * per r < L.
Proof. intros Hi. destruct router_per as [HL Hp]. nia. Qed.

Lemma first_logical_routes (i : nat) :
  Z.of_nat i < n -> For r (Z.of_nat i * per r) = Ok <$> pools r !! i.
Proof.
  intros Hi. destruct router_per as [HL Hp].
  destruct (For_in_range (Z.of_nat i * per r) (first_logical_range i Hi)) as (h & -> & Hh).
  rewrite Z.div_mul, Nat2Z.id in Hh by lia. by rewrite Hh.
Qed.
End Router.

(** ** Properties *)

(** Every logical index below the configured count routes to exactly one
    pool, the pools own equal consecutive ranges of logical shards, and any
    other index is refused with [ErrUnknownShard] instead of falling back to a
    default pool. *)
Theorem router_range_partition r s :
  router_ok r -> 0 <= s ->
  (s < logicalCount r ->
     exists h p, For r s = Some (Ok h) /\ pools r !! p = Some h /\
       Z.of_nat p * per r <= s < (Z.of_nat p + 1) * per r) /\
  (logicalCount r <= s ->
     exists e, For r s = Some (Err e) /\ errIs e ErrUnknownShard = true).
Proof.
  intros Hr Hs. split; [|intros; by apply For_out_of_range].
  intros Hlt. destruct (router_per r Hr) as [HL Hp].
  destruct (For_in_range r Hr s ltac:(lia)) as (h & Hf & Hh).
  exists h, (Z.to_nat (s / per r)). split_and!; [done|done|..].
  all: pose proof (Z.div_pos s (per r)); pose proof (Z.mul_div_le s (per r));
    pose proof (Z.mul_succ_div_gt s (per r)); lia.
Qed.

(** The logical index that a scatter-gather read stamps on a row found in
    physical pool [i] fits in a uint8, routes back to pool [i], and is the
    smallest index that does. *)
Theorem physicalToFirstLogical_inverse r (i : nat) :
  router_ok r -> Z.of_nat i < Z.of_nat (length (pools r)) ->
  exists s, physicalToFirstLogical r (Z.of_nat (length (pools r))) !! i = Some s /\
    uint8_range s /\ For r s = Ok <$> pools r !! i /\
    (NoDup (pools r) -> forall s', 0 <= s' < s -> For r s' <> For r s).
Proof.
  intros Hr Hi. exists (Z.of_nat i * per r).
  pose proof (first_logical_range r Hr i Hi) as Hrange.
  destruct (router_per r Hr) as [HL Hp]. pose proof (ro_count r Hr) as Hc.
  split_and!; [by apply physicalToFirstLogical_lookup|unfold uint8_range; lia..|by apply first_logical_routes|].
  intros Hnd s' Hs'. rewrite (first_logical_routes r Hr i Hi).
  destruct (For_in_range r Hr s' ltac:(lia)) as (h & -> & Hh).
  destruct (pools r !! i) as [h'|] eqn:Ei; [|done]. intros [= ->].
  pose proof (NoDup_lookup _ _ _ _ Hnd Ei Hh) as ->.
  pose proof (Z.div_lt_upper_bound s' (per r) (Z.of_nat (Z.to_nat (s' / per r)))).
  pose proof (Z.div_pos s' (per r)). nia.
Qed.

(** The opening loop succeeds with one handle per shard, or stops at the first
    shard that fails and closes what it had opened. *)
Lemma openAll_spec sqlOpen ping cfg scs opened :
  match openAll sqlOpen ping cfg scs opened with
  | (Ok ps, closed) =>
      closed = [] /\ exists hs, ps = opened ++ hs /\
        Forall2 (fun sc h => (openShard sqlOpen ping cfg sc).1 = Ok h) scs hs
  | (Err e, closed) =>
      exists pre sc post hs e',
        scs = pre ++ sc :: post /\ e = Wrap "shard" e' /\
        Forall2 (fun sc h => (openShard sqlOpen ping cfg sc).1 = Ok h) pre hs /\
        (openShard sqlOpen ping cfg sc).1 = Err e' /\
        closed = (openShard sqlOpen ping cfg sc).2 ++ opened ++ hs
  end.
Proof.
  revert opened. induction scs as [|sc scs IH]; intros opened; cbn [openAll].
  { split; [done|]. exists []. by rewrite app_nil_r. }
  destruct (openShard sqlOpen ping cfg sc) as [[db|e] cl] eqn:Eo.
  - specialize (IH (opened ++ [db])).
    destruct (openAll sqlOpen ping cfg scs (opened ++ [db])) as [[ps|e] closed].
    + destruct IH as (-> & hs & -> & Hf). split; [done|]. exists (db :: hs).
      rewrite <- app_assoc. split; [done|]. constructor; [by rewrite Eo|done].
    + destruct IH as (pre & sc' & post & hs & e' & -> & -> & Hf & He & ->).
      exists (sc :: pre), sc', post, (db :: hs), e'. rewrite <- !app_assoc.
      split_and!; try done. constructor; [by rewrite Eo|done].
  - exists [], sc, scs, [], e. rewrite Eo, app_nil_r. by split_and!; try constructor.
Qed.

(** C36. With a configuration accepted by [Load], [OpenShards] never panics.
    It fails only when some shard cannot be opened, and then the handles it
    closed include every pool it had opened; otherwise the router has one pool
    per shard and satisfies [router_ok]. *)
Theorem OpenShards_correct sqlOpen ping c :
  config_ok c ->
  exists res closed, OpenShards sqlOpen ping (DB c) (app_LogicalShardCount (App c)) = Some (res, closed) /\
    match res with
    | Ok r => router_ok r /\ closed = [] /\
        Forall2 (fun sc h => (openShard sqlOpen ping (DB c) sc).1 = Ok h) (shardConfigs (DB c)) (pools r)
    | Err e => exists pre sc post hs e',
        shardConfigs (DB c) = pre ++ sc :: post /\ e = Wrap "shard" e' /\
        (openShard sqlOpen ping (DB c) sc).1 = Err e' /\
        Forall2 (fun sc h => (openShard sqlOpen ping (DB c) sc).1 = Ok h) pre hs /\
        hs ⊆ closed
    end.
Proof.
  intros Hc. unfold OpenShards. set (L := app_LogicalShardCount (App c)).
  pose proof (cfg_logical c Hc) as HL. fold L in HL.
  assert (Hscs : 0 < Z.of_nat (length (shardConfigs (DB c))) <= L /\
    (Z.of_nat (length (shardConfigs (DB c))) | L)).
  { unfold shardConfigs. pose proof (cfg_shards c Hc) as Hs. fold L in Hs.
    destruct (db_Shards (DB c)) as [|s ss]; [split; [simpl; lia|apply Z.divide_1_l]|].
    destruct (Hs ltac:(done)) as [Hle Hd]. split; [|done]. revert Hle. simpl. lia. }
  destruct Hscs as [Hn Hdiv].
  destruct (Z.eqb_spec L 0); [lia|].
  destruct (Z.ltb_spec L (Z.of_nat (length (shardConfigs (DB c))))); [lia|].
  rewrite (proj2 (Z.rem_divide L (Z.of_nat (length (shardConfigs (DB c)))) ltac:(lia)) Hdiv).
  cbn [Z.eqb negb].
  pose proof (openAll_spec sqlOpen ping (DB c) (shardConfigs (DB c)) []) as Ho.
  destruct (openAll _ _ _ _ _) as [[ps|e] closed].
  - destruct Ho as (-> & hs & -> & Hf). cbn [app] in *.
    pose proof (Forall2_length _ _ _ Hf) as Hlen.
    assert (Hne : hs <> []) by (intros ->; cbn in Hlen; lia).
    destruct (buildTable_total hs L Hne ltac:(lia)) as [tbl Htbl].
    rewrite Htbl. eexists _, _. split; [done|]. cbn. split_and!; [|done|done].
    split; cbn; [lia|done|by rewrite <- Hlen|done].
  - destruct Ho as (pre & sc & post & hs & e' & -> & -> & Hf & He & ->).
    eexists _, _. split; [done|]. exists pre, sc, post, hs, e'.
    split_and!; try done. cbn [app]. intros h Hh. apply elem_of_app. by right.
Qed.
