(* ===== verification/Migrations.v ===== *)
(** * The migration runner (internal/repository/mysql.go)

    [splitSQLStatements] cuts a migration file into statements and
    [RunMigrationsAll] executes every statement of every file on every pool.
    Listing the directory, reading a file and executing a statement are
    parameters; the runner keeps the list of statements the pools have
    acknowledged beside the state [X] of the databases. *)

From S2P Require Import Prelude GoStrings ShardRouter.
Local Open Scope Z_scope.

Definition nl : Ascii.ascii := chr 10.
Definition semi : Ascii.ascii := ";"%char.

(** ** Cutting a file into statements *)

Definition blank (c : Ascii.ascii) : bool := (code c =? 32) || (code c =? 9).

(** [strings.TrimLeft(line, " \t")] *)
Fixpoint TrimLeftBlank (s : string) : string :=
  match s with
  | EmptyString => ""
  | String c s' => if blank c then TrimLeftBlank s' else s
  end.

Definition is_comment (line : string) : bool := HasPrefix (TrimLeftBlank line) "--".

(** What the builder holds after the loop over the lines. *)
Fixpoint sanitize (lines : list string) : string :=
  match lines with
  | [] => ""
  | line :: rest =>
      if is_comment line then sanitize rest
      else line +:+ String nl (sanitize rest)
  end.

Section Split.
Context `{Unicode}.

Fixpoint nonEmptyTrimmed (parts : list string) : list string :=
  match parts with
  | [] => []
  | p :: rest =>
      let s := TrimSpace p in
      if bool_decide (s = "") then nonEmptyTrimmed rest else s :: nonEmptyTrimmed rest
  end.

Definition splitSQLStatements (body : string) : list string :=
  nonEmptyTrimmed (Split semi (sanitize (Split nl body))).

(** ** Running the files *)

Section Runner.
Context {X : Type}.
(** [filepath.Glob] on the directory, [os.ReadFile], [db.Exec] *)
Variable glob : string -> result (list string).
Variable readFile : string -> result string.
Variable dbExec : handle -> string -> ST X (result unit).

Abbreviation W := (list (handle * string) * X)%type.
Definition acknowledge (db : handle) (stmt : string) : ST W unit := fun w => (tt, (w.1 ++ [(db, stmt)], w.2)).

Fixpoint execStmts (db : handle) (stmts : list string) : ST W (result unit) :=
  match stmts with
  | [] => ret (Ok tt)
  | stmt :: rest =>
      (let! r := on_snd (dbExec db stmt) in
       match r with
       | Err e => ret (Err (Wrap "apply" e))
       | Ok _ => let! _u := acknowledge db stmt in execStmts db rest
       end)%easypay
  end.

Fixpoint execPools (dbs : list handle) (stmts : list string) : ST W (result unit) :=
  match dbs with
  | [] => ret (Ok tt)
  | db :: rest =>
      (let! r := execStmts db stmts in
       match r with
       | Err e => ret (Err e)
       | Ok _ => execPools rest stmts
       end)%easypay
  end.

Fixpoint execFiles (dbs : list handle) (files : list string) : ST W (result unit) :=
  match files with
  | [] => ret (Ok tt)
  | f :: rest =>
      match readFile f with
      | Err e => ret (Err (Wrap "read" e))
      | Ok body =>
          (let! r := execPools dbs (splitSQLStatements body) in
           match r with
           | Err e => ret (Err e)
           | Ok _ => execFiles dbs rest
           end)%easypay
      end
  end.

Definition RunMigrationsAll (router : multiShardRouter) (migrationsDir : string) : ST W (result unit) :=
  match glob (migrationsDir +:+ "/*.up.sql") with
  | Err e => ret (Err (Wrap "glob migrations" e))
  | Ok files => execFiles (All router) files
  end.
End Runner.
End Split.

(** ** Lines and statements *)

Lemma Split_cons_inv sep s : exists p ps, Split sep s = p :: ps.
Proof.
  destruct s as [|c s]; simpl; [by eexists _, _|].
  destruct (Ascii.eqb c sep); [by eexists _, _|]. destruct (Split sep s); by eexists _, _.
Qed.

Lemma Split_concat sep a b : Split sep (a +:+ String sep b) = Split sep a ++ Split sep b.
Proof.
  induction a as [|c a IH]; simpl; [by rewrite Ascii.eqb_refl|].
  destruct (Ascii.eqb c sep); [by rewrite IH|]. rewrite IH.
  destruct (Split_cons_inv sep a) as (p & ps & ->). done.
Qed.

(** A byte that is not the separator lands at the end of the last piece. *)
Lemma Split_snoc sep c a : c <> sep ->
  exists ps p, Split sep a = ps ++ [p] /\ Split sep (a +:+ String c "") = ps ++ [p +:+ String c ""].
Proof.
  intros Hc%Ascii.eqb_neq. induction a as [|x a (ps & p & E1 & E2)]; simpl.
  - exists [], "". by rewrite Hc.
  - destruct (Ascii.eqb x sep).
    + exists ("" :: ps), p. by rewrite E1, E2.
    + rewrite E1, E2. destruct ps as [|q ps]; [by exists [], (String x p)|by exists (String x q :: ps), p].
Qed.

Lemma Split_pieces sep s : Forall (fun p => occurs sep p = false) (Split sep s).
Proof.
  induction s as [|c s IH]; simpl; [by repeat constructor|].
  destruct (Ascii.eqb c sep) eqn:Ec; [by constructor|].
  destruct (Split sep s) as [|p ps]; [constructor; [simpl; by rewrite Ec|done]|].
  inversion IH; subst. constructor; [simpl; by rewrite Ec|done].
Qed.

Lemma sanitize_app l k : sanitize (l ++ k) = sanitize l +:+ sanitize k.
Proof.
  induction l as [|x l IH]; simpl; [done|]. destruct (is_comment x); [done|].
  rewrite IH, str_app_assoc. done.
Qed.

Lemma is_comment_semi l : is_comment l = false -> is_comment (l +:+ String semi "") = false.
Proof.
  unfold is_comment. induction l as [|c l IH]; [done|].
  change (String c l +:+ String semi "") with (String c (l +:+ String semi "")).
  cbn [TrimLeftBlank]. destruct (blank c); [exact IH|].
  destruct l as [|d l]; [|done]. intros _. cbn. by rewrite andb_false_r.
Qed.

(** No line of the text is a comment. *)
Definition comment_free (s : string) : bool := forallb (fun l => negb (is_comment l)) (Split nl s).

(** The lines after the first are put back as they were. *)
Lemma sanitize_rest s p ps :
  Split nl s = p :: ps -> forallb (fun l => negb (is_comment l)) ps = true ->
  p +:+ String nl (sanitize ps) = s +:+ String nl "".
Proof.
  revert p ps. induction s as [|x s IH]; intros p ps; cbn [Split].
  { intros [= <- <-] _. done. }
  destruct (Split_cons_inv nl s) as (r & rs & Er). rewrite Er. destruct (Ascii.eqb x nl) eqn:Ex.
  - apply Ascii.eqb_eq in Ex as ->. intros [= <- <-]. cbn [forallb].
    intros [Hr Hrs]%andb_true_iff. apply negb_true_iff in Hr. cbn [sanitize]. rewrite Hr.
    apply (f_equal (String nl)). by apply IH.
  - intros [= <- <-] Hrs. apply (f_equal (String x)). by apply IH.
Qed.

Lemma sanitize_comment_free s : comment_free s = true -> sanitize (Split nl s) = s +:+ String nl "".
Proof.
  unfold comment_free. destruct (Split_cons_inv nl s) as (p & ps & E). rewrite E. cbn [forallb].
  intros [Hp Hps]%andb_true_iff. apply negb_true_iff in Hp. cbn [sanitize]. rewrite Hp.
  by apply sanitize_rest.
Qed.

Lemma comment_free_semi s : comment_free s = true -> comment_free (s +:+ String semi "") = true.
Proof.
  unfold comment_free. destruct (Split_snoc nl semi s) as (ps & p & -> & ->); [done|].
  rewrite !forallb_app. cbn [forallb]. rewrite !andb_true_iff, !negb_true_iff.
  intros (? & Hp & ?). by rewrite is_comment_semi.
Qed.

(** A full-line comment changes nothing, whatever its text. *)
Lemma comment_ignored `{Unicode} a c b :
  is_comment c = true -> occurs nl c = false ->
  splitSQLStatements (a +:+ String nl (c +:+ String nl b)) = splitSQLStatements (a +:+ String nl b).
Proof.
  intros Hc Ho. unfold splitSQLStatements. do 2 f_equal.
  rewrite !Split_concat, (Split_no_sep nl c Ho), !sanitize_app. cbn [sanitize]. by rewrite Hc.
Qed.

(** ** Trimming ASCII text *)

Definition all_space (s : string) : bool := all_chars is_space s.

(** ASCII text that neither starts nor ends with a space. *)
Fixpoint ends_well (s : string) : bool :=
  match s with
  | EmptyString => false
  | String c EmptyString => negb (is_space c)
  | String _ s' => ends_well s'
  end.
Definition trimmed (s : string) : bool :=
  isASCII s && ends_well s && match s with EmptyString => false | String c _ => negb (is_space c) end.

Lemma is_space_ascii c : is_space c = true -> is_ascii_char c = true.
Proof. all_bytes c; done. Qed.

Lemma trim_left_space ws s : all_space ws = true -> trim_left (ws +:+ s) = trim_left s.
Proof.
  induction ws as [|c ws IH]; [done|]. cbn [all_space all_chars]. intros [Hc Hws]%andb_true_iff.
  change (String c ws +:+ s) with (String c (ws +:+ s)). cbn [trim_left].
  rewrite is_space_ascii, Hc by done. by apply IH.
Qed.

Lemma trim_right_space ws : all_space ws = true -> trim_right ws = ("", false).
Proof.
  induction ws as [|c ws IH]; [done|]. cbn [all_space all_chars]. intros [Hc Hws]%andb_true_iff.
  cbn [trim_right]. rewrite IH, is_space_ascii, Hc by done. done.
Qed.

Lemma trim_right_keep s ws : isASCII s = true -> ends_well s = true -> all_space ws = true ->
  trim_right (s +:+ ws) = (s, false).
Proof.
  intros Ha He Hws. induction s as [|c s IH]; [done|].
  cbn [isASCII] in Ha. apply andb_true_iff in Ha as [Hc Ha].
  change (String c s +:+ ws) with (String c (s +:+ ws)). cbn [trim_right]. destruct s as [|d s].
  - cbn [ends_well] in He. apply negb_true_iff in He.
    change ("" +:+ ws) with ws. rewrite trim_right_space, Hc, He by done. done.
  - rewrite IH by done. done.
Qed.

Lemma TrimSpace_padded `{Unicode} ws s ws' :
  all_space ws = true -> trimmed s = true -> all_space ws' = true -> TrimSpace (ws +:+ s +:+ ws') = s.
Proof.
  unfold trimmed. intros Hws [[Ha He]%andb_true_iff Hs]%andb_true_iff Hws'. unfold TrimSpace.
  rewrite trim_left_space by done. destruct s as [|c s]; [done|]. apply negb_true_iff in Hs.
  pose proof Ha as Ha'. cbn [isASCII] in Ha'. apply andb_true_iff in Ha' as [Hc _].
  change (String c s +:+ ws') with (String c (s +:+ ws')). cbn [trim_left]. rewrite Hc, Hs. cbn [negb].
  change (String c (s +:+ ws')) with (String c s +:+ ws'). by rewrite trim_right_keep.
Qed.

Lemma TrimSpace_space `{Unicode} ws : all_space ws = true -> TrimSpace ws = "".
Proof.
  intros Hws. unfold TrimSpace. pose proof (trim_left_space ws "" Hws) as E. rewrite str_app_nil in E.
  by rewrite E.
Qed.

(** ** Scripts and their statements *)

(** A script as the migrations are written: each statement, over any number
    of lines, ends with a semicolon and may follow lines of comment. *)
Fixpoint render (chunks : list (list string * string)) : string :=
  match chunks with
  | [] => ""
  | (cs, stmt) :: rest =>
      foldr (fun c text => c +:+ String nl text) (stmt +:+ String semi (String nl (render rest))) cs
  end.

Definition chunk_ok (ch : list string * string) : Prop :=
  Forall (fun c => is_comment c = true /\ occurs nl c = false) ch.1 /\
  trimmed ch.2 = true /\ comment_free ch.2 = true /\ occurs semi ch.2 = false.

(** The script with its comments gone. *)
Definition bare (chunks : list (list string * string)) : string :=
  foldr (fun ch text => ch.2 +:+ String semi (String nl text)) (String nl "") chunks.

Lemma sanitize_render chunks : Forall chunk_ok chunks -> sanitize (Split nl (render chunks)) = bare chunks.
Proof.
  induction 1 as [|[cs stmt] rest (Hcs & _ & Hf & _) _ IH]; [done|]. cbn [render bare foldr fst snd].
  cbn [fst snd] in Hcs, Hf. induction Hcs as [|c l [Hc Ho] _ IHcs]; cbn [foldr].
  - assert (E : stmt +:+ String semi (String nl (render rest)) = (stmt +:+ String semi "") +:+ String nl (render rest))
      by by rewrite str_app_assoc.
    rewrite E, Split_concat, sanitize_app, IH, sanitize_comment_free by by apply comment_free_semi.
    by rewrite !str_app_assoc.
  - rewrite Split_app by done. cbn [sanitize]. by rewrite Hc.
Qed.

Lemma split_bare `{Unicode} ws chunks :
  all_space ws = true -> occurs semi ws = false -> Forall chunk_ok chunks ->
  nonEmptyTrimmed (Split semi (ws +:+ bare chunks)) = chunks.*2.
Proof.
  intros Hws Ho Hch. revert ws Hws Ho.
  induction Hch as [|[cs stmt] rest (_ & Ht & _ & Hs) _ IH]; intros ws Hws Ho; cbn [bare foldr fst snd fmap list_fmap].
  - rewrite Split_no_sep by (rewrite occurs_app, Ho; done). cbn [nonEmptyTrimmed].
    rewrite TrimSpace_space, bool_decide_true; [done|done|].
    unfold all_space in *. rewrite all_chars_app, Hws. done.
  - rewrite <- str_app_assoc, Split_app by (rewrite occurs_app, Ho; done). cbn [nonEmptyTrimmed].
    pose proof (TrimSpace_padded ws stmt "" Hws Ht eq_refl) as E. rewrite str_app_nil in E. rewrite E.
    rewrite bool_decide_false by (intros ->; done). f_equal.
    by apply (IH (String nl "")).
Qed.

(** Cutting a migration script gives back its statements: each statement
    of the script, without the comment lines around it and without its
    semicolon, once and in order, for all ASCII statements that hold no
    semicolon and no comment line of their own. *)
Theorem split_script_roundtrip `{Unicode} chunks :
  Forall chunk_ok chunks -> splitSQLStatements (render chunks) = chunks.*2.
Proof.
  intros Hch. unfold splitSQLStatements. rewrite sanitize_render by done. by apply (split_bare "").
Qed.

(** ** The runner *)

Section RunnerTheorems.
Context `{Unicode} {X : Type}.
Variable glob : string -> result (list string).
Variable readFile : string -> result string.
Variable dbExec : handle -> string -> ST X (result unit).

(** The statements of a list of files, and what a full run executes. *)
Definition statements (files : list string) : list string :=
  files ≫= (fun f => match readFile f with Ok body => splitSQLStatements body | Err _ => [] end).
Definition plan (dbs : list handle) (files : list string) : list (handle * string) :=
  files ≫= (fun f => match readFile f with
                     | Ok body => dbs ≫= (fun db => pair db <$> splitSQLStatements body)
                     | Err _ => []
                     end).

(** A computation that acknowledges the plan [l] when it succeeds and a prefix
    of it when it fails. *)
Definition follows (m : ST (list (handle * string) * X) (result unit)) (l : list (handle * string)) : Prop :=
  forall tr x res tr' x', m (tr, x) = (res, (tr', x')) ->
    exists did, tr' = tr ++ did /\ if is_ok res then did = l else did `prefix_of` l.

Lemma follows_nil : follows (ret (Ok tt)) [].
Proof. intros tr x res tr' x' [= <- <- <-]. exists []. by rewrite app_nil_r. Qed.

Lemma follows_seq m l f k : follows m l -> follows f k ->
  follows (bind m (fun r => match r with Err e => ret (Err e) | Ok _ => f end)) (l ++ k).
Proof.
  intros Hm Hf tr x res tr' x'. unfold bind. destruct (m (tr, x)) as [r [tr1 x1]] eqn:Em.
  apply Hm in Em as (d1 & -> & Hd1). destruct r as [u|e]; cbn [is_ok] in Hd1.
  - subst d1. intros (d2 & -> & Hd2)%Hf. exists (l ++ d2). rewrite app_assoc. split; [done|].
    destruct (is_ok res); [by subst|by apply prefix_app].
  - unfold ret. intros [= <- <- <-]. exists d1. cbn. split; [done|]. by apply prefix_app_r.
Qed.

Lemma execStmts_follows db stmts : follows (execStmts dbExec db stmts) (pair db <$> stmts).
Proof.
  induction stmts as [|s stmts IH]; [apply follows_nil|].
  intros tr x res tr' x'. cbn [execStmts]. unfold bind at 1, on_snd at 1. cbn [fst snd].
  destruct (dbExec db s x) as [[u|e] x1].
  - unfold bind at 1, acknowledge. cbn [fst snd]. intros (d & -> & Hd)%IH. exists ((db, s) :: d).
    rewrite <- app_assoc. split; [done|]. cbn. destruct (is_ok res); [by subst|]. by apply prefix_cons.
  - unfold ret. intros [= <- <- <-]. exists []. rewrite app_nil_r. split; [done|]. apply prefix_nil.
Qed.

Lemma execPools_follows dbs stmts :
  follows (execPools dbExec dbs stmts) (dbs ≫= (fun db => pair db <$> stmts)).
Proof.
  induction dbs as [|db dbs IH]; [apply follows_nil|]. cbn [execPools mbind list_bind].
  apply follows_seq; [apply execStmts_follows|exact IH].
Qed.

Lemma execFiles_follows dbs files : follows (execFiles readFile dbExec dbs files) (plan dbs files).
Proof.
  induction files as [|f files IH]; [apply follows_nil|]. cbn [execFiles plan mbind list_bind].
  destruct (readFile f) as [body|e].
  - apply follows_seq; [apply execPools_follows|exact IH].
  - intros tr x res tr' x' [= <- <- <-]. exists []. rewrite app_nil_r. split; [done|]. apply prefix_nil.
Qed.

Lemma filter_pool db (dbs : list handle) (stmts : list string) : NoDup dbs -> db ∈ dbs ->
  filter (fun p => p.1 = db) (dbs ≫= (fun d => pair d <$> stmts)) = pair db <$> stmts.
Proof.
  assert (Hone : forall d, filter (fun p : handle * string => p.1 = db) (pair d <$> stmts) =
                           if decide (d = db) then pair d <$> stmts else []).
  { intros d. case_decide as E.
    - subst d. clear. induction stmts as [|s l IH]; [done|]. rewrite fmap_cons, filter_cons_True by done. by rewrite IH.
    - clear -E. induction stmts as [|s l IH]; [done|]. rewrite fmap_cons, filter_cons_False by done. done. }
  assert (Hno : forall l, db ∉ l -> filter (fun p : handle * string => p.1 = db) (l ≫= (fun d => pair d <$> stmts)) = []).
  { intros l. induction l as [|d l IH]; intros Hl; [done|]. apply not_elem_of_cons in Hl as [Hd Hl].
    cbn [mbind list_bind]. rewrite filter_app, Hone, decide_False by done. by apply IH. }
  induction 1 as [|d l Hd _ IH]; intros Hin; [by apply not_elem_of_nil in Hin|].
  cbn [mbind list_bind]. rewrite filter_app, Hone. case_decide as E.
  - subst d. rewrite Hno by done. by rewrite app_nil_r.
  - apply elem_of_cons in Hin as [->|Hin]; [done|]. by apply IH.
Qed.

Lemma filter_plan db dbs files : NoDup dbs -> db ∈ dbs ->
  filter (fun p => p.1 = db) (plan dbs files) = pair db <$> statements files.
Proof.
  intros Hnd Hin. induction files as [|f files IH]; [done|].
  cbn [plan statements mbind list_bind]. rewrite filter_app, fmap_app. f_equal; [|exact IH].
  destruct (readFile f); [by apply filter_pool|done].
Qed.

(** A run of the migrations that reports success has executed, on every
    pool, every statement of every file, once and in the order of the files; a
    run that fails has stopped at the failure, with a prefix of that plan
    executed and nothing of the rest. *)
Theorem RunMigrationsAll_spec router dir files tr x res tr' x' :
  glob (dir +:+ "/*.up.sql") = Ok files -> NoDup (All router) ->
  RunMigrationsAll glob readFile dbExec router dir (tr, x) = (res, (tr', x')) ->
  exists did, tr' = tr ++ did /\ did `prefix_of` plan (All router) files /\
    (res = Ok tt -> forall db, db ∈ All router ->
       filter (fun p => p.1 = db) did = pair db <$> statements files).
Proof.
  intros Hg Hnd. unfold RunMigrationsAll. rewrite Hg. intros (did & -> & Hd)%execFiles_follows.
  exists did. split; [done|]. destruct res as [u|e]; cbn [is_ok] in Hd.
  - subst did. split; [done|]. intros _ db Hdb. by apply filter_plan.
  - by split.
Qed.
End RunnerTheorems.
