(* ===== verification/TransactionRepo.v ===== *)
(** * The transactions repository (internal/repository/transaction_repo.go)

    Each physical pool holds a [transactions] table (migrations/001): a list
    of rows in primary-key order.  The SQL statements of the repository are
    translated into functions on that list.  What the server decides is a
    parameter ([MySQL]): the collation that compares VARCHAR columns and the
    precision at which a TIMESTAMP column stores a time.  Any statement may
    fail, before or after it took effect: a pool carries the schedule of its
    faults.  The clock readings and the order in which the goroutines of a
    scatter-gather read report are schedules too. *)

From S2P Require Import Prelude GoStrings Sorting Domain Codec Config ShardRouter.
Local Open Scope Z_scope.

(** ** Tables, pools and their faults *)

Record Row : Type := mkRow {
  r_merchant : string;
  r_txn : string;
  r_order : string;
  r_amount : Z;
  r_currency : Z;
  r_status : Z;
  r_method : Z;
  r_pi : option string;
  r_session : option string;
  r_created : Z;
  r_updated : Z;
}.

#[global] Instance Row_eq_dec : EqDecision Row.
Proof. solve_decision. Defined.

(** What the driver reports when a statement cannot complete: a server or
    connection error, or the context's. *)
Inductive outage : Type :=
  | DriverError (m : string)
  | Canceled
  | DeadlineExceeded.

Definition outage_error (o : outage) : error :=
  match o with
  | DriverError m => Text m
  | Canceled => Sentinel ContextCanceled
  | DeadlineExceeded => Sentinel ContextDeadlineExceeded
  end.

(** What happens to the next statement: it runs, it is refused before taking
    effect, or it takes effect and the answer is lost. *)
Inductive fault : Type :=
  | NoFault
  | FailBefore (o : outage)
  | FailAfter (o : outage).

Record Pool : Type := mkPool { p_rows : list Row; p_faults : list fault }.

Record Db : Type := mkDb {
  d_pools : list Pool;
  d_clock : list Z;
  d_arrivals : list (list nat);
}.

Class MySQL : Type := {
  (** [a = b] on VARCHAR columns under the table's collation *)
  coll_eq : string -> string -> bool;
  (** the time a TIMESTAMP column keeps *)
  ts_store : Z -> Z;
}.

(** Documented properties of a collation and of storing a time twice. *)
Class MySQLLaws `{MySQL} : Prop := {
  coll_equiv : Equivalence (fun a b => coll_eq a b = true);
  ts_store_idem : forall t, ts_store (ts_store t) = ts_store t;
}.

(** ** Schedules *)

(** [time.Now()]: the next reading; the last one repeats. *)
Definition Now : ST Db Z := fun d =>
  match d_clock d with
  | [] => (0, d)
  | [t] => (t, d)
  | t :: ts => (t, mkDb (d_pools d) ts (d_arrivals d))
  end.

(** The order in which [n] goroutines report on a channel. *)
Definition NextArrival (n : nat) : ST Db (list nat) := fun d =>
  match d_arrivals d with
  | [] => (seq 0 n, d)
  | a :: rest => (if bool_decide (a ≡ₚ seq 0 n) then a else seq 0 n, mkDb (d_pools d) (d_clock d) rest)
  end.

(** Run one statement on a pool. *)
Definition exec {A} (h : handle) (stmt : list Row -> result A * list Row) : ST Db (result A) := fun d =>
  match d_pools d !! h with
  | None => (Err (Text "sql: database is closed"), d)
  | Some p =>
      let f := default NoFault (head (p_faults p)) in
      let '(a, rows') := stmt (p_rows p) in
      let put rows := mkDb (<[h := mkPool rows (tail (p_faults p))]> (d_pools d)) (d_clock d) (d_arrivals d) in
      match f with
      | NoFault => (a, put rows')
      | FailBefore o => (Err (outage_error o), put (p_rows p))
      | FailAfter o => (Err (outage_error o), put rows')
      end
  end.

(** ** SQL statements *)

Definition errDup : error :=
  Text "Error 1062 (23000): Duplicate entry for key 'transactions.uniq_transaction_id'".
Definition errTooLong : error := Text "Error 1406 (22001): Data too long for column".

(** Widths of the nullable VARBINARY columns (strict SQL mode). *)
Definition fits (w : Z) (o : option string) : bool :=
  match o with Some s => len s <=? w | None => true end.
Definition row_fits (x : Row) : bool := fits 64 (r_pi x) && fits 96 (r_session x).

(** INSERT INTO transactions, with UNIQUE KEY uniq_transaction_id. *)
Definition sql_insert (x : Row) (rows : list Row) : result unit * list Row :=
  if negb (row_fits x) then (Err errTooLong, rows)
  else if List.existsb (fun y => bool_decide (r_txn y = r_txn x)) rows then (Err errDup, rows)
  else (Ok tt, rows ++ [x]).

(** SELECT ... WHERE p LIMIT 1: no secondary index covers the predicates on
    order_id and stripe_pi_id, so the table is read in primary-key order. *)
Definition sql_select1 (p : Row -> bool) (rows : list Row) : result Row * list Row :=
  (match List.find p rows with Some x => Ok x | None => Err (Sentinel ErrNoRows) end, rows).

(** UPDATE ... SET f WHERE p: matched rows are counted (clientFoundRows). *)
Definition sql_update (p : Row -> bool) (f : Row -> Row) (rows : list Row) : result Z * list Row :=
  if List.existsb (fun x => p x && negb (row_fits (f x))) rows then (Err errTooLong, rows)
  else (Ok (Z.of_nat (length (filter (fun x => p x = true) rows))),
        (fun x => if p x then f x else x) <$> rows).

(** ORDER BY created_at ASC. *)
Definition older (x y : Row) : bool := r_created x <=? r_created y.
Definition sort_created (rows : list Row) : list Row := insertion_sort older rows.

(** SELECT ... WHERE p ORDER BY created_at ASC LIMIT n *)
Definition sql_select_oldest (p : Row -> bool) (n : Z) (rows : list Row) : result (list Row) * list Row :=
  (Ok (take (Z.to_nat n) (sort_created (filter (fun x => p x = true) rows))), rows).

(** COALESCE(NULLIF(v, ''), old) *)
Definition coalesce_nullif (v : string) (old : option string) : option string :=
  if bool_decide (v = "") then old else Some v.

Definition nullBytes (s : string) : option string := if bool_decide (s = "") then None else Some s.

Definition isDuplicateKeyErr (e : error) : bool :=
  Contains (errText e) "Error 1062" || Contains (errText e) "Duplicate entry".

(** ** Decoding a row *)

Definition scanTransaction (x : Row) : result Transaction :=
  match decodeCurrency (r_currency x) with
  | Err e => Err e
  | Ok cur =>
      match decodeStatus (r_status x) with
      | Err e => Err e
      | Ok st => Ok {|
          t_MerchantID := r_merchant x;
          t_TransactionID := hexLower (r_txn x);
          t_OrderID := r_order x;
          t_Amount := i64 (r_amount x);
          t_Currency := cur;
          t_Status := st;
          t_PaymentMethod := decodeMethod (r_method x);
          t_StripeSessionID := default "" (r_session x);
          t_StripePaymentIntentID := default "" (r_pi x);
          t_CreatedAt := r_created x;
          t_UpdatedAt := r_updated x;
          t_ShardIndex := 0 |}
      end
  end.

(** The error path of [row.Scan]. *)
Definition scanRow (r : result Row) : result Transaction :=
  match r with
  | Ok x => scanTransaction x
  | Err e => if errIs e ErrNoRows then Err (Sentinel ErrNotFound) else Err (Wrap "scan transaction" e)
  end.

Definition with_shard (s : Z) (t : Transaction) : Transaction := {|
  t_MerchantID := t_MerchantID t; t_TransactionID := t_TransactionID t; t_OrderID := t_OrderID t;
  t_Amount := t_Amount t; t_Currency := t_Currency t; t_Status := t_Status t;
  t_PaymentMethod := t_PaymentMethod t; t_StripeSessionID := t_StripeSessionID t;
  t_StripePaymentIntentID := t_StripePaymentIntentID t; t_CreatedAt := t_CreatedAt t;
  t_UpdatedAt := t_UpdatedAt t; t_ShardIndex := s |}.

Definition with_times (c u : Z) (t : Transaction) : Transaction := {|
  t_MerchantID := t_MerchantID t; t_TransactionID := t_TransactionID t; t_OrderID := t_OrderID t;
  t_Amount := t_Amount t; t_Currency := t_Currency t; t_Status := t_Status t;
  t_PaymentMethod := t_PaymentMethod t; t_StripeSessionID := t_StripeSessionID t;
  t_StripePaymentIntentID := t_StripePaymentIntentID t; t_CreatedAt := c;
  t_UpdatedAt := u; t_ShardIndex := t_ShardIndex t |}.

Definition route (r : multiShardRouter) (s : Z) : result handle :=
  match For r s with
  | Some (Ok h) => Ok h
  | Some (Err e) => Err (Wrap "route" e)
  | None => Err (Text "panic: index out of range")
  end.

(** ** Sorting the gathered rows (sortTransactionsByCreatedAt) *)

(** The test under which the inner loop stops at the pair [(a, b)]. *)
Definition in_order (a b : Transaction) : bool :=
  (t_CreatedAt a <? t_CreatedAt b) ||
  ((t_CreatedAt a =? t_CreatedAt b) && String.leb (t_TransactionID a) (t_TransactionID b)).

(** The inner loop: [x] moves left over the prefix, given last element first,
    by swaps until the test holds. *)
Fixpoint sink (x : Transaction) (rprefix : list Transaction) : list Transaction :=
  match rprefix with
  | [] => [x]
  | a :: rest => if in_order a x then x :: a :: rest else a :: sink x rest
  end.

Definition sortTransactionsByCreatedAt (txns : list Transaction) : list Transaction :=
  reverse (fold_left (fun rp x => sink x rp) txns []).

(** ** Operations *)

Section Operations.
Context `{Unicode} `{MySQL}.
Variable r : multiShardRouter.

Definition encodeRow (t : Transaction) (txn : string) (cur st pm : Z) : Row := {|
  r_merchant := t_MerchantID t;
  r_txn := txn;
  r_order := t_OrderID t;
  r_amount := u64 (t_Amount t);
  r_currency := cur;
  r_status := st;
  r_method := pm;
  r_pi := nullBytes (t_StripePaymentIntentID t);
  r_session := nullBytes (t_StripeSessionID t);
  r_created := ts_store (t_CreatedAt t);
  r_updated := ts_store (t_UpdatedAt t) |}.

(** The checks of [Insert] before it reads the clock. *)
Definition encodeChecks (t : Transaction) : result (string * Z * Z) :=
  (if 16 <? len (t_MerchantID t) then Err (Text "merchant_id too long") else
   try! txn := decodeHex16 (t_TransactionID t) else Wrap "transaction_id" in
   try! _ok := ValidateOrderID (t_OrderID t) else Wrap "order_id" in
   if t_Amount t <? 0 then Err (Text "amount must be >= 0") else
   try! cur := encodeCurrency (t_Currency t) else (fun e => e) in
   try! st := encodeStatus (t_Status t) else (fun e => e) in
   Ok (txn, cur, st))%easypay.

(** [Insert] stamps the times of the transaction it is given. *)
Definition Insert (t : Transaction) : ST Db (Transaction * result unit) :=
  match encodeChecks t with
  | Err e => ret (t, Err e)
  | Ok (txn, cur, st) =>
      let pm := encodeMethod (t_PaymentMethod t) in
      (let! now := Now in
       let t' := with_times (if IsZero (t_CreatedAt t) then now else t_CreatedAt t) now t in
       match route r (t_ShardIndex t') with
       | Err e => ret (t', Err e)
       | Ok h =>
           let! res := exec h (sql_insert (encodeRow t' txn cur st pm)) in
           ret (t', match res with
                    | Ok _ => Ok tt
                    | Err e => if isDuplicateKeyErr e then Err (Sentinel ErrDuplicateTransaction)
                               else Err (Wrap "insert transaction" e)
                    end)
       end)%easypay
  end.

Definition GetByTransactionID (shardIdx : Z) (merchantID transactionID : string)
    : ST Db (result Transaction) :=
  match route r shardIdx with
  | Err e => ret (Err e)
  | Ok h =>
      match decodeHex16 transactionID with
      | Err e => ret (Err (Wrap "transaction_id" e))
      | Ok txn =>
          (let! x := exec h (sql_select1 (fun x =>
             coll_eq (r_merchant x) merchantID && bool_decide (r_txn x = txn))) in
           ret (match scanRow x with
                | Ok t => Ok (with_shard shardIdx t)
                | Err e => Err e
                end))%easypay
      end
  end.

(** The predicate [merchant_id = ? AND order_id = ?]. *)
Definition by_order (merchantID orderID : string) (x : Row) : bool :=
  coll_eq (r_merchant x) merchantID && coll_eq (r_order x) orderID.

Definition GetByMerchantOrderID (shardIdx : Z) (merchantID orderID : string)
    : ST Db (result Transaction) :=
  match ValidateOrderID orderID with
  | Err e => ret (Err e)
  | Ok _ =>
      match route r shardIdx with
      | Err e => ret (Err e)
      | Ok h =>
          (let! x := exec h (sql_select1 (by_order merchantID orderID)) in
           ret (match scanRow x with
                | Ok t => Ok (with_shard shardIdx t)
                | Err e => Err e
                end))%easypay
      end
  end.

(** One query per pool, in pool order. *)
Fixpoint queryAll {A} (hs : list handle) (stmt : list Row -> result A * list Row)
    : ST Db (list (result A)) :=
  match hs with
  | [] => ret []
  | h :: rest => (let! x := exec h stmt in let! xs := queryAll rest stmt in ret (x :: xs))%easypay
  end.

(** The receiving loop of [scatterFirst]. *)
Fixpoint firstMatch (logical : list Z) (results : list (result Transaction)) (arrival : list nat)
    (firstErr : option error) (misses : nat) : result Transaction :=
  match arrival with
  | [] =>
      if bool_decide (misses = length results) then Err (Sentinel ErrNotFound)
      else Err (default (Text "nil error") firstErr)
  | i :: rest =>
      match results !! i with
      | None => Err (Text "panic: channel")
      | Some (Ok t) => Ok (with_shard (default 0 (logical !! i)) t)
      | Some (Err e) =>
          if errIs e ErrNotFound then firstMatch logical results rest firstErr (S misses)
          else firstMatch logical results rest (match firstErr with Some _ => firstErr | None => Some e end) misses
      end
  end.

Definition scatterFirst (p : Row -> bool) : ST Db (result Transaction) :=
  (let hs := All r in
   let logical := physicalToFirstLogical r (Z.of_nat (length hs)) in
   let! rows := queryAll hs (sql_select1 p) in
   let! arrival := NextArrival (length hs) in
   ret (firstMatch logical (scanRow <$> rows) arrival None 0))%easypay.

Definition GetByOrderIDAny (orderID : string) : ST Db (result Transaction) :=
  match ValidateOrderID orderID with
  | Err e => ret (Err e)
  | Ok _ => scatterFirst (fun x => coll_eq (r_order x) orderID)
  end.

Definition GetByPaymentIntentID (pi : string) : ST Db (result Transaction) :=
  if bool_decide (pi = "") then ret (Err (Sentinel ErrNotFound))
  else scatterFirst (fun x => bool_decide (r_pi x = Some pi)).

Definition set_status (st now : Z) (pi : string) (x : Row) : Row :=
  mkRow (r_merchant x) (r_txn x) (r_order x) (r_amount x) (r_currency x) st (r_method x)
    (coalesce_nullif pi (r_pi x)) (r_session x) (r_created x) (ts_store now).

Definition set_checkout (sess pi : string) (now : Z) (x : Row) : Row :=
  mkRow (r_merchant x) (r_txn x) (r_order x) (r_amount x) (r_currency x) (r_status x) (r_method x)
    (coalesce_nullif pi (r_pi x)) (coalesce_nullif sess (r_session x)) (r_created x) (ts_store now).

Definition affected (ctx : string) (res : result Z) : result unit :=
  match res with
  | Err e => Err (Wrap ctx e)
  | Ok n => if n =? 0 then Err (Sentinel ErrNotFound) else Ok tt
  end.

Definition UpdateStatus (shardIdx : Z) (merchantID orderID status pi : string) : ST Db (result unit) :=
  match ValidateOrderID orderID with
  | Err e => ret (Err e)
  | Ok _ =>
      match encodeStatus status with
      | Err e => ret (Err e)
      | Ok st =>
          match route r shardIdx with
          | Err e => ret (Err e)
          | Ok h =>
              (let! now := Now in
               let! res := exec h (sql_update (by_order merchantID orderID) (set_status st now pi)) in
               ret (affected "update status" res))%easypay
          end
      end
  end.

Definition UpdateCheckout (shardIdx : Z) (merchantID orderID sessionID piID : string)
    : ST Db (result unit) :=
  match ValidateOrderID orderID with
  | Err e => ret (Err e)
  | Ok _ =>
      match route r shardIdx with
      | Err e => ret (Err e)
      | Ok h =>
          (let! now := Now in
           let! res := exec h (sql_update (by_order merchantID orderID) (set_checkout sessionID piID now)) in
           ret (affected "update checkout" res))%easypay
      end
  end.

Definition stuck_row (cutoff : Z) (x : Row) : bool :=
  ((r_status x =? statusCreated) || (r_status x =? statusPending)) && (r_created x <? cutoff).

(** One goroutine's result: every row scanned and stamped, or the first
    error. *)
Fixpoint scanAll (logical : Z) (rows : list Row) : result (list Transaction) :=
  match rows with
  | [] => Ok []
  | x :: rest =>
      match scanTransaction x with
      | Err e => Err (Wrap "scan shard" e)
      | Ok t => match scanAll logical rest with
                | Err e => Err e
                | Ok ts => Ok (with_shard logical t :: ts)
                end
      end
  end.

Definition shardPending (logical : Z) (q : result (list Row)) : result (list Transaction) :=
  match q with
  | Err e => Err (Wrap "query pending shard" e)
  | Ok rows => scanAll logical rows
  end.

(** The collecting loop: all rows in arrival order, or the first error. *)
Fixpoint gather (results : list (result (list Transaction))) (arrival : list nat)
    (all : list Transaction) (firstErr : option error) : result (list Transaction) :=
  match arrival with
  | [] => match firstErr with Some e => Err e | None => Ok all end
  | i :: rest =>
      match results !! i with
      | Some (Ok ts) => gather results rest (all ++ ts) firstErr
      | Some (Err e) => gather results rest all (match firstErr with Some _ => firstErr | None => Some e end)
      | None => Err (Text "panic: channel")
      end
  end.

Definition GetPendingBefore (before limit : Z) : ST Db (result (list Transaction)) :=
  if limit <=? 0 then ret (Ok [])
  else
    (let hs := All r in
     let logical := physicalToFirstLogical r (Z.of_nat (length hs)) in
     let! qs := queryAll hs (sql_select_oldest (stuck_row before) limit) in
     let! arrival := NextArrival (length hs) in
     ret (match gather (zip_with shardPending logical qs) arrival [] None with
          | Err e => Err e
          | Ok all => Ok (take (Z.to_nat limit) (sortTransactionsByCreatedAt all))
          end))%easypay.
End Operations.
