(* ===== verification/TransactionTables.v ===== *)
(** * Invariants of the transactions tables

    The well-formedness of a table, what no repository call can change about a
    stored payment, and their preservation by every call, under every schedule
    of faults, clock readings and goroutine arrivals. *)

From S2P Require Import Prelude GoStrings Domain Codec Config ShardRouter TransactionRepo.
Local Open Scope Z_scope.

(** ** Observing the tables *)

Definition tables (d : Db) : list (list Row) := p_rows <$> d_pools d.

(** The answer of a statement that could not complete. *)
Definition io_error {A} (a : result A) : Prop := exists o, a = Err (outage_error o).

Lemma exec_spec {A} h (stmt : list Row -> result A * list Row) d a d' :
  exec h stmt d = (a, d') ->
  (tables d' = tables d /\ io_error a) \/
  exists rows, tables d !! h = Some rows /\ tables d' = <[h := (stmt rows).2]> (tables d) /\
    (a = (stmt rows).1 \/ io_error a).
Proof.
  unfold exec, tables. destruct (d_pools d !! h) as [p|] eqn:Ep.
  2: { intros [= <- <-]. left. split; [done|]. by eexists (DriverError _). }
  assert (Hsame : <[h := p_rows p]> (p_rows <$> d_pools d) = p_rows <$> d_pools d).
  { apply list_insert_id. by rewrite list_lookup_fmap, Ep. }
  destruct (stmt (p_rows p)) as [b rows'] eqn:Es.
  destruct (default NoFault _); intros [= <- <-]; cbn; rewrite list_fmap_insert; cbn.
  - right. exists (p_rows p). rewrite list_lookup_fmap, Ep, Es. by split_and!; [| |left].
  - left. rewrite Hsame. split; [done|by eexists].
  - right. exists (p_rows p). rewrite list_lookup_fmap, Ep, Es. split_and!; [done|done|].
    right. by eexists.
Qed.

(** A reflexive relation kept by the statement is kept between the tables. *)
Lemma exec_related {A} (R : relation (list Row)) `{!Reflexive R} h (stmt : list Row -> result A * list Row) d :
  (forall rows, tables d !! h = Some rows -> R rows (stmt rows).2) ->
  Forall2 R (tables d) (tables (exec h stmt d).2).
Proof.
  intros HR. destruct (exec h stmt d) as [a d'] eqn:E. cbn.
  apply exec_spec in E as [[-> _]|(rows & Hr & -> & _)]; [done|].
  rewrite <- (list_insert_id (tables d) h rows) at 1 by done.
  apply Forall2_insert; [done|by apply HR].
Qed.

Lemma Now_tables d : tables (Now d).2 = tables d.
Proof. unfold Now. destruct (d_clock d) as [|t [|t' ts]]; done. Qed.

Lemma NextArrival_tables n d : tables (NextArrival n d).2 = tables d.
Proof. unfold NextArrival. by destruct (d_arrivals d). Qed.

Lemma NextArrival_perm n d : (NextArrival n d).1 ≡ₚ seq 0 n.
Proof. unfold NextArrival. destruct (d_arrivals d); cbn; [done|]. by case_bool_decide. Qed.

(** ** Well-formed tables *)

Definition nonempty_opt (w : Z) (o : option string) : Prop := forall s, o = Some s -> s <> "" /\ len s <= w.

Record wf_row (x : Row) : Prop := {
  wr_merchant : len (r_merchant x) <= 16;
  wr_txn : String.length (r_txn x) = 16%nat;
  wr_order : ValidateOrderID (r_order x) = Ok tt;
  wr_amount : 0 <= r_amount x < 2 ^ 63;
  wr_currency : is_ok (decodeCurrency (r_currency x)) = true;
  wr_status : is_ok (decodeStatus (r_status x)) = true;
  wr_pi : nonempty_opt 64 (r_pi x);
  wr_session : nonempty_opt 96 (r_session x);
}.

Definition wf_table (rows : list Row) : Prop := NoDup (r_txn <$> rows) /\ Forall wf_row rows.

Lemma fits_nonempty w o : (forall s, o = Some s -> s <> "") -> fits w o = true -> nonempty_opt w o.
Proof. intros Hne Hf s ->. split; [by apply Hne|]. cbn in Hf. lia. Qed.

Lemma row_fits_iff x : row_fits x = true <-> fits 64 (r_pi x) = true /\ fits 96 (r_session x) = true.
Proof. apply andb_true_iff. Qed.

Lemma sql_insert_wf x rows :
  (row_fits x = true -> wf_row x) -> wf_table rows -> wf_table (sql_insert x rows).2.
Proof.
  intros Hx [Hnd Hall]. unfold sql_insert. destruct (row_fits x) eqn:Ef; [|done]. cbn [negb].
  destruct (List.existsb _ rows) eqn:Ee; [done|]. split.
  - apply NoDup_fmap_snoc; [done|]. intros y Hy Heq.
    apply Bool.not_true_iff_false in Ee. apply Ee, List.existsb_exists.
    exists y. rewrite bool_decide_true by done. by rewrite <- list_elem_of_In.
  - apply Forall_app. split; [done|]. constructor; [by apply Hx|done].
Qed.

(** An UPDATE that keeps the key and well-formedness of the rows it fits. *)
Lemma sql_update_wf p f rows :
  (forall x, r_txn (f x) = r_txn x) ->
  (forall x, wf_row x -> row_fits (f x) = true -> wf_row (f x)) ->
  wf_table rows -> wf_table (sql_update p f rows).2.
Proof.
  intros Htxn Hf [Hnd Hall]. unfold sql_update. destruct (List.existsb _ rows) eqn:Ee; [done|].
  cbn [snd]. split.
  - rewrite <- list_fmap_compose. erewrite list_fmap_ext; [exact Hnd|].
    intros _ x _. cbn. destruct (p x); [apply Htxn|done].
  - apply Forall_fmap. rewrite Forall_forall in Hall |- *. intros x Hx. cbn.
    destruct (p x) eqn:Ep; [|by apply Hall]. apply Hf; [by apply Hall|].
    apply Bool.not_true_iff_false in Ee.
    destruct (row_fits (f x)) eqn:Ef; [done|]. exfalso. apply Ee, List.existsb_exists.
    exists x. rewrite Ep, Ef. split; [by apply list_elem_of_In|done].
Qed.

Lemma nullBytes_nonempty s t : nullBytes s = Some t -> t <> "".
Proof. unfold nullBytes. case_bool_decide; [done|]. by intros [= <-]. Qed.

Lemma coalesce_nonempty w v o t :
  nonempty_opt w o -> coalesce_nullif v o = Some t -> t <> "".
Proof.
  intros Ho. unfold coalesce_nullif. case_bool_decide; [intros Hs; by apply Ho|by intros [= <-]].
Qed.

Section Preservation.
Context `{Unicode} `{MySQL}.
Variable r : multiShardRouter.

Lemma encodeChecks_Ok t txn cur st :
  encodeChecks t = Ok (txn, cur, st) ->
  len (t_MerchantID t) <= 16 /\ decodeHex16 (t_TransactionID t) = Ok txn /\
  ValidateOrderID (t_OrderID t) = Ok tt /\ 0 <= t_Amount t /\
  encodeCurrency (t_Currency t) = Ok cur /\ encodeStatus (t_Status t) = Ok st.
Proof.
  unfold encodeChecks. destruct (Z.ltb_spec 16 (len (t_MerchantID t))); [done|].
  destruct (decodeHex16 _) as [b|]; [|done].
  destruct (ValidateOrderID _) as [[]|]; [|done].
  destruct (Z.ltb_spec (t_Amount t) 0); [done|].
  destruct (encodeCurrency _); [|done]. destruct (encodeStatus _); [|done].
  intros [= <- <- <-]. by split_and!; try lia.
Qed.

Lemma encodeRow_wf t c u txn cur st pm :
  int64_range (t_Amount t) -> encodeChecks t = Ok (txn, cur, st) ->
  row_fits (encodeRow (with_times c u t) txn cur st pm) = true ->
  wf_row (encodeRow (with_times c u t) txn cur st pm).
Proof.
  intros Hr (Hm & Htxn & Ho & Ha & Hc & Hs)%encodeChecks_Ok [Hf1 Hf2]%row_fits_iff.
  assert (Ha' : 0 <= u64 (t_Amount t) < 2 ^ 63).
  { clear - Hr Ha. unfold int64_range in Hr. rewrite u64_small; [lia|unfold uint64_range; lia]. }
  split; [done| |done|done| | | |].
  - by apply decodeHex16_Ok in Htxn as [? _].
  - cbn. by apply encodeCurrency_decode in Hc as ->.
  - cbn. by apply decodeStatus_encodeStatus in Hs as ->.
  - apply fits_nonempty; [apply nullBytes_nonempty|done].
  - apply fits_nonempty; [apply nullBytes_nonempty|done].
Qed.

Lemma set_status_wf st now pi x :
  is_ok (decodeStatus st) = true -> wf_row x -> row_fits (set_status st now pi x) = true ->
  wf_row (set_status st now pi x).
Proof.
  intros Hst [] [Hf1 Hf2]%row_fits_iff. split; try assumption.
  apply fits_nonempty; [|assumption]. intros s. by apply coalesce_nonempty with 64.
Qed.

Lemma set_checkout_wf sess pi now x :
  wf_row x -> row_fits (set_checkout sess pi now x) = true -> wf_row (set_checkout sess pi now x).
Proof.
  intros [] [Hf1 Hf2]%row_fits_iff. split; try assumption.
  - apply fits_nonempty; [|assumption]. intros s. by apply coalesce_nonempty with 64.
  - apply fits_nonempty; [|assumption]. intros s. by apply coalesce_nonempty with 96.
Qed.
End Preservation.

(** ** What no call changes about a payment *)

Record same_payment (x y : Row) : Prop := {
  sp_merchant : r_merchant y = r_merchant x;
  sp_txn : r_txn y = r_txn x;
  sp_order : r_order y = r_order x;
  sp_amount : r_amount y = r_amount x;
  sp_currency : r_currency y = r_currency x;
  sp_method : r_method y = r_method x;
  sp_created : r_created y = r_created x;
  sp_pi : is_Some (r_pi x) -> is_Some (r_pi y);
  sp_session : is_Some (r_session x) -> is_Some (r_session y);
}.

#[global] Instance same_payment_preorder : PreOrder same_payment.
Proof.
  split.
  - intros x. by split.
  - intros x y z [] []. split; congruence || auto.
Qed.

(** The table only grows at its end, and its rows keep their payment. *)
Definition evolves (rows rows' : list Row) : Prop :=
  exists upd ext, rows' = upd ++ ext /\ Forall2 same_payment rows upd.

#[global] Instance evolves_preorder : PreOrder evolves.
Proof.
  split.
  - intros rows. exists rows, []. by rewrite app_nil_r.
  - intros a b c (u1 & e1 & -> & H1) (u2 & e2 & -> & H2).
    apply Forall2_app_inv_l in H2 as (u2a & u2b & Ha & Hb & ->).
    exists u2a, (u2b ++ e2). split; [by rewrite app_assoc|]. by etrans.
Qed.

Lemma sql_insert_evolves x rows : evolves rows (sql_insert x rows).2.
Proof.
  unfold sql_insert. repeat case_match; cbn; try done.
  exists rows, [x]. split; [done|done].
Qed.

Lemma sql_update_evolves p f rows :
  (forall x, same_payment x (f x)) -> evolves rows (sql_update p f rows).2.
Proof.
  intros Hf. unfold sql_update. case_match; cbn; [done|].
  eexists _, []. rewrite app_nil_r. split; [done|].
  apply Forall2_fmap_r, Forall_Forall2_diag, Forall_true. intros x.
  cbn. destruct (p x); [apply Hf|reflexivity].
Qed.

Lemma coalesce_is_Some v o : is_Some o -> is_Some (coalesce_nullif v o).
Proof. unfold coalesce_nullif. case_bool_decide; [done|]. by eexists. Qed.

Lemma set_status_same `{MySQL} st now pi x : same_payment x (set_status st now pi x).
Proof. split; cbn; auto using coalesce_is_Some. Qed.

Lemma set_checkout_same `{MySQL} sess pi now x : same_payment x (set_checkout sess pi now x).
Proof. split; cbn; auto using coalesce_is_Some. Qed.

(** ** Calls as steps *)

(** The calls of the [TransactionRepository] interface. *)
Inductive call : Type :=
  | CInsert (t : Transaction)
  | CGetByTransactionID (s : Z) (m x : string)
  | CGetByMerchantOrderID (s : Z) (m o : string)
  | CGetByOrderIDAny (o : string)
  | CGetByPaymentIntentID (pi : string)
  | CUpdateStatus (s : Z) (m o st pi : string)
  | CUpdateCheckout (s : Z) (m o sess pi : string)
  | CGetPendingBefore (before limit : Z).

(** A transaction handed to [Insert] carries an int64 amount. *)
Definition call_ok (c : call) : Prop :=
  match c with CInsert t => int64_range (t_Amount t) | _ => True end.

Section Steps.
Context `{Unicode} `{MySQL}.
Variable r : multiShardRouter.

Definition run_call (c : call) (d : Db) : Db :=
  match c with
  | CInsert t => (Insert r t d).2
  | CGetByTransactionID s m x => (GetByTransactionID r s m x d).2
  | CGetByMerchantOrderID s m o => (GetByMerchantOrderID r s m o d).2
  | CGetByOrderIDAny o => (GetByOrderIDAny r o d).2
  | CGetByPaymentIntentID pi => (GetByPaymentIntentID r pi d).2
  | CUpdateStatus s m o st pi => (UpdateStatus r s m o st pi d).2
  | CUpdateCheckout s m o sess pi => (UpdateCheckout r s m o sess pi d).2
  | CGetPendingBefore b l => (GetPendingBefore r b l d).2
  end.

(** One step of the system: some client's call, or a change of the schedules
    (time passes, a connection breaks or heals). *)
Inductive db_step : Db -> Db -> Prop :=
  | step_call c d : call_ok c -> db_step d (run_call c d)
  | step_env d d' : tables d' = tables d -> db_step d d'.

Lemma bind_snd {A B} (m : ST Db A) (k : A -> ST Db B) d :
  (bind m k d).2 = (k (m d).1 (m d).2).2.
Proof. unfold bind. by destruct (m d). Qed.

(** Any relation between tables that is a preorder and is kept by the
    repository's statements is kept by every call. *)
Section Related.
Context (R : relation (list Row)) `{!PreOrder R}.
Context (P : list Row -> Prop).
Hypothesis R_insert : forall t c u txn cur st pm rows,
  int64_range (t_Amount t) -> encodeChecks t = Ok (txn, cur, st) -> P rows ->
  R rows (sql_insert (encodeRow (with_times c u t) txn cur st pm) rows).2.
Hypothesis R_status : forall p st now pi rows,
  is_ok (decodeStatus st) = true -> P rows -> R rows (sql_update p (set_status st now pi) rows).2.
Hypothesis R_checkout : forall p sess pi now rows,
  P rows -> R rows (sql_update p (set_checkout sess pi now) rows).2.

Lemma exec_kept {A} h (stmt : list Row -> result A * list Row) d d0 :
  tables d = tables d0 -> Forall P (tables d0) ->
  (forall rows, P rows -> R rows (stmt rows).2) ->
  Forall2 R (tables d0) (tables (exec h stmt d).2).
Proof.
  intros <- HP HR. apply exec_related; [apply _|]. intros rows Hrows.
  apply HR. by eapply Forall_lookup_1.
Qed.

Lemma queryAll_tables {A} hs (stmt : list Row -> result A * list Row) d :
  (forall rows, (stmt rows).2 = rows) -> tables (queryAll hs stmt d).2 = tables d.
Proof.
  intros Hs. revert d. induction hs as [|h hs IH]; intros d; [done|].
  cbn [queryAll]. rewrite !bind_snd. cbn [ret snd]. rewrite IH.
  destruct (exec h stmt d) as [a d'] eqn:E. cbn.
  apply exec_spec in E as [[-> _]|(rows & Hr & -> & _)]; [done|].
  rewrite Hs. by apply list_insert_id.
Qed.

Lemma read_kept {A} h (stmt : list Row -> result A * list Row) d :
  (forall rows, (stmt rows).2 = rows) -> tables (exec h stmt d).2 = tables d.
Proof.
  intros Hs. pose proof (queryAll_tables [h] stmt d Hs) as Hq.
  cbn [queryAll] in Hq. by rewrite !bind_snd in Hq.
Qed.

Lemma scatterFirst_tables p d : tables (scatterFirst r p d).2 = tables d.
Proof.
  unfold scatterFirst. rewrite !bind_snd. cbn [ret snd].
  by rewrite NextArrival_tables, queryAll_tables.
Qed.

Lemma run_call_kept c d :
  call_ok c -> Forall P (tables d) -> Forall2 R (tables d) (tables (run_call c d)).
Proof.
  intros Hc HP. destruct c; cbn [run_call call_ok] in *.
  - unfold Insert. destruct (encodeChecks t) as [[[txn cur] st]|] eqn:Ec; [|done].
    rewrite bind_snd. destruct (route _ _) as [h|]; [|cbn [ret snd]; by rewrite Now_tables].
    rewrite bind_snd. apply exec_kept; [apply Now_tables|done|].
    intros rows. by apply R_insert.
  - unfold GetByTransactionID. repeat case_match; try done.
    rewrite bind_snd. cbn [ret snd]. by rewrite read_kept.
  - unfold GetByMerchantOrderID. repeat case_match; try done.
    rewrite bind_snd. cbn [ret snd]. by rewrite read_kept.
  - unfold GetByOrderIDAny. case_match; [|done]. by rewrite scatterFirst_tables.
  - unfold GetByPaymentIntentID. case_match; [done|]. by rewrite scatterFirst_tables.
  - unfold UpdateStatus. case_match; [|done]. destruct (encodeStatus st) as [v|] eqn:Es; [|done].
    case_match; [|done]. rewrite !bind_snd. cbn [ret snd].
    apply exec_kept; [apply Now_tables|done|]. intros rows. apply R_status.
    by apply decodeStatus_encodeStatus in Es as ->.
  - unfold UpdateCheckout. do 2 (case_match; [|done]). rewrite !bind_snd. cbn [ret snd].
    apply exec_kept; [apply Now_tables|done|]. intros rows. apply R_checkout.
  - unfold GetPendingBefore. case_match; [done|]. rewrite !bind_snd. cbn [ret snd].
    by rewrite NextArrival_tables, queryAll_tables.
Qed.
End Related.

(** Every step keeps the tables well formed ... *)
Lemma step_wf d d' : db_step d d' -> Forall wf_table (tables d) -> Forall wf_table (tables d').
Proof.
  intros [c d0 Hc|d0 d0' Ht] Hwf; [|by rewrite Ht].
  assert (HR : Forall2 (fun a b => wf_table a -> wf_table b) (tables d0) (tables (run_call c d0))).
  { apply run_call_kept with (P := fun _ => True); [split; [by intros ?|intros ???; tauto]|..|done|by apply Forall_true].
    - intros t cr u txn cur st pm rows Ha He _. apply sql_insert_wf. by apply encodeRow_wf.
    - intros p st now pi rows Hst _. apply sql_update_wf; [done|]. intros x. by apply set_status_wf.
    - intros p sess pi now rows _. apply sql_update_wf; [done|]. intros x. by apply set_checkout_wf. }
  clear Hc. induction HR as [|a b l k Hab HR IH]; inversion Hwf; subst; constructor; auto.
Qed.

(** ... and lets them evolve by appending payments and updating the
    changeable columns only. *)
Lemma step_evolves d d' : db_step d d' -> Forall2 evolves (tables d) (tables d').
Proof.
  intros [c d0 Hc|d0 d0' Ht]; [|by rewrite Ht].
  apply run_call_kept with (P := fun _ => True); [apply _|..|done|by apply Forall_true].
  - intros. apply sql_insert_evolves.
  - intros. apply sql_update_evolves. intros x. apply set_status_same.
  - intros. apply sql_update_evolves. intros x. apply set_checkout_same.
Qed.
End Steps.

(** ** Properties *)

Section TableTheorems.
Context `{Unicode} `{MySQL}.

Lemma reachable_wf r d d' :
  rtc (db_step r) d d' -> Forall wf_table (tables d) -> Forall wf_table (tables d').
Proof. induction 1; eauto using step_wf. Qed.

(** C15. Whatever calls clients make on the repository, in any interleaving
    and under any faults, a system started with empty tables keeps at most
    one row per transaction id in each pool, and every stored row satisfies
    the constraints of the schema and decodes without error. *)
Theorem reachable_tables_wf r d d' rows :
  rtc (db_step r) d d' -> Forall (fun t => t = []) (tables d) -> rows ∈ tables d' ->
  NoDup (r_txn <$> rows) /\
  Forall (fun x => wf_row x /\ is_ok (scanTransaction x) = true) rows.
Proof.
  intros Hr Hd Hin.
  assert (Hwf : Forall wf_table (tables d')).
  { eapply reachable_wf; [done|]. eapply Forall_impl; [done|]. intros ? ->.
    split; [apply NoDup_nil_2|by constructor]. }
  rewrite Forall_forall in Hwf. destruct (Hwf rows Hin) as [Hnd Hall]. split; [done|].
  eapply Forall_impl; [done|]. intros x Hx. split; [done|].
  unfold scanTransaction. destruct Hx as [_ _ _ _ Hc Hs _ _].
  destruct (decodeCurrency _); [|done]. by destruct (decodeStatus _).
Qed.

(** No sequence of repository calls removes a payment or changes its
    merchant, order, transaction id, amount, currency, method or creation
    time, and a Stripe session or payment intent, once recorded, is never
    lost: tables only grow at their end. *)
Theorem reachable_tables_evolve r d d' :
  rtc (db_step r) d d' -> Forall2 evolves (tables d) (tables d').
Proof.
  induction 1 as [d|d1 d2 d3 Hs _ IH]; [done|].
  etrans; [by apply step_evolves with (r := r)|done].
Qed.
End TableTheorems.
