(* ===== verification/TransactionStore.v ===== *)
(** * What the services rely on from the transactions repository

    [TransactionRepository] is the Go interface of the same name.
    [TransactionStore] states the contract the services' theorems use: the
    repository behaves as a list of payments per shard, every failed call
    leaves that list either untouched or as if the call had succeeded (the
    answer of a committed statement can be lost), and a successful call has the
    effect the list shows.  TransactionRefines proves it of the SQL
    repository. *)

From S2P Require Import Prelude GoStrings Domain.
Local Open Scope Z_scope.

Class TransactionRepository (D : Type) : Type := {
  repo_Insert : Transaction -> ST D (Transaction * result unit);
  repo_GetByTransactionID : Z -> string -> string -> ST D (result Transaction);
  repo_GetByMerchantOrderID : Z -> string -> string -> ST D (result Transaction);
  repo_UpdateStatus : Z -> string -> string -> string -> string -> ST D (result unit);
  repo_UpdateCheckout : Z -> string -> string -> string -> string -> ST D (result unit);
  repo_GetByOrderIDAny : string -> ST D (result Transaction);
  repo_GetByPaymentIntentID : string -> ST D (result Transaction);
  repo_GetPendingBefore : Z -> Z -> ST D (result (list Transaction));
}.

(** ** Effects on one payment *)

Definition keep (v old : string) : string := if bool_decide (v = "") then old else v.

(** The effect of [UpdateStatus] on a payment it matches. *)
Definition put_status (st pi : string) (u : Z) (t : Transaction) : Transaction := {|
  t_MerchantID := t_MerchantID t; t_TransactionID := t_TransactionID t; t_OrderID := t_OrderID t;
  t_Amount := t_Amount t; t_Currency := t_Currency t; t_Status := st;
  t_PaymentMethod := t_PaymentMethod t; t_StripeSessionID := t_StripeSessionID t;
  t_StripePaymentIntentID := keep pi (t_StripePaymentIntentID t);
  t_CreatedAt := t_CreatedAt t; t_UpdatedAt := u; t_ShardIndex := t_ShardIndex t |}.

(** The effect of [UpdateCheckout] on a payment it matches. *)
Definition put_checkout (sess pi : string) (u : Z) (t : Transaction) : Transaction := {|
  t_MerchantID := t_MerchantID t; t_TransactionID := t_TransactionID t; t_OrderID := t_OrderID t;
  t_Amount := t_Amount t; t_Currency := t_Currency t; t_Status := t_Status t;
  t_PaymentMethod := t_PaymentMethod t; t_StripeSessionID := keep sess (t_StripeSessionID t);
  t_StripePaymentIntentID := keep pi (t_StripePaymentIntentID t);
  t_CreatedAt := t_CreatedAt t; t_UpdatedAt := u; t_ShardIndex := t_ShardIndex t |}.

Section Contract.
Context {D : Type}.
Variables (content : D -> Z -> list Transaction) (key_eq : string -> string -> bool).

Definition by_txn (m x : string) (t : Transaction) : bool :=
  key_eq (t_MerchantID t) m && bool_decide (t_TransactionID t = smap lower x).
Definition by_key (m o : string) (t : Transaction) : bool :=
  key_eq (t_MerchantID t) m && key_eq (t_OrderID t) o.

(** A read: nothing changes; a value is the first match, and "not found" is
    only said when there is none. *)
Definition read_contract (s : Z) (p : Transaction -> bool) (d d' : D) (res : result Transaction) : Prop :=
  (forall s', content d' s' = content d s') /\
  match res with
  | Ok t => List.find p (content d s) = Some t
  | Err e => errIs e ErrNotFound = true -> List.find p (content d s) = None
  end.

(** An update of the payments that satisfy [p]. *)
Definition update_contract (s : Z) (p : Transaction -> bool) (f : Z -> Transaction -> Transaction)
    (d d' : D) (res : result unit) : Prop :=
  let done := exists u, content d' s = (fun t => if p t then f u t else t) <$> content d s in
  match res with
  | Ok _ => done /\ exists t, t ∈ content d s /\ p t = true
  | Err e =>
      (content d' s = content d s \/ done) /\
      (errIs e ErrNotFound = true ->
         content d' s = content d s /\ List.find p (content d s) = None)
  end.
End Contract.

Class TransactionStore (D : Type) `{TransactionRepository D} : Type := {
  (** states the repository can be in *)
  store_inv : D -> Prop;
  (** the payments of a shard, oldest insertion first *)
  content : D -> Z -> list Transaction;
  (** how the database compares merchant ids and order ids *)
  key_eq : string -> string -> bool;
  key_eq_refl s : key_eq s s = true;
  (** the payment a later read returns for an inserted one *)
  stored : Transaction -> Transaction;
  stored_spec t :
    t_MerchantID (stored t) = t_MerchantID t /\ t_OrderID (stored t) = t_OrderID t /\
    t_TransactionID (stored t) = smap lower (t_TransactionID t) /\
    t_Status (stored t) = t_Status t /\ t_StripeSessionID (stored t) = t_StripeSessionID t /\
    t_StripePaymentIntentID (stored t) = t_StripePaymentIntentID t /\
    t_ShardIndex (stored t) = t_ShardIndex t /\
    (t_PaymentMethod t = "crypto_eth" -> t_PaymentMethod (stored t) = "crypto_eth") /\
    (isASCII (t_Currency t) = true -> t_Currency (stored t) = smap upper (t_Currency t)) /\
    (0 <= t_Amount t < 2 ^ 63 -> t_Amount (stored t) = t_Amount t);

  content_unique d s : store_inv d -> NoDup (t_TransactionID <$> content d s);

  insert_law d t t' res d' :
    store_inv d -> int64_range (t_Amount t) -> repo_Insert t d = ((t', res), d') ->
    store_inv d' /\
    (exists c u, t' = {| t_MerchantID := t_MerchantID t; t_TransactionID := t_TransactionID t;
       t_OrderID := t_OrderID t; t_Amount := t_Amount t; t_Currency := t_Currency t;
       t_Status := t_Status t; t_PaymentMethod := t_PaymentMethod t;
       t_StripeSessionID := t_StripeSessionID t;
       t_StripePaymentIntentID := t_StripePaymentIntentID t;
       t_CreatedAt := c; t_UpdatedAt := u; t_ShardIndex := t_ShardIndex t |}) /\
    match res with
    | Ok _ =>
        0 <= t_Amount t /\
        content d' (t_ShardIndex t) = content d (t_ShardIndex t) ++ [stored t']
    | Err _ =>
        content d' (t_ShardIndex t) = content d (t_ShardIndex t) \/
        content d' (t_ShardIndex t) = content d (t_ShardIndex t) ++ [stored t']
    end;

  get_txn_law d s m x res d' :
    store_inv d -> repo_GetByTransactionID s m x d = (res, d') ->
    store_inv d' /\ read_contract content s (by_txn key_eq m x) d d' res;

  get_order_law d s m o res d' :
    store_inv d -> repo_GetByMerchantOrderID s m o d = (res, d') ->
    store_inv d' /\ read_contract content s (by_key key_eq m o) d d' res;

  update_status_law d s m o st pi res d' :
    store_inv d -> repo_UpdateStatus s m o st pi d = (res, d') ->
    store_inv d' /\
    update_contract content s (by_key key_eq m o) (put_status st pi) d d' res;

  update_checkout_law d s m o sess pi res d' :
    store_inv d -> repo_UpdateCheckout s m o sess pi d = (res, d') ->
    store_inv d' /\
    update_contract content s (by_key key_eq m o) (put_checkout sess pi) d d' res;

  (** the cross-shard reads change nothing; what they find is a payment of the
      shard it is stamped with *)
  get_any_law d o res d' :
    store_inv d -> repo_GetByOrderIDAny o d = (res, d') ->
    store_inv d' /\ (forall s, content d' s = content d s) /\
    match res with
    | Ok t => t ∈ content d (t_ShardIndex t) /\ key_eq (t_OrderID t) o = true
    | Err _ => True
    end;

  get_pi_law d pi res d' :
    store_inv d -> repo_GetByPaymentIntentID pi d = (res, d') ->
    store_inv d' /\ (forall s, content d' s = content d s) /\
    match res with
    | Ok t => t ∈ content d (t_ShardIndex t) /\ t_StripePaymentIntentID t = pi
    | Err _ => True
    end;

  pending_law d before limit res d' :
    store_inv d -> repo_GetPendingBefore before limit d = (res, d') ->
    store_inv d' /\ forall s, content d' s = content d s;
}.
