(* ===== verification/TransactionRefines.v ===== *)
(** * The SQL repository implements the store contract

    The abstraction function decodes the table a shard is routed to; the
    instance at the end discharges every law of [TransactionStore]. *)

From S2P Require Import Prelude GoStrings Domain Codec Config ShardRouter TransactionRepo TransactionTables TransactionStore.
Local Open Scope Z_scope.

(** ** The abstraction function *)

Definition rowView (s : Z) (x : Row) : option Transaction :=
  match scanTransaction x with Ok t => Some (with_shard s t) | Err _ => None end.

Definition shard_rows (r : multiShardRouter) (d : Db) (s : Z) : list Row :=
  match route r s with Ok h => default [] (tables d !! h) | Err _ => [] end.

Definition sql_content (r : multiShardRouter) (d : Db) (s : Z) : list Transaction :=
  omap (rowView s) (shard_rows r d s).

Definition sql_inv (d : Db) : Prop := Forall wf_table (tables d).

Lemma shard_rows_wf r d s : sql_inv d -> wf_table (shard_rows r d s).
Proof.
  unfold shard_rows, sql_inv. intros Hd.
  assert (Hnil : wf_table []) by (split; [apply NoDup_nil_2|by constructor]).
  destruct (route r s) as [h|]; [|done].
  destruct (tables d !! h) as [rows|] eqn:E; [|done]. by eapply Forall_lookup_1.
Qed.

Lemma rowView_wf s x : wf_row x -> exists t, scanTransaction x = Ok t /\ rowView s x = Some (with_shard s t).
Proof.
  intros [_ _ _ _ Hc Hs _ _]. unfold rowView, scanTransaction.
  destruct (decodeCurrency _); [|done]. destruct (decodeStatus _); [|done].
  by eexists.
Qed.

Lemma scanTransaction_inv x t :
  scanTransaction x = Ok t ->
  t_MerchantID t = r_merchant x /\ t_TransactionID t = hexLower (r_txn x) /\
  t_OrderID t = r_order x /\ t_Amount t = i64 (r_amount x) /\
  decodeCurrency (r_currency x) = Ok (t_Currency t) /\ decodeStatus (r_status x) = Ok (t_Status t) /\
  t_StripePaymentIntentID t = default "" (r_pi x) /\ t_StripeSessionID t = default "" (r_session x) /\
  t_CreatedAt t = r_created x.
Proof.
  unfold scanTransaction. destruct (decodeCurrency _) as [cur|]; [|done].
  destruct (decodeStatus _) as [st|]; [|done]. by intros [= <-].
Qed.

Lemma rowView_inv s x t :
  rowView s x = Some t ->
  t_MerchantID t = r_merchant x /\ t_TransactionID t = hexLower (r_txn x) /\ t_OrderID t = r_order x.
Proof.
  unfold rowView. destruct (scanTransaction x) as [t0|] eqn:E; [|done]. intros [= <-].
  apply scanTransaction_inv in E as (? & ? & ? & _). done.
Qed.

#[global] Instance hexLower_inj : Inj (=) (=) hexLower.
Proof.
  intros a b Hab. rewrite !hexLower_hexEncode in Hab.
  apply (f_equal hexDecode) in Hab. rewrite !hexDecode_encode in Hab. by injection Hab.
Qed.

(** ** Lists of views *)

Lemma find_omap {A B} (v : A -> option B) (p : A -> bool) (q : B -> bool) (l : list A) :
  Forall (fun x => exists t, v x = Some t /\ q t = p x) l ->
  List.find q (omap v l) = List.find p l ≫= v.
Proof.
  induction 1 as [|x l (t & Hv & Hq) _ IH]; [done|]. cbn. rewrite Hv. cbn. rewrite Hq.
  by destruct (p x).
Qed.

Lemma omap_update {A B} (v : A -> option B) (p : A -> bool) (f : A -> A) (q : B -> bool) (g : B -> B) l :
  Forall (fun x => exists t, v x = Some t /\ q t = p x /\ (p x = true -> v (f x) = Some (g t))) l ->
  omap v ((fun x => if p x then f x else x) <$> l) = (fun t => if q t then g t else t) <$> omap v l.
Proof.
  induction 1 as [|x l (t & Hv & Hq & Hg) _ IH]; [done|]. cbn. rewrite Hv. cbn. rewrite Hq.
  destruct (p x) eqn:Ep; [rewrite Hg by done|rewrite Hv]; by f_equal.
Qed.

Lemma wf_table_views s (p : Row -> bool) (q : Transaction -> bool) rows :
  wf_table rows -> (forall x t, rowView s x = Some t -> q t = p x) ->
  Forall (fun x => exists t, rowView s x = Some t /\ q t = p x) rows.
Proof.
  intros [_ Hwf] Hpq. eapply Forall_impl; [done|]. intros x Hx.
  destruct (rowView_wf s x Hx) as (t & _ & Hv). eauto.
Qed.

(** ** Reads *)

Section Reads.
Context (r : multiShardRouter).

Lemma select_contract s h (p : Row -> bool) (q : Transaction -> bool) d res d' :
  sql_inv d -> route r s = Ok h -> (forall x t, rowView s x = Some t -> q t = p x) ->
  exec h (sql_select1 p) d = (res, d') ->
  sql_inv d' /\ read_contract (sql_content r) s q d d'
    (match scanRow res with Ok t => Ok (with_shard s t) | Err e => Err e end).
Proof.
  intros Hd Hs Hpq Hex.
  assert (Ht : tables d' = tables d).
  { pose proof (read_kept h (sql_select1 p) d) as Hk. rewrite Hex in Hk. by apply Hk. }
  split; [unfold sql_inv; by rewrite Ht|]. split.
  { intros s'. unfold sql_content, shard_rows. by rewrite Ht. }
  pose proof (shard_rows_wf r d s Hd) as Hwf.
  pose proof (find_omap (rowView s) p q _ (wf_table_views s p q _ Hwf Hpq)) as Hfind.
  unfold sql_content. rewrite Hfind. unfold shard_rows in *. rewrite Hs in *.
  apply exec_spec in Hex as [[_ [o ->]]|(rows & Hr & _ & Hres)].
  { cbn. by destruct o. }
  rewrite Hr in *. cbn [default] in *.
  destruct Hres as [->|[o ->]]; [|cbn; by destruct o].
  cbn. destruct (List.find p rows) as [x|] eqn:Ef; [|done].
  apply List.find_some in Ef as [Hin _]. apply list_elem_of_In in Hin.
  destruct Hwf as [_ Hwf]. rewrite Forall_forall in Hwf.
  destruct (rowView_wf s x (Hwf x Hin)) as (t & Hsc & Hv). cbn. by rewrite Hsc, Hv.
Qed.

(** A call that stops before touching the database. *)
Lemma no_read s q d e :
  sql_inv d -> errIs e ErrNotFound = false ->
  sql_inv d /\ read_contract (sql_content r) s q d d (Err e).
Proof. intros Hd He. split; [done|]. split; [done|]. by rewrite He. Qed.

Lemma route_error s e : route r s = Err e -> errIs e ErrNotFound = false.
Proof.
  unfold route, For. destruct (Z.leb _ _); [by intros [= <-]|].
  destruct (_ !! _); cbn; [done|]. by intros [= <-].
Qed.

Lemma ValidateOrderID_error o e : ValidateOrderID o = Err e -> errIs e ErrNotFound = false.
Proof. unfold ValidateOrderID. repeat case_match; congruence || by intros [= <-]. Qed.
End Reads.

(** ** Updates *)

Section Updates.
Context (r : multiShardRouter).

Lemma update_contract_sql ctx s h (p : Row -> bool) (q : Transaction -> bool) f g d res d' :
  sql_inv d -> route r s = Ok h ->
  (forall x t, rowView s x = Some t -> q t = p x) ->
  (forall x t, rowView s x = Some t -> rowView s (f x) = Some (g t)) ->
  (forall rows, wf_table rows -> wf_table (sql_update p f rows).2) ->
  exec h (sql_update p f) d = (res, d') ->
  sql_inv d' /\
  match affected ctx res with
  | Ok _ => sql_content r d' s = (fun t => if q t then g t else t) <$> sql_content r d s /\
            exists t, t ∈ sql_content r d s /\ q t = true
  | Err e =>
      (sql_content r d' s = sql_content r d s \/
       sql_content r d' s = (fun t => if q t then g t else t) <$> sql_content r d s) /\
      (errIs e ErrNotFound = true ->
         sql_content r d' s = sql_content r d s /\ List.find q (sql_content r d s) = None)
  end.
Proof.
  intros Hd Hs Hpq Hfg Hwf' Hex. pose proof (shard_rows_wf r d s Hd) as Hwf.
  pose proof (wf_table_views s p q _ Hwf Hpq) as Hviews.
  unfold sql_content, shard_rows, sql_inv in *. rewrite Hs in *.
  apply exec_spec in Hex as [[Ht [o ->]]|(rows & Hr & Ht & Hres)].
  { rewrite Ht. cbn. split; [done|]. split; [by left|]. by destruct o. }
  rewrite Hr in *. cbn [default] in *.
  rewrite Ht, list_lookup_insert_eq by (by eapply lookup_lt_Some). cbn [default].
  split; [by apply Forall_insert; [|apply Hwf']|].
  assert (Hupd : (sql_update p f rows).2 = rows \/
    omap (rowView s) (sql_update p f rows).2 = (fun t => if q t then g t else t) <$> omap (rowView s) rows).
  { unfold sql_update. case_match; cbn; [by left|right]. apply omap_update.
    eapply Forall_impl; [exact Hviews|]. intros x (t & Hv & Hq). eauto 6. }
  destruct Hres as [->|[o ->]].
  2: { cbn. split; [destruct Hupd as [->|Hu]; [by left|by right]|]. by destruct o. }
  unfold sql_update in *. case_match; cbn in *.
  { split; [by left|done]. }
  assert (Hom : omap (rowView s) ((fun x => if p x then f x else x) <$> rows) =
    (fun t => if q t then g t else t) <$> omap (rowView s) rows).
  { apply omap_update. eapply Forall_impl; [exact Hviews|]. intros x (t & Hv & Hq). eauto 6. }
  rewrite Hom. destruct (filter (fun x => p x = true) rows) as [|x fs] eqn:Ef.
  - cbn. split; [by right|]. intros _.
    assert (Hnone : List.find p rows = None).
    { apply find_None_iff. intros x Hx. destruct (p x) eqn:Ep; [|done].
      assert (Hin : x ∈ filter (fun x => p x = true) rows) by (by apply list_elem_of_filter).
      rewrite Ef in Hin. by apply not_elem_of_nil in Hin. }
    rewrite (find_omap _ p q _ Hviews), Hnone. split; [|done].
    rewrite <- Hom. f_equal. rewrite <- (list_fmap_id rows) at 2.
    apply list_fmap_ext. intros i x Hx. cbn.
    rewrite (proj1 (find_None_iff p rows) Hnone x); [done|]. by eapply list_elem_of_lookup_2.
  - assert (Hx : x ∈ filter (fun x => p x = true) rows) by (rewrite Ef; left).
    apply list_elem_of_filter in Hx as [Hpx Hin].
    destruct (Z.eqb_spec (Z.of_nat (length (x :: fs))) 0); [cbn in *; lia|]. split; [done|].
    rewrite Forall_forall in Hviews. destruct (Hviews x Hin) as (t & Hv & Hq).
    exists t. rewrite Hq. split; [|done]. apply list_elem_of_omap. eauto.
Qed.

Lemma no_update s q f d e :
  sql_inv d -> errIs e ErrNotFound = false ->
  sql_inv d /\ update_contract (sql_content r) s q f d d (Err e).
Proof. intros Hd He. split; [done|]. split; [by left|]. by rewrite He. Qed.
End Updates.

(** ** The instance *)

(** ** Scatter-gather reads *)

(** Each pool's answer is an outage or comes from its table. *)
Lemma queryAll_spec {A} hs (stmt : list Row -> result A * list Row) d :
  (forall rows, (stmt rows).2 = rows) ->
  Forall2 (fun h a => io_error a \/ exists rows, tables d !! h = Some rows /\ a = (stmt rows).1)
    hs (queryAll hs stmt d).1.
Proof.
  intros Hs. revert d. induction hs as [|h hs IH]; intros d; [constructor|].
  cbn [queryAll]. unfold bind. pose proof (read_kept h stmt d Hs) as Ht.
  destruct (exec h stmt d) as [a d1] eqn:Ee. cbn in Ht. specialize (IH d1).
  destruct (queryAll hs stmt d1) as [xs d2]. cbn in *. rewrite Ht in IH. constructor; [|done].
  apply exec_spec in Ee as [[_ Ho]|(rows & Hr & _ & [Ha|Ho])]; eauto.
Qed.

Lemma firstMatch_Ok logical results arrival fe m t :
  firstMatch logical results arrival fe m = Ok t ->
  exists i t0, i ∈ arrival /\ results !! i = Some (Ok t0) /\ t = with_shard (default 0 (logical !! i)) t0.
Proof.
  revert fe m. induction arrival as [|i arrival IH]; intros fe m; cbn; [by case_bool_decide|].
  destruct (results !! i) as [[t0|e]|] eqn:Ei; [|destruct (errIs e ErrNotFound)|done].
  - intros [= <-]. exists i, t0. by split_and!; [left|..].
  - intros (j & t0 & Hj & ?)%IH. exists j, t0. by split; [right|].
  - intros (j & t0 & Hj & ?)%IH. exists j, t0. by split; [right|].
Qed.

Section Scatter.
Context (r : multiShardRouter).

Lemma select1_view s (p : Row -> bool) rows ans :
  wf_table rows -> ans = (sql_select1 p rows).1 ->
  match scanRow ans with
  | Ok t => exists x, x ∈ rows /\ p x = true /\ scanTransaction x = Ok t /\ rowView s x = Some (with_shard s t)
  | Err e => List.find p rows = None
  end.
Proof.
  intros [_ Hwf] ->. cbn. destruct (List.find p rows) as [x|] eqn:Ef; [|done].
  apply List.find_some in Ef as [Hin%list_elem_of_In Hp]. rewrite Forall_forall in Hwf.
  destruct (rowView_wf s x (Hwf x Hin)) as (t & Hsc & Hv). cbn. rewrite Hsc. eauto 6.
Qed.

Lemma table_wf d h rows : sql_inv d -> tables d !! h = Some rows -> wf_table rows.
Proof. intros Hd Ht. by eapply Forall_lookup_1. Qed.

(** The answers of the pools, and how they are read. *)
Lemma scatterFirst_unfold p d :
  exists rows arrival, Forall2 (fun h a => io_error a \/ exists tbl, tables d !! h = Some tbl /\ a = (sql_select1 p tbl).1)
      (pools r) rows /\ arrival ≡ₚ seq 0 (length (pools r)) /\
    (scatterFirst r p d).1 =
      firstMatch (physicalToFirstLogical r (Z.of_nat (length (pools r)))) (scanRow <$> rows) arrival None 0.
Proof.
  unfold scatterFirst, bind, ret, All.
  pose proof (queryAll_spec (pools r) (sql_select1 p) d ltac:(done)) as Hq.
  destruct (queryAll (pools r) (sql_select1 p) d) as [rows d1] eqn:Eq. cbn in Hq.
  destruct (NextArrival (length (pools r)) d1) as [arrival d2] eqn:Ea.
  exists rows, arrival. split_and!; [done| |done].
  pose proof (NextArrival_perm (length (pools r)) d1) as Hp. by rewrite Ea in Hp.
Qed.

(** A payment found by a cross-shard read is a matching row of a pool, and
    carries a logical shard that routes to that pool. *)
Lemma scatterFirst_Ok (Hr : router_ok r) p d t d' :
  sql_inv d -> scatterFirst r p d = (Ok t, d') ->
  exists h rows x t0, tables d !! h = Some rows /\ x ∈ rows /\ p x = true /\
    scanTransaction x = Ok t0 /\ t = with_shard (t_ShardIndex t) t0 /\
    For r (t_ShardIndex t) = Some (Ok h).
Proof.
  intros Hd Hs. destruct (scatterFirst_unfold p d) as (rows & arrival & Hq & Ha & Ef).
  rewrite Hs in Ef. cbn [fst] in Ef. symmetry in Ef.
  apply firstMatch_Ok in Ef as (i & t0 & Hi & Hres & Et).
  rewrite list_lookup_fmap in Hres. destruct (rows !! i) as [ans|] eqn:Ei; [|done].
  destruct (Forall2_lookup_r _ _ _ _ _ Hq Ei) as (h & Hh & [[o Ho]|(tbl & Htbl & Hans)]).
  { subst ans. cbn in Hres. destruct o; done. }
  pose proof (select1_view 0 p tbl ans (table_wf d h tbl Hd Htbl) Hans) as Hv.
  cbn in Hres. injection Hres as Hres. rewrite Hres in Hv.
  destruct Hv as (x & Hx & Hp & Hsc & _).
  assert (Hin : Z.of_nat i < Z.of_nat (length (pools r))) by (apply lookup_lt_Some in Hh; lia).
  rewrite (physicalToFirstLogical_lookup r Hr i Hin) in Et. cbn in Et.
  exists h, tbl, x, t0. subst t. cbn [t_ShardIndex with_shard].
  split; [exact Htbl|]. split; [exact Hx|]. split; [exact Hp|]. split; [exact Hsc|]. split; [reflexivity|].
  rewrite (first_logical_routes r Hr i Hin), Hh. reflexivity.
Qed.

(** In terms of the contents. *)
Lemma scatterFirst_content (Hr : router_ok r) p d t d' :
  sql_inv d -> scatterFirst r p d = (Ok t, d') ->
  t ∈ sql_content r d (t_ShardIndex t) /\
  exists x t0, p x = true /\ scanTransaction x = Ok t0 /\ t = with_shard (t_ShardIndex t) t0.
Proof.
  intros Hd Hs. destruct (scatterFirst_Ok Hr p d t d' Hd Hs) as (h & rows & x & t0 & Hrows & Hx & Hp & Hsc & Et & Hfor).
  split; [|exists x, t0; split; [exact Hp|split; [exact Hsc|exact Et]]]. unfold sql_content, shard_rows, route. rewrite Hfor, Hrows. cbn [default].
  unfold id. apply list_elem_of_omap. exists x. split; [exact Hx|]. unfold rowView. rewrite Hsc.
  apply (f_equal Some). symmetry. exact Et.
Qed.
End Scatter.

Section Instance.
Context `{Unicode} `{HM : MySQL} `{!MySQLLaws}.
Variable r : multiShardRouter.

(** What a later read returns for an inserted payment: the currency in upper
    case, the method through its code, the times at column precision. *)
Definition sql_stored (t : Transaction) : Transaction := {|
  t_MerchantID := t_MerchantID t; t_TransactionID := smap lower (t_TransactionID t);
  t_OrderID := t_OrderID t; t_Amount := i64 (u64 (t_Amount t));
  t_Currency := ToUpper (t_Currency t); t_Status := t_Status t;
  t_PaymentMethod := decodeMethod (encodeMethod (t_PaymentMethod t));
  t_StripeSessionID := t_StripeSessionID t;
  t_StripePaymentIntentID := t_StripePaymentIntentID t;
  t_CreatedAt := ts_store (t_CreatedAt t); t_UpdatedAt := ts_store (t_UpdatedAt t);
  t_ShardIndex := t_ShardIndex t |}.

#[local] Instance sql_repo : TransactionRepository Db := {|
  repo_Insert := Insert r;
  repo_GetByTransactionID := GetByTransactionID r;
  repo_GetByMerchantOrderID := GetByMerchantOrderID r;
  repo_UpdateStatus := UpdateStatus r;
  repo_UpdateCheckout := UpdateCheckout r;
  repo_GetByOrderIDAny := GetByOrderIDAny r;
  repo_GetByPaymentIntentID := GetByPaymentIntentID r;
  repo_GetPendingBefore := GetPendingBefore r |}.

Lemma default_nullBytes s : default "" (nullBytes s) = s.
Proof. unfold nullBytes. by case_bool_decide. Qed.

Lemma default_coalesce v o : default "" (coalesce_nullif v o) = keep v (default "" o).
Proof. unfold coalesce_nullif, keep. by case_bool_decide. Qed.

(** Encoding then decoding a row. *)
Lemma encodeRow_view t txn cur st :
  encodeChecks t = Ok (txn, cur, st) ->
  rowView (t_ShardIndex t) (encodeRow t txn cur st (encodeMethod (t_PaymentMethod t))) = Some (sql_stored t).
Proof.
  intros (_ & Htxn & _ & _ & Hc & Hs)%encodeChecks_Ok.
  unfold rowView, scanTransaction, encodeRow. cbn.
  rewrite (encodeCurrency_decode _ _ Hc), (decodeStatus_encodeStatus _ _ Hs).
  apply decodeHex16_Ok in Htxn as [_ Htxn].
  unfold with_shard, sql_stored. cbn. by rewrite Htxn, !default_nullBytes.
Qed.

Lemma set_status_view s st status now pi x t :
  decodeStatus st = Ok status -> rowView s x = Some t ->
  rowView s (set_status st now pi x) = Some (put_status status pi (ts_store now) t).
Proof.
  intros Hst. unfold rowView, scanTransaction. cbn. rewrite Hst.
  destruct (decodeCurrency _); [|done]. destruct (decodeStatus (r_status x)); [|done].
  intros [= <-]. unfold with_shard, put_status. cbn. by rewrite default_coalesce.
Qed.

Lemma set_checkout_view s sess pi now x t :
  rowView s x = Some t ->
  rowView s (set_checkout sess pi now x) = Some (put_checkout sess pi (ts_store now) t).
Proof.
  unfold rowView, scanTransaction. cbn.
  destruct (decodeCurrency _); [|done]. destruct (decodeStatus (r_status x)); [|done].
  intros [= <-]. unfold with_shard, put_checkout. cbn. by rewrite !default_coalesce.
Qed.

Lemma by_order_view s m o x t :
  rowView s x = Some t -> by_key coll_eq m o t = by_order m o x.
Proof. intros (Hm & _ & Ho)%rowView_inv. unfold by_key, by_order. by rewrite Hm, Ho. Qed.

Lemma by_txn_view s m xid txn x t :
  decodeHex16 xid = Ok txn -> rowView s x = Some t ->
  by_txn coll_eq m xid t = coll_eq (r_merchant x) m && bool_decide (r_txn x = txn).
Proof.
  intros [_ Hl]%decodeHex16_Ok (Hm & Ht & _)%rowView_inv. unfold by_txn.
  rewrite Hm, Ht, <- Hl. f_equal. apply bool_decide_ext. split; [apply (inj hexLower)|by intros ->].
Qed.

Lemma sql_content_unique d s : sql_inv d -> NoDup (t_TransactionID <$> sql_content r d s).
Proof.
  intros Hd. pose proof (shard_rows_wf r d s Hd) as [Hnd Hwf]. unfold sql_content.
  assert (Heq : t_TransactionID <$> omap (rowView s) (shard_rows r d s) = hexLower <$> (r_txn <$> shard_rows r d s)).
  { clear Hnd. induction Hwf as [|x l Hx _ IH]; [done|].
    destruct (rowView_wf s x Hx) as (t0 & _ & Hv). remember (with_shard s t0) as t eqn:Et. clear Et.
    pose proof (rowView_inv _ _ _ Hv) as (_ & Hid & _).
    cbn. rewrite Hv. cbn. by rewrite IH, Hid. }
  rewrite Heq. by apply (NoDup_fmap_2 hexLower).
Qed.

Lemma sql_insert_law d t t' res d' :
  sql_inv d -> int64_range (t_Amount t) -> Insert r t d = ((t', res), d') ->
  sql_inv d' /\ (exists c u, t' = with_times c u t) /\
  match res with
  | Ok _ => 0 <= t_Amount t /\
      sql_content r d' (t_ShardIndex t) = sql_content r d (t_ShardIndex t) ++ [sql_stored t']
  | Err _ => sql_content r d' (t_ShardIndex t) = sql_content r d (t_ShardIndex t) \/
      sql_content r d' (t_ShardIndex t) = sql_content r d (t_ShardIndex t) ++ [sql_stored t']
  end.
Proof.
  intros Hd Ha Hins.
  assert (Hself : t = with_times (t_CreatedAt t) (t_UpdatedAt t) t) by (by destruct t).
  assert (Hd' : sql_inv d').
  { apply (step_wf r d); [|done]. replace d' with (run_call r (CInsert t) d) by (cbn; by rewrite Hins).
    by constructor. }
  split; [done|]. unfold Insert, bind, ret in Hins.
  destruct (encodeChecks t) as [[[txn cur] st]|e] eqn:Ec.
  2: { cbv beta in Hins. simplify_eq. split; [eauto|by left]. }
  destruct (Now d) as [now d1] eqn:En.
  assert (Ht1 : tables d1 = tables d) by (pose proof (Now_tables d) as Hn; by rewrite En in Hn).
  remember (with_times _ now t) as tt' eqn:Htt.
  assert (Hsh : t_ShardIndex tt' = t_ShardIndex t) by (by subst).
  assert (Hex : exists c u, tt' = with_times c u t) by eauto.
  assert (Hec : encodeChecks tt' = encodeChecks t) by (by subst).
  assert (Hpm : t_PaymentMethod tt' = t_PaymentMethod t) by (by subst).
  clear Htt. rewrite Hsh in Hins.
  destruct (route r (t_ShardIndex t)) as [h|e] eqn:Er.
  2: { cbv beta in Hins. simplify_eq. split; [done|].
       left. unfold sql_content, shard_rows. by rewrite Ht1. }
  destruct (exec h _ d1) as [ans d2] eqn:Ex. cbv beta in Hins.
  injection Hins as <- Hres <-. split; [done|].
  assert (Hview : rowView (t_ShardIndex t) (encodeRow tt' txn cur st (encodeMethod (t_PaymentMethod t))) = Some (sql_stored tt')).
  { rewrite <- Hsh, <- Hpm. apply encodeRow_view. by rewrite Hec. }
  unfold sql_content, shard_rows. rewrite Er.
  apply exec_spec in Ex as [[Ht2 Hio]|(rows & Hr & Ht2 & Hans)].
  { rewrite Ht2, Ht1. destruct Hio as [o ->]. by destruct (isDuplicateKeyErr _); subst res; left. }
  rewrite Ht1 in *. rewrite Ht2, Hr, list_lookup_insert_eq by (by eapply lookup_lt_Some).
  cbn [default]. unfold id.
  assert (Happ : omap (rowView (t_ShardIndex t)) (rows ++ [encodeRow tt' txn cur st (encodeMethod (t_PaymentMethod t))])
    = omap (rowView (t_ShardIndex t)) rows ++ [sql_stored tt']).
  { rewrite omap_app. f_equal. cbn. by rewrite Hview. }
  apply encodeChecks_Ok in Ec as (_ & _ & _ & Hpos & _).
  set (x := encodeRow _ _ _ _ _) in *.
  destruct Hans as [->|[o ->]]; unfold sql_insert in *.
  - destruct (negb (row_fits x)); [|destruct (List.existsb _ rows)]; cbn [fst snd] in *.
    + destruct (isDuplicateKeyErr errTooLong); subst res; by left.
    + destruct (isDuplicateKeyErr errDup); subst res; by left.
    + subst res. split; [assumption|exact Happ].
  - destruct (isDuplicateKeyErr (outage_error o)); subst res;
      (destruct (negb (row_fits x)); [by left|]); (destruct (List.existsb _ rows); [by left|]);
      cbn [snd]; right; exact Happ.
Qed.

(** An update that reads the clock first. *)
Lemma update_contract_now now ctx s h p q f g d d1 res d' :
  sql_inv d -> route r s = Ok h ->
  (forall x t, rowView s x = Some t -> q t = p x) ->
  (forall x t, rowView s x = Some t -> rowView s (f x) = Some (g (ts_store now) t)) ->
  (forall rows, wf_table rows -> wf_table (sql_update p f rows).2) ->
  Now d = (now, d1) -> exec h (sql_update p f) d1 = (res, d') ->
  sql_inv d' /\ update_contract (sql_content r) s q g d d' (affected ctx res).
Proof.
  intros Hd Hr Hpq Hfg Hwf Hn Hex.
  assert (Ht : tables d1 = tables d) by (pose proof (Now_tables d) as Hx; by rewrite Hn in Hx).
  assert (Hc : forall s', sql_content r d1 s' = sql_content r d s').
  { intros s'. unfold sql_content, shard_rows. by rewrite Ht. }
  assert (Hd1 : sql_inv d1) by (unfold sql_inv; by rewrite Ht).
  destruct (update_contract_sql r ctx s h p q f (g (ts_store now)) d1 res d' Hd1 Hr Hpq Hfg Hwf Hex) as [Hi Hu].
  split; [done|]. rewrite !Hc in Hu. unfold update_contract.
  destruct (affected ctx res) as [?|e].
  - destruct Hu as [Hu Hx]. eauto.
  - destruct Hu as [[Hu|Hu] Hn']; split; eauto.
Qed.

Lemma same_tables d d' : sql_inv d -> tables d' = tables d ->
  sql_inv d' /\ forall s, sql_content r d' s = sql_content r d s.
Proof.
  intros Hd Ht. unfold sql_inv, sql_content, shard_rows. by rewrite Ht.
Qed.

Lemma scatter_law (p : Row -> bool) (q : Transaction -> bool) (Hr : router_ok r) :
  (forall x t0 s, scanTransaction x = Ok t0 -> p x = true -> q (with_shard s t0) = true) ->
  forall d res d', sql_inv d -> scatterFirst r p d = (res, d') ->
  sql_inv d' /\ (forall s, sql_content r d' s = sql_content r d s) /\
  match res with
  | Ok t => t ∈ sql_content r d (t_ShardIndex t) /\ q t = true
  | Err _ => True
  end.
Proof.
  intros Hpq d res d' Hd Hs.
  assert (Ht : tables d' = tables d) by (pose proof (scatterFirst_tables r p d) as Hx; by rewrite Hs in Hx).
  destruct (same_tables d d' Hd Ht) as [Hd' Hc]. split; [exact Hd'|]. split; [exact Hc|].
  destruct res as [t|e]; [|exact I].
  destruct (scatterFirst_content r Hr p d t d' Hd Hs) as (Hin & x & t0 & Hp & Hsc & Et).
  split; [exact Hin|]. rewrite Et. exact (Hpq x t0 _ Hsc Hp).
Qed.

#[local] Instance sql_store (Hr : router_ok r) : TransactionStore Db.
Proof.
  refine {| store_inv := sql_inv; content := sql_content r; key_eq := coll_eq; stored := sql_stored |}.
  - intros s. apply (@Equivalence_Reflexive _ _ coll_equiv).
  - intros t. unfold sql_stored. cbn [t_MerchantID t_OrderID t_TransactionID t_Status t_StripeSessionID
      t_StripePaymentIntentID t_ShardIndex t_PaymentMethod t_Currency t_Amount].
    do 7 (split; [reflexivity|]). split; [|split; [|apply i64_u64]].
    + intros ->. vm_compute. reflexivity.
    + unfold ToUpper. intros ->. reflexivity.
  - apply sql_content_unique.
  - intros d t t' res d' Hd Ha Hins. exact (sql_insert_law d t t' res d' Hd Ha Hins).
  - intros d s m x res d' Hd. cbn. unfold GetByTransactionID, bind, ret.
    destruct (route r s) as [h|e] eqn:Er.
    2: { intros [= <- <-]. apply no_read; [done|by eapply route_error]. }
    destruct (decodeHex16 x) as [txn|e] eqn:Ex.
    2: { intros [= <- <-]. apply no_read; [done|].
         unfold decodeHex16 in Ex. repeat case_match; by simplify_eq. }
    destruct (exec h _ d) as [ans d1] eqn:Eq. intros [= <- <-].
    eapply select_contract; [done|done| |done]. intros y t Hv. by eapply by_txn_view.
  - intros d s m o res d' Hd. cbn. unfold GetByMerchantOrderID, bind, ret.
    destruct (ValidateOrderID o) as [|e] eqn:Eo.
    2: { intros [= <- <-]. apply no_read; [done|by eapply ValidateOrderID_error]. }
    destruct (route r s) as [h|e] eqn:Er.
    2: { intros [= <- <-]. apply no_read; [done|by eapply route_error]. }
    destruct (exec h _ d) as [ans d1] eqn:Eq. intros [= <- <-].
    eapply select_contract; [done|done| |done]. intros y t Hv. by eapply by_order_view.
  - intros d s m o st pi res d' Hd. cbn. unfold UpdateStatus, bind, ret.
    destruct (ValidateOrderID o) as [|e] eqn:Eo.
    2: { intros [= <- <-]. apply no_update; [done|by eapply ValidateOrderID_error]. }
    destruct (encodeStatus st) as [v|e] eqn:Es.
    2: { intros [= <- <-]. apply no_update; [done|].
         unfold encodeStatus in Es. repeat case_bool_decide; by simplify_eq. }
    destruct (route r s) as [h|e] eqn:Er.
    2: { intros [= <- <-]. apply no_update; [done|by eapply route_error]. }
    destruct (Now d) as [now d1] eqn:En. destruct (exec h _ d1) as [ans d2] eqn:Eq. intros [= <- <-].
    apply decodeStatus_encodeStatus in Es.
    eapply (update_contract_now now); [done|exact Er| | | |exact En|exact Eq].
    + intros x t. apply by_order_view.
    + intros x t. by apply set_status_view.
    + intros rows. apply sql_update_wf; [done|]. intros x. apply set_status_wf. by rewrite Es.
  - intros d s m o sess pi res d' Hd. cbn. unfold UpdateCheckout, bind, ret.
    destruct (ValidateOrderID o) as [|e] eqn:Eo.
    2: { intros [= <- <-]. apply no_update; [done|by eapply ValidateOrderID_error]. }
    destruct (route r s) as [h|e] eqn:Er.
    2: { intros [= <- <-]. apply no_update; [done|by eapply route_error]. }
    destruct (Now d) as [now d1] eqn:En. destruct (exec h _ d1) as [ans d2] eqn:Eq. intros [= <- <-].
    eapply (update_contract_now now); [done|exact Er| | | |exact En|exact Eq].
    + intros x t. apply by_order_view.
    + intros x t. apply set_checkout_view.
    + intros rows. apply sql_update_wf; [done|]. intros x. apply set_checkout_wf.
  - intros d o res d' Hd Hg. cbn in Hg. unfold GetByOrderIDAny in Hg.
    destruct (ValidateOrderID o) as [|e] eqn:Eo.
    2: { injection Hg as <- <-. split; [exact Hd|]. split; [reflexivity|exact I]. }
    apply (scatter_law (fun x => coll_eq (r_order x) o) (fun t => coll_eq (t_OrderID t) o)); [exact Hr| |exact Hd|exact Hg].
    intros x t0 s0 H1 H2. apply scanTransaction_inv in H1 as (_ & _ & H1 & _).
    cbn [t_OrderID with_shard]. rewrite H1. exact H2.
  - intros d pi res d' Hd Hg. cbn in Hg. unfold GetByPaymentIntentID in Hg.
    destruct (bool_decide_reflect (pi = "")) as [->|Hne].
    { injection Hg as <- <-. split; [exact Hd|]. split; [reflexivity|]. exact I. }
    destruct (scatter_law (fun x => bool_decide (r_pi x = Some pi)) (fun t => bool_decide (t_StripePaymentIntentID t = pi))
      Hr ltac:(intros x t0 s0 H1 H2; apply scanTransaction_inv in H1 as (_ & _ & _ & _ & _ & _ & H1 & _);
               apply bool_decide_eq_true in H2; rewrite H2 in H1; apply bool_decide_eq_true; exact H1) d res d' Hd Hg) as (Hd' & Hc & Hres).
    split; [exact Hd'|]. split; [exact Hc|]. destruct res as [t|]; [|exact I].
    destruct Hres as [Hin Hp]. split; [exact Hin|]. by apply bool_decide_eq_true in Hp.
  - intros d before limit res d' Hd Hg. apply (same_tables d); [exact Hd|].
    change d' with (res, d').2. rewrite <- Hg. cbn. unfold GetPendingBefore.
    destruct (limit <=? 0); [reflexivity|]. rewrite !bind_snd. cbn [ret snd].
    by rewrite NextArrival_tables, queryAll_tables.
Defined.
End Instance.

(** C6. The SQL repository refines the list specification: over any database
    that obeys the collation laws and any router that partitions its shards,
    Insert, the four reads, the two updates and the pending batch satisfy the
    [TransactionStore] contract, read at the rows of a shard's pool decoded in
    insertion order, in every state whose tables are well formed. *)
Theorem sql_repository_refines `{Unicode} `{MySQL} (HL : MySQLLaws) (r : multiShardRouter) :
  router_ok r ->
  exists S : @TransactionStore Db (sql_repo r),
    (forall d, @store_inv Db (sql_repo r) S d <-> Forall wf_table (tables d)) /\
    (forall d s, @content Db (sql_repo r) S d s = omap (rowView s) (shard_rows r d s)) /\
    (forall a b, @key_eq Db (sql_repo r) S a b = coll_eq a b).
Proof. intros Hr. exists (sql_store r Hr). split; [reflexivity|]. split; reflexivity. Qed.
