(* ===== verification/TransactionTheorems.v ===== *)
(** * Behaviour of the repository's operations

    Round trips, the scatter-gather reads, the batch of stuck payments, and
    what the table's collation does to updates keyed on the order id. *)

From S2P Require Import Prelude GoStrings Sorting Domain Codec Config ShardRouter TransactionRepo TransactionTables.
From S2P Require Import TransactionStore TransactionRefines.
Local Open Scope Z_scope.

(** ** Running without faults *)

(** The next statement on pool [h] completes. *)
Definition calm (h : handle) (d : Db) : Prop :=
  exists p, d_pools d !! h = Some p /\ default NoFault (head (p_faults p)) = NoFault.

Lemma exec_calm {A} h (stmt : list Row -> result A * list Row) d :
  calm h d -> exists rows, tables d !! h = Some rows /\ (exec h stmt d).1 = (stmt rows).1 /\
    tables (exec h stmt d).2 = <[h := (stmt rows).2]> (tables d).
Proof.
  intros (p & Hp & Hf). exists (p_rows p). unfold exec, tables. rewrite Hp, Hf.
  rewrite list_lookup_fmap, Hp. split; [done|].
  destruct (stmt (p_rows p)) as [a rows']. cbn. by rewrite list_fmap_insert.
Qed.

(** A statement on one pool leaves the others as they are. *)
Lemma exec_pools_ne {A} h h' (stmt : list Row -> result A * list Row) d :
  h <> h' -> d_pools (exec h stmt d).2 !! h' = d_pools d !! h'.
Proof.
  intros Hne. unfold exec. destruct (d_pools d !! h) as [p|]; [|done].
  destruct (stmt (p_rows p)) as [a rows']. destruct (default NoFault _); cbn; by rewrite list_lookup_insert_ne.
Qed.

(** Queries on distinct calm pools all answer from the current tables. *)
Lemma queryAll_calm {A} hs (stmt : list Row -> result A * list Row) d :
  (forall rows, (stmt rows).2 = rows) -> NoDup hs -> Forall (fun h => calm h d) hs ->
  (queryAll hs stmt d).1 = (fun h => (stmt (default [] (tables d !! h))).1) <$> hs.
Proof.
  intros Hs Hnd. revert d. induction hs as [|h hs IH]; intros d Hc; [done|].
  apply NoDup_cons in Hnd as [Hh Hnd]. apply Forall_cons in Hc as [Hch Hc].
  cbn [queryAll]. unfold bind.
  destruct (exec_calm h stmt d Hch) as (rows & Hr & Ha & Ht).
  destruct (exec h stmt d) as [a d1] eqn:Ee. cbn in Ha, Ht.
  rewrite Hs, list_insert_id in Ht by done.
  specialize (IH Hnd d1). destruct (queryAll hs stmt d1) as [xs d2]. cbn in *. rewrite IH, Ht.
  { subst a. by rewrite Hr. }
  eapply Forall_impl; [apply Forall_and; split; [exact Hc|apply Forall_forall; exact (fun x Hx => Hx)]|].
  intros h' [(p & Hp & Hf) Hin]. exists p. split; [|done].
  assert (Hne : h <> h') by (intros ->; done).
  pose proof (exec_pools_ne h h' stmt d Hne) as Hx. rewrite Ee in Hx. cbn in Hx. by rewrite Hx.
Qed.

(** ** Insert, then read back *)

Section RoundTrip.
Context `{Unicode} `{HM : MySQL} `{!MySQLLaws}.
Variable r : multiShardRouter.

(** A payment accepted by [Insert] is read back by [GetByTransactionID]
    with the same merchant, order, amount, status and Stripe ids, its
    transaction id in lower case, its currency in upper case, its method as
    the codec stores it and its times at column precision. *)
Theorem insert_then_get d t t' d1 d2 h :
  sql_inv d -> int64_range (t_Amount t) -> route r (t_ShardIndex t) = Ok h ->
  Insert r t d = ((t', Ok tt), d1) -> tables d2 = tables d1 -> calm h d2 ->
  (GetByTransactionID r (t_ShardIndex t) (t_MerchantID t) (t_TransactionID t) d2).1 = Ok (sql_stored t').
Proof.
  intros Hd Ha Hr Hins Ht Hc.
  destruct (sql_insert_law r d t t' (Ok tt) d1 Hd Ha Hins) as (Hd1 & (c & u & Et) & Hpos & Hcont).
  assert (Hx : exists txn, decodeHex16 (t_TransactionID t) = Ok txn).
  { unfold Insert, ret in Hins. destruct (encodeChecks t) as [[[txn cur] st]|] eqn:E; [|done].
    apply encodeChecks_Ok in E as (_ & ? & _). eauto. }
  destruct Hx as [txn Htxn].
  assert (Hd2 : sql_inv d2) by (unfold sql_inv in *; by rewrite Ht).
  assert (Hc2 : sql_content r d2 (t_ShardIndex t) = sql_content r d1 (t_ShardIndex t)).
  { unfold sql_content, shard_rows. by rewrite Ht. }
  pose proof (sql_content_unique r d2 (t_ShardIndex t) Hd2) as Huniq.
  unfold GetByTransactionID. rewrite Hr, Htxn. unfold bind, ret.
  destruct (exec h _ d2) as [ans d3] eqn:Ex. cbn [fst].
  destruct (select_contract r (t_ShardIndex t) h _ (by_txn coll_eq (t_MerchantID t) (t_TransactionID t)) d2 ans d3 Hd2 Hr
    ltac:(intros; by eapply by_txn_view) Ex) as (_ & _ & Hres).
  set (p := by_txn _ _ _) in *.
  assert (Hnew : p (sql_stored t') = true).
  { unfold p, by_txn. rewrite Et. cbn. rewrite bool_decide_true by done.
    by rewrite (@Equivalence_Reflexive _ _ coll_equiv). }
  assert (Hold : List.find p (sql_content r d (t_ShardIndex t)) = None).
  { apply find_None_iff. intros y Hy. unfold p, by_txn. rewrite Hc2, Hcont, fmap_app in Huniq.
    apply NoDup_app in Huniq as (_ & Hdis & _). apply andb_false_iff. right.
    apply bool_decide_false. intros Heq. apply (Hdis (t_TransactionID y)).
    - apply list_elem_of_fmap. by exists y.
    - rewrite Heq, Et. by left. }
  rewrite Hc2, Hcont, (find_app_None _ _ _ Hold), Hnew in Hres.
  destruct (exec_calm h (sql_select1 (fun x => coll_eq (r_merchant x) (t_MerchantID t) && bool_decide (r_txn x = txn))) d2 Hc)
    as (rows & Hrows & Hans & _).
  rewrite Ex in Hans. cbn in Hans. destruct (scanRow ans) as [t2|e] eqn:Es; [congruence|]. exfalso.
  subst ans. pose proof (shard_rows_wf r d2 (t_ShardIndex t) Hd2) as [_ Hwf].
  unfold shard_rows in Hwf. rewrite Hr, Hrows in Hwf. cbn in Hwf.
  destruct (List.find _ rows) as [x|] eqn:Ef; cbn in Es.
  - apply List.find_some in Ef as [Hin%list_elem_of_In _]. rewrite Forall_forall in Hwf.
    destruct (rowView_wf 0 x (Hwf x Hin)) as (t2 & Hsc & _). congruence.
  - injection Es as <-. by specialize (Hres eq_refl).
Qed.
End RoundTrip.

(** ** Scatter-gather reads *)

(** "Not found" is only answered when every pool said so. *)
Lemma firstMatch_NotFound logical results arrival fe m e :
  firstMatch logical results arrival fe m = Err e -> errIs e ErrNotFound = true ->
  (forall e', fe = Some e' -> errIs e' ErrNotFound = false) ->
  (m + length arrival <= length results)%nat ->
  (m + length arrival = length results)%nat /\
  forall i, i ∈ arrival -> exists e', results !! i = Some (Err e') /\ errIs e' ErrNotFound = true.
Proof.
  revert fe m. induction arrival as [|i arrival IH]; intros fe m; cbn.
  - intros Hf He Hfe Hle. case_bool_decide.
    + split; [lia|]. intros i Hi. by apply not_elem_of_nil in Hi.
    + simplify_eq. destruct fe as [e'|]; cbn in He; [by rewrite (Hfe e') in He|done].
  - destruct (results !! i) as [[t0|e0]|] eqn:Ei; [done| |intros [= <-]; done].
    destruct (errIs e0 ErrNotFound) eqn:E0; intros Hf He Hfe Hle.
    + destruct (IH fe (S m) Hf He Hfe ltac:(lia)) as [Hl Hall]. split; [lia|].
      intros j [->|Hj]%elem_of_cons; [eauto|by apply Hall].
    + exfalso. destruct (IH _ m Hf He) as [Hl _]; [|lia|lia].
      intros e' He'. destruct fe as [e1|]; simplify_eq; [by apply Hfe|done].
Qed.

Section Scatter.
Context (r : multiShardRouter) (Hr : router_ok r).

Lemma scanRow_NotFound ans e :
  scanRow ans = Err e -> errIs e ErrNotFound = true -> io_error ans -> False.
Proof.
  intros Hs He [o ->]. destruct o; vm_compute in Hs; injection Hs as <-; discriminate He.
Qed.

(** A payment returned by a lookup that does not know the merchant
    ([GetByOrderIDAny], [GetByPaymentIntentID]) is a matching row of some
    pool and carries a logical shard index that routes to that very pool,
    whatever order the goroutines report in; "not found" is answered only
    when no pool holds a matching row. *)
Theorem scatterFirst_correct p d :
  sql_inv d ->
  match (scatterFirst r p d).1 with
  | Ok t => exists h rows x t0, tables d !! h = Some rows /\ x ∈ rows /\ p x = true /\
      scanTransaction x = Ok t0 /\ t = with_shard (t_ShardIndex t) t0 /\
      For r (t_ShardIndex t) = Some (Ok h)
  | Err e => errIs e ErrNotFound = true ->
      forall h rows x, h ∈ pools r -> tables d !! h = Some rows -> x ∈ rows -> p x = false
  end.
Proof.
  intros Hd. destruct (scatterFirst r p d) as [[t|e] d'] eqn:Es; cbn [fst].
  { by apply (scatterFirst_Ok r Hr p d t d'). }
  destruct (scatterFirst_unfold r p d) as (rows & arrival & Hq & Ha & Hf).
  rewrite Es in Hf. cbn [fst] in Hf. symmetry in Hf.
  pose proof (Forall2_length _ _ _ Hq) as Hlen.
  intros He h tbl x Hh Htbl Hx.
    apply firstMatch_NotFound in Hf as [_ Hall]; [|done|done|rewrite Ha, length_seq, length_fmap; lia].
    apply list_elem_of_lookup in Hh as [i Hi].
    destruct (Forall2_lookup_l _ _ _ _ _ Hq Hi) as (ans & Hans & Hcase).
    destruct (Hall i) as (e' & He' & Hnf).
    { rewrite Ha. apply elem_of_seq. apply lookup_lt_Some in Hi. lia. }
    rewrite list_lookup_fmap, Hans in He'. cbn in He'. injection He' as He'.
    destruct Hcase as [Hio|(tbl' & Htbl' & Ha')]; [by eapply scanRow_NotFound in Hio|].
    simplify_eq. pose proof (select1_view 0 p tbl _ (table_wf d h tbl Hd Htbl) eq_refl) as Hv.
    rewrite He' in Hv. by apply (proj1 (find_None_iff p tbl) Hv).
Qed.
End Scatter.
