(* ===== verification/PendingBatch.v ===== *)
(** * The batch of stuck payments (GetPendingBefore)

    The scatter-gather read behind order reconciliation: per-pool
    "ORDER BY created_at LIMIT n", the gathering loop and the global insertion
    sort.  The theorem states what the truncated result still guarantees. *)

From S2P Require Import Prelude GoStrings Sorting Domain Codec Config ShardRouter TransactionRepo TransactionTables.
From S2P Require Import TransactionStore TransactionRefines TransactionTheorems.
Local Open Scope Z_scope.

(** ** The orders *)

Lemma older_total a b : older a b = true \/ older b a = true.
Proof. unfold older. rewrite !Z.leb_le. lia. Qed.

Lemma older_trans a b c : older a b = true -> older b c = true -> older a c = true.
Proof. unfold older. rewrite !Z.leb_le. lia. Qed.

Lemma in_order_iff a b : in_order a b = true <->
  t_CreatedAt a < t_CreatedAt b \/
  (t_CreatedAt a = t_CreatedAt b /\ String.leb (t_TransactionID a) (t_TransactionID b) = true).
Proof. unfold in_order. rewrite orb_true_iff, andb_true_iff, Z.ltb_lt, Z.eqb_eq. reflexivity. Qed.

Lemma string_leb_total a b : String.leb a b = true \/ String.leb b a = true.
Proof. destruct (String.leb_total a b); auto. Qed.

Lemma ascii_compare_lt_trans a b c :
  Ascii.compare a b = Lt -> Ascii.compare b c = Lt -> Ascii.compare a c = Lt.
Proof. unfold Ascii.compare. rewrite !N.compare_lt_iff. lia. Qed.

Lemma string_leb_trans a b c : String.leb a b = true -> String.leb b c = true -> String.leb a c = true.
Proof.
  unfold String.leb. revert b c.
  induction a as [|x a IH]; intros [|y b] [|z c]; try discriminate; try reflexivity. cbn [String.compare].
  destruct (Ascii.compare x y) eqn:E1; [apply Ascii.compare_eq_iff in E1 as ->| |discriminate].
  - destruct (Ascii.compare y z); [apply IH|done|done].
  - intros _. destruct (Ascii.compare y z) eqn:E2; [apply Ascii.compare_eq_iff in E2 as ->| |discriminate].
    + by rewrite E1.
    + by rewrite (ascii_compare_lt_trans _ _ _ E1 E2).
Qed.

Lemma in_order_total a b : in_order a b = true \/ in_order b a = true.
Proof.
  rewrite !in_order_iff. destruct (Z.lt_total (t_CreatedAt a) (t_CreatedAt b)) as [?|[?|?]]; [tauto| |tauto].
  destruct (string_leb_total (t_TransactionID a) (t_TransactionID b)); [left|right]; right; (split; [congruence|assumption]).
Qed.

Lemma in_order_trans a b c : in_order a b = true -> in_order b c = true -> in_order a c = true.
Proof.
  rewrite !in_order_iff. intros [?|[? H1]] [?|[? H2]]; [left; lia..|right]. split; [lia|].
  by eapply string_leb_trans.
Qed.

Lemma sink_insert_rev x rp : sink x rp = insert_rev in_order x rp.
Proof. induction rp as [|a rp IH]; cbn; [reflexivity|]. by rewrite IH. Qed.

Lemma sortTransactions_eq l : sortTransactionsByCreatedAt l = insertion_sort in_order l.
Proof.
  unfold sortTransactionsByCreatedAt, insertion_sort. apply (f_equal reverse). generalize (@nil Transaction).
  induction l as [|x l IH]; intros acc; cbn; [reflexivity|]. by rewrite IH, sink_insert_rev.
Qed.

(** ** One pool *)

Lemma scanAll_Ok l rows ts :
  scanAll l rows = Ok ts -> Forall2 (fun x t => rowView l x = Some t) rows ts.
Proof.
  revert ts. induction rows as [|x rows IH]; cbn; intros ts; [intros [= <-]; constructor|].
  destruct (scanTransaction x) as [t|] eqn:Et; [|discriminate].
  destruct (scanAll l rows) as [ts'|]; [|discriminate]. intros [= <-].
  constructor; [unfold rowView; by rewrite Et|auto].
Qed.

Lemma scanAll_wf l rows : Forall wf_row rows -> exists ts, scanAll l rows = Ok ts.
Proof.
  induction 1 as [|x rows Hx _ [ts IH]]; cbn; [eauto|].
  destruct (rowView_wf l x Hx) as (t & -> & _). rewrite IH. eauto.
Qed.

(** The rows one pool contributes. *)
Definition oldest (cutoff : Z) (n : nat) (rows : list Row) : list Row :=
  take n (sort_created (filter (fun x => stuck_row cutoff x = true) rows)).

Lemma oldest_elem cutoff n rows x : x ∈ oldest cutoff n rows -> x ∈ rows /\ stuck_row cutoff x = true.
Proof.
  intros Hx%elem_of_take. destruct Hx as (i & Hi & _). apply list_elem_of_lookup_2 in Hi.
  unfold sort_created in Hi. rewrite (insertion_sort_perm older), list_elem_of_filter in Hi. tauto.
Qed.

Lemma oldest_complete cutoff n rows x :
  x ∈ rows -> stuck_row cutoff x = true ->
  x ∈ oldest cutoff n rows \/
  (length (oldest cutoff n rows) = n /\ Forall (fun y => r_created y <= r_created x) (oldest cutoff n rows)).
Proof.
  intros Hx Hs. set (k := filter (fun y => stuck_row cutoff y = true) rows).
  assert (Hk : x ∈ insertion_sort older k) by (rewrite (insertion_sort_perm older); by apply list_elem_of_filter).
  destruct (sorted_cut older n _ x (insertion_sort_sorted older older_total older_trans k) Hk) as [?|[Hl Hy]].
  - by left.
  - right. split; [exact Hl|]. apply Forall_forall. intros y Hin. apply Z.leb_le. by apply Hy.
Qed.

Lemma rowView_created l x t : rowView l x = Some t -> t_CreatedAt t = r_created x.
Proof.
  unfold rowView. destruct (scanTransaction x) as [t0|] eqn:E; [|discriminate]. intros [= <-].
  apply scanTransaction_inv in E. cbn. tauto.
Qed.

(** The scanned batch of one pool: sound, and complete up to the limit. *)
Lemma pool_batch l cutoff n rows ts :
  scanAll l (oldest cutoff n rows) = Ok ts ->
  (forall t, t ∈ ts -> exists x, x ∈ rows /\ stuck_row cutoff x = true /\ rowView l x = Some t) /\
  (forall x, x ∈ rows -> stuck_row cutoff x = true ->
     (exists t, t ∈ ts /\ rowView l x = Some t) \/
     (n <= length (filter (fun t => (t_CreatedAt t <=? r_created x)%Z = true) ts))%nat).
Proof.
  intros H2%scanAll_Ok. split.
  - intros t [i Hi]%list_elem_of_lookup.
    destruct (Forall2_lookup_r _ _ _ _ _ H2 Hi) as (x & Hx%list_elem_of_lookup_2%oldest_elem & Hv).
    exists x. tauto.
  - intros x Hx Hs. destruct (oldest_complete cutoff n rows x Hx Hs) as [[i Hi]%list_elem_of_lookup|[Hl Hy]].
    + left. destruct (Forall2_lookup_l _ _ _ _ _ H2 Hi) as (t & Ht%list_elem_of_lookup_2 & Hv). eauto.
    + right. apply Nat.eq_le_incl. rewrite <- Hl at 1. rewrite (Forall2_length _ _ _ H2).
      clear Hl. revert H2. generalize dependent (oldest cutoff n rows). intros ys Hys H2.
      induction H2 as [|y t ys ts Hv H2 IH]; [reflexivity|]. apply Forall_cons in Hys as [Hy Hys].
      rewrite filter_cons_True by (rewrite (rowView_created _ _ _ Hv); by apply Z.leb_le).
      cbn. by rewrite IH at 1.
Qed.

(** ** Gathering *)

Lemma gather_err results arrival all e0 ts : gather results arrival all (Some e0) <> Ok ts.
Proof.
  revert all. induction arrival as [|i arrival IH]; intros all; cbn; [discriminate|].
  destruct (results !! i) as [[?|?]|]; [apply IH..|discriminate].
Qed.

(** On success every goroutine succeeded; the output contains all of each
    batch and nothing else. *)
Lemma gather_Ok results arrival all out :
  gather results arrival all None = Ok out ->
  sublist all out /\
  (forall i, i ∈ arrival -> exists ts, results !! i = Some (Ok ts) /\ sublist ts out) /\
  (forall t, t ∈ out -> t ∈ all \/ exists i ts, i ∈ arrival /\ results !! i = Some (Ok ts) /\ t ∈ ts).
Proof.
  revert all. induction arrival as [|i arrival IH]; intros all; cbn.
  - intros [= ->]. split_and!; [done| |auto]. intros i Hi. by apply not_elem_of_nil in Hi.
  - destruct (results !! i) as [[ts|e]|] eqn:Ei; [|by intros ?%gather_err|discriminate].
    intros (Hsub & Hin & Hout)%IH. split_and!.
    + etrans; [|exact Hsub]. by apply sublist_inserts_r.
    + intros j [->|Hj]%elem_of_cons; [|auto]. exists ts. split; [done|].
      etrans; [|exact Hsub]. by apply sublist_inserts_l.
    + intros t Ht. destruct (Hout t Ht) as [[?|?]%elem_of_app|(j & ts' & Hj & ?)]; [by left|..]; right.
      * exists i, ts. by split_and!; [left|..].
      * exists j, ts'. by split; [right|].
Qed.

Lemma filter_sublist_length {A} (P : A -> Prop) `{!forall x, Decision (P x)} (l k : list A) :
  sublist l k -> (length (filter P l) <= length (filter P k))%nat.
Proof.
  induction 1 as [|x l k Hs IH|x l k Hs IH]; [done|..]; rewrite ?filter_cons; destruct (decide (P x)); cbn; lia.
Qed.

(** ** The theorem *)

Section Batch.
Context (r : multiShardRouter) (Hr : router_ok r).
Variables (before limit : Z).

(** The answer of every pool, read through the gathering loop. *)
Lemma GetPendingBefore_unfold d ts :
  0 < limit -> (GetPendingBefore r before limit d).1 = Ok ts ->
  exists out, ts = take (Z.to_nat limit) (sortTransactionsByCreatedAt out) /\
    (forall i h, pools r !! i = Some h -> exists rows k, tables d !! h = Some rows /\
       For r (Z.of_nat i * per r) = Some (Ok h) /\
       scanAll (Z.of_nat i * per r) (oldest before (Z.to_nat limit) rows) = Ok k /\ sublist k out) /\
    (forall t, t ∈ out -> exists i h rows k, pools r !! i = Some h /\ tables d !! h = Some rows /\
       scanAll (Z.of_nat i * per r) (oldest before (Z.to_nat limit) rows) = Ok k /\ t ∈ k).
Proof.
  intros Hl. unfold GetPendingBefore. rewrite (proj2 (Z.leb_gt limit 0) Hl). unfold bind, ret, All.
  pose proof (queryAll_spec (pools r) (sql_select_oldest (stuck_row before) limit) d ltac:(reflexivity)) as Hq.
  destruct (queryAll _ _ d) as [qs d1]. cbn [fst] in Hq.
  destruct (NextArrival _ d1) as [arrival d2] eqn:Ea.
  pose proof (NextArrival_perm (length (pools r)) d1) as Hp. rewrite Ea in Hp. cbn [fst] in *.
  destruct (gather _ _ _ _) as [out|] eqn:Eg; [|discriminate]. intros [= <-].
  exists out. split; [reflexivity|]. apply gather_Ok in Eg as (_ & Hin & Hout).
  assert (Hres : forall i k, zip_with shardPending (physicalToFirstLogical r (Z.of_nat (length (pools r)))) qs !! i = Some (Ok k) ->
    exists h rows, pools r !! i = Some h /\ tables d !! h = Some rows /\
      scanAll (Z.of_nat i * per r) (oldest before (Z.to_nat limit) rows) = Ok k).
  { intros i k Hi. apply lookup_zip_with_Some in Hi as (l & q & Hk & Hll & Hqi).
    destruct (Forall2_lookup_r _ _ _ _ _ Hq Hqi) as (h & Hh & Hcase).
    assert (Hlt : Z.of_nat i < Z.of_nat (length (pools r))) by (apply lookup_lt_Some in Hh; lia).
    rewrite (physicalToFirstLogical_lookup r Hr i Hlt) in Hll. injection Hll as <-.
    destruct Hcase as [[o ->]|(rows & Hrows & ->)]; [discriminate|]. exists h, rows.
    split; [exact Hh|]. split; [exact Hrows|]. symmetry. exact Hk. }
  split.
  - intros i h Hh. assert (Hlt := lookup_lt_Some _ _ _ Hh).
    destruct (Hin i) as (k & Hk & Hsub); [rewrite Hp; apply elem_of_seq; lia|].
    destruct (Hres i k Hk) as (h' & rows & Hh' & Hrows & Hsc). rewrite Hh in Hh'. injection Hh' as <-.
    exists rows, k. split; [exact Hrows|]. split; [|split; [exact Hsc|exact Hsub]].
    rewrite (first_logical_routes r Hr i ltac:(lia)), Hh. reflexivity.
  - intros t Ht. destruct (Hout t Ht) as [Hn|(i & k & _ & Hk & Hin')]; [by apply not_elem_of_nil in Hn|].
    destruct (Hres i k Hk) as (h & rows & Hh & Hrows & Hsc). exists i, h, rows, k.
    split; [exact Hh|]. split; [exact Hrows|]. split; [exact Hsc|exact Hin'].
Qed.

Lemma GetPendingBefore_calm d :
  sql_inv d -> NoDup (pools r) -> Forall (fun h => calm h d) (pools r) ->
  exists ts, (GetPendingBefore r before limit d).1 = Ok ts.
Proof.
  intros Hd Hnd Hc. unfold GetPendingBefore. destruct (limit <=? 0); [by exists []|]. unfold bind, ret, All.
  pose proof (queryAll_calm (pools r) (sql_select_oldest (stuck_row before) limit) d ltac:(reflexivity) Hnd Hc) as Hq.
  destruct (queryAll _ _ d) as [qs d1]. cbn [fst] in Hq.
  destruct (NextArrival _ d1) as [arrival d2] eqn:Ea.
  pose proof (NextArrival_perm (length (pools r)) d1) as Hp. rewrite Ea in Hp. cbn [fst] in *.
  set (results := zip_with _ _ _).
  assert (Hok : forall i, i ∈ arrival -> exists k, results !! i = Some (Ok k)).
  { intros i Hi. rewrite Hp in Hi. apply elem_of_seq in Hi.
    destruct (lookup_lt_is_Some_2 (pools r) i ltac:(lia)) as [h Hh].
    destruct (scanAll_wf (Z.of_nat i * per r) (oldest before (Z.to_nat limit) (default [] (tables d !! h)))) as [k Hk].
    { apply Forall_forall. intros x [Hx _]%oldest_elem. destruct (tables d !! h) as [rows|] eqn:E; [|by apply not_elem_of_nil in Hx].
      pose proof (table_wf d h rows Hd E) as [_ Hwf]. rewrite Forall_forall in Hwf. by apply Hwf. }
    exists k. unfold results. apply lookup_zip_with_Some. eexists _, _. split; [|split].
    2: { apply (physicalToFirstLogical_lookup r Hr i). lia. }
    2: { rewrite Hq, list_lookup_fmap, Hh. reflexivity. }
    symmetry. exact Hk. }
  clearbody results. clear -Hok. generalize (@nil Transaction). induction arrival as [|i arrival IH]; intros all; cbn; [eauto|].
  destruct (Hok i ltac:(left)) as [k ->]. apply IH. intros j Hj. apply Hok. by right.
Qed.

(** C28. [GetPendingBefore] returns, whatever order the
    goroutines report in, at most [limit] payments sorted by creation time
    and then by transaction id.  Each is a payment of some pool in state
    created or pending, older than the cutoff, carrying a logical shard that
    routes to that pool.  Every such payment of every pool is in the answer,
    unless the answer is full and all of it is at least as old.  It answers
    whenever no pool fails. *)
Theorem GetPendingBefore_correct d :
  sql_inv d -> 0 < limit ->
  (forall ts, (GetPendingBefore r before limit d).1 = Ok ts ->
     StronglySorted (fun a b => in_order a b = true) ts /\
     Z.of_nat (length ts) <= limit /\
     (forall t, t ∈ ts -> exists h rows x, tables d !! h = Some rows /\ x ∈ rows /\
        stuck_row before x = true /\ rowView (t_ShardIndex t) x = Some t /\
        For r (t_ShardIndex t) = Some (Ok h)) /\
     (forall h rows x, h ∈ pools r -> tables d !! h = Some rows -> x ∈ rows -> stuck_row before x = true ->
        (exists t, t ∈ ts /\ rowView (t_ShardIndex t) x = Some t /\ For r (t_ShardIndex t) = Some (Ok h)) \/
        (Z.of_nat (length ts) = limit /\ forall t, t ∈ ts -> t_CreatedAt t <= r_created x))) /\
  (NoDup (pools r) -> Forall (fun h => calm h d) (pools r) ->
     exists ts, (GetPendingBefore r before limit d).1 = Ok ts).
Proof.
  intros Hd Hl. split; [|by apply GetPendingBefore_calm].
  intros ts Hts. destruct (GetPendingBefore_unfold d ts Hl Hts) as (out & -> & Hpool & Hmem).
  rewrite sortTransactions_eq. set (srt := insertion_sort in_order out).
  assert (Hsrt : StronglySorted (fun a b => in_order a b = true) srt)
    by (apply insertion_sort_sorted; [exact in_order_total|exact in_order_trans]).
  assert (Hperm : srt ≡ₚ out) by apply insertion_sort_perm.
  assert (Hstamp : forall l x t, rowView l x = Some t -> t_ShardIndex t = l).
  { intros l x t. unfold rowView. destruct (scanTransaction x); [|discriminate]. by intros [= <-]. }
  split; [by apply sorted_take|]. split; [rewrite length_take; lia|]. split.
  - intros t Ht. apply elem_of_take in Ht as (j & Hj%list_elem_of_lookup_2 & _). rewrite Hperm in Hj.
    destruct (Hmem t Hj) as (i & h & rows & k & Hh & Hrows & Hsc & Hk).
    destruct (pool_batch _ _ _ _ _ Hsc) as [Hsound _]. destruct (Hsound t Hk) as (x & Hx & Hst & Hv).
    destruct (Hpool i h Hh) as (_ & _ & _ & Hfor & _). rewrite (Hstamp _ _ _ Hv).
    exists h, rows, x. split; [exact Hrows|]. split; [exact Hx|]. split; [exact Hst|]. split; [exact Hv|exact Hfor].
  - intros h rows x [i Hi]%list_elem_of_lookup Hrows Hx Hst.
    destruct (Hpool i h Hi) as (rows' & k & Hrows' & Hfor & Hsc & Hsub).
    rewrite Hrows in Hrows'. injection Hrows' as <-.
    destruct (pool_batch _ _ _ _ _ Hsc) as [_ Hcomp].
    destruct (Hcomp x Hx Hst) as [(t & Ht & Hv)|Hn].
    + assert (Hts' : t ∈ srt) by (rewrite Hperm; by eapply elem_of_submseteq, sublist_submseteq).
      destruct (sorted_cut in_order (Z.to_nat limit) srt t Hsrt Hts') as [Hin|[Hlen Hold]].
      * left. exists t. rewrite (Hstamp _ _ _ Hv). split; [exact Hin|]. split; [exact Hv|exact Hfor].
      * right. split; [lia|]. intros y Hy. rewrite <- (rowView_created _ _ _ Hv).
        specialize (Hold y Hy). apply in_order_iff in Hold. lia.
    + right. pose proof (filter_sublist_length (fun t => (t_CreatedAt t <=? r_created x)%Z = true) _ _ Hsub) as Hle.
      assert (Hle' : (Z.to_nat limit <= length (filter (fun t => (t_CreatedAt t <=? r_created x)%Z = true) srt))%nat).
      { rewrite Hperm. lia. }
      split.
      * pose proof (length_filter (fun t => (t_CreatedAt t <=? r_created x)%Z = true) srt). rewrite length_take. lia.
      * intros t Ht. apply Z.leb_le.
        apply (sorted_prefix_closed in_order (Z.to_nat limit) srt (fun t => t_CreatedAt t <=? r_created x) Hsrt); [|exact Hle'|exact Ht].
        intros a b Hab%in_order_iff. rewrite !Z.leb_le. lia.
Qed.
End Batch.
