(* ===== verification/StripeTypes.v ===== *)
(** * The Stripe port (internal/provider/stripe: types.go, client.go)

    The requests and answers exchanged with Stripe and the [Client] interface
    the services call.  A [Client] acts on a state [S] of its own: the account
    at Stripe, the circuit breaker in front of it, the random source of the
    fake. *)

From S2P Require Import Prelude GoStrings.

Abbreviation metadata := (gmap string string).

Record CreateCheckoutRequest : Type := {
  ccr_Amount : Z;
  ccr_Currency : string;
  ccr_PaymentMethodTypes : list string;
  ccr_CustomerEmail : string;
  ccr_SuccessURL : string;
  ccr_CancelURL : string;
  ccr_ClientReferenceID : string;
  ccr_Metadata : metadata;
}.

Record CheckoutSession : Type := {
  cs_ID : string;
  cs_URL : string;
  cs_PaymentIntentID : string;
  cs_ClientSecret : string;
  cs_Status : string;
  cs_AmountTotal : Z;
  cs_Currency : string;
}.

Record CreatePaymentIntentRequest : Type := {
  pir_Amount : Z;
  pir_Currency : string;
  pir_PaymentMethodTypes : list string;
  pir_CustomerEmail : string;
  pir_Metadata : metadata;
  pir_Description : string;
}.

Record PaymentIntent : Type := {
  pi_ID : string;
  pi_ClientSecret : string;
  pi_Amount : Z;
  pi_Currency : string;
  pi_Status : string;
  pi_ChargeID : string;
  pi_Metadata : metadata;
}.

(** An amount of 0 asks for a full refund. *)
Record CreateRefundRequest : Type := {
  rr_PaymentIntentID : string;
  rr_Amount : Z;
  rr_Reason : string;
  rr_Metadata : metadata;
}.

Record Refund : Type := {
  rf_ID : string;
  rf_Amount : Z;
  rf_Currency : string;
  rf_Status : string;
  rf_PaymentIntentID : string;
  rf_ChargeID : string;
}.

(** A verified webhook event; [ev_Data] is the raw JSON of [data.object]. *)
Record Event : Type := {
  ev_ID : string;
  ev_Type : string;
  ev_Created : Z;
  ev_APIVersion : string;
  ev_Data : string;
}.

Class Client (S : Type) : Type := {
  CreateCheckoutSession : CreateCheckoutRequest -> string -> ST S (result CheckoutSession);
  CreatePaymentIntent : CreatePaymentIntentRequest -> string -> ST S (result PaymentIntent);
  GetPaymentIntent : string -> ST S (result PaymentIntent);
  GetCheckoutSession : string -> ST S (result CheckoutSession);
  CreateRefund : CreateRefundRequest -> string -> ST S (result Refund);
  VerifyWebhookSignature : string -> string -> string -> ST S (result Event);
}.

(** What the gateway decodes from the body of a webhook: [encoding/json] with
    the struct of signature.go. *)
Class EventJSON : Type := decodeEvent : string -> result Event.
