(* ===== verification/Signatures.v ===== *)
(** * Signatures (pkg/hmac, pkg/checkouttoken, internal/provider/stripe/signature.go)

    Merchant request signatures, hosted-checkout tokens and Stripe webhook
    signatures, on the executable HMAC-SHA256 of Sha256.  Comparing byte
    strings in constant time ([hmac.Equal]) is equality. *)

From S2P Require Import Prelude GoStrings Sha256 Domain StripeTypes.
Local Open Scope Z_scope.

(** [int64(d.Seconds())], exact for the durations of whole seconds the gateway
    uses. *)
Definition Seconds (d : Z) : Z := Z.quot d second.

(** [abs64] of signature.go and [abs] of middleware/auth.go: negating the
    smallest int64 gives itself. *)
Definition abs64 (v : Z) : Z := if v <? 0 then i64 (- v) else v.

(** The check [abs(now - ts) > int64(tolerance.Seconds())], on int64. *)
Definition outside (now ts tolerance : Z) : bool := Seconds tolerance <? abs64 (i64 (now - ts)).

(** ** pkg/hmac *)

Module Hmac.
Definition Sign (secret payload : string) : string := hexEncode (hmac_sha256 secret payload).

Definition Verify (secret payload hexSignature : string) : bool :=
  match hexDecode hexSignature with
  | None => false
  | Some expected => bool_decide (expected = hmac_sha256 secret payload)
  end.
End Hmac.

(** ** pkg/checkouttoken *)

Module CheckoutToken.
(** The bytes written to the MAC: ["%s:%s.%d"]. *)
Definition message (merchantID orderID : string) (expiry : Z) : string :=
  merchantID +:+ ":" +:+ orderID +:+ "." +:+ FormatInt expiry.

Definition signWithExpiry (secret merchantID orderID : string) (expiry : Z) : string :=
  FormatInt expiry +:+ "." +:+ hexEncode (hmac_sha256 secret (message merchantID orderID expiry)).

Definition Sign (now : Z) (secret merchantID orderID : string) (lifetime : Z) : string :=
  signWithExpiry secret merchantID orderID (Unix (now + lifetime)).

Definition Verify (now : Z) (secret merchantID orderID token : string) : result unit :=
  match SplitN2 "."%char token with
  | None => Err (Sentinel ErrMalformed)
  | Some (p0, _) =>
      match ParseInt p0 with
      | None => Err (Sentinel ErrMalformed)
      | Some expiry =>
          if expiry <? Unix now then Err (Sentinel ErrExpired)
          else if bool_decide (signWithExpiry secret merchantID orderID expiry = token) then Ok tt
          else Err (Sentinel ErrSignature)
      end
  end.
End CheckoutToken.

(** ** internal/provider/stripe/signature.go *)

Module StripeSignature.
Definition defaultTolerance : Z := 5 * minute.

(** The loop over the header: the last timestamp and the v1 entries, in
    order. *)
Fixpoint parseParts `{Unicode} (parts : list string) (ts : Z) (v1 : list string)
    : result (Z * list string) :=
  match parts with
  | [] => Ok (ts, v1)
  | part :: rest =>
      match SplitN2 "="%char (TrimSpace part) with
      | None => Err (Sentinel ErrSignatureFormat)
      | Some (k, v) =>
          if bool_decide (k = "t") then
            match ParseInt v with
            | None => Err (Sentinel ErrSignatureFormat)
            | Some n => parseParts rest n v1
            end
          else if bool_decide (k = "v1") then parseParts rest ts (v1 ++ [v])
          else parseParts rest ts v1
      end
  end.

Definition signedPayload (ts : Z) (payload : string) : string := FormatInt ts +:+ "." +:+ payload.

Definition sigMatches (expected sig : string) : bool :=
  match hexDecode sig with
  | None => false
  | Some got => bool_decide (got = expected)
  end.

Definition verifyWithTolerance `{Unicode} `{EventJSON} (payload sigHeader secret : string)
    (tolerance now : Z) : result Event :=
  if bool_decide (sigHeader = "") then Err (Sentinel ErrSignatureMissing)
  else if bool_decide (secret = "") then Err (Text "stripe webhook secret not configured")
  else
    match parseParts (Split ","%char sigHeader) 0 [] with
    | Err e => Err e
    | Ok (ts, v1Sigs) =>
        if (ts =? 0) || bool_decide (v1Sigs = []) then Err (Sentinel ErrSignatureFormat)
        else if outside (Unix now) ts tolerance then Err (Sentinel ErrSignatureExpired)
        else
          let expected := hmac_sha256 secret (signedPayload ts payload) in
          if negb (List.existsb (sigMatches expected) v1Sigs) then Err (Sentinel ErrSignatureMismatch)
          else match decodeEvent payload with
               | Err e => Err (Wrap "decode event" e)
               | Ok ev => Ok ev
               end
    end.

Definition VerifyAndConstructEvent `{Unicode} `{EventJSON} (payload sigHeader secret : string) (now : Z)
    : result Event :=
  verifyWithTolerance payload sigHeader secret defaultTolerance now.

Definition SignPayload (payload secret : string) (ts : Z) : string :=
  "t=" +:+ FormatInt ts +:+ ",v1=" +:+ hexEncode (hmac_sha256 secret (signedPayload ts payload)).
End StripeSignature.

(** ** Lemmas *)

Lemma abs64_small v : - 2 ^ 63 < v < 2 ^ 63 -> abs64 v = Z.abs v.
Proof.
  intros Hv. unfold abs64. destruct (Z.ltb_spec v 0); [rewrite i64_small by (unfold int64_range; lia)|]; lia.
Qed.

(** When the subtraction does not wrap, the check is the one it means to be. *)
Lemma outside_spec now ts tol :
  - 2 ^ 63 < now - ts < 2 ^ 63 -> outside now ts tol = (Seconds tol <? Z.abs (now - ts)).
Proof.
  intros Hd. unfold outside. rewrite i64_small by (unfold int64_range; lia). by rewrite abs64_small.
Qed.

(** Distances to the clock at which the check passes: within the tolerance, or
    the one distance whose negation overflows. *)
Lemma outside_false now ts tol :
  int64_range now -> int64_range ts -> 0 <= now -> 0 <= Seconds tol -> outside now ts tol = false ->
  Z.abs (now - ts) <= Seconds tol \/ 2 ^ 64 - Seconds tol <= now - ts \/ now - ts = 2 ^ 63.
Proof.
  unfold int64_range, outside. intros Hn Ht H0 Htol Ho. apply Z.ltb_ge in Ho.
  destruct (i64_cases (now - ts) ltac:(lia)) as [E|[E|E]]; rewrite E in Ho;
    pose proof (i64_range (now - ts)) as Hr; rewrite E in Hr; unfold int64_range in Hr.
  - destruct (decide (now - ts = - 2 ^ 63)); [lia|]. rewrite abs64_small in Ho by lia. lia.
  - destruct (decide (now - ts = 2 ^ 63)); [lia|]. rewrite abs64_small in Ho by lia. lia.
  - lia.
Qed.

Lemma all_chars_occurs P sep s : P sep = false -> all_chars P s = true -> occurs sep s = false.
Proof.
  intros HP. induction s as [|c s IH]; [done|]. cbn [all_chars occurs]. intros [Hc Hs]%andb_true_iff.
  rewrite IH by done. destruct (Ascii.eqb_spec c sep) as [->|]; [congruence|done].
Qed.

(** Bytes of the header the signer writes. *)
Definition plain (c : ascii) : bool := is_ascii_char c && negb (is_space c) && negb (Ascii.eqb c ",").

Lemma hexEncode_plain b : all_chars plain (hexEncode b) = true.
Proof.
  induction b as [|c b IH]; [done|]. cbn [hexEncode all_chars]. rewrite IH. by all_bytes c.
Qed.

Lemma digits_plain s : all_chars (between 48 57) s = true -> all_chars plain s = true.
Proof. apply all_chars_impl. intros c Hc. revert Hc. by all_bytes c. Qed.

Lemma FormatInt_plain z : all_chars plain (FormatInt z) = true.
Proof.
  unfold FormatInt. destruct (Z.ltb_spec z 0); cbn [all_chars].
  - apply digits_plain, digits_all; [lia|done].
  - apply digits_plain, digits_all; [lia|done].
Qed.

Lemma TrimSpace_plain `{Unicode} s : all_chars plain s = true -> TrimSpace s = s.
Proof.
  intros Hs. unfold TrimSpace.
  assert (Hl : trim_left s = (s, false)).
  { destruct s as [|c s]; [done|]. cbn [all_chars trim_left] in *. unfold plain in Hs.
    rewrite !andb_true_iff, negb_true_iff in Hs. destruct Hs as [[[-> ->] _] _]. done. }
  assert (Hr : trim_right s = (s, false)).
  { clear Hl. induction s as [|c s IH]; [done|]. cbn [all_chars trim_right] in *.
    apply andb_true_iff in Hs as [Hc Hs]. rewrite IH by done. unfold plain in Hc.
    rewrite !andb_true_iff, negb_true_iff in Hc. destruct Hc as [[-> ->] _]. by destruct s. }
  by rewrite Hl, Hr.
Qed.

Lemma signWithExpiry_parse secret m o expiry :
  int64_range expiry ->
  SplitN2 "."%char (CheckoutToken.signWithExpiry secret m o expiry) =
    Some (FormatInt expiry, hexEncode (hmac_sha256 secret (CheckoutToken.message m o expiry))).
Proof. intros He. unfold CheckoutToken.signWithExpiry. apply SplitN2_app, FormatInt_no_sep; auto. Qed.

Lemma str_app_inj a b c : a +:+ b = a +:+ c -> b = c.
Proof. induction a as [|x a IH]; [done|]. intros Heq. apply IH. by injection Heq. Qed.

Lemma hexEncode_inj a b : hexEncode a = hexEncode b -> a = b.
Proof. intros Heq. pose proof (hexDecode_encode a) as Ha. rewrite Heq, hexDecode_encode in Ha. congruence. Qed.

Lemma Verify_token_inv now secret m o token :
  CheckoutToken.Verify now secret m o token = Ok tt ->
  exists expiry, int64_range expiry /\ Unix now <= expiry /\
    token = CheckoutToken.signWithExpiry secret m o expiry.
Proof.
  unfold CheckoutToken.Verify. destruct (SplitN2 _ token) as [[p0 p1]|]; [|done].
  destruct (ParseInt p0) as [expiry|] eqn:Ep; [|done].
  destruct (Z.ltb_spec expiry (Unix now)); [done|]. case_bool_decide; [|done]. intros _.
  exists expiry. split_and!; [|lia|done]. by apply ParseInt_range in Ep.
Qed.

Lemma Verify_signed now secret m o expiry :
  int64_range expiry -> Unix now <= expiry ->
  CheckoutToken.Verify now secret m o (CheckoutToken.signWithExpiry secret m o expiry) = Ok tt.
Proof.
  intros Hr Hn. unfold CheckoutToken.Verify. rewrite signWithExpiry_parse, ParseInt_FormatInt by done.
  destruct (Z.ltb_spec expiry (Unix now)); [lia|]. by rewrite bool_decide_true.
Qed.

Lemma Verify_expired now secret m o token :
  CheckoutToken.Verify now secret m o token = Err (Sentinel ErrExpired) <->
  exists p mac expiry, token = p +:+ String "." mac /\ occurs "." p = false /\ ParseInt p = Some expiry /\ expiry < Unix now.
Proof.
  unfold CheckoutToken.Verify. split.
  - destruct (SplitN2 _ token) as [[p mac]|] eqn:Es; [|done]. destruct (ParseInt p) as [expiry|] eqn:Ep; [|done].
    destruct (Z.ltb_spec expiry (Unix now)); [|by case_bool_decide]. intros _. exists p, mac, expiry.
    split_and!; [by apply SplitN2_join|by eapply SplitN2_first|done|done].
  - intros (p & mac & expiry & -> & Hp & Ep & Hlt). rewrite SplitN2_app, Ep by done.
    by destruct (Z.ltb_spec expiry (Unix now)); [|lia].
Qed.

(** C23. Checkout tokens.  A token that [Sign] made for a secret, a merchant
    and an order is accepted for them up to the second [now] + lifetime and
    refused as expired after it (the expiry being an int64).  Conversely, the
    only strings accepted are the signer's tokens with an expiry that has not
    passed; refused as expired are exactly the strings that begin with a
    number below the current time and a dot, whatever follows; every other
    string is refused as malformed or for its signature. *)
Theorem checkout_token_exact secret m o :
  (forall now lifetime later, int64_range (Unix (now + lifetime)) ->
     CheckoutToken.Verify later secret m o (CheckoutToken.Sign now secret m o lifetime) =
       if Unix later <=? Unix (now + lifetime) then Ok tt else Err (Sentinel ErrExpired)) /\
  forall now token,
    (CheckoutToken.Verify now secret m o token = Ok tt <->
       exists expiry, int64_range expiry /\ Unix now <= expiry /\ token = CheckoutToken.signWithExpiry secret m o expiry) /\
    (CheckoutToken.Verify now secret m o token = Err (Sentinel ErrExpired) <->
       exists p mac expiry, token = p +:+ String "." mac /\ occurs "." p = false /\ ParseInt p = Some expiry /\ expiry < Unix now) /\
    CheckoutToken.Verify now secret m o token ∈
      [Ok tt; Err (Sentinel ErrExpired); Err (Sentinel ErrMalformed); Err (Sentinel ErrSignature)].
Proof.
  split.
  - intros now lifetime later Hr. unfold CheckoutToken.Sign. destruct (Z.leb_spec (Unix later) (Unix (now + lifetime))).
    + by apply Verify_signed.
    + apply Verify_expired. eexists (FormatInt _), _, _. split; [reflexivity|].
      split; [by apply FormatInt_no_sep; [|left]|]. by rewrite ParseInt_FormatInt.
  - intros now token. split_and!.
    + split; [apply Verify_token_inv|]. intros (expiry & Hr & Hn & ->). by apply Verify_signed.
    + apply Verify_expired.
    + unfold CheckoutToken.Verify. destruct (SplitN2 _ token) as [[p mac]|]; [|set_solver].
      destruct (ParseInt p); [|set_solver]. destruct (_ <? _); [set_solver|]. case_bool_decide; set_solver.
Qed.

Lemma checkout_token_exact_witness :
  CheckoutToken.Verify (24 * hour) "k" "shop" "o1" (CheckoutToken.Sign 0 "k" "shop" "o1" (24 * hour)) = Ok tt /\
  CheckoutToken.Verify (24 * hour + second) "k" "shop" "o1" (CheckoutToken.Sign 0 "k" "shop" "o1" (24 * hour))
    = Err (Sentinel ErrExpired).
Proof.
  split; (etransitivity; [apply (proj1 (checkout_token_exact "k" "shop" "o1"))|reflexivity]); split; [discriminate|reflexivity| |];
    [discriminate|reflexivity].
Defined.

(** A token accepted for two (merchant, order) pairs of one secret either
    is signed over the same "merchant:order" text or exhibits an HMAC-SHA256
    collision; pairs that spell the same text share all their tokens. *)
Theorem checkout_token_binding now secret m o m' o' token :
  CheckoutToken.Verify now secret m o token = Ok tt ->
  CheckoutToken.Verify now secret m' o' token = Ok tt <->
    exists expiry, token = CheckoutToken.signWithExpiry secret m o expiry /\ int64_range expiry /\
      hmac_sha256 secret (CheckoutToken.message m o expiry) = hmac_sha256 secret (CheckoutToken.message m' o' expiry).
Proof.
  intros (expiry & Hr & Hn & Et)%Verify_token_inv. split.
  - intros (expiry' & Hr' & Hn' & Et')%Verify_token_inv. exists expiry. split_and!; [done..|].
    pose proof (signWithExpiry_parse secret m o expiry Hr) as H1.
    pose proof (signWithExpiry_parse secret m' o' expiry' Hr') as H2.
    rewrite <- Et in H1. rewrite <- Et', H1 in H2. apply (inj Some), pair_equal_spec in H2 as [Hf Hh].
    apply hexEncode_inj in Hh. rewrite Hh. do 2 f_equal.
    pose proof (ParseInt_FormatInt expiry Hr) as Hp. rewrite Hf, ParseInt_FormatInt in Hp by done.
    by apply (inj Some) in Hp.
  - intros (expiry' & Et' & Hr' & Hh).
    assert (Heq : FormatInt expiry = FormatInt expiry').
    { pose proof (signWithExpiry_parse secret m o expiry Hr) as H1.
      pose proof (signWithExpiry_parse secret m o expiry' Hr') as H2.
      rewrite <- Et in H1. rewrite <- Et', H1 in H2. by apply (inj Some), pair_equal_spec in H2 as [? _]. }
    assert (expiry = expiry') as <-.
    { pose proof (ParseInt_FormatInt expiry Hr) as Hp. rewrite Heq, ParseInt_FormatInt in Hp by done. by apply (inj Some) in Hp. }
    subst token. unfold CheckoutToken.Verify. rewrite signWithExpiry_parse, ParseInt_FormatInt by done.
    destruct (Z.ltb_spec expiry (Unix now)); [lia|]. rewrite bool_decide_true; [done|].
    unfold CheckoutToken.signWithExpiry. by rewrite Hh.
Qed.

(** The separator of the signed text may occur in a merchant id and in an order
    id, so two pairs can spell the same text. *)
Lemma token_witness_message expiry :
  CheckoutToken.message "shop:eu" "42" expiry = CheckoutToken.message "shop" "eu:42" expiry.
Proof. reflexivity. Qed.

Lemma checkout_token_binding_witness :
  CheckoutToken.Verify 0 "k" "shop:eu" "42" (CheckoutToken.Sign 0 "k" "shop:eu" "42" (24 * hour)) = Ok tt /\
  CheckoutToken.Verify 0 "k" "shop" "eu:42" (CheckoutToken.Sign 0 "k" "shop:eu" "42" (24 * hour)) = Ok tt.
Proof.
  assert (Hv : CheckoutToken.Verify 0 "k" "shop:eu" "42" (CheckoutToken.Sign 0 "k" "shop:eu" "42" (24 * hour)) = Ok tt)
    by (vm_compute; reflexivity).
  split; [exact Hv|].
  apply (checkout_token_binding 0 "k" "shop:eu" "42" "shop" "eu:42" _ Hv).
  exists (Unix (0 + 24 * hour)). split; [reflexivity|]. split; [split; [discriminate|reflexivity]|].
  rewrite token_witness_message. reflexivity.
Defined.

(** ** Webhook signatures *)

Section Webhook.
Context `{Unicode} `{EventJSON}.
Import StripeSignature.

(** What the header parser returns was written in the header. *)
Lemma parseParts_spec parts ts v1 ts' v1' :
  parseParts parts ts v1 = Ok (ts', v1') ->
  (ts' = ts \/ exists p v, p ∈ parts /\ SplitN2 "="%char (TrimSpace p) = Some ("t", v) /\ ParseInt v = Some ts') /\
  (forall s, s ∈ v1' -> s ∈ v1 \/ exists p, p ∈ parts /\ SplitN2 "="%char (TrimSpace p) = Some ("v1", s)).
Proof.
  revert ts v1. induction parts as [|p parts IH]; intros ts v1; cbn [parseParts].
  { intros [= -> ->]. split; auto. }
  destruct (SplitN2 _ (TrimSpace p)) as [[k v]|] eqn:Es; [|done].
  assert (Hlift : forall P : string -> Prop, (exists q, q ∈ parts /\ P q) -> exists q, q ∈ p :: parts /\ P q).
  { intros P (q & Hq & HP). exists q. split; [by right|done]. }
  case_bool_decide as Hk; [|case_bool_decide as Hk'].
  - destruct (ParseInt v) as [n|] eqn:En; [|done]. intros [Ht Hs]%IH. split.
    + right. destruct Ht as [->|(q & w & Hq & ?)].
      * exists p, v. subst k. split; [left|done].
      * exists q, w. split; [by right|done].
    + intros s [?|?]%Hs; [by left|right; auto].
  - intros [Ht Hs]%IH. split.
    + destruct Ht as [->|(q & w & Hq & ?)]; [by left|right]. exists q, w. split; [by right|done].
    + intros s [[?|?%list_elem_of_singleton]%elem_of_app|?]%Hs; [by left| |right; auto].
      subst. right. exists p. split; [left|done].
  - intros [Ht Hs]%IH. split.
    + destruct Ht as [->|(q & w & Hq & ?)]; [by left|right]. exists q, w. split; [by right|done].
    + intros s [?|?]%Hs; [by left|right; auto].
Qed.

(** C22. An accepted webhook carries in its header a non-zero timestamp and
    a v1 entry that is the hex HMAC-SHA256 of "timestamp.body" under the
    configured secret, and the event is decoded from that very body.  The
    timestamp is within the tolerance of the clock, up to the two distances
    at which the int64 arithmetic of the check wraps around. *)
Theorem webhook_signature_sound payload header secret tol now ev :
  int64_range (Unix now) -> 0 <= Unix now -> 0 <= Seconds tol ->
  verifyWithTolerance payload header secret tol now = Ok ev ->
  exists ts sig p q v, secret <> "" /\ ts <> 0 /\
    p ∈ Split ","%char header /\ SplitN2 "="%char (TrimSpace p) = Some ("t", v) /\ ParseInt v = Some ts /\
    q ∈ Split ","%char header /\ SplitN2 "="%char (TrimSpace q) = Some ("v1", sig) /\
    hexDecode sig = Some (hmac_sha256 secret (FormatInt ts +:+ "." +:+ payload)) /\
    (Z.abs (Unix now - ts) <= Seconds tol \/ 2 ^ 64 - Seconds tol <= Unix now - ts \/ Unix now - ts = 2 ^ 63) /\
    decodeEvent payload = Ok ev.
Proof.
  intros Hn Hn0 Htol. unfold verifyWithTolerance. case_bool_decide; [done|]. case_bool_decide as Hsec; [done|].
  destruct (parseParts _ 0 []) as [[ts v1]|] eqn:Ep; [|done].
  destruct (Z.eqb_spec ts 0) as [|Hts]; [done|]. case_bool_decide; [done|]. cbn [orb].
  destruct (outside (Unix now) ts tol) eqn:Eo; [done|].
  destruct (List.existsb _ v1) eqn:Ee; [|done]. cbn [negb].
  destruct (decodeEvent payload) as [ev'|] eqn:Ed; [|done]. intros [= ->].
  apply parseParts_spec in Ep as [[|(p & v & Hp & Hpv & Hv)] Hs]; [done|].
  apply List.existsb_exists in Ee as (sig & Hin%list_elem_of_In & Hm).
  destruct (Hs sig Hin) as [Hn'|(q & Hq & Hqs)]; [by apply not_elem_of_nil in Hn'|].
  unfold sigMatches in Hm. destruct (hexDecode sig) as [got|] eqn:Eh; [|done].
  apply bool_decide_eq_true in Hm as ->.
  exists ts, sig, p, q, v. split_and!; [done..| |done].
  apply outside_false; try done. by apply ParseInt_range in Hv.
Qed.

(** What [SignPayload] produces is accepted while its timestamp is
    within the tolerance of the clock, and expired outside of it. *)
Theorem webhook_signature_roundtrip payload secret ts tol now ev :
  secret <> "" -> ts <> 0 -> int64_range ts -> - 2 ^ 63 < Unix now - ts < 2 ^ 63 ->
  decodeEvent payload = Ok ev ->
  verifyWithTolerance payload (SignPayload payload secret ts) secret tol now =
    if Seconds tol <? Z.abs (Unix now - ts) then Err (Sentinel ErrSignatureExpired) else Ok ev.
Proof.
  intros Hsec Hts Hr Hd Hdec. unfold verifyWithTolerance.
  rewrite bool_decide_false by (unfold SignPayload; discriminate). rewrite bool_decide_false by done.
  set (mac := hexEncode (hmac_sha256 secret (signedPayload ts payload))).
  assert (Hsplit : Split ","%char (SignPayload payload secret ts) = ["t=" +:+ FormatInt ts; "v1=" +:+ mac]).
  { unfold SignPayload. fold mac.
    change (Split ","%char (("t=" +:+ FormatInt ts) +:+ String "," ("v1=" +:+ mac)) =
            ["t=" +:+ FormatInt ts; "v1=" +:+ mac]).
    rewrite Split_app by (rewrite occurs_app, FormatInt_no_sep; auto). f_equal.
    apply Split_no_sep, (all_chars_occurs plain); [done|]. rewrite all_chars_app. unfold mac.
    by rewrite hexEncode_plain. }
  assert (Hparse : parseParts ["t=" +:+ FormatInt ts; "v1=" +:+ mac] 0 [] = Ok (ts, [mac])).
  { cbn [parseParts].
    rewrite (TrimSpace_plain ("t=" +:+ FormatInt ts)) by (rewrite all_chars_app, FormatInt_plain; done).
    rewrite (TrimSpace_plain ("v1=" +:+ mac)) by (unfold mac; rewrite all_chars_app, hexEncode_plain; done).
    change ("t=" +:+ FormatInt ts) with ("t" +:+ String "=" (FormatInt ts)).
    change ("v1=" +:+ mac) with ("v1" +:+ String "=" mac).
    rewrite !SplitN2_app by reflexivity. rewrite ParseInt_FormatInt by exact Hr. reflexivity. }
  rewrite Hsplit, Hparse.
  destruct (Z.eqb_spec ts 0); [done|]. rewrite bool_decide_false by done. cbn [orb].
  rewrite outside_spec by done. destruct (_ <? _); [done|].
  cbn [List.existsb]. unfold sigMatches, mac. rewrite hexDecode_encode, bool_decide_true by done.
  cbn. by rewrite Hdec.
Qed.
End Webhook.
