(* ===== verification/Ports.v ===== *)
(** * Ports of the service layer

    The interfaces the services are written against besides the transactions
    repository and the Stripe client: the clock, the merchants repository, the
    Kafka publisher and the Redis commands.  Each is a class over a state of
    its own; a service runs on a product of such states, so that what a call
    leaves alone is visible in its type. *)

From S2P Require Import Prelude GoStrings Domain.
Local Open Scope Z_scope.

(** [time.Now()] in nanoseconds since the Unix epoch. *)
Class Clock (X : Type) : Type := time_Now : ST X Z.

(** internal/repository/merchant_repo.go: MerchantRepository.  [Insert] writes
    the chosen shard, the defaults and the id back into its argument. *)
Class MerchantRepository (X : Type) : Type := {
  GetByAPIKey : string -> ST X (result Merchant);
  GetByMerchantID : string -> ST X (result Merchant);
  merchants_Insert : Merchant -> ST X (Merchant * result unit);
}.

(** internal/kafka/producer.go: the event and EventPublisher. *)
Record PaymentConfirmedEvent : Type := {
  pc_OrderID : string;
  pc_MerchantID : string;
  pc_Status : string;
  pc_StripePaymentIntentID : string;
  pc_Amount : Z;
  pc_Currency : string;
  pc_ConfirmedAt : Z;
}.

Class EventPublisher (X : Type) : Type :=
  PublishPaymentConfirmed : PaymentConfirmedEvent -> ST X (result unit).

(** The Redis command SET key value NX PX ttl. *)
Class RedisSetNX (R : Type) : Type := SetNX : string -> string -> Z -> ST R (result bool).

(** Documented behaviour of the command on the keys that are alive: it reports
    success only when the key was absent and leaves it set, failure only when
    the key was there; an error may hide either outcome.  Other keys can only
    expire. *)
Class RedisSetNXLaws (R : Type) `{RedisSetNX R} : Type := {
  live : R -> string -> option string;
  setnx_law k v ttl r res r' :
    SetNX k v ttl r = (res, r') ->
    (forall k', k' <> k -> live r' k' = live r k' \/ live r' k' = None) /\
    match res with
    | Ok true => live r k = None /\ live r' k = Some v
    | Ok false => is_Some (live r k) /\ live r' k = live r k
    | Err _ => live r' k = live r k \/ (live r k = None /\ live r' k = Some v)
    end;
}.

(** internal/cache: Locker and Lock (a nil [*redisLock] never occurs: [Acquire]
    returns a lock or an error), URLCache and TokenBucket. *)
Record Lock : Type := { lk_key : string; lk_token : string }.

Class Locker (X : Type) : Type := {
  Acquire : string -> Z -> ST X (result Lock);
  Release : Lock -> ST X (result unit);
}.

Class URLCache (X : Type) : Type := {
  url_Get : string -> ST X (option string);
  url_Put : string -> string -> ST X unit;
}.

Class TokenBucket (X : Type) : Type := bucket_Allow : ST X (result unit).

(** Facts about a run on a product state. *)
Lemma on_fst_eq {W V A} (m : ST W A) (w w' : W) (v : V) a : m w = (a, w') -> on_fst m (w, v) = (a, (w', v)).
Proof. unfold on_fst. cbn. by intros ->. Qed.

Lemma on_snd_eq {W V A} (m : ST V A) (w : W) (v v' : V) a : m v = (a, v') -> on_snd m (w, v) = (a, (w, v')).
Proof. unfold on_snd. cbn. by intros ->. Qed.
