(* ===== verification/PaymentService.v ===== *)
(** * Creating a payment (internal/service/payment_service.go)

    [Create] runs on the product of the repository's state [D] and of the rest
    of the world [X] (Stripe and the clock).  Its theorems are stated against
    the [TransactionStore] contract. *)

From S2P Require Import Prelude GoStrings Sha256 Domain TransactionStore StripeTypes Signatures Ports.
Local Open Scope Z_scope.

Record CreatePaymentInput : Type := {
  in_Merchant : option Merchant;
  in_OrderID : string;
  in_Amount : Z;
  in_Currency : string;
  in_PaymentMethodTypes : list string;
  in_CustomerEmail : string;
  in_SuccessURL : string;
  in_CancelURL : string;
  in_Method : string;
}.

Record CryptoPayload : Type := {
  cp_ContractAddress : string;
  cp_OrderID : string;
  cp_Amount : Z;
  cp_ChainID : Z;
}.

Record CreatePaymentResult : Type := {
  res_OrderID : string;
  res_TransactionID : string;
  res_StripeSessionID : string;
  res_CheckoutURL : string;
  res_StripePaymentIntentID : string;
  res_ClientSecret : string;
  res_Status : string;
  res_CryptoPayload : option CryptoPayload;
}.

(** The configuration fields of [paymentService]. *)
Record paymentService : Type := {
  ps_currency : string;
  ps_cryptoContract : string;
  ps_cryptoChainID : Z;
  ps_lazyCheckout : bool;
  ps_publicBaseURL : string;
  ps_checkoutSecret : string;
  ps_checkoutTokenTTL : Z;
  ps_defaultSuccessURL : string;
  ps_defaultCancelURL : string;
}.

Record PaymentServiceOptions : Type := {
  opt_DefaultCurrency : string;
  opt_CryptoContract : string;
  opt_CryptoChainID : Z;
  opt_LazyCheckout : bool;
  opt_PublicBaseURL : string;
  opt_CheckoutSecret : string;
  opt_CheckoutTokenTTL : Z;
  opt_DefaultSuccessURL : string;
  opt_DefaultCancelURL : string;
}.

Definition NewPaymentService (opts : PaymentServiceOptions) : paymentService := {|
  ps_currency := opt_DefaultCurrency opts;
  ps_cryptoContract := opt_CryptoContract opts;
  ps_cryptoChainID := opt_CryptoChainID opts;
  ps_lazyCheckout := opt_LazyCheckout opts;
  ps_publicBaseURL := opt_PublicBaseURL opts;
  ps_checkoutSecret := opt_CheckoutSecret opts;
  ps_checkoutTokenTTL := if opt_CheckoutTokenTTL opts =? 0 then 24 * hour else opt_CheckoutTokenTTL opts;
  ps_defaultSuccessURL := opt_DefaultSuccessURL opts;
  ps_defaultCancelURL := opt_DefaultCancelURL opts |}.

(** SHA-256 over [merchantID ":" orderID], its first sixteen bytes in hex. *)
Definition DeriveTransactionID (merchantID orderID : string) : string :=
  hexEncode (String.substring 0 16 (sha256 (merchantID +:+ ":" +:+ orderID))).

Definition defaultIfEmpty (v def : list string) : list string :=
  match v with [] => def | _ => v end.

Definition orFallback (v def : string) : string := if bool_decide (v = "") then def else v.

(** [strings.HasPrefix(method, "crypto")]: which of the two flows a stored
    method belongs to. *)
Definition is_crypto (method : string) : bool := HasPrefix method "crypto".

Section Create.
Context `{Unicode}.
Context {D X : Type} `{TransactionRepository D} `{Client X} `{Clock X}.
Variable s : paymentService.

Definition sameMaterialPayment (existing : Transaction) (amount : Z) (currency method : string) : bool :=
  if negb (t_Amount existing =? amount) then false
  else if negb (EqualFold (t_Currency existing) currency) then false
  else Bool.eqb (is_crypto (t_PaymentMethod existing)) (is_crypto method).

Definition primaryMethod (input : CreatePaymentInput) : string :=
  if EqualFold (in_Method input) "crypto" then "crypto_eth"
  else match in_PaymentMethodTypes input with
       | m :: _ => m
       | [] => "card"
       end.

Definition lazyCheckoutURL (merchantID orderID : string) : ST X string :=
  let base := ps_publicBaseURL s +:+ "/pay/" +:+ merchantID +:+ "/" +:+ orderID in
  if bool_decide (ps_checkoutSecret s = "") then ret base
  else
    (let! now := time_Now in
     let token := CheckoutToken.Sign now (ps_checkoutSecret s) merchantID orderID (ps_checkoutTokenTTL s) in
     ret (if bool_decide (token = "") then base else base +:+ "?t=" +:+ token))%easypay.

Definition reconstructResult (merchantID : string) (o : Transaction) : ST X CreatePaymentResult :=
  let res url crypto := {|
    res_OrderID := t_OrderID o;
    res_TransactionID := t_TransactionID o;
    res_StripeSessionID := t_StripeSessionID o;
    res_CheckoutURL := url;
    res_StripePaymentIntentID := t_StripePaymentIntentID o;
    res_ClientSecret := "";
    res_Status := "accepted";
    res_CryptoPayload := crypto |} in
  if is_crypto (t_PaymentMethod o) then
    ret (res "" (Some {| cp_ContractAddress := ps_cryptoContract s; cp_OrderID := t_OrderID o;
                         cp_Amount := t_Amount o; cp_ChainID := ps_cryptoChainID s |}))
  else if negb (bool_decide (t_StripeSessionID o = "")) then
    ret (res ("https://checkout.stripe.com/c/pay/" +:+ t_StripeSessionID o) None)
  else (let! url := lazyCheckoutURL merchantID (t_OrderID o) in ret (res url None))%easypay.

(** The row [Create] inserts. *)
Definition newRow (m : Merchant) (input : CreatePaymentInput) (currency : string) : Transaction := {|
  t_MerchantID := m_MerchantID m;
  t_TransactionID := DeriveTransactionID (m_MerchantID m) (in_OrderID input);
  t_OrderID := in_OrderID input;
  t_Amount := in_Amount input;
  t_Currency := currency;
  t_Status := TransactionStatusCreated;
  t_PaymentMethod := primaryMethod input;
  t_StripeSessionID := "";
  t_StripePaymentIntentID := "";
  t_CreatedAt := zero_time;
  t_UpdatedAt := zero_time;
  t_ShardIndex := m_ShardIndex m |}.

(** The loser of the UNIQUE race: find the winner, answer for it. *)
Definition duplicate (m : Merchant) (input : CreatePaymentInput) (currency : string)
    : ST (D * X) (result CreatePaymentResult) :=
  (let! found := on_fst (repo_GetByTransactionID (m_ShardIndex m) (m_MerchantID m)
                   (DeriveTransactionID (m_MerchantID m) (in_OrderID input))) in
   match found with
   | Err e => ret (Err (Wrap "idem lookup" e))
   | Ok existing =>
       if negb (sameMaterialPayment existing (in_Amount input) currency (primaryMethod input))
       then ret (Err (Wrap "amount/currency/method mismatch" (Sentinel ErrTransactionConflict)))
       else let! res := on_snd (reconstructResult (m_MerchantID m) existing) in ret (Ok res)
   end)%easypay.

Definition checkoutRequest (m : Merchant) (input : CreatePaymentInput) (currency : string)
    : CreateCheckoutRequest := {|
  ccr_Amount := in_Amount input;
  ccr_Currency := ToLower currency;
  ccr_PaymentMethodTypes := defaultIfEmpty (in_PaymentMethodTypes input) ["card"];
  ccr_CustomerEmail := in_CustomerEmail input;
  ccr_SuccessURL := orFallback (in_SuccessURL input) (ps_defaultSuccessURL s);
  ccr_CancelURL := orFallback (in_CancelURL input) (ps_defaultCancelURL s);
  ccr_ClientReferenceID := in_OrderID input;
  ccr_Metadata := <["order_id" := in_OrderID input]> (<["merchant_id" := m_MerchantID m]> ∅) |}.

(** The flow chosen after a successful insert. *)
Definition flow (m : Merchant) (input : CreatePaymentInput) (currency : string)
    : ST (D * X) (result CreatePaymentResult) :=
  let txnID := DeriveTransactionID (m_MerchantID m) (in_OrderID input) in
  let result sess url pi secret crypto := {|
    res_OrderID := in_OrderID input; res_TransactionID := txnID; res_StripeSessionID := sess;
    res_CheckoutURL := url; res_StripePaymentIntentID := pi; res_ClientSecret := secret;
    res_Status := "accepted"; res_CryptoPayload := crypto |} in
  (if EqualFold (in_Method input) "crypto" then
     ret (Ok (result "" "" "" "" (Some {| cp_ContractAddress := ps_cryptoContract s;
       cp_OrderID := in_OrderID input; cp_Amount := in_Amount input; cp_ChainID := ps_cryptoChainID s |})))
   else if ps_lazyCheckout s then
     let! url := on_snd (lazyCheckoutURL (m_MerchantID m) (in_OrderID input)) in
     ret (Ok (result "" url "" "" None))
   else
     let! session := on_snd (CreateCheckoutSession (checkoutRequest m input currency) txnID) in
     match session with
     | Err e => ret (Err (Wrap "stripe checkout" e))
     | Ok session =>
         let! saved := on_fst (repo_UpdateCheckout (m_ShardIndex m) (m_MerchantID m) (in_OrderID input)
                                 (cs_ID session) (cs_PaymentIntentID session)) in
         ret (match saved with
              | Err e => Err (Wrap "persist stripe session" e)
              | Ok _ => Ok (result (cs_ID session) (cs_URL session) (cs_PaymentIntentID session)
                              (cs_ClientSecret session) None)
              end)
     end)%easypay.

Definition Create (input : CreatePaymentInput) : ST (D * X) (result CreatePaymentResult) :=
  match in_Merchant input with
  | None => ret (Err (Wrap "merchant required" (Sentinel ErrInvalidRequest)))
  | Some m =>
      match ValidateOrderID (in_OrderID input) with
      | Err e => ret (Err (Wrap (errText e) (Sentinel ErrInvalidRequest)))
      | Ok _ =>
          if in_Amount input <=? 0 then ret (Err (Wrap "amount must be > 0" (Sentinel ErrInvalidRequest)))
          else
            let currency := ToUpper (if bool_decide (in_Currency input = "") then ps_currency s else in_Currency input) in
            (let! ins := on_fst (repo_Insert (newRow m input currency)) in
             match ins.2 with
             | Err e =>
                 if negb (errIs e ErrDuplicateTransaction) then ret (Err (Wrap "insert order" e))
                 else duplicate m input currency
             | Ok _ => flow m input currency
             end)%easypay
      end
  end.
End Create.
