(* ===== verification/PaymentTheorems.v ===== *)
(** * Creating a payment: what [Create] guarantees

    Durability of accepted payments, idempotency on (merchant, order), the
    answer given to a retry, refusal of invalid requests, and the one way two
    different payments can get the same transaction id.  Everything is proved
    against the [TransactionStore] contract. *)

From S2P Require Import Prelude GoStrings Sha256 Domain TransactionStore StripeTypes Signatures Ports PaymentService.
Local Open Scope Z_scope.

(** ** Transaction ids *)

Lemma DeriveTransactionID_lower m o : smap lower (DeriveTransactionID m o) = DeriveTransactionID m o.
Proof. symmetry. unfold DeriveTransactionID. apply hexEncode_decode, hexDecode_encode. Qed.

Lemma substring_length n s : (n <= String.length s)%nat -> String.length (String.substring 0 n s) = n.
Proof.
  revert n. induction s as [|c s IH]; intros [|n] Hn; cbn in *; [lia|lia|lia|]. rewrite IH; lia.
Qed.

Lemma DeriveTransactionID_length m o : len (DeriveTransactionID m o) = 32.
Proof.
  unfold DeriveTransactionID, len. rewrite hexEncode_length, substring_length; [lia|].
  rewrite sha256_length. lia.
Qed.

Section Theorems.
Context `{Unicode}.
Context {D X : Type} `{HS : TransactionStore D} `{Client X} `{Clock X}.
Variable s : paymentService.

(** The currency a request is recorded with. *)
Definition currency_of (input : CreatePaymentInput) : string :=
  ToUpper (if bool_decide (in_Currency input = "") then ps_currency s else in_Currency input).

(** ** Two payments of a shard with one transaction id are the same *)

Lemma content_same d sh t t' :
  store_inv d -> t ∈ content d sh -> t' ∈ content d sh -> t_TransactionID t = t_TransactionID t' -> t = t'.
Proof.
  intros Hd Ht Ht' Heq. pose proof (content_unique d sh Hd) as Hu.
  apply list_elem_of_lookup in Ht as [i Hi]. apply list_elem_of_lookup in Ht' as [j Hj].
  assert (i = j) as <-; [|congruence].
  eapply NoDup_lookup; [exact Hu|rewrite list_lookup_fmap, Hi; reflexivity|].
  rewrite list_lookup_fmap, Hj. cbn. by rewrite Heq.
Qed.

(** Inserting a transaction id that is there already fails and changes
    nothing. *)
Lemma insert_existing d t t' res d' :
  store_inv d -> int64_range (t_Amount t) ->
  (exists y, y ∈ content d (t_ShardIndex t) /\ t_TransactionID y = smap lower (t_TransactionID t)) ->
  repo_Insert t d = ((t', res), d') ->
  store_inv d' /\ is_ok res = false /\ content d' (t_ShardIndex t) = content d (t_ShardIndex t).
Proof.
  intros Hd Ha (y & Hy & Ey) Hins.
  destruct (insert_law d t t' res d' Hd Ha Hins) as (Hd' & (c & u & Et) & Hres).
  assert (Hno : content d' (t_ShardIndex t) <> content d (t_ShardIndex t) ++ [stored t']).
  { intros Hc. pose proof (content_unique d' (t_ShardIndex t) Hd') as Hu.
    rewrite Hc, fmap_app in Hu. apply NoDup_app in Hu as (_ & Hdis & _).
    apply (Hdis (t_TransactionID y)); [apply list_elem_of_fmap; by exists y|].
    destruct (stored_spec t') as (_ & _ & Hx & _). cbn. rewrite Hx, Et, Ey. cbn. by left. }
  split; [exact Hd'|]. destruct res as [?|e]; cbn.
  - destruct Hres as [_ Hc]. done.
  - split; [done|]. by destruct Hres as [?|?].
Qed.

(** ** The shape of a successful call *)

(** What an accepted request leaves in the repository: the payment of this
    transaction id, and how the answer describes it. *)
Record recorded (m : Merchant) (input : CreatePaymentInput) (res : CreatePaymentResult) (t : Transaction)
    : Prop := {
  rec_txn : t_TransactionID t = DeriveTransactionID (m_MerchantID m) (in_OrderID input);
  rec_merchant : key_eq (t_MerchantID t) (m_MerchantID m) = true;
  rec_amount : t_Amount t = in_Amount input;
  rec_positive : 0 < in_Amount input;
  rec_res_order : res_OrderID res = t_OrderID t;
  rec_res_txn : res_TransactionID res = t_TransactionID t;
  rec_res_session : res_StripeSessionID res = t_StripeSessionID t;
  rec_res_pi : res_StripePaymentIntentID res = t_StripePaymentIntentID t;
  rec_res_status : res_Status res = "accepted";
  rec_res_crypto : EqualFold (in_Method input) "crypto" = true ->
    res_ClientSecret res = "" /\ res_CheckoutURL res = "" /\ is_crypto (t_PaymentMethod t) = true /\
    res_CryptoPayload res = Some {| cp_ContractAddress := ps_cryptoContract s; cp_OrderID := t_OrderID t;
                                    cp_Amount := t_Amount t; cp_ChainID := ps_cryptoChainID s |};
}.

(** A successful call is either the first, which inserted a row, or a retry
    that found the payment. *)
Lemma Create_Ok input d x res d' x' :
  Create s input (d, x) = (Ok res, (d', x')) ->
  exists m, in_Merchant input = Some m /\ ValidateOrderID (in_OrderID input) = Ok tt /\ 0 < in_Amount input /\
    exists t' ins d1, repo_Insert (newRow m input (currency_of input)) d = ((t', ins), d1) /\
      match ins with
      | Ok _ => flow s m input (currency_of input) (d1, x) = (Ok res, (d', x'))
      | Err e => duplicate s m input (currency_of input) (d1, x) = (Ok res, (d', x'))
      end.
Proof.
  unfold Create, ret. destruct (in_Merchant input) as [m|]; [|discriminate].
  destruct (ValidateOrderID _) as [[]|]; [|discriminate].
  destruct (Z.leb_spec (in_Amount input) 0); [discriminate|]. fold (currency_of input).
  unfold bind at 1, on_fst at 1. cbn [fst snd].
  destruct (repo_Insert _ d) as [[t' ins] d1] eqn:Ei. cbn [fst snd]. intros Hc.
  exists m. do 3 (split; [done|]). exists t', ins, d1. split; [done|].
  destruct ins as [?|e]; [exact Hc|]. destruct (errIs e _); [exact Hc|discriminate].
Qed.

Lemma duplicate_Ok m input d x res d' x' :
  store_inv d -> 0 < in_Amount input ->
  duplicate s m input (currency_of input) (d, x) = (Ok res, (d', x')) ->
  store_inv d' /\ (forall sh, content d' sh = content d sh) /\ (x' = x \/ x' = (time_Now x).2) /\
  exists t, List.find (by_txn key_eq (m_MerchantID m) (DeriveTransactionID (m_MerchantID m) (in_OrderID input)))
      (content d (m_ShardIndex m)) = Some t /\
    sameMaterialPayment t (in_Amount input) (currency_of input) (primaryMethod input) = true /\
    reconstructResult s (m_MerchantID m) t x = (res, x').
Proof.
  intros Hd Hpos. unfold duplicate, bind at 1, on_fst at 1. cbn [fst snd].
  destruct (repo_GetByTransactionID _ _ _ d) as [found d1] eqn:Eg.
  destruct (get_txn_law _ _ _ _ _ _ Hd Eg) as (Hd1 & Hc & Hf). cbv beta.
  destruct found as [t|e]; [|unfold ret; discriminate].
  destruct (sameMaterialPayment _ _ _ _) eqn:Es; [|unfold ret; discriminate]. cbn [negb].
  unfold bind at 1, on_snd at 1. cbn [fst snd].
  destruct (reconstructResult _ _ t x) as [res' x1] eqn:Er. unfold ret. cbn.
  intros [= <- <- <-]. split; [done|]. split; [done|]. split; [|by exists t].
  revert Er. unfold reconstructResult, lazyCheckoutURL, bind, ret.
  destruct (is_crypto _); [intros [= _ <-]; by left|].
  destruct (negb _); [intros [= _ <-]; by left|].
  case_bool_decide; [intros [= _ <-]; by left|].
  destruct (time_Now x) as [now x2]. intros [= _ <-]. by right.
Qed.

Lemma find_by_txn m xid l t : List.find (by_txn key_eq m xid) l = Some t ->
  t ∈ l /\ key_eq (t_MerchantID t) m = true /\ t_TransactionID t = smap lower xid.
Proof.
  intros [Hin Hp]%List.find_some. apply list_elem_of_In in Hin.
  unfold by_txn in Hp. apply andb_true_iff in Hp as [Hk Hx%bool_decide_eq_true]. done.
Qed.

Lemma sameMaterial_spec t a c p : sameMaterialPayment t a c p = true ->
  t_Amount t = a /\ EqualFold (t_Currency t) c = true /\ is_crypto (t_PaymentMethod t) = is_crypto p.
Proof.
  unfold sameMaterialPayment. destruct (Z.eqb_spec (t_Amount t) a); [|done].
  destruct (EqualFold _ _); [|done]. cbn. by intros ?%Bool.eqb_prop.
Qed.

Lemma reconstruct_spec mid t x res x' :
  reconstructResult s mid t x = (res, x') ->
  res_OrderID res = t_OrderID t /\ res_TransactionID res = t_TransactionID t /\
  res_StripeSessionID res = t_StripeSessionID t /\ res_StripePaymentIntentID res = t_StripePaymentIntentID t /\
  res_Status res = "accepted" /\ res_ClientSecret res = "" /\
  (is_crypto (t_PaymentMethod t) = true -> res_CheckoutURL res = "" /\
     res_CryptoPayload res = Some {| cp_ContractAddress := ps_cryptoContract s; cp_OrderID := t_OrderID t;
                                     cp_Amount := t_Amount t; cp_ChainID := ps_cryptoChainID s |}).
Proof.
  unfold reconstructResult, bind, ret. destruct (is_crypto _); [by intros [= <- <-]|].
  destruct (negb _); [by intros [= <- <-]|].
  destruct (lazyCheckoutURL _ _ _ _) as [url x1]. by intros [= <- <-].
Qed.

Lemma duplicate_recorded m input d x res d' x' :
  store_inv d -> 0 < in_Amount input ->
  duplicate s m input (currency_of input) (d, x) = (Ok res, (d', x')) ->
  exists t, t ∈ content d' (m_ShardIndex m) /\ recorded m input res t.
Proof.
  intros Hd Hpos Hdup. destruct (duplicate_Ok m input d x res d' x' Hd Hpos Hdup) as (_ & Hc & _ & t & Hf & Hs & Hr).
  apply find_by_txn in Hf as (Hin & Hk & Hx). rewrite DeriveTransactionID_lower in Hx.
  apply sameMaterial_spec in Hs as (Ha & _ & Hm).
  apply reconstruct_spec in Hr as (H1' & H2' & H3' & H4' & H5' & H6' & H7').
  exists t. rewrite Hc. split; [exact Hin|]. split; try done.
  intros Hcr. unfold primaryMethod in Hm. rewrite Hcr in Hm.
  assert (Hm' : is_crypto (t_PaymentMethod t) = true) by exact Hm. destruct (H7' Hm'). done.
Qed.

(** The row a first call leaves, before the flow runs. *)
Lemma insert_new m input d t' d1 :
  store_inv d -> int64_range (in_Amount input) -> 0 < in_Amount input ->
  repo_Insert (newRow m input (currency_of input)) d = ((t', Ok tt), d1) ->
  store_inv d1 /\ content d1 (m_ShardIndex m) = content d (m_ShardIndex m) ++ [stored t'] /\
  t_TransactionID (stored t') = DeriveTransactionID (m_MerchantID m) (in_OrderID input) /\
  t_MerchantID (stored t') = m_MerchantID m /\ t_OrderID (stored t') = in_OrderID input /\
  t_Amount (stored t') = in_Amount input /\ t_StripeSessionID (stored t') = "" /\
  t_StripePaymentIntentID (stored t') = "" /\
  (EqualFold (in_Method input) "crypto" = true -> is_crypto (t_PaymentMethod (stored t')) = true).
Proof.
  intros Hd Ha Hpos Hins.
  destruct (insert_law d (newRow m input (currency_of input)) t' (Ok tt) d1 Hd Ha Hins)
    as (Hd1 & (c & u & Et) & _ & Hc).
  destruct (stored_spec t') as (E1 & E2 & E3 & _ & E5 & E6 & _ & E8 & _ & E10).
  assert (F : t_MerchantID t' = m_MerchantID m /\ t_OrderID t' = in_OrderID input /\
    t_TransactionID t' = DeriveTransactionID (m_MerchantID m) (in_OrderID input) /\
    t_StripeSessionID t' = "" /\ t_StripePaymentIntentID t' = "" /\ t_Amount t' = in_Amount input /\
    t_PaymentMethod t' = primaryMethod input) by (by rewrite Et).
  destruct F as (F1 & F2 & F3 & F4 & F5 & F6 & F7).
  rewrite E1, E2, E3, E5, E6, E10, F1, F2, F3, F4, F5, F6, DeriveTransactionID_lower
    by (rewrite F6; unfold int64_range in Ha; lia).
  split; [exact Hd1|]. split; [exact Hc|]. do 6 (split; [reflexivity|]).
  intros Hcr. rewrite E8; [reflexivity|]. rewrite F7. unfold primaryMethod. by rewrite Hcr.
Qed.

Lemma flow_recorded m input d x res d' x' t :
  store_inv d -> 0 < in_Amount input -> t ∈ content d (m_ShardIndex m) ->
  t_TransactionID t = DeriveTransactionID (m_MerchantID m) (in_OrderID input) ->
  t_MerchantID t = m_MerchantID m -> t_OrderID t = in_OrderID input -> t_Amount t = in_Amount input ->
  t_StripeSessionID t = "" -> t_StripePaymentIntentID t = "" ->
  (EqualFold (in_Method input) "crypto" = true -> is_crypto (t_PaymentMethod t) = true) ->
  flow s m input (currency_of input) (d, x) = (Ok res, (d', x')) ->
  store_inv d' /\ exists t1, t1 ∈ content d' (m_ShardIndex m) /\ recorded m input res t1.
Proof.
  intros Hd Hpos Hin E1 E2 E3 E4 E5 E6 E7. unfold flow.
  destruct (EqualFold (in_Method input) "crypto") eqn:Ecr.
  { unfold ret. intros [= <- <- <-]. split; [done|]. exists t. split; [done|].
    split; cbn; rewrite ?E1, ?E2, ?E3, ?E4, ?E5, ?E6; try done; [apply key_eq_refl|].
    intros _. specialize (E7 eq_refl). done. }
  destruct (ps_lazyCheckout s).
  { unfold bind, on_snd, ret. cbn [fst snd]. destruct (lazyCheckoutURL _ _ _ x) as [url x1]. cbn.
    intros [= <- <- <-]. split; [done|]. exists t. split; [done|].
    split; cbn; rewrite ?E1, ?E2, ?E3, ?E4, ?E5, ?E6; try done; [apply key_eq_refl|congruence]. }
  unfold bind at 1, on_snd at 1. cbn [fst snd].
  destruct (CreateCheckoutSession _ _ x) as [[sess|e] x1]; [|unfold ret; discriminate].
  unfold bind at 1, on_fst at 1. cbn [fst snd].
  destruct (repo_UpdateCheckout _ _ _ _ _ d) as [[saved|e] d1] eqn:Eu; unfold ret; [|discriminate].
  cbn [fst snd]. intros [= <- <- <-].
  destruct (update_checkout_law _ _ _ _ _ _ _ _ Hd Eu) as (Hd1 & (u & Hc) & _). split; [done|].
  exists (put_checkout (cs_ID sess) (cs_PaymentIntentID sess) u t). split.
  { rewrite Hc. apply list_elem_of_fmap. exists t. split; [|done].
    unfold by_key. by rewrite E2, E3, !key_eq_refl. }
  assert (Hkeep : forall v, v = keep v "") by (intros v; unfold keep; by case_bool_decide).
  split; cbn; rewrite ?E1, ?E2, ?E3, ?E4, ?E5, ?E6, <- ?Hkeep; try done; [apply key_eq_refl|congruence].
Qed.

Lemma Create_recorded input d x res d' x' :
  store_inv d -> int64_range (in_Amount input) -> Create s input (d, x) = (Ok res, (d', x')) ->
  store_inv d' /\ exists m t, in_Merchant input = Some m /\ t ∈ content d' (m_ShardIndex m) /\ recorded m input res t.
Proof.
  intros Hd Ha Hc. destruct (Create_Ok _ _ _ _ _ _ Hc) as (m & Hm & _ & Hpos & t' & ins & d1 & Hins & Hk).
  destruct ins as [[]|e].
  - destruct (insert_new m input d t' d1 Hd Ha Hpos Hins) as (Hd1 & Hc1 & ? & ? & ? & ? & ? & ? & ?).
    destruct (flow_recorded m input d1 x res d' x' (stored t')) as (Hd' & t1 & Hin & Hrec); try done.
    { rewrite Hc1. apply elem_of_app. right. by left. }
    split; [done|]. by exists m, t1.
  - destruct (insert_law d (newRow m input (currency_of input)) t' (Err e) d1 Hd Ha Hins) as (Hd1 & _).
    destruct (duplicate_Ok m input d1 x res d' x' Hd1 Hpos Hk) as (Hd' & _). split; [done|].
    destruct (duplicate_recorded m input d1 x res d' x' Hd1 Hpos Hk) as (t & Hin & Hrec). by exists m, t.
Qed.

(** C3. An accepted payment is durable: when [Create] answers without an
    error, the merchant's shard holds the payment of the derived transaction
    id, with the merchant and the amount of the request, and every id in the
    answer is the one in that row.  The amount is positive. *)
Theorem Create_durable input d x res d' x' :
  store_inv d -> int64_range (in_Amount input) -> Create s input (d, x) = (Ok res, (d', x')) ->
  exists m t, in_Merchant input = Some m /\ t ∈ content d' (m_ShardIndex m) /\ recorded m input res t.
Proof. intros Hd Ha Hc. by apply (Create_recorded input d x res d' x' Hd Ha Hc). Qed.

(** ** Retries *)

(** A payment with the request's transaction id is in the merchant's shard. *)
Definition exists_already (m : Merchant) (input : CreatePaymentInput) (d : D) : Prop :=
  exists y, y ∈ content d (m_ShardIndex m) /\
    t_TransactionID y = DeriveTransactionID (m_MerchantID m) (in_OrderID input).

Lemma duplicate_frame m input d x res d' x' :
  store_inv d -> duplicate s m input (currency_of input) (d, x) = (res, (d', x')) ->
  store_inv d' /\ (forall sh, content d' sh = content d sh) /\ (x' = x \/ x' = (time_Now x).2).
Proof.
  intros Hd. unfold duplicate, bind at 1, on_fst at 1. cbn [fst snd].
  destruct (repo_GetByTransactionID _ _ _ d) as [found d1] eqn:Eg.
  destruct (get_txn_law _ _ _ _ _ _ Hd Eg) as (Hd1 & Hc & _). cbv beta.
  destruct found as [t|e]; [|unfold ret; intros [= <- <- <-]; auto].
  destruct (negb _); [unfold ret; intros [= <- <- <-]; auto|].
  unfold bind at 1, on_snd at 1. cbn [fst snd].
  unfold reconstructResult, lazyCheckoutURL, bind, ret.
  destruct (is_crypto _); [intros [= <- <- <-]; auto|].
  destruct (negb _); [intros [= <- <- <-]; auto|].
  case_bool_decide; [intros [= <- <- <-]; auto|].
  destruct (time_Now x) as [now x2]. intros [= <- <- <-]; auto.
Qed.

Lemma Create_existing_frame m input d x res d' x' :
  store_inv d -> int64_range (in_Amount input) -> in_Merchant input = Some m -> exists_already m input d ->
  Create s input (d, x) = (res, (d', x')) ->
  store_inv d' /\ content d' (m_ShardIndex m) = content d (m_ShardIndex m) /\ (x' = x \/ x' = (time_Now x).2).
Proof.
  intros Hd Ha Hm (y & Hy & Ey). unfold Create, ret. rewrite Hm.
  destruct (ValidateOrderID _) as [[]|]; [|intros [= <- <- <-]; auto].
  destruct (Z.leb_spec (in_Amount input) 0); [intros [= <- <- <-]; auto|]. fold (currency_of input).
  unfold bind at 1, on_fst at 1. cbn [fst snd].
  destruct (repo_Insert _ d) as [[t' ins] d1] eqn:Ei. cbn [fst snd].
  destruct (insert_existing d (newRow m input (currency_of input)) t' ins d1 Hd Ha) as (Hd1 & Hok & Hc); [|done|].
  { exists y. split; [done|]. cbn. by rewrite DeriveTransactionID_lower. }
  cbn [t_ShardIndex newRow] in Hc. destruct ins as [?|e]; [discriminate|].
  destruct (errIs e _); cbn [negb]; [|intros [= <- <- <-]; auto].
  intros (Hd' & Hc' & Hx)%duplicate_frame; [|done]. rewrite Hc'. auto.
Qed.

(** C4. Retries are idempotent: once the transaction id of a (merchant,
    order) pair is in the merchant's shard, no further request for that pair
    adds or changes a payment of the shard, whatever its other fields and
    whatever fails, and none of them calls Stripe (the world outside the
    repository changes by one reading of the clock at most). *)
Theorem Create_idempotent m input d x res d' x' :
  store_inv d -> int64_range (in_Amount input) -> in_Merchant input = Some m -> exists_already m input d ->
  Create s input (d, x) = (res, (d', x')) ->
  content d' (m_ShardIndex m) = content d (m_ShardIndex m) /\ (x' = x \/ x' = (time_Now x).2).
Proof. intros Hd Ha Hm Hex Hc. by apply (Create_existing_frame m input d x res d' x' Hd Ha Hm Hex Hc). Qed.

(** A retry gets the answer of the first call: if a request is accepted
    and the same request is accepted again later, both answers carry the same
    order id, transaction id, Stripe session id, payment intent id and
    status, and for crypto payments they are identical. *)
Theorem Create_retry_same_answer input d x res d' x' y res2 d2 y2 :
  store_inv d -> int64_range (in_Amount input) ->
  Create s input (d, x) = (Ok res, (d', x')) -> Create s input (d', y) = (Ok res2, (d2, y2)) ->
  res_OrderID res2 = res_OrderID res /\ res_TransactionID res2 = res_TransactionID res /\
  res_StripeSessionID res2 = res_StripeSessionID res /\
  res_StripePaymentIntentID res2 = res_StripePaymentIntentID res /\ res_Status res2 = res_Status res /\
  (EqualFold (in_Method input) "crypto" = true -> res2 = res).
Proof.
  intros Hd Ha H1' H2'.
  destruct (Create_recorded input d x res d' x' Hd Ha H1') as (Hd' & m & t & Hm & Hin & R1).
  destruct (Create_existing_frame m input d' y (Ok res2) d2 y2 Hd' Ha Hm ltac:(exists t; split; [done|apply R1]) H2')
    as (Hd2 & Hc & _).
  destruct (Create_recorded input d' y res2 d2 y2 Hd' Ha H2') as (_ & m2 & t2 & Hm2 & Hin2 & R2).
  rewrite Hm in Hm2. injection Hm2 as <-. rewrite Hc in Hin2.
  assert (t2 = t) as -> by (apply (content_same d' (m_ShardIndex m)); try done; by rewrite (rec_txn _ _ _ _ R1), (rec_txn _ _ _ _ R2)).
  destruct R1 as [_ _ _ _ A1 A2 A3 A4 A5 A6], R2 as [_ _ _ _ B1 B2 B3 B4 B5 B6].
  split_and!; try congruence. intros Hcr. destruct (A6 Hcr) as (? & ? & _ & ?), (B6 Hcr) as (? & ? & _ & ?).
  destruct res, res2. cbn in *. congruence.
Qed.

(** A request whose transaction id is taken by a payment of another
    merchant of the shard is never accepted. *)
Theorem Create_refuses_foreign_id m input d x res d' x' y :
  store_inv d -> int64_range (in_Amount input) -> in_Merchant input = Some m ->
  y ∈ content d (m_ShardIndex m) ->
  t_TransactionID y = DeriveTransactionID (m_MerchantID m) (in_OrderID input) ->
  key_eq (t_MerchantID y) (m_MerchantID m) = false ->
  Create s input (d, x) = (res, (d', x')) -> is_ok res = false.
Proof.
  intros Hd Ha Hm Hy Ey Hk Hc. destruct res as [res|e]; [exfalso|done].
  destruct (Create_existing_frame m input d x (Ok res) d' x' Hd Ha Hm ltac:(by exists y) Hc) as (Hd' & Hcont & _).
  destruct (Create_recorded input d x res d' x' Hd Ha Hc) as (_ & m2 & t & Hm2 & Hin & R).
  rewrite Hm in Hm2. injection Hm2 as <-. rewrite Hcont in Hin.
  assert (t = y) as -> by (apply (content_same d (m_ShardIndex m)); try done; by rewrite (rec_txn _ _ _ _ R)).
  by rewrite (rec_merchant _ _ _ _ R) in Hk.
Qed.

(** A request without a merchant, with a malformed order id or with an
    amount that is not positive is refused as invalid before anything is
    read or written; every other request reaches the repository. *)
Theorem Create_validates input d x :
  (in_Merchant input = None \/ is_ok (ValidateOrderID (in_OrderID input)) = false \/ in_Amount input <= 0 ->
     exists e, Create s input (d, x) = (Err e, (d, x)) /\ errIs e ErrInvalidRequest = true) /\
  (forall m, in_Merchant input = Some m -> is_ok (ValidateOrderID (in_OrderID input)) = true -> 0 < in_Amount input ->
     exists t' ins d1, repo_Insert (newRow m input (currency_of input)) d = ((t', ins), d1) /\
       Create s input (d, x) =
         match ins with
         | Ok _ => flow s m input (currency_of input) (d1, x)
         | Err e => if errIs e ErrDuplicateTransaction then duplicate s m input (currency_of input) (d1, x)
                    else (Err (Wrap "insert order" e), (d1, x))
         end).
Proof.
  unfold Create, ret. split.
  - intros Hbad. destruct (in_Merchant input) as [m|]; [|eauto].
    destruct (ValidateOrderID _) as [[]|e] eqn:Ev; [|eauto].
    destruct (Z.leb_spec (in_Amount input) 0); [eauto|]. exfalso.
    destruct Hbad as [?|[?|?]]; [done|done|lia].
  - intros m -> Hv Hpos. destruct (ValidateOrderID _); [|done].
    destruct (Z.leb_spec (in_Amount input) 0); [lia|]. fold (currency_of input).
    unfold bind at 1, on_fst at 1. cbn [fst snd].
    destruct (repo_Insert _ d) as [[t' ins] d1]. exists t', ins, d1. split; [done|]. cbn [fst snd].
    destruct ins as [?|e]; [done|]. by destruct (errIs e _).
Qed.
End Theorems.

(** Merchant ids and order ids may hold the separator of the hashed text, so
    the pairs ("shop:eu", "42") and ("shop", "eu:42") share a transaction id. *)
Lemma transaction_id_collision :
  DeriveTransactionID "shop:eu" "42" = DeriveTransactionID "shop" "eu:42" /\
  ValidateOrderID "42" = Ok tt /\ ValidateOrderID "eu:42" = Ok tt.
Proof. split; [reflexivity|]. split; reflexivity. Qed.
