(* ===== verification/Concurrency.v ===== *)
(** * Concurrent calls of Create (internal/service/payment_service.go)

    The gateway serves requests in parallel: between two statements of one
    call any other call may run.  [thread_step] cuts [Create] at its calls to
    the repository and to Stripe; [Create_stages] shows that the pieces, run
    without interruption, are [Create].  A configuration is a list of running
    calls over one shared state, and [cstep] lets any of them, or any other
    service, take the next step. *)

From S2P Require Import Prelude GoStrings Sha256 Domain TransactionStore StripeTypes Signatures Ports.
From S2P Require Import PaymentService PaymentTheorems.
Local Open Scope Z_scope.

(** ** Payments under concurrent writes *)

(** What no call of the repository changes in a stored payment. *)
Record same_core (t t' : Transaction) : Prop := {
  sc_merchant : t_MerchantID t' = t_MerchantID t;
  sc_txn : t_TransactionID t' = t_TransactionID t;
  sc_order : t_OrderID t' = t_OrderID t;
  sc_amount : t_Amount t' = t_Amount t;
  sc_currency : t_Currency t' = t_Currency t;
}.

#[export] Instance same_core_preorder : PreOrder same_core.
Proof. split; [by intros t; split|]. intros a b c [] []. split; congruence. Qed.

(** Every payment is still there. *)
Definition kept (l l' : list Transaction) : Prop :=
  forall t, t ∈ l -> exists t', t' ∈ l' /\ same_core t t'.

#[export] Instance kept_preorder : PreOrder kept.
Proof.
  split; [intros l t Ht; by exists t|]. intros a b c Hab Hbc t Ht.
  destruct (Hab t Ht) as (t' & Ht' & E). destruct (Hbc t' Ht') as (t2 & Ht2 & E2).
  exists t2. split; [done|]. by transitivity t'.
Qed.

(** The writes of the repository keep the payments of every shard, also of the
    shards that share a pool with the one written to. *)
Class StoreKeeps (D : Type) `{TransactionStore D} : Prop := {
  insert_keeps d t r d' s :
    store_inv d -> int64_range (t_Amount t) -> repo_Insert t d = (r, d') -> kept (content d s) (content d' s);
  update_status_keeps d sh m o st pi r d' s :
    store_inv d -> repo_UpdateStatus sh m o st pi d = (r, d') -> kept (content d s) (content d' s);
  update_checkout_keeps d sh m o sess pi r d' s :
    store_inv d -> repo_UpdateCheckout sh m o sess pi d = (r, d') -> kept (content d s) (content d' s);
}.

(** ** The steps of one call *)

(** Where a call stands; the last flag says whether its own insert succeeded. *)
Inductive stage : Type :=
  | Start
  | Inserted
  | Duplicate
  | GotSession (sess : CheckoutSession)
  | Found (existing : Transaction)
  | Finished (inserted : bool) (res : result CreatePaymentResult).

Section Threads.
Context `{Unicode}.
Context {D X : Type} `{HS : TransactionStore D} `{Client X} `{Clock X}.
Variable s : paymentService.

Definition accepted (input : CreatePaymentInput) (m : Merchant) sess url pi secret crypto : CreatePaymentResult := {|
  res_OrderID := in_OrderID input; res_TransactionID := DeriveTransactionID (m_MerchantID m) (in_OrderID input);
  res_StripeSessionID := sess; res_CheckoutURL := url; res_StripePaymentIntentID := pi;
  res_ClientSecret := secret; res_Status := "accepted"; res_CryptoPayload := crypto |}.

(** Up to the first statement: validation, then the insert. *)
Definition start_step (input : CreatePaymentInput) : ST (D * X) stage :=
  match in_Merchant input with
  | None => ret (Finished false (Err (Wrap "merchant required" (Sentinel ErrInvalidRequest))))
  | Some m =>
      match ValidateOrderID (in_OrderID input) with
      | Err e => ret (Finished false (Err (Wrap (errText e) (Sentinel ErrInvalidRequest))))
      | Ok _ =>
          if in_Amount input <=? 0
          then ret (Finished false (Err (Wrap "amount must be > 0" (Sentinel ErrInvalidRequest))))
          else
            (let! ins := on_fst (repo_Insert (newRow m input (currency_of s input))) in
             ret (match ins.2 with
                  | Err e => if negb (errIs e ErrDuplicateTransaction) then Finished false (Err (Wrap "insert order" e))
                             else Duplicate
                  | Ok _ => Inserted
                  end))%easypay
      end
  end.

(** After the insert: the crypto answer, the lazy URL, or the call to Stripe. *)
Definition flow_step (m : Merchant) (input : CreatePaymentInput) : ST (D * X) stage :=
  (if EqualFold (in_Method input) "crypto" then
     ret (Finished true (Ok (accepted input m "" "" "" "" (Some {| cp_ContractAddress := ps_cryptoContract s;
       cp_OrderID := in_OrderID input; cp_Amount := in_Amount input; cp_ChainID := ps_cryptoChainID s |}))))
   else if ps_lazyCheckout s then
     let! url := on_snd (lazyCheckoutURL s (m_MerchantID m) (in_OrderID input)) in
     ret (Finished true (Ok (accepted input m "" url "" "" None)))
   else
     let! session := on_snd (CreateCheckoutSession (checkoutRequest s m input (currency_of s input))
                               (DeriveTransactionID (m_MerchantID m) (in_OrderID input))) in
     ret (match session with
          | Err e => Finished true (Err (Wrap "stripe checkout" e))
          | Ok session => GotSession session
          end))%easypay.

(** Recording the Stripe session. *)
Definition save_step (m : Merchant) (input : CreatePaymentInput) (session : CheckoutSession) : ST (D * X) stage :=
  (let! saved := on_fst (repo_UpdateCheckout (m_ShardIndex m) (m_MerchantID m) (in_OrderID input)
                           (cs_ID session) (cs_PaymentIntentID session)) in
   ret (Finished true (match saved with
        | Err e => Err (Wrap "persist stripe session" e)
        | Ok _ => Ok (accepted input m (cs_ID session) (cs_URL session) (cs_PaymentIntentID session)
                        (cs_ClientSecret session) None)
        end)))%easypay.

(** The loser reads the winner's row. *)
Definition lookup_step (m : Merchant) (input : CreatePaymentInput) : ST (D * X) stage :=
  (let! found := on_fst (repo_GetByTransactionID (m_ShardIndex m) (m_MerchantID m)
                   (DeriveTransactionID (m_MerchantID m) (in_OrderID input))) in
   ret (match found with
        | Err e => Finished false (Err (Wrap "idem lookup" e))
        | Ok existing =>
            if negb (sameMaterialPayment existing (in_Amount input) (currency_of s input) (primaryMethod input))
            then Finished false (Err (Wrap "amount/currency/method mismatch" (Sentinel ErrTransactionConflict)))
            else Found existing
        end))%easypay.

Definition thread_step (input : CreatePaymentInput) (st : stage) : ST (D * X) stage :=
  match st, in_Merchant input with
  | Start, _ => start_step input
  | Inserted, Some m => flow_step m input
  | GotSession sess, Some m => save_step m input sess
  | Duplicate, Some m => lookup_step m input
  | Found t, Some m => (let! res := on_snd (reconstructResult s (m_MerchantID m) t) in ret (Finished false (Ok res)))%easypay
  | _, _ => ret st
  end.

Fixpoint run_stages (n : nat) (input : CreatePaymentInput) (st : stage) : ST (D * X) stage :=
  match n with
  | O => ret st
  | S n' => (let! st' := thread_step input st in run_stages n' input st')%easypay
  end.

Lemma run_finished n input b r w : run_stages n input (Finished b r) w = (Finished b r, w).
Proof. induction n as [|n IH]; [done|]. cbn [run_stages]. unfold bind. cbn [thread_step]. by rewrite <- IH. Qed.

Lemma run_step n input st st' w w' :
  thread_step input st w = (st', w') -> run_stages (S n) input st w = run_stages n input st' w'.
Proof. cbn [run_stages]. apply bind_eq. Qed.

Lemma run_inserted m input d x : in_Merchant input = Some m ->
  run_stages 2 input Inserted (d, x) =
  (Finished true (flow s m input (currency_of s input) (d, x)).1, (flow s m input (currency_of s input) (d, x)).2).
Proof.
  intros Hm. cbn [run_stages]. unfold bind at 1. cbn [thread_step]. rewrite Hm. unfold flow_step, flow.
  destruct (EqualFold _ _); [by rewrite <- (run_finished 1 input)|].
  destruct (ps_lazyCheckout s); unfold bind, on_snd, on_fst, ret; cbn [fst snd].
  - by destruct (lazyCheckoutURL _ _ _ x) as [url x1].
  - destruct (CreateCheckoutSession _ _ x) as [[sess|e] x1]; cbn [thread_step]; [|done].
    rewrite Hm. unfold save_step, bind, on_fst, ret. cbn [fst snd].
    by destruct (repo_UpdateCheckout _ _ _ _ _ d) as [[u|e] d1].
Qed.

Lemma run_duplicate m input d x : in_Merchant input = Some m ->
  run_stages 2 input Duplicate (d, x) =
  (Finished false (duplicate s m input (currency_of s input) (d, x)).1, (duplicate s m input (currency_of s input) (d, x)).2).
Proof.
  intros Hm. cbn [run_stages]. unfold bind at 1. cbn [thread_step]. rewrite Hm. unfold lookup_step, duplicate.
  unfold bind, on_fst, ret. cbn [fst snd].
  destruct (repo_GetByTransactionID _ _ _ d) as [[t|e] d1]; cbn [thread_step]; [|done].
  destruct (negb _); cbn [thread_step]; [done|]. rewrite Hm. unfold bind, on_snd, ret. cbn [fst snd].
  by destruct (reconstructResult _ _ t x).
Qed.

(** Cutting [Create] at its calls changes nothing: three steps of a
    thread, with nobody in between, end the call with the answer of [Create]
    and in the state [Create] leaves. *)
Theorem Create_stages input d x :
  exists inserted, run_stages 3 input Start (d, x) =
    (Finished inserted (Create s input (d, x)).1, (Create s input (d, x)).2).
Proof.
  assert (Hfin : forall r, start_step input (d, x) = (Finished false r, (d, x)) -> Create s input (d, x) = (r, (d, x)) ->
    exists inserted, run_stages 3 input Start (d, x) =
      (Finished inserted (Create s input (d, x)).1, (Create s input (d, x)).2)).
  { intros r Hs Hc. exists false. rewrite Hc. rewrite (run_step 2 input Start _ _ _ Hs). apply run_finished. }
  destruct (in_Merchant input) as [m|] eqn:Em.
  2: { eapply Hfin; unfold start_step, Create; rewrite Em; reflexivity. }
  destruct (ValidateOrderID (in_OrderID input)) as [u|e] eqn:Ev.
  2: { eapply Hfin; unfold start_step, Create; rewrite Em, Ev; reflexivity. }
  destruct (in_Amount input <=? 0) eqn:Ea.
  { eapply Hfin; unfold start_step, Create; rewrite Em, Ev, Ea; reflexivity. }
  clear Hfin.
  assert (Hc : Create s input (d, x) =
    let '((t', ins), d1) := repo_Insert (newRow m input (currency_of s input)) d in
    match ins with
    | Err e => if negb (errIs e ErrDuplicateTransaction) then (Err (Wrap "insert order" e), (d1, x))
               else duplicate s m input (currency_of s input) (d1, x)
    | Ok _ => flow s m input (currency_of s input) (d1, x)
    end).
  { unfold Create. rewrite Em, Ev, Ea. fold (currency_of s input). unfold bind at 1, on_fst at 1. cbn [fst snd].
    destruct (repo_Insert _ d) as [[t' [v|e]] d1]; [done|]. cbn [snd]. by destruct (negb _). }
  assert (Hs : start_step input (d, x) =
    let '((t', ins), d1) := repo_Insert (newRow m input (currency_of s input)) d in
    (match ins with
     | Err e => if negb (errIs e ErrDuplicateTransaction) then Finished false (Err (Wrap "insert order" e)) else Duplicate
     | Ok _ => Inserted
     end, (d1, x))).
  { unfold start_step. rewrite Em, Ev, Ea. unfold bind, on_fst. cbn [fst snd].
    by destruct (repo_Insert _ d) as [[t' ins] d1]. }
  rewrite Hc. destruct (repo_Insert _ d) as [[t' ins] d1]. rewrite (run_step 2 input Start _ _ _ Hs).
  destruct ins as [v|e]; [exists true; by apply run_inserted|].
  destruct (negb _); [exists false; apply run_finished|exists false; by apply run_duplicate].
Qed.

(** ** Interleavings *)

Abbreviation config := (list stage * (D * X))%type.

(** One step of the system: some call moves on, or something else happens:
    another service writes to the repository, time passes, Stripe changes. *)
Inductive cstep (inputs : list CreatePaymentInput) : config -> config -> Prop :=
  | cstep_thread i input st st' stages w w' :
      inputs !! i = Some input -> stages !! i = Some st -> thread_step input st w = (st', w') ->
      cstep inputs (stages, w) (<[i := st']> stages, w')
  | cstep_other stages d x d' x' :
      store_inv d' -> (forall sh, kept (content d sh) (content d' sh)) ->
      cstep inputs (stages, (d, x)) (stages, (d', x')).

(** The payment of a request is stored. *)
Definition holds (m : Merchant) (input : CreatePaymentInput) (d : D) : Prop :=
  0 < in_Amount input /\ exists t, t ∈ content d (m_ShardIndex m) /\
    t_TransactionID t = DeriveTransactionID (m_MerchantID m) (in_OrderID input) /\
    key_eq (t_MerchantID t) (m_MerchantID m) = true /\ t_Amount t = in_Amount input.

(** The transaction id of a request is in use in the merchant's shard. *)
Definition taken (m : Merchant) (input : CreatePaymentInput) (d : D) : Prop :=
  exists t, t ∈ content d (m_ShardIndex m) /\
    t_TransactionID t = DeriveTransactionID (m_MerchantID m) (in_OrderID input).

(** The call's own insert succeeded: it is the one that runs the flow. *)
Definition won (st : stage) : bool :=
  match st with Inserted | GotSession _ | Finished true _ => true | _ => false end.

(** What is true of a call at each stage. *)
Definition stage_ok (input : CreatePaymentInput) (st : stage) (d : D) : Prop :=
  match st with
  | Start => True
  | Finished false (Err _) => True
  | Duplicate => exists m, in_Merchant input = Some m /\ 0 < in_Amount input
  | Inserted | GotSession _ | Finished true (Err _) => exists m, in_Merchant input = Some m /\ holds m input d
  | Found t => exists m, in_Merchant input = Some m /\ holds m input d /\
      t_TransactionID t = DeriveTransactionID (m_MerchantID m) (in_OrderID input)
  | Finished _ (Ok res) => exists m, in_Merchant input = Some m /\ holds m input d /\
      res_TransactionID res = DeriveTransactionID (m_MerchantID m) (in_OrderID input)
  end.

Lemma holds_kept m input d d' :
  (forall sh, kept (content d sh) (content d' sh)) -> holds m input d -> holds m input d'.
Proof.
  intros Hk [Hpos (t & Hin & Hx & Hm & Ha)]. split; [done|].
  destruct (Hk _ t Hin) as (t' & Hin' & []). exists t'. split; [done|]. split_and!; congruence.
Qed.

Lemma stage_ok_kept input st d d' :
  (forall sh, kept (content d sh) (content d' sh)) -> stage_ok input st d -> stage_ok input st d'.
Proof.
  intros Hk. destruct st as [| | |sess|t|[] [res|e]]; cbn; try done.
  all: intros (m & Hm & Hh); exists m; split; [done|].
  all: first [exact Hh | by eapply holds_kept | destruct Hh; split; [by eapply holds_kept|done]].
Qed.

Context `{HK : !StoreKeeps D}.

(** Which rows another payment's insert cannot take. *)
Lemma start_step_ok input d x st d' x' :
  store_inv d -> int64_range (in_Amount input) -> start_step input (d, x) = (st, (d', x')) ->
  store_inv d' /\ (forall sh, kept (content d sh) (content d' sh)) /\ stage_ok input st d' /\
  (won st = true -> forall m, in_Merchant input = Some m -> ~ taken m input d).
Proof.
  intros Hd Ha. unfold start_step.
  assert (Hno : forall e, ret (Finished false (Err e)) (d, x) = (st, (d', x')) ->
    store_inv d' /\ (forall sh, kept (content d sh) (content d' sh)) /\ stage_ok input st d' /\
    (won st = true -> forall m, in_Merchant input = Some m -> ~ taken m input d)).
  { intros e [= <- <- <-]. by split_and!. }
  destruct (in_Merchant input) as [m|] eqn:Em; [|apply Hno].
  destruct (ValidateOrderID _); [|apply Hno].
  destruct (Z.leb_spec (in_Amount input) 0) as [?|Hpos]; [apply Hno|]. clear Hno.
  unfold bind at 1, on_fst at 1. cbn [fst snd]. destruct (repo_Insert _ d) as [[t' ins] d1] eqn:Ei.
  unfold ret. cbn [snd]. intros [= <- <- <-].
  destruct (insert_law _ (newRow m input (currency_of s input)) _ _ _ Hd Ha Ei) as (Hd1 & _).
  split; [done|]. split; [intros sh; by apply (insert_keeps d (newRow m input (currency_of s input)) (t', ins))|]. destruct ins as [[]|e].
  - destruct (insert_new s m input d t' d1 Hd Ha Hpos Ei) as (_ & Hc & Ex & Emid & _ & Eamt & _). split.
    + exists m. split; [done|]. split; [done|]. exists (stored t'). rewrite Hc. split; [apply elem_of_app; right; by left|].
      rewrite Ex, Emid, Eamt. split_and!; [done|apply key_eq_refl|done].
    + intros _ m' [= <-] (t & Hin & Hx).
      destruct (insert_existing d (newRow m input (currency_of s input)) t' (Ok tt) d1 Hd Ha) as (_ & Hf & _); try done.
      exists t. split; [done|]. rewrite Hx. symmetry. apply DeriveTransactionID_lower.
  - destruct (negb _); cbn; [done|]. split; [by exists m|done].
Qed.

Lemma lookup_step_ok m input d x st d' x' :
  store_inv d -> in_Merchant input = Some m -> 0 < in_Amount input ->
  lookup_step m input (d, x) = (st, (d', x')) ->
  store_inv d' /\ (forall sh, kept (content d sh) (content d' sh)) /\ stage_ok input st d' /\ won st = false.
Proof.
  intros Hd Hm Hpos. unfold lookup_step, bind, on_fst, ret. cbn [fst snd].
  destruct (repo_GetByTransactionID _ _ _ d) as [found d1] eqn:Eg. intros [= <- <- <-].
  destruct (get_txn_law _ _ _ _ _ _ Hd Eg) as (Hd1 & Hc & Hf). split; [done|].
  split; [intros sh; by rewrite Hc|]. destruct found as [t|e]; [|done].
  destruct (sameMaterialPayment _ _ _ _) eqn:Es; [|done]. cbn. split; [|done]. exists m. split; [done|].
  apply find_by_txn in Hf as (Hin & Hk & Hx). rewrite DeriveTransactionID_lower in Hx.
  apply sameMaterial_spec in Es as (Ha & _). split; [|done]. split; [done|]. exists t. by rewrite Hc.
Qed.

Lemma later_step_ok input st d x st' d' x' :
  store_inv d -> stage_ok input st d -> st <> Start -> thread_step input st (d, x) = (st', (d', x')) ->
  store_inv d' /\ (forall sh, kept (content d sh) (content d' sh)) /\ stage_ok input st' d' /\ won st' = won st.
Proof.
  intros Hd Hok Hst. destruct st as [| | |sess|t|b r]; cbn [thread_step]; [done|..].
  5: { unfold ret. intros [= <- <- <-]. by split_and!. }
  all: destruct Hok as (m & Hm & Hok); rewrite Hm.
  - unfold flow_step. destruct (EqualFold _ _); [unfold ret; intros [= <- <- <-]; split_and!; try done; by exists m|].
    destruct (ps_lazyCheckout s); unfold bind, on_snd, ret; cbn [fst snd].
    + destruct (lazyCheckoutURL _ _ _ x) as [url x1]. intros [= <- <- <-]. split_and!; try done. by exists m.
    + destruct (CreateCheckoutSession _ _ x) as [[sess|e] x1]; intros [= <- <- <-]; split_and!; try done; by exists m.
  - intros Hl. by apply (lookup_step_ok m input d x st' d' x').
  - unfold save_step, bind, on_fst, ret. cbn [fst snd].
    destruct (repo_UpdateCheckout _ _ _ _ _ d) as [saved d1] eqn:Eu. intros [= <- <- <-].
    destruct (update_checkout_law _ _ _ _ _ _ _ _ Hd Eu) as (Hd1 & _).
    assert (Hk : forall sh, kept (content d sh) (content d1 sh)) by (intros sh; by eapply update_checkout_keeps).
    split_and!; try done. pose proof (holds_kept _ _ _ _ Hk Hok). destruct saved; cbn; exists m; by split_and!.
  - unfold bind, on_snd, ret. cbn [fst snd]. destruct (reconstructResult _ _ t x) as [res x1] eqn:Er.
    intros [= <- <- <-]. split_and!; try done. apply reconstruct_spec in Er as (_ & E & _).
    destruct Hok as [Hh Ht]. exists m. split_and!; [done|done|congruence].
Qed.

(** ** The invariant of every interleaving *)

(** The row two requests compete for. *)
Definition contend (a b : CreatePaymentInput) : Prop :=
  exists ma mb, in_Merchant a = Some ma /\ in_Merchant b = Some mb /\ m_ShardIndex ma = m_ShardIndex mb /\
    DeriveTransactionID (m_MerchantID ma) (in_OrderID a) = DeriveTransactionID (m_MerchantID mb) (in_OrderID b).

#[local] Instance contend_sym : Symmetric contend.
Proof. intros a b (ma & mb & ? & ? & ? & ?). by exists mb, ma. Qed.

Record config_ok (inputs : list CreatePaymentInput) (c : config) : Prop := {
  co_inv : store_inv c.2.1;
  co_stages i input st : inputs !! i = Some input -> c.1 !! i = Some st -> stage_ok input st c.2.1;
  co_winner i j a b st st' : i <> j -> inputs !! i = Some a -> inputs !! j = Some b ->
    c.1 !! i = Some st -> c.1 !! j = Some st' -> won st = true -> won st' = true -> ~ contend a b;
}.

Lemma won_holds input st d : stage_ok input st d -> won st = true ->
  exists m, in_Merchant input = Some m /\ holds m input d.
Proof. destruct st as [| | | | |[] []]; cbn; try done; intros (m & ? & Hh); exists m; by destruct Hh || done. Qed.

(** A step of one call, seen by the others. *)
Lemma config_step_thread inputs stages i input st st' d x d' x' :
  Forall (fun a => int64_range (in_Amount a)) inputs -> config_ok inputs (stages, (d, x)) ->
  inputs !! i = Some input -> stages !! i = Some st -> thread_step input st (d, x) = (st', (d', x')) ->
  config_ok inputs (<[i := st']> stages, (d', x')).
Proof.
  intros Hr [Hd Hstages Hwin] Hi Hst Hrun. cbn [fst snd] in *.
  assert (Hstep : store_inv d' /\ (forall sh, kept (content d sh) (content d' sh)) /\ stage_ok input st' d' /\
    (won st' = true -> won st = true \/ forall m, in_Merchant input = Some m -> ~ taken m input d)).
  { assert (st = Start \/ st <> Start) as [->|Hne] by (destruct st; auto).
    - destruct (start_step_ok input d x st' d' x') as (? & ? & ? & ?); [done| |done|].
      { eapply Forall_lookup_1 in Hr; [|exact Hi]. done. }
      split_and!; auto.
    - destruct (later_step_ok input st d x st' d' x') as (? & ? & ? & E); try done; [by eapply Hstages|].
      split_and!; try done. rewrite E. by left. }
  destruct Hstep as (Hd' & Hk & Hok & Hnew).
  assert (Hsi : <[i := st']> stages !! i = Some st') by (apply list_lookup_insert_eq; by eapply lookup_lt_Some).
  assert (Hnew_ok : forall j b sj, j <> i -> inputs !! j = Some b -> stages !! j = Some sj ->
    won st' = true -> won sj = true -> ~ contend input b).
  { intros j b sj Hne Hj Hsj Hw Hwj Hcon. destruct (Hnew Hw) as [Hold|Hfree]; [by eapply (Hwin i j)|].
    destruct Hcon as (ma & mb & Hma & Hmb & Esh & Ex).
    destruct (won_holds b sj d (Hstages _ _ _ Hj Hsj) Hwj) as (m & Hm & _ & t & Hin & Hx & _).
    rewrite Hmb in Hm. injection Hm as <-. apply (Hfree ma Hma). exists t. by rewrite Esh, Ex. }
  split; cbn [fst snd].
  - exact Hd'.
  - intros j a sj Hj Hsj. destruct (decide (j = i)) as [->|Hne]; [by simplify_eq|].
    rewrite list_lookup_insert_ne in Hsj by done. eapply stage_ok_kept; [exact Hk|]. by eapply Hstages.
  - intros j k a b sj sk Hjk Hj Hk' Hsj Hsk Hwj Hwk Hcon.
    destruct (decide (j = i)) as [->|Hji], (decide (k = i)) as [->|Hki]; [done|..].
    + rewrite list_lookup_insert_ne in Hsk by done. simplify_eq. by eapply (Hnew_ok k).
    + rewrite list_lookup_insert_ne in Hsj by done. simplify_eq. eapply (Hnew_ok j); [done..|by symmetry].
    + rewrite list_lookup_insert_ne in Hsj, Hsk by done. by eapply (Hwin j k).
Qed.

Lemma config_step inputs c c' :
  Forall (fun a => int64_range (in_Amount a)) inputs -> cstep inputs c c' -> config_ok inputs c -> config_ok inputs c'.
Proof.
  intros Hr [i input st st' stages [d x] [d' x'] Hi Hst Hrun|stages d x d' x' Hd' Hk] Hc.
  - by eapply config_step_thread.
  - destruct Hc as [_ Hs Hw]. split; [done| |exact Hw]. intros i input st Hi Hst.
    eapply stage_ok_kept; [exact Hk|]. by eapply Hs.
Qed.

Lemma reachable_config inputs stages d x w :
  Forall (fun a => int64_range (in_Amount a)) inputs -> store_inv d ->
  rtc (cstep inputs) (replicate (length inputs) Start, (d, x)) (stages, w) -> config_ok inputs (stages, w).
Proof.
  intros Hr Hd Hrtc. assert (H0' : config_ok inputs (replicate (length inputs) Start, (d, x))).
  { split; [done| |]; cbn [fst snd].
    - intros i input st _ [-> _]%lookup_replicate. done.
    - intros i j a b st st' _ _ _ [-> _]%lookup_replicate _ Hw. done. }
  revert H0'. generalize (replicate (length inputs) Start, (d, x)) Hrtc. clear Hrtc Hd.
  induction 1; eauto using config_step.
Qed.

(** C5. Whatever runs between the statements of concurrent calls, an accepted
    request is durable: in every reachable configuration, a call that has
    answered without an error has its payment in the merchant's shard, with
    the amount it asked for and the transaction id of its answer. *)
Theorem concurrent_accepted_stored inputs stages d x d' x' i input inserted res :
  Forall (fun a => int64_range (in_Amount a)) inputs -> store_inv d ->
  rtc (cstep inputs) (replicate (length inputs) Start, (d, x)) (stages, (d', x')) ->
  inputs !! i = Some input -> stages !! i = Some (Finished inserted (Ok res)) ->
  exists m t, in_Merchant input = Some m /\ t ∈ content d' (m_ShardIndex m) /\
    t_TransactionID t = res_TransactionID res /\ t_Amount t = in_Amount input /\
    key_eq (t_MerchantID t) (m_MerchantID m) = true.
Proof.
  intros Hr Hd Hrtc Hi Hst. apply reachable_config in Hrtc as [_ Hs _]; [|done..].
  specialize (Hs i input _ Hi Hst). destruct inserted; destruct Hs as (m & Hm & (_ & t & Hin & Hx & Hk & Ha) & Hres);
    exists m, t; split_and!; congruence || done.
Qed.

(** C14. Of all concurrent requests for one order, at most one goes on to
    Stripe: two calls of one merchant for one order are never both past a
    successful insert, in any interleaving, so that at most one of them
    creates a checkout session. *)
Theorem concurrent_one_winner inputs stages w d x i j a b st st' m :
  Forall (fun a => int64_range (in_Amount a)) inputs -> store_inv d ->
  rtc (cstep inputs) (replicate (length inputs) Start, (d, x)) (stages, w) ->
  inputs !! i = Some a -> inputs !! j = Some b -> stages !! i = Some st -> stages !! j = Some st' ->
  in_Merchant a = Some m -> in_Merchant b = Some m -> in_OrderID a = in_OrderID b ->
  won st = true -> won st' = true -> i = j.
Proof.
  intros Hr Hd Hrtc Hi Hj Hsi Hsj Hma Hmb Ho Hw Hw'. apply reachable_config in Hrtc as [_ _ Hwin]; [|done..].
  destruct (decide (i = j)) as [|Hne]; [done|]. exfalso. apply (Hwin i j a b st st' Hne); try done.
  exists m, m. by rewrite Ho.
Qed.
End Threads.
