(* ===== verification/Stripe.v ===== *)
(** * Stripe clients (internal/provider/stripe: impl.go, breaker.go, fake.go)

    The client over the Stripe SDK, the circuit breaker around a client and the
    fake for load tests.  The SDK (stripe-go) and the breaker (gobreaker) are
    parameters: the requests built for the one and the settings handed to the
    other are translated, as is the handling of what they answer. *)

From S2P Require Import Prelude GoStrings Domain StripeTypes Ports Signatures.
Local Open Scope Z_scope.

(** ** impl.go *)

(** What an SDK call can fail with: a [*stripego.Error] somewhere in the chain,
    or any other error. *)
Inductive sdk_error : Type :=
  | StripeAPIError (errType : string) (httpStatus : Z) (e : error)
  | OtherError (e : error).

Definition ErrorTypeAPI : string := "api_error".
Definition ErrorTypeCard : string := "card_error".
Definition ErrorTypeIdempotency : string := "idempotency_error".
Definition ErrorTypeInvalidRequest : string := "invalid_request_error".

Definition mapStripeError (op : string) (err : sdk_error) : error :=
  match err with
  | StripeAPIError ty http serr =>
      let cat :=
        if bool_decide (ty = ErrorTypeCard) then "card"
        else if bool_decide (ty = ErrorTypeAPI) then "api"
        else if bool_decide (ty = ErrorTypeIdempotency) then "idempotency"
        else if bool_decide (ty = ErrorTypeInvalidRequest) then "invalid_request"
        else "api" in
      let cat := if http =? 429 then "rate_limit" else cat in
      ProviderErr op cat serr
  | OtherError e => ProviderErr op "network" e
  end.

Definition nilIfEmpty (s : string) : option string := if bool_decide (s = "") then None else Some s.

(** The fields of the SDK's parameter structs the client sets; a nil pointer
    is [None]. *)
Record CheckoutSessionParams : Type := {
  csp_Mode : string;
  csp_PaymentMethodTypes : list string;
  csp_Currency : string;
  csp_UnitAmount : Z;
  csp_ProductName : string;
  csp_Quantity : Z;
  csp_SuccessURL : option string;
  csp_CancelURL : option string;
  csp_ClientReferenceID : option string;
  csp_CustomerEmail : option string;
  csp_Metadata : metadata;
  csp_IdempotencyKey : option string;
}.

Record PaymentIntentParams : Type := {
  pip_Amount : Z;
  pip_Currency : string;
  pip_PaymentMethodTypes : list string;
  pip_Description : option string;
  pip_ReceiptEmail : option string;
  pip_Metadata : metadata;
  pip_IdempotencyKey : option string;
}.

Record RefundParams : Type := {
  rp_PaymentIntent : string;
  rp_Amount : option Z;
  rp_Reason : option string;
  rp_Metadata : metadata;
  rp_IdempotencyKey : option string;
}.

(** What the SDK returns. *)
Record sdk_PaymentIntent : Type := {
  spi_ID : string;
  spi_ClientSecret : string;
  spi_Amount : Z;
  spi_Currency : string;
  spi_Status : string;
  spi_Metadata : metadata;
  spi_LatestCharge : option string;
}.

Record sdk_Session : Type := {
  ss_ID : string;
  ss_URL : string;
  ss_Status : string;
  ss_AmountTotal : Z;
  ss_Currency : string;
  ss_PaymentIntent : option sdk_PaymentIntent;
}.

Record sdk_Refund : Type := {
  sr_ID : string;
  sr_Amount : Z;
  sr_Currency : string;
  sr_Status : string;
  sr_PaymentIntent : option sdk_PaymentIntent;
  sr_Charge : option string;
}.

Class StripeSDK (S : Type) : Type := {
  session_New : CheckoutSessionParams -> ST S (sdk_Session + sdk_error);
  session_Get : string -> ST S (sdk_Session + sdk_error);
  paymentintent_New : PaymentIntentParams -> ST S (sdk_PaymentIntent + sdk_error);
  paymentintent_Get : string -> ST S (sdk_PaymentIntent + sdk_error);
  refund_New : RefundParams -> ST S (sdk_Refund + sdk_error);
}.

Definition mapPaymentIntent (pi : sdk_PaymentIntent) : PaymentIntent := {|
  pi_ID := spi_ID pi;
  pi_ClientSecret := spi_ClientSecret pi;
  pi_Amount := spi_Amount pi;
  pi_Currency := spi_Currency pi;
  pi_Status := spi_Status pi;
  pi_ChargeID := default "" (spi_LatestCharge pi);
  pi_Metadata := spi_Metadata pi |}.

(** The conversion shared by the two session calls. *)
Definition mapSession (s : sdk_Session) : CheckoutSession := {|
  cs_ID := ss_ID s;
  cs_URL := ss_URL s;
  cs_PaymentIntentID := match ss_PaymentIntent s with Some pi => spi_ID pi | None => "" end;
  cs_ClientSecret := match ss_PaymentIntent s with Some pi => spi_ClientSecret pi | None => "" end;
  cs_Status := ss_Status s;
  cs_AmountTotal := ss_AmountTotal s;
  cs_Currency := ss_Currency s |}.

Definition mapRefund (r : sdk_Refund) : Refund := {|
  rf_ID := sr_ID r;
  rf_Amount := sr_Amount r;
  rf_Currency := sr_Currency r;
  rf_Status := sr_Status r;
  rf_PaymentIntentID := match sr_PaymentIntent r with Some pi => spi_ID pi | None => "" end;
  rf_ChargeID := default "" (sr_Charge r) |}.

Definition checkoutParams (req : CreateCheckoutRequest) (idempotencyKey : string) : CheckoutSessionParams := {|
  csp_Mode := "payment";
  csp_PaymentMethodTypes := ccr_PaymentMethodTypes req;
  csp_Currency := ccr_Currency req;
  csp_UnitAmount := ccr_Amount req;
  csp_ProductName := "Order " +:+ ccr_ClientReferenceID req;
  csp_Quantity := 1;
  csp_SuccessURL := nilIfEmpty (ccr_SuccessURL req);
  csp_CancelURL := nilIfEmpty (ccr_CancelURL req);
  csp_ClientReferenceID := nilIfEmpty (ccr_ClientReferenceID req);
  csp_CustomerEmail := nilIfEmpty (ccr_CustomerEmail req);
  csp_Metadata := ccr_Metadata req;
  csp_IdempotencyKey := nilIfEmpty idempotencyKey |}.

Definition paymentIntentParams (req : CreatePaymentIntentRequest) (idempotencyKey : string)
    : PaymentIntentParams := {|
  pip_Amount := pir_Amount req;
  pip_Currency := pir_Currency req;
  pip_PaymentMethodTypes := pir_PaymentMethodTypes req;
  pip_Description := nilIfEmpty (pir_Description req);
  pip_ReceiptEmail := nilIfEmpty (pir_CustomerEmail req);
  pip_Metadata := pir_Metadata req;
  pip_IdempotencyKey := nilIfEmpty idempotencyKey |}.

Definition refundParams (req : CreateRefundRequest) (idempotencyKey : string) : RefundParams := {|
  rp_PaymentIntent := rr_PaymentIntentID req;
  rp_Amount := if 0 <? rr_Amount req then Some (rr_Amount req) else None;
  rp_Reason := nilIfEmpty (rr_Reason req);
  rp_Metadata := rr_Metadata req;
  rp_IdempotencyKey := nilIfEmpty idempotencyKey |}.

Section RealClient.
Context `{Unicode} `{EventJSON} {S : Type} `{StripeSDK S} `{Clock S}.
(** the webhook secret [NewClient] was given *)
Variable webhookSecret : string.

(** [if err != nil { return nil, mapStripeError(op, err) }] around a call. *)
Definition sdk_call {A B} (op : string) (f : A -> B) (call : ST S (A + sdk_error)) : ST S (result B) :=
  (let! r := call in
   ret (match r with inl a => Ok (f a) | inr e => Err (mapStripeError op e) end))%easypay.

Definition real_VerifyWebhookSignature (payload sigHeader secret : string) : ST S (result Event) :=
  let secret := if bool_decide (secret = "") then webhookSecret else secret in
  (let! now := time_Now in
   ret (StripeSignature.VerifyAndConstructEvent payload sigHeader secret now))%easypay.

Definition realClient : Client S := {|
  CreateCheckoutSession req idem :=
    sdk_call "create checkout session" mapSession (session_New (checkoutParams req idem));
  CreatePaymentIntent req idem :=
    sdk_call "create payment intent" mapPaymentIntent (paymentintent_New (paymentIntentParams req idem));
  GetPaymentIntent id := sdk_call "get payment intent" mapPaymentIntent (paymentintent_Get id);
  GetCheckoutSession id := sdk_call "get checkout session" mapSession (session_Get id);
  CreateRefund req idem := sdk_call "create refund" mapRefund (refund_New (refundParams req idem));
  VerifyWebhookSignature := real_VerifyWebhookSignature |}.
End RealClient.

(** ** breaker.go *)

Record Counts : Type := { c_Requests : Z; c_TotalFailures : Z }.

Record Settings : Type := {
  st_MaxRequests : Z;
  st_Interval : Z;
  st_Timeout : Z;
  st_ReadyToTrip : Counts -> bool;
  st_IsSuccessful : option error -> bool;
}.

(** [float64(f)/float64(r) > 0.5] on uint32 counts: the quotient nearest to
    f/r is above one half exactly when 2f > r, because f/r differs from one
    half by at least 1/(2r) and r < 2^32. *)
Definition ReadyToTrip (c : Counts) : bool :=
  (20 <=? c_Requests c) && (c_Requests c <? 2 * c_TotalFailures c).

(** [errors.As(err, &pe)]: the category of the first [*ProviderError] of the
    chain. *)
Fixpoint asProvider (e : error) : option string :=
  match e with
  | ProviderErr _ cat _ => Some cat
  | Wrap _ e' => asProvider e'
  | Sentinel _ | Text _ => None
  end.

Definition IsSuccessful (err : option error) : bool :=
  match err with
  | None => true
  | Some e =>
      match asProvider e with
      | Some cat => bool_decide (cat = "card") || bool_decide (cat = "invalid_request")
      | None => false
      end
  end.

Definition breakerSettings : Settings := {|
  st_MaxRequests := 100;
  st_Interval := 10 * second;
  st_Timeout := 30 * second;
  st_ReadyToTrip := ReadyToTrip;
  st_IsSuccessful := IsSuccessful |}.

(** gobreaker's [Execute] on a request that acts on [S]; [B] is the state of
    the breaker. *)
Class CircuitBreaker (S B : Type) : Type :=
  Execute : Settings -> forall A, ST S (result A) -> ST (S * B) (result A).

(** Its documentation: a rejected request is not run and reports one of two
    errors, an accepted one is run once and its result returned. *)
Class CircuitBreakerLaws (S B : Type) `{CircuitBreaker S B} : Prop :=
  execute_law st A (fn : ST S (result A)) s b res s' b' :
    Execute st A fn (s, b) = (res, (s', b')) ->
    (s' = s /\ (res = Err (Sentinel ErrOpenState) \/ res = Err (Sentinel ErrTooManyRequests))) \/
    fn s = (res, s').

Section Breaker.
Context {S B : Type} `{CircuitBreaker S B} (inner : Client S).

Definition wrap {A} (fn : ST S (result A)) : ST (S * B) (result A) :=
  (let! v := Execute breakerSettings A fn in
   ret (match v with
        | Err e => if errIs e ErrOpenState || errIs e ErrTooManyRequests
                   then Err (Sentinel ErrCircuitOpen) else Err e
        | Ok a => Ok a
        end))%easypay.

Definition breakerClient : Client (S * B) := {|
  CreateCheckoutSession req idem := wrap (CreateCheckoutSession req idem);
  CreatePaymentIntent req idem := wrap (CreatePaymentIntent req idem);
  GetPaymentIntent id := wrap (GetPaymentIntent id);
  GetCheckoutSession id := wrap (GetCheckoutSession id);
  CreateRefund req idem := wrap (CreateRefund req idem);
  VerifyWebhookSignature payload sigHeader secret :=
    on_fst (VerifyWebhookSignature payload sigHeader secret) |}.
End Breaker.

(** ** fake.go *)

(** [crypto/rand]: the next [n] bytes. *)
Class Rand (S : Type) : Type := rand_Read : Z -> ST S string.

Section Fake.
Context `{Unicode} `{EventJSON} {S : Type} `{Rand S} `{Clock S}.

Definition randHex (n : Z) : ST S string :=
  (let! b := rand_Read (Z.quot n 2) in ret (hexEncode b))%easypay.

Definition fakeClient : Client S := {|
  CreateCheckoutSession req idempotencyKey :=
    (let! a := randHex 24 in
     let! b := randHex 24 in
     let! c := randHex 16 in
     let id := "cs_fake_" +:+ a in
     let pi := "pi_fake_" +:+ b in
     ret (Ok {| cs_ID := id; cs_URL := "https://checkout.fake.local/c/pay/" +:+ id;
                cs_PaymentIntentID := pi; cs_ClientSecret := pi +:+ "_secret_" +:+ c;
                cs_Status := "open"; cs_AmountTotal := ccr_Amount req;
                cs_Currency := ToLower (ccr_Currency req) |}))%easypay;
  CreatePaymentIntent req idempotencyKey :=
    (let! a := randHex 24 in
     let! c := randHex 16 in
     let pi := "pi_fake_" +:+ a in
     ret (Ok {| pi_ID := pi; pi_ClientSecret := pi +:+ "_secret_" +:+ c; pi_Amount := pir_Amount req;
                pi_Currency := ToLower (pir_Currency req); pi_Status := "requires_payment_method";
                pi_ChargeID := ""; pi_Metadata := pir_Metadata req |}))%easypay;
  GetPaymentIntent id :=
    ret (Ok {| pi_ID := id; pi_ClientSecret := ""; pi_Amount := 0; pi_Currency := "usd";
               pi_Status := "succeeded"; pi_ChargeID := ""; pi_Metadata := ∅ |});
  GetCheckoutSession id :=
    ret (Ok {| cs_ID := id; cs_URL := ""; cs_PaymentIntentID := ""; cs_ClientSecret := "";
               cs_Status := "complete"; cs_AmountTotal := 0; cs_Currency := "" |});
  CreateRefund req idempotencyKey :=
    (let! a := randHex 24 in
     ret (Ok {| rf_ID := "re_fake_" +:+ a; rf_Amount := rr_Amount req; rf_Currency := "usd";
                rf_Status := "succeeded"; rf_PaymentIntentID := rr_PaymentIntentID req;
                rf_ChargeID := "" |}))%easypay;
  VerifyWebhookSignature payload sigHeader secret :=
    (let! now := time_Now in
     ret (StripeSignature.VerifyAndConstructEvent payload sigHeader secret now))%easypay |}.
End Fake.

(** ** Theorems *)

Section BreakerTheorems.
Context {S B : Type} `{CircuitBreakerLaws S B} (inner : Client S).

Lemma wrap_spec {A} (fn : ST S (result A)) s b res s' b' :
  wrap fn (s, b) = (res, (s', b')) ->
  (s' = s /\ res = Err (Sentinel ErrCircuitOpen)) \/
  exists res0, fn s = (res0, s') /\
    (res = res0 \/ exists e, res0 = Err e /\ (errIs e ErrOpenState || errIs e ErrTooManyRequests) = true /\
       res = Err (Sentinel ErrCircuitOpen)).
Proof.
  unfold wrap, bind, ret. destruct (Execute _ _ fn (s, b)) as [v [s1 b1]] eqn:Ex. intros [= <- <- <-].
  apply execute_law in Ex as [[-> [->| ->]]|Hfn]; [left; done..|].
  right. exists v. split; [done|]. destruct v as [a|e]; [by left|].
  destruct (_ || _) eqn:Ee; [right; eauto|by left].
Qed.

(** With the breaker in front, creating a session either is refused
    with [ErrCircuitOpen] while Stripe is left alone, or runs once against
    Stripe, whose answer is passed on unchanged (an error of another breaker
    further in is reported as [ErrCircuitOpen] too). *)
Theorem breaker_transparent req idem s b res s' b' :
  @CreateCheckoutSession _ (breakerClient inner) req idem (s, b) = (res, (s', b')) ->
  (s' = s /\ res = Err (Sentinel ErrCircuitOpen)) \/
  exists res0, @CreateCheckoutSession _ inner req idem s = (res0, s') /\
    (res = res0 \/ exists e, res0 = Err e /\ (errIs e ErrOpenState || errIs e ErrTooManyRequests) = true /\
       res = Err (Sentinel ErrCircuitOpen)).
Proof. apply wrap_spec. Qed.
End BreakerTheorems.

(** What counts against the breaker: of the errors the SDK client
      returns, exactly the card and invalid-request errors that are not HTTP
      429 are held harmless; API errors, idempotency errors, rate limiting and
      everything that never reached Stripe count as failures. *)
Theorem breaker_counts_infrastructure_errors op err ctx :
  IsSuccessful (Some (Wrap ctx (mapStripeError op err))) = IsSuccessful (Some (mapStripeError op err)) /\
  (IsSuccessful (Some (mapStripeError op err)) = true <->
     exists ty http e, err = StripeAPIError ty http e /\ http <> 429 /\
       (ty = ErrorTypeCard \/ ty = ErrorTypeInvalidRequest)).
Proof.
  split; [done|]. destruct err as [ty http e|e]; cbn.
  2: { split; [done|]. intros (? & ? & ? & ? & _). done. }
  destruct (Z.eqb_spec http 429) as [->|Hh].
  { split; [done|]. intros (? & ? & ? & [= <- <- <-] & ? & _). done. }
  destruct (bool_decide_reflect (ty = ErrorTypeCard)) as [->|].
  { split; [eauto 8|done]. }
  destruct (bool_decide_reflect (ty = ErrorTypeAPI)) as [->|].
  { split; [done|]. by intros (? & ? & ? & [= <- <- <-] & _ & [?|?]). }
  destruct (bool_decide_reflect (ty = ErrorTypeIdempotency)) as [->|].
  { split; [done|]. by intros (? & ? & ? & [= <- <- <-] & _ & [?|?]). }
  destruct (bool_decide_reflect (ty = ErrorTypeInvalidRequest)) as [->|].
  { split; [eauto 8|done]. }
  split; [done|]. by intros (? & ? & ? & [= <- <- <-] & _ & [?|?]).
Qed.

(** Ten failures out of twenty do not trip the breaker: the comparison is
    strict. *)
Lemma half_failures_do_not_trip :
  ReadyToTrip {| c_Requests := 20; c_TotalFailures := 10 |} = false /\
  ReadyToTrip {| c_Requests := 20; c_TotalFailures := 11 |} = true.
Proof. split; reflexivity. Qed.
