(* ===== verification/WebhookService.v ===== *)
(** * Stripe callbacks and refunds (internal/service/webhook_service.go)

    [Process] and [CreateRefund] run on the repository's state [D], Redis [R]
    and the rest of the world [X] (Stripe, the clock, the merchants repository,
    the Kafka publisher). *)

From S2P Require Import Prelude GoStrings Domain TransactionStore StripeTypes Ports.
Local Open Scope Z_scope.

Record stripeObject : Type := {
  so_ID : string;
  so_Object : string;
  so_Amount : Z;
  so_AmountTotal : Z;
  so_Currency : string;
  so_Status : string;
  so_Metadata : metadata;
  so_PaymentIntent : string;
  so_LatestCharge : string;
  so_Charge : string;
  so_Refunded : bool;
}.

(** [encoding/json] on the object of an event. *)
Class ObjectJSON : Type := unmarshalObject : string -> result stripeObject.

Record RefundInput : Type := {
  ri_Merchant : option Merchant;
  ri_OrderID : string;
  ri_Amount : Z;
  ri_Reason : string;
  ri_IdemKey : string;
}.

Record RefundResult : Type := {
  rres_OrderID : string;
  rres_RefundID : string;
  rres_Status : string;
  rres_Amount : Z;
  rres_Currency : string;
}.

Section Webhook.
Context `{Unicode} `{ObjectJSON}.
Context {D R X : Type} `{TransactionRepository D} `{RedisSetNX R} `{Client X} `{Clock X}
  `{MerchantRepository X} `{EventPublisher X}.
Variable webhookSecret : string.

(** The three parts of the state. *)
Definition on_repo {A} (m : ST D A) : ST (D * (R * X)) A := on_fst m.
Definition on_redis {A} (m : ST R A) : ST (D * (R * X)) A := on_snd (on_fst m).
Definition on_world {A} (m : ST X A) : ST (D * (R * X)) A := on_snd (on_snd m).

Definition resolveShard (merchantID : string) : ST (D * (R * X)) (result Z) :=
  (let! m := on_world (GetByMerchantID merchantID) in
   ret (match m with
        | Err e => Err (Wrap "resolve merchant" e)
        | Ok m => Ok (m_ShardIndex m)
        end))%easypay.

Definition decodeStripeObject (b : string) : result stripeObject :=
  match unmarshalObject b with
  | Err e => Err (Wrap "decode object" e)
  | Ok o => Ok o
  end.

(** [o.Metadata[k]]: the zero value for a missing key. *)
Definition meta (o : stripeObject) (k : string) : string := default "" (so_Metadata o !! k).

Definition object_pi (o : stripeObject) : string :=
  if bool_decide (so_PaymentIntent o = "") && bool_decide (so_Object o = "payment_intent")
  then so_ID o else so_PaymentIntent o.

(** [UpdateStatus] and the translation of its errors. *)
Definition transition (shardIdx : Z) (merchantID orderID status piID ctx : string)
    : ST (D * (R * X)) (result unit) :=
  (let! u := on_repo (repo_UpdateStatus shardIdx merchantID orderID status piID) in
   ret (match u with
        | Ok _ => Ok tt
        | Err e => if errIs e ErrNotFound then Err (Wrap orderID (Sentinel ErrWebhookOrderMissing))
                   else Err (Wrap ctx e)
        end))%easypay.

(** Reload the order and publish its new state. *)
Definition publish (shardIdx : Z) (merchantID orderID status : string) : ST (D * (R * X)) (result unit) :=
  (let! order := on_repo (repo_GetByMerchantOrderID shardIdx merchantID orderID) in
   match order with
   | Err e => ret (Err (Wrap "load order" e))
   | Ok order =>
       let! now := on_world time_Now in
       on_world (PublishPaymentConfirmed {|
         pc_OrderID := t_OrderID order; pc_MerchantID := t_MerchantID order; pc_Status := status;
         pc_StripePaymentIntentID := t_StripePaymentIntentID order; pc_Amount := t_Amount order;
         pc_Currency := t_Currency order; pc_ConfirmedAt := Unix now |})
   end)%easypay.

(** Never trust the webhook body alone: ask Stripe for the intent. *)
Definition crossCheck (piID : string) : ST (D * (R * X)) (result unit) :=
  if bool_decide (piID = "") then ret (Ok tt)
  else
    (let! pi := on_world (GetPaymentIntent piID) in
     ret (match pi with
          | Err e => Err (Wrap "cross-check payment intent" e)
          | Ok pi => if bool_decide (pi_Status pi = "succeeded") then Ok tt
                     else Err (Text "cross-check: not succeeded")
          end))%easypay.

Definition handleSucceeded (e : Event) : ST (D * (R * X)) (result unit) :=
  match decodeStripeObject (ev_Data e) with
  | Err err => ret (Err err)
  | Ok o =>
      let orderID := meta o "order_id" in
      let merchantID := meta o "merchant_id" in
      if bool_decide (orderID = "") || bool_decide (merchantID = "")
      then ret (Err (Text "event missing metadata.order_id or merchant_id"))
      else
        let piID := object_pi o in
        (let! ok := crossCheck piID in
         match ok with
         | Err err => ret (Err err)
         | Ok _ =>
             let! sh := resolveShard merchantID in
             match sh with
             | Err err => ret (Err err)
             | Ok shardIdx =>
                 let! u := transition shardIdx merchantID orderID TransactionStatusPaid piID "update order" in
                 match u with
                 | Err err => ret (Err err)
                 | Ok _ => publish shardIdx merchantID orderID TransactionStatusPaid
                 end
             end
         end)%easypay
  end.

Definition handleFailed (e : Event) : ST (D * (R * X)) (result unit) :=
  match decodeStripeObject (ev_Data e) with
  | Err err => ret (Err err)
  | Ok o =>
      let orderID := meta o "order_id" in
      let merchantID := meta o "merchant_id" in
      if bool_decide (orderID = "") || bool_decide (merchantID = "")
      then ret (Err (Text "event missing metadata.order_id or merchant_id"))
      else
        let piID := object_pi o in
        (let! sh := resolveShard merchantID in
         match sh with
         | Err err => ret (Err err)
         | Ok shardIdx =>
             transition shardIdx merchantID orderID TransactionStatusFailed piID "update order failed"
         end)%easypay
  end.

Definition handleRefunded (e : Event) : ST (D * (R * X)) (result unit) :=
  match decodeStripeObject (ev_Data e) with
  | Err err => ret (Err err)
  | Ok o =>
      let piID := if bool_decide (so_PaymentIntent o = "") then meta o "payment_intent"
                  else so_PaymentIntent o in
      let orderID := meta o "order_id" in
      let merchantID := meta o "merchant_id" in
      (let! target :=
         (if (bool_decide (orderID = "") || bool_decide (merchantID = "")) && negb (bool_decide (piID = ""))
          then let! found := on_repo (repo_GetByPaymentIntentID piID) in
               ret (match found with
                    | Ok t => (t_OrderID t, t_MerchantID t, Some (t_ShardIndex t))
                    | Err _ => (orderID, merchantID, None)
                    end)
          else ret (orderID, merchantID, None)) in
       let '(orderID, merchantID, known) := target in
       if bool_decide (orderID = "") || bool_decide (merchantID = "")
       then ret (Err (Text "event missing order_id/merchant_id and unresolvable"))
       else
         let! sh := match known with Some i => ret (Ok i) | None => resolveShard merchantID end in
         match sh with
         | Err err => ret (Err err)
         | Ok shardIdx =>
             let! u := transition shardIdx merchantID orderID TransactionStatusRefunded piID "update order refunded" in
             match u with
             | Err err => ret (Err err)
             | Ok _ => publish shardIdx merchantID orderID TransactionStatusRefunded
             end
         end)%easypay
  end.

(** The switch on the type of a verified, fresh event. *)
Definition dispatch (event : Event) : ST (D * (R * X)) (result unit) :=
  let ty := ev_Type event in
  if bool_decide (ty = "payment_intent.succeeded") || bool_decide (ty = "checkout.session.completed")
  then handleSucceeded event
  else if bool_decide (ty = "payment_intent.payment_failed") then handleFailed event
  else if bool_decide (ty = "charge.refunded") then handleRefunded event
  else ret (Ok tt).

Definition dedupKey (event : Event) : string := "webhook:" +:+ ev_ID event.

Definition Process (payload sigHeader : string) : ST (D * (R * X)) (result unit) :=
  (let! event := on_world (VerifyWebhookSignature payload sigHeader webhookSecret) in
   match event with
   | Err e => ret (Err (Wrap "verify signature" e))
   | Ok event =>
       let! ok := on_redis (SetNX (dedupKey event) "1" (24 * hour)) in
       match ok with
       | Err e => ret (Err (Wrap "dedup setnx" e))
       | Ok false => ret (Err (Sentinel ErrWebhookDuplicate))
       | Ok true => dispatch event
       end
   end)%easypay.

Definition service_CreateRefund (input : RefundInput) : ST (D * (R * X)) (result RefundResult) :=
  match ri_Merchant input with
  | None => ret (Err (Text "merchant + order_id required"))
  | Some m =>
      if bool_decide (ri_OrderID input = "") then ret (Err (Text "merchant + order_id required"))
      else
        (let! order := on_repo (repo_GetByMerchantOrderID (m_ShardIndex m) (m_MerchantID m) (ri_OrderID input)) in
         match order with
         | Err e => ret (Err (Wrap "load order" e))
         | Ok order =>
             if bool_decide (t_StripePaymentIntentID order = "")
             then ret (Err (Text "order has no associated payment intent (crypto refunds not supported)"))
             else
               let idemKey := if bool_decide (ri_IdemKey input = "") then "refund:" +:+ t_OrderID order
                              else ri_IdemKey input in
               let! r := on_world (CreateRefund {|
                 rr_PaymentIntentID := t_StripePaymentIntentID order;
                 rr_Amount := ri_Amount input;
                 rr_Reason := TrimSpace (ri_Reason input);
                 rr_Metadata := <["order_id" := t_OrderID order]> (<["merchant_id" := t_MerchantID order]> ∅) |}
                 idemKey) in
               ret (match r with
                    | Err e => Err (Wrap "stripe refund" e)
                    | Ok r => Ok {| rres_OrderID := t_OrderID order; rres_RefundID := rf_ID r;
                                    rres_Status := rf_Status r; rres_Amount := rf_Amount r;
                                    rres_Currency := rf_Currency r |}
                    end)
         end)%easypay
  end.
End Webhook.
