(* ===== verification/WebhookTheorems.v ===== *)
(** * Stripe callbacks: what [Process] and [CreateRefund] guarantee

    An event acts at most once and only when signed; the only change it makes
    to the repository is one status update, to "paid" only after Stripe itself
    confirmed the payment; success means the new state was published.  The
    last theorem shows what marking the event before handling it costs. *)

From S2P Require Import Prelude GoStrings Domain TransactionStore StripeTypes Ports WebhookService.
Local Open Scope Z_scope.

(** The state an event of this type moves its order to. *)
Definition event_status (ty : string) : option string :=
  if bool_decide (ty = "payment_intent.succeeded") || bool_decide (ty = "checkout.session.completed")
  then Some TransactionStatusPaid
  else if bool_decide (ty = "payment_intent.payment_failed") then Some TransactionStatusFailed
  else if bool_decide (ty = "charge.refunded") then Some TransactionStatusRefunded
  else None.

Lemma find_update {A} (p : A -> bool) (f : A -> A) (l : list A) t' :
  (forall t, p t = true -> p (f t) = true) ->
  List.find p ((fun t => if p t then f t else t) <$> l) = Some t' ->
  exists t, List.find p l = Some t /\ t' = f t.
Proof.
  intros Hp. induction l as [|a l IH]; cbn; [done|].
  destruct (p a) eqn:Ea.
  - rewrite Hp by done. intros [= <-]. eauto.
  - rewrite Ea. apply IH.
Qed.

Section Theorems.
Context `{Unicode} `{ObjectJSON}.
Context {D R X : Type} `{HS : TransactionStore D} `{HR : RedisSetNXLaws R} `{Client X} `{Clock X}
  `{MerchantRepository X} `{EventPublisher X}.
Variable webhookSecret : string.

(** No payment changed. *)
Definition untouched (d d' : D) : Prop := forall sh, content d' sh = content d sh.

Lemma untouched_refl d : untouched d d.
Proof. by intros sh. Qed.

Lemma untouched_trans d1 d2 d3 : untouched d1 d2 -> untouched d2 d3 -> untouched d1 d3.
Proof. intros H12 H23 sh. by rewrite H23, H12. Qed.

(** The only change was one status update. *)
Definition one_update (sh : Z) (m o st pi : string) (d d' : D) : Prop :=
  exists d1 u d2, store_inv d1 /\ untouched d d1 /\
    repo_UpdateStatus sh m o st pi d1 = (u, d2) /\ untouched d2 d'.

Lemma transition_spec sh m o st pi ctx d (r : R) (x : X) res d' r' x' :
  store_inv d -> transition sh m o st pi ctx (d, (r, x)) = (res, (d', (r', x'))) ->
  store_inv d' /\ r' = r /\ x' = x /\ one_update sh m o st pi d d' /\
  (is_ok res = true -> exists u t, content d' sh = (fun t => if by_key key_eq m o t then put_status st pi u t else t) <$> content d sh /\
     t ∈ content d sh /\ by_key key_eq m o t = true).
Proof.
  intros Hd Ht. unfold transition in Ht. unfold bind, on_repo, on_fst, ret in Ht. cbn [fst snd] in Ht.
  destruct (repo_UpdateStatus sh m o st pi d) as [u d1] eqn:Eu. cbn [fst snd] in Ht.
  injection Ht as <- <- <- <-. destruct (update_status_law _ _ _ _ _ _ _ _ Hd Eu) as [Hd1 Hu].
  split; [done|]. split; [done|]. split; [done|]. split.
  { exists d, u, d1. split; [done|]. split; [apply untouched_refl|]. split; [done|apply untouched_refl]. }
  destruct u as [?|e]; cbn; [|by destruct (errIs e ErrNotFound)]. intros _.
  destruct Hu as [[u Hc] (t & Hin & Hp)]. exists u, t. done.
Qed.

Lemma publish_spec sh m o st d (r : R) (x : X) res d' r' x' :
  store_inv d -> publish sh m o st (d, (r, x)) = (res, (d', (r', x'))) ->
  store_inv d' /\ untouched d d' /\ r' = r /\
  (is_ok res = true -> exists t now x1, List.find (by_key key_eq m o) (content d sh) = Some t /\
     time_Now x = (now, x1) /\
     PublishPaymentConfirmed {| pc_OrderID := t_OrderID t; pc_MerchantID := t_MerchantID t; pc_Status := st;
       pc_StripePaymentIntentID := t_StripePaymentIntentID t; pc_Amount := t_Amount t;
       pc_Currency := t_Currency t; pc_ConfirmedAt := Unix now |} x1 = (res, x')).
Proof.
  intros Hd Hp. unfold publish in Hp. unfold bind, on_repo, on_world, on_fst, on_snd, ret in Hp. cbn [fst snd] in Hp.
  destruct (repo_GetByMerchantOrderID sh m o d) as [order d1] eqn:Eg.
  destruct (get_order_law _ _ _ _ _ _ Hd Eg) as (Hd1 & Hc & Hf).
  destruct order as [t|e]; cbn [fst snd] in Hp.
  2: { injection Hp as <- <- <- <-. by split_and!. }
  destruct (time_Now x) as [now x1] eqn:En. cbn [fst snd] in Hp.
  destruct (PublishPaymentConfirmed _ x1) as [pub x2] eqn:Ep. cbn [fst snd] in Hp.
  injection Hp as <- <- <- <-. split_and!; try done. intros _. exists t, now, x1. done.
Qed.

Lemma resolveShard_spec m (d : D) (r : R) (x : X) res d' r' x' :
  resolveShard m (d, (r, x)) = (res, (d', (r', x'))) ->
  d' = d /\ r' = r /\ forall sh, res = Ok sh -> exists mer, GetByMerchantID m x = (Ok mer, x') /\ sh = m_ShardIndex mer.
Proof.
  unfold resolveShard, bind, on_world, on_snd, ret. cbn [fst snd].
  destruct (GetByMerchantID m x) as [[mer|e] x1]; cbn; intros [= <- <- <- <-]; (split; [done|]); (split; [done|]); [|done].
  intros sh [= <-]. by exists mer.
Qed.

Lemma crossCheck_spec pi (d : D) (r : R) (x : X) res d' r' x' :
  crossCheck pi (d, (r, x)) = (res, (d', (r', x'))) ->
  d' = d /\ r' = r /\
  (is_ok res = true -> pi <> "" -> exists pi', GetPaymentIntent pi x = (Ok pi', x') /\ pi_Status pi' = "succeeded").
Proof.
  unfold crossCheck, bind, on_world, on_snd, ret. case_bool_decide; cbn [fst snd].
  { by intros [= <- <- <- <-]. }
  destruct (GetPaymentIntent pi x) as [[p|e] x1]; cbn; intros [= <- <- <- <-]; (split; [done|]); (split; [done|]).
  - case_bool_decide; [|done]. intros _ _. by exists p.
  - done.
Qed.

(** The order an event is about: the one its metadata names, in the shard of
    that merchant; for a refund without metadata, the stored payment of the
    refunded payment intent. *)
Definition targets (ev : Event) (st : string) (d : D) (sh : Z) (m o : string) : Prop :=
  exists obj, decodeStripeObject (ev_Data ev) = Ok obj /\
    ((m = meta obj "merchant_id" /\ o = meta obj "order_id" /\
        exists mer y y', GetByMerchantID m y = (Ok mer, y') /\ sh = m_ShardIndex mer) \/
     (st = TransactionStatusRefunded /\ exists t, t ∈ content d sh /\ t_MerchantID t = m /\ t_OrderID t = o /\
        t_StripePaymentIntentID t = (if bool_decide (so_PaymentIntent obj = "") then meta obj "payment_intent"
                                     else so_PaymentIntent obj))).

(** What a handler may do, given the status it moves orders to and what it
    must have learned from Stripe before. *)
Definition handler_effect (ev : Event) (st : string) (x : X) (d d' : D) : Prop :=
  untouched d d' \/
  exists sh m o pi, targets ev st d sh m o /\ one_update sh m o st pi d d' /\
    (st = TransactionStatusPaid -> pi <> "" ->
       exists pi' x2, GetPaymentIntent pi x = (Ok pi', x2) /\ pi_Status pi' = "succeeded").

(** What success of a handler that publishes means. *)
Definition published_at (sh : Z) (m o st : string) (d' : D) (res : result unit) (x' : X) : Prop :=
  exists t now x1, List.find (by_key key_eq m o) (content d' sh) = Some t /\ t_Status t = st /\
    PublishPaymentConfirmed {| pc_OrderID := t_OrderID t; pc_MerchantID := t_MerchantID t; pc_Status := st;
      pc_StripePaymentIntentID := t_StripePaymentIntentID t; pc_Amount := t_Amount t;
      pc_Currency := t_Currency t; pc_ConfirmedAt := Unix now |} x1 = (res, x').

Definition published (ev : Event) (st : string) (d d' : D) (res : result unit) (x' : X) : Prop :=
  exists sh m o, targets ev st d sh m o /\ published_at sh m o st d' res x'.

(** The tail shared by the two publishing handlers. *)
Lemma transition_publish sh m o st pi ctx d (r : R) (x : X) res d' r' x' :
  store_inv d ->
  (let! u := transition sh m o st pi ctx in
   match u with Err err => ret (Err err) | Ok _ => publish sh m o st end)%easypay (d, (r, x)) = (res, (d', (r', x'))) ->
  store_inv d' /\ r' = r /\ one_update sh m o st pi d d' /\ (is_ok res = true -> published_at sh m o st d' res x').
Proof.
  intros Hd Hp. unfold bind at 1 in Hp.
  destruct (transition sh m o st pi ctx (d, (r, x))) as [u [d1 [r1 x1]]] eqn:Et.
  destruct (transition_spec _ _ _ _ _ _ _ _ _ _ _ _ _ Hd Et) as (Hd1 & -> & -> & Hone & Hok).
  destruct u as [?|e].
  2: { unfold ret in Hp. injection Hp as <- <- <- <-. done. }
  destruct (publish_spec _ _ _ _ _ _ _ _ _ _ _ Hd1 Hp) as (Hd' & Hun & -> & Hpub).
  split; [done|]. split; [done|]. split.
  { destruct Hone as (da & w & db & ? & ? & ? & Hb). exists da, w, db. split_and!; try done.
    by eapply untouched_trans. }
  intros Hres. destruct (Hpub Hres) as (t & now & x2 & Hf & _ & Hp'). exists t, now, x2.
  rewrite Hun. split; [done|]. split; [|done].
  destruct (Hok eq_refl) as (w & t0 & Hc & _). rewrite Hc in Hf.
  by apply find_update in Hf as (t1 & _ & ->).
Qed.

Lemma handleSucceeded_spec e d (r : R) (x : X) res d' r' x' :
  store_inv d -> handleSucceeded e (d, (r, x)) = (res, (d', (r', x'))) ->
  store_inv d' /\ r' = r /\ handler_effect e TransactionStatusPaid x d d' /\
  (is_ok res = true -> published e TransactionStatusPaid d d' res x').
Proof.
  intros Hd Hp. unfold handleSucceeded in Hp.
  destruct (decodeStripeObject (ev_Data e)) as [o|err] eqn:Eo.
  2: { injection Hp as <- <- <- <-. split_and!; try done. by left. }
  destruct (_ || _).
  { injection Hp as <- <- <- <-. split_and!; try done. by left. }
  unfold bind at 1 in Hp.
  destruct (crossCheck (object_pi o) (d, (r, x))) as [ok [d1 [r1 x1]]] eqn:Ec.
  apply crossCheck_spec in Ec as (-> & -> & Hok).
  destruct ok as [?|err].
  2: { injection Hp as <- <- <- <-. split_and!; try done. by left. }
  unfold bind at 1 in Hp.
  destruct (resolveShard _ (d, (r, x1))) as [sh [d2 [r2 x2]]] eqn:Er.
  apply resolveShard_spec in Er as (-> & -> & Hsh).
  destruct sh as [sh|err].
  2: { injection Hp as <- <- <- <-. split_and!; try done. by left. }
  apply transition_publish in Hp as (Hd' & -> & Hone & Hpub); [|done].
  assert (Ht : targets e TransactionStatusPaid d sh (meta o "merchant_id") (meta o "order_id")).
  { exists o. split; [done|]. left. destruct (Hsh sh eq_refl) as (mer & ? & ?). eauto 8. }
  split; [done|]. split; [done|]. split; [|intros Hres; exists sh, (meta o "merchant_id"), (meta o "order_id"); auto].
  right. exists sh, (meta o "merchant_id"), (meta o "order_id"), (object_pi o). split; [done|]. split; [done|].
  intros _ Hne. destruct (Hok eq_refl Hne) as (pi' & ? & ?). eauto.
Qed.

Lemma handleFailed_spec e d (r : R) (x : X) res d' r' x' :
  store_inv d -> handleFailed e (d, (r, x)) = (res, (d', (r', x'))) ->
  store_inv d' /\ r' = r /\ handler_effect e TransactionStatusFailed x d d'.
Proof.
  intros Hd Hp. unfold handleFailed in Hp.
  destruct (decodeStripeObject (ev_Data e)) as [o|err] eqn:Eo.
  2: { injection Hp as <- <- <- <-. split_and!; try done. by left. }
  destruct (_ || _).
  { injection Hp as <- <- <- <-. split_and!; try done. by left. }
  unfold bind at 1 in Hp.
  destruct (resolveShard _ (d, (r, x))) as [sh [d2 [r2 x2]]] eqn:Er.
  apply resolveShard_spec in Er as (-> & -> & Hsh).
  destruct sh as [sh|err].
  2: { injection Hp as <- <- <- <-. split_and!; try done. by left. }
  apply transition_spec in Hp as (Hd' & -> & -> & Hone & _); [|done].
  split; [done|]. split; [done|]. right. eexists sh, _, _, _. split; [|split; [exact Hone|done]].
  exists o. split; [done|]. left. destruct (Hsh sh eq_refl) as (mer & ? & ?). eauto 8.
Qed.

Lemma handleRefunded_spec e d (r : R) (x : X) res d' r' x' :
  store_inv d -> handleRefunded e (d, (r, x)) = (res, (d', (r', x'))) ->
  store_inv d' /\ r' = r /\ handler_effect e TransactionStatusRefunded x d d' /\
  (is_ok res = true -> published e TransactionStatusRefunded d d' res x').
Proof.
  intros Hd Hp. unfold handleRefunded in Hp.
  destruct (decodeStripeObject (ev_Data e)) as [o|err] eqn:Eo.
  2: { injection Hp as <- <- <- <-. split_and!; try done. by left. }
  unfold bind at 1 in Hp.
  match type of Hp with context [match ?c (d, (r, x)) with _ => _ end] =>
    destruct (c (d, (r, x))) as [[[ord mer] known] [d1 [r1 x1]]] eqn:Et end.
  assert (Hd1 : store_inv d1 /\ untouched d d1 /\ r1 = r /\
    match known with
    | Some sh => exists t, t ∈ content d sh /\ t_MerchantID t = mer /\ t_OrderID t = ord /\ t_StripePaymentIntentID t =
        (if bool_decide (so_PaymentIntent o = "") then meta o "payment_intent" else so_PaymentIntent o)
    | None => mer = meta o "merchant_id" /\ ord = meta o "order_id"
    end).
  { destruct (_ && _).
    - unfold bind, on_repo, on_fst, ret in Et. cbn [fst snd] in Et.
      destruct (repo_GetByPaymentIntentID _ d) as [found d2] eqn:Eg. cbn [fst snd] in Et.
      destruct (get_pi_law _ _ _ _ Hd Eg) as (Hd2 & Hc & Hf).
      injection Et as Hans <- <- <-. split; [done|]. split; [done|]. split; [done|].
      destruct found as [t|err]; injection Hans as <- <- <-; [|done]. destruct Hf. by exists t.
    - unfold ret in Et. injection Et as <- <- <- <- <- <-. split; [done|]. split; [apply untouched_refl|done]. }
  destruct Hd1 as (Hd1 & Hun & -> & Hknown).
  destruct (_ || _).
  { injection Hp as <- <- <- <-. split_and!; try done. by left. }
  unfold bind at 1 in Hp.
  match type of Hp with context [match ?c (d1, (r, x1)) with _ => _ end] =>
    destruct (c (d1, (r, x1))) as [sh [d2 [r2 x2]]] eqn:Er end.
  assert (Hs : d2 = d1 /\ r2 = r /\ forall i, sh = Ok i -> targets e TransactionStatusRefunded d i mer ord).
  { destruct known as [i|].
    - injection Er as <- <- <- <-. split; [done|]. split; [done|]. intros i' [= <-]. exists o. eauto.
    - apply resolveShard_spec in Er as (-> & -> & Hsh). split; [done|]. split; [done|]. intros i Hi.
      destruct (Hsh i Hi) as (m0 & ? & ?), Hknown. exists o. split; [done|]. left. eauto 8. }
  destruct Hs as (-> & -> & Htg). destruct sh as [sh|err].
  2: { injection Hp as <- <- <- <-. split_and!; try done. by left. }
  apply transition_publish in Hp as (Hd' & -> & Hone & Hpub); [|done].
  pose proof (Htg sh eq_refl) as Ht. split; [done|]. split; [done|].
  split; [|intros Hres; exists sh, mer, ord; auto]. right. eexists sh, mer, ord, _. split; [done|]. split; [|done].
  destruct Hone as (da & w & db & ? & Ha & ? & ?). exists da, w, db. split_and!; try done.
  by eapply untouched_trans.
Qed.

Lemma dispatch_spec ev d (r : R) (x : X) res d' r' x' :
  store_inv d -> dispatch ev (d, (r, x)) = (res, (d', (r', x'))) ->
  store_inv d' /\ r' = r /\
  match event_status (ev_Type ev) with
  | Some st => handler_effect ev st x d d' /\
      (is_ok res = true -> st = TransactionStatusFailed \/ published ev st d d' res x')
  | None => untouched d d'
  end.
Proof.
  intros Hd. unfold dispatch, event_status.
  destruct (_ || _).
  { intros (? & ? & ? & ?)%handleSucceeded_spec; [|done]. split_and!; auto. }
  case_bool_decide.
  { intros (? & ? & ?)%handleFailed_spec; [|done]. split_and!; auto. }
  case_bool_decide.
  { intros (? & ? & ? & ?)%handleRefunded_spec; [|done]. split_and!; auto. }
  unfold ret. intros [= <- <- <- <-]. by split_and!.
Qed.

(** The two checks in front of the dispatch. *)
Lemma Process_inv p sg d r x res d' r' x' :
  Process webhookSecret p sg (d, (r, x)) = (res, (d', (r', x'))) ->
  (d' = d /\ is_ok res = false) \/
  exists ev x1 r1, VerifyWebhookSignature p sg webhookSecret x = (Ok ev, x1) /\
    SetNX (dedupKey ev) "1" (24 * hour) r = (Ok true, r1) /\
    dispatch ev (d, (r1, x1)) = (res, (d', (r', x'))).
Proof.
  unfold Process, bind at 1. unfold on_world at 1, on_snd at 1 2. cbn [fst snd].
  destruct (VerifyWebhookSignature _ _ _ x) as [[ev|e] x1]; unfold ret.
  2: { intros [= <- <- <- <-]. by left. }
  unfold bind at 1, on_redis at 1, on_snd at 1, on_fst at 1. cbn [fst snd].
  destruct (SetNX _ _ _ r) as [[[]|e] r1] eqn:Es.
  - intros Hd. right. exists ev, x1, r1. done.
  - intros [= <- <- <- <-]. by left.
  - intros [= <- <- <- <-]. by left.
Qed.

(** Everything a webhook can do to the payments: nothing, or exactly
    one [UpdateStatus], and the latter only if the body was signed with the
    webhook secret, the event id was not seen before, the new status is the
    one of the event's type, and the order is the one the event is about.  An order becomes "paid" with a payment
    intent only after Stripe, asked directly, answered that this intent
    succeeded. *)
Theorem webhook_effect p sg d r x res d' r' x' :
  store_inv d -> Process webhookSecret p sg (d, (r, x)) = (res, (d', (r', x'))) ->
  untouched d d' \/
  exists ev x1 r1 st, VerifyWebhookSignature p sg webhookSecret x = (Ok ev, x1) /\
    SetNX (dedupKey ev) "1" (24 * hour) r = (Ok true, r1) /\
    event_status (ev_Type ev) = Some st /\ handler_effect ev st x1 d d'.
Proof.
  intros Hd [[-> _]|(ev & x1 & r1 & Hv & Hs & Hdis)]%Process_inv; [left; apply untouched_refl|].
  destruct (dispatch_spec _ _ _ _ _ _ _ _ Hd Hdis) as (_ & _ & Hst).
  destruct (event_status (ev_Type ev)) as [st|] eqn:Ee; [|by left].
  right. exists ev, x1, r1, st. destruct Hst. done.
Qed.

(** C19. A webhook is acknowledged only when its work is done: if [Process]
    succeeds on an event that marks orders paid or refunded, then the order
    the event is about is stored in that state and the confirmation, carrying the stored
    merchant, order, amount and currency, was accepted by the publisher. *)
Theorem webhook_success p sg d r x d' r' x' :
  store_inv d -> Process webhookSecret p sg (d, (r, x)) = (Ok tt, (d', (r', x'))) ->
  exists ev x1, VerifyWebhookSignature p sg webhookSecret x = (Ok ev, x1) /\
    forall st, event_status (ev_Type ev) = Some st -> st <> TransactionStatusFailed ->
      published ev st d d' (Ok tt) x'.
Proof.
  intros Hd [[_ ?]|(ev & x1 & r1 & Hv & Hs & Hdis)]%Process_inv; [done|].
  exists ev, x1. split; [done|]. intros st Hst Hne.
  destruct (dispatch_spec _ _ _ _ _ _ _ _ Hd Hdis) as (_ & _ & Hsp). rewrite Hst in Hsp.
  destruct Hsp as [_ Hsp]. by destruct (Hsp eq_refl).
Qed.

(** While the mark of an event is alive, delivering the event again changes no
    payment and is answered with an error. *)
Lemma Process_marked p sg ev d r x x1 res d' r' x' :
  VerifyWebhookSignature p sg webhookSecret x = (Ok ev, x1) -> is_Some (live r (dedupKey ev)) ->
  Process webhookSecret p sg (d, (r, x)) = (res, (d', (r', x'))) ->
  d' = d /\ is_ok res = false.
Proof.
  intros Hv [v Hl] [?|(ev' & x1' & r1 & Hv' & Hs & _)]%Process_inv; [done|exfalso].
  rewrite Hv in Hv'. injection Hv' as <- <-. apply setnx_law in Hs as [_ [Hn _]]. congruence.
Qed.

(** The mark is set before the work and never taken back: when handling
    an event fails (so that Stripe delivers it again), every later delivery
    while the mark lives is rejected without any change; the event is lost. *)
Theorem webhook_failure_is_final p sg ev d r x x1 r1 e d' r' x' y y1 res2 d2 r2 y2 :
  VerifyWebhookSignature p sg webhookSecret x = (Ok ev, x1) ->
  SetNX (dedupKey ev) "1" (24 * hour) r = (Ok true, r1) ->
  store_inv d ->
  Process webhookSecret p sg (d, (r, x)) = (Err e, (d', (r', x'))) ->
  VerifyWebhookSignature p sg webhookSecret y = (Ok ev, y1) ->
  Process webhookSecret p sg (d', (r', y)) = (res2, (d2, (r2, y2))) ->
  d2 = d' /\ is_ok res2 = false.
Proof.
  intros Hv Hs Hd H1' Hv2. apply Process_marked with (ev := ev) (x1 := y1); [done|].
  unfold Process, bind at 1, on_world at 1, on_snd at 1 2 in H1'. cbn [fst snd] in H1'. rewrite Hv in H1'.
  unfold bind at 1, on_redis at 1, on_snd at 1, on_fst at 1 in H1'. cbn [fst snd] in H1'. rewrite Hs in H1'.
  destruct (dispatch_spec _ _ _ _ _ _ _ _ Hd H1') as (_ & -> & _).
  apply setnx_law in Hs as [_ [_ ->]]. by eexists.
Qed.

(** What is asked of Stripe to refund a payment. *)
Definition refundOf (input : RefundInput) (t : Transaction) : CreateRefundRequest := {|
  rr_PaymentIntentID := t_StripePaymentIntentID t; rr_Amount := ri_Amount input; rr_Reason := TrimSpace (ri_Reason input);
  rr_Metadata := <["order_id" := t_OrderID t]> (<["merchant_id" := t_MerchantID t]> ∅) |}.

(** C27. Refunds, on every branch.  A refund never changes the stored payments
    or Redis, whatever its outcome.  Either it is refused without a word to
    Stripe: the request names no merchant or no order, or the order cannot be
    loaded, or it has no payment intent; or it is about the stored order of this
    merchant under the requested id, which has an intent, and then Stripe is
    asked exactly once, for this intent, labelled with the ids of the order, and
    with an idempotency key that by default depends on the order id alone; and
    the answer is Stripe's, be it the refund or the error.  (The status of the
    order is not looked at.) *)
Theorem refund_spec input d (r : R) (x : X) res d' r' x' :
  store_inv d -> service_CreateRefund input (d, (r, x)) = (res, (d', (r', x'))) ->
  untouched d d' /\ r' = r /\
  (is_ok res = false /\ x' = x /\
     (ri_Merchant input = None \/ ri_OrderID input = "" \/
      exists m, ri_Merchant input = Some m /\
        ((exists e, res = Err (Wrap "load order" e) /\
            (errIs e ErrNotFound = true ->
             List.find (by_key key_eq (m_MerchantID m) (ri_OrderID input)) (content d (m_ShardIndex m)) = None)) \/
         exists t, List.find (by_key key_eq (m_MerchantID m) (ri_OrderID input)) (content d (m_ShardIndex m)) = Some t /\
           t_StripePaymentIntentID t = "")) \/
   exists m t ans, ri_Merchant input = Some m /\ ri_OrderID input <> "" /\
     List.find (by_key key_eq (m_MerchantID m) (ri_OrderID input)) (content d (m_ShardIndex m)) = Some t /\
     t_StripePaymentIntentID t <> "" /\
     @CreateRefund X _ (refundOf input t)
       (if bool_decide (ri_IdemKey input = "") then "refund:" +:+ t_OrderID t else ri_IdemKey input) x = (ans, x') /\
     res = match ans with
           | Ok rf => Ok {| rres_OrderID := t_OrderID t; rres_RefundID := rf_ID rf; rres_Status := rf_Status rf;
                            rres_Amount := rf_Amount rf; rres_Currency := rf_Currency rf |}
           | Err e => Err (Wrap "stripe refund" e)
           end).
Proof.
  intros Hd. unfold service_CreateRefund. destruct (ri_Merchant input) as [m|].
  2: { intros [= <- <- <- <-]. split_and!; [done|done|]. left. eauto. }
  case_bool_decide as Ho. { intros [= <- <- <- <-]. split_and!; [done|done|]. left. eauto. }
  unfold bind at 1, on_repo at 1, on_fst at 1. cbn [fst snd].
  destruct (repo_GetByMerchantOrderID _ _ _ d) as [found d1] eqn:Eg.
  destruct (get_order_law _ _ _ _ _ _ Hd Eg) as (_ & Hc & Hf). destruct found as [t|e]; cbn in Hf.
  2: { intros [= <- <- <- <-]. split_and!; [done|done|]. left. split_and!; [done|done|]. right. right. exists m. eauto. }
  case_bool_decide as Hpi.
  { intros [= <- <- <- <-]. split_and!; [done|done|]. left. split_and!; [done|done|]. right. right. exists m. eauto. }
  unfold bind at 1, on_world at 1, on_snd at 1 2, ret. cbn [fst snd]. fold (refundOf input t).
  destruct (CreateRefund _ _ x) as [ans x1] eqn:Er. cbn [fst snd]. intros [= <- <- <- <-]. split_and!; [done|done|].
  right. exists m, t, ans. by split_and!.
Qed.
End Theorems.
