(* ===== verification/CheckoutResolver.v ===== *)
(** * Hosted checkout (internal/service/checkout_resolver.go)

    [Resolve] answers /pay/:merchant_id/:order_id with a Stripe URL, creating
    the Stripe session on first use.  It runs on the repository's state [D] and
    the rest of the world [X]: Stripe, the merchants repository, the in-process
    URL cache, the distributed lock and the token bucket.  Metrics and logs are
    left out. *)

From S2P Require Import Prelude GoStrings Domain TransactionStore StripeTypes Ports.
Local Open Scope Z_scope.

(** The configuration of [checkoutResolver]; the cache and the bucket may be
    nil. *)
Record checkoutResolver : Type := {
  cr_hasCache : bool;
  cr_hasBucket : bool;
  cr_defaultSuccessURL : string;
  cr_defaultCancelURL : string;
}.

(** [CheckoutResolverOptions]; the parts that are never nil are the instances the
    resolver runs on. *)
Record CheckoutResolverOptions : Type := {
  cro_URLCache : bool;
  cro_Bucket : bool;
  cro_DefaultSuccessURL : string;
  cro_DefaultCancelURL : string;
}.

Definition NewCheckoutResolver (opts : CheckoutResolverOptions) : checkoutResolver := {|
  cr_hasCache := cro_URLCache opts; cr_hasBucket := cro_Bucket opts;
  cr_defaultSuccessURL := cro_DefaultSuccessURL opts; cr_defaultCancelURL := cro_DefaultCancelURL opts |}.

Definition stripeCheckoutURL (sessionID : string) : string := "https://checkout.stripe.com/c/pay/" +:+ sessionID.

Definition withOrderQuery (base orderID : string) : string :=
  if bool_decide (base = "") then ""
  else
    let sep := if Contains base "?" then "&" else "?" in
    base +:+ sep +:+ "order_id=" +:+ orderID.

Definition cacheKeyOf (merchantID orderID : string) : string := merchantID +:+ ":" +:+ orderID.

Section Resolver.
Context `{Unicode}.
Context {D X : Type} `{TransactionRepository D} `{Client X} `{MerchantRepository X} `{Locker X}
  `{URLCache X} `{TokenBucket X}.
Variable r : checkoutResolver.

Definition cacheURL (cacheKey url : string) : ST (D * X) unit :=
  if cr_hasCache r then on_snd (url_Put cacheKey url) else ret tt.

Definition resolveAfterLock (shardIdx : Z) (merchantID orderID cacheKey : string) : ST (D * X) (result string) :=
  (let! order := on_fst (repo_GetByMerchantOrderID shardIdx merchantID orderID) in
   match order with
   | Ok order =>
       if bool_decide (t_StripeSessionID order = "") then ret (Err (Sentinel ErrOrderNotReady))
       else
         let url := stripeCheckoutURL (t_StripeSessionID order) in
         let! _u := cacheURL cacheKey url in
         ret (Ok url)
   | Err _ => ret (Err (Sentinel ErrOrderNotReady))
   end)%easypay.

Definition sessionRequest (order : Transaction) : CreateCheckoutRequest := {|
  ccr_Amount := t_Amount order;
  ccr_Currency := ToLower (t_Currency order);
  ccr_PaymentMethodTypes := ["card"];
  ccr_CustomerEmail := "";
  ccr_SuccessURL := withOrderQuery (cr_defaultSuccessURL r) (t_OrderID order);
  ccr_CancelURL := if bool_decide (cr_defaultCancelURL r = "") then ""
                   else withOrderQuery (cr_defaultCancelURL r) (t_OrderID order);
  ccr_ClientReferenceID := t_OrderID order;
  ccr_Metadata := <["order_id" := t_OrderID order]> (<["merchant_id" := t_MerchantID order]> ∅) |}.

Definition sessionKey (order : Transaction) : string :=
  "checkout:" +:+ t_MerchantID order +:+ ":" +:+ t_OrderID order.

Definition createSession (order : Transaction) : ST X (result CheckoutSession) :=
  CreateCheckoutSession (sessionRequest order) (sessionKey order).

(** Tier 4: [true] lets the Stripe call through; a Redis error does too. *)
Definition allowed : ST (D * X) bool :=
  if cr_hasBucket r then
    (let! a := on_snd bucket_Allow in
     ret (match a with
          | Ok _ => true
          | Err e => negb (errIs e ErrRateLimited)
          end))%easypay
  else ret true.

(** The body run while the lock is held. *)
Definition underLock (shardIdx : Z) (merchantID orderID cacheKey : string) (order : Transaction)
    : ST (D * X) (result string) :=
  (let! again := on_fst (repo_GetByMerchantOrderID shardIdx merchantID orderID) in
   let session := match again with Ok c => t_StripeSessionID c | Err _ => "" end in
   if negb (bool_decide (session = "")) then
     let url := stripeCheckoutURL session in
     let! _u := cacheURL cacheKey url in
     ret (Ok url)
   else
     let! go := allowed in
     if negb go then ret (Err (Sentinel ErrUnavailable))
     else
       let! created := on_snd (createSession order) in
       match created with
       | Err e => ret (if errIs e ErrCircuitOpen then Err (Sentinel ErrUnavailable) else Err e)
       | Ok session =>
           let! _u := on_fst (repo_UpdateCheckout shardIdx merchantID orderID (cs_ID session)
                                (cs_PaymentIntentID session)) in
           let! _v := cacheURL cacheKey (cs_URL session) in
           ret (Ok (cs_URL session))
       end)%easypay.

(** From the database row on (tiers 2 to 5). *)
Definition resolveRow (shardIdx : Z) (merchantID orderID cacheKey : string) : ST (D * X) (result string) :=
  (let! order := on_fst (repo_GetByMerchantOrderID shardIdx merchantID orderID) in
   match order with
   | Err e => ret (if errIs e ErrNotFound then Err (Sentinel ErrOrderNotFound) else Err (Wrap "load order" e))
   | Ok order =>
       if negb (bool_decide (t_StripeSessionID order = "")) then
         let url := stripeCheckoutURL (t_StripeSessionID order) in
         let! _u := cacheURL cacheKey url in
         ret (Ok url)
       else
         let! lock := on_snd (Acquire ("checkout:" +:+ cacheKey) (10 * second)) in
         match lock with
         | Err _ => resolveAfterLock shardIdx merchantID orderID cacheKey
         | Ok lock =>
             let! res := underLock shardIdx merchantID orderID cacheKey order in
             let! _u := on_snd (Release lock) in
             ret res
         end
   end)%easypay.

Definition Resolve (merchantID orderID : string) : ST (D * X) (result string) :=
  let cacheKey := cacheKeyOf merchantID orderID in
  (let! hit := (if cr_hasCache r then on_snd (url_Get cacheKey) else ret None) in
   match hit with
   | Some url => ret (Ok url)
   | None =>
       let! merchant := on_snd (GetByMerchantID merchantID) in
       match merchant with
       | Err e => ret (if errIs e ErrMerchantNotFound then Err (Sentinel ErrOrderNotFound)
                       else Err (Wrap "load merchant" e))
       | Ok m => resolveRow (m_ShardIndex m) merchantID orderID cacheKey
       end
   end)%easypay.
End Resolver.

(** ** Theorems *)

Section Theorems.
Context `{Unicode}.
Context {D X : Type} `{HS : TransactionStore D} `{Client X} `{MerchantRepository X} `{Locker X}
  `{URLCache X} `{TokenBucket X}.
Variable r : checkoutResolver.

Definition same_payments (d d' : D) : Prop := forall sh, content d' sh = content d sh.

(** Where a URL that is not from the cache comes from. *)
Inductive url_source (sh : Z) (m o : string) (d d' : D) : string -> Prop :=
  | from_row t : List.find (by_key key_eq m o) (content d sh) = Some t ->
      t_StripeSessionID t <> "" -> same_payments d d' ->
      url_source sh m o d d' (stripeCheckoutURL (t_StripeSessionID t))
  | from_stripe t x1 x2 sess d1 u d2 :
      List.find (by_key key_eq m o) (content d sh) = Some t -> t_StripeSessionID t = "" ->
      CreateCheckoutSession (sessionRequest r t) (sessionKey t) (x1 : X) = (Ok sess, x2) ->
      store_inv d1 -> same_payments d d1 ->
      repo_UpdateCheckout sh m o (cs_ID sess) (cs_PaymentIntentID sess) d1 = (u, d2) ->
      same_payments d2 d' ->
      url_source sh m o d d' (cs_URL sess).

(** What a run of the resolver on the row does. *)
Definition resolve_contract (sh : Z) (m o : string) (d d' : D) (res : result string) : Prop :=
  match res with
  | Ok url => url_source sh m o d d' url
  | Err _ => same_payments d d'
  end.

Lemma same_refl d : same_payments d d. Proof. by intros sh. Qed.
Lemma same_trans d1 d2 d3 : same_payments d1 d2 -> same_payments d2 d3 -> same_payments d1 d3.
Proof. intros H12 H23 sh. by rewrite H23, H12. Qed.

Lemma cacheURL_D key url (d : D) (x : X) : exists x', cacheURL r key url (d, x) = (tt, (d, x')).
Proof.
  unfold cacheURL, on_snd, ret. destruct (cr_hasCache r); [|by eexists]. cbn.
  destruct (url_Put key url x) as [[] x']. by eexists.
Qed.

Lemma allowed_D (d : D) (x : X) : exists b x', allowed r (d, x) = (b, (d, x')).
Proof.
  unfold allowed, bind, on_snd, ret. destruct (cr_hasBucket r); [|by eexists _, _]. cbn.
  destruct (bucket_Allow x) as [a x']. by eexists _, _.
Qed.

Lemma resolveAfterLock_spec sh m o key d (x : X) res d' x' :
  store_inv d -> resolveAfterLock r sh m o key (d, x) = (res, (d', x')) ->
  store_inv d' /\ resolve_contract sh m o d d' res.
Proof.
  intros Hd. unfold resolveAfterLock, bind at 1, on_fst at 1. cbn [fst snd].
  destruct (repo_GetByMerchantOrderID sh m o d) as [[t|e] d1] eqn:Eg;
    destruct (get_order_law _ _ _ _ _ _ Hd Eg) as (Hd1 & Hc & Hf).
  - case_bool_decide; [unfold ret; intros [= <- <- <-]; done|].
    unfold bind at 1. destruct (cacheURL_D key (stripeCheckoutURL (t_StripeSessionID t)) d1 x) as [x1 ->].
    unfold ret. intros [= <- <- <-]. split; [done|]. by eapply from_row.
  - unfold ret. intros [= <- <- <-]. done.
Qed.

Lemma underLock_spec sh m o key t d (x : X) res d' x' :
  store_inv d -> List.find (by_key key_eq m o) (content d sh) = Some t -> t_StripeSessionID t = "" ->
  underLock r sh m o key t (d, x) = (res, (d', x')) ->
  store_inv d' /\ resolve_contract sh m o d d' res.
Proof.
  intros Hd Hf Hs. unfold underLock, bind at 1, on_fst at 1. cbn [fst snd].
  destruct (repo_GetByMerchantOrderID sh m o d) as [again d1] eqn:Eg.
  destruct (get_order_law _ _ _ _ _ _ Hd Eg) as (Hd1 & Hc & Hr).
  assert (Hempty : match again with Ok c => t_StripeSessionID c | Err _ => "" end = "").
  { destruct again as [c|e]; [|done]. rewrite Hf in Hr. by injection Hr as <-. }
  rewrite Hempty. cbn [bool_decide]. rewrite bool_decide_true by done. cbn [negb].
  unfold bind at 1. destruct (allowed_D d1 x) as (go & x1 & ->).
  destruct go; cbn [negb]; [|unfold ret; intros [= <- <- <-]; done].
  unfold bind at 1, on_snd at 1. cbn [fst snd].
  destruct (createSession r t x1) as [[sess|e] x2] eqn:Ec.
  2: { unfold ret. intros [= <- <- <-]. by destruct (errIs e ErrCircuitOpen). }
  unfold bind at 1, on_fst at 1. cbn [fst snd].
  destruct (repo_UpdateCheckout sh m o (cs_ID sess) (cs_PaymentIntentID sess) d1) as [u d2] eqn:Eu.
  destruct (update_checkout_law _ _ _ _ _ _ _ _ Hd1 Eu) as [Hd2 _].
  unfold bind at 1. destruct (cacheURL_D key (cs_URL sess) d2 x2) as [x3 ->].
  unfold ret. intros [= <- <- <-]. split; [done|].
  by apply (from_stripe sh m o d d2 t x1 x2 sess d1 u d2).
Qed.

Lemma resolveRow_spec sh m o key d (x : X) res d' x' :
  store_inv d -> resolveRow r sh m o key (d, x) = (res, (d', x')) ->
  store_inv d' /\ resolve_contract sh m o d d' res.
Proof.
  intros Hd. unfold resolveRow, bind at 1, on_fst at 1. cbn [fst snd].
  destruct (repo_GetByMerchantOrderID sh m o d) as [[t|e] d1] eqn:Eg;
    destruct (get_order_law _ _ _ _ _ _ Hd Eg) as (Hd1 & Hc & Hf).
  2: { unfold ret. intros [= <- <- <-]. by destruct (errIs e ErrNotFound). }
  assert (Hlift : forall d2 res2, resolve_contract sh m o d1 d2 res2 -> resolve_contract sh m o d d2 res2).
  { intros d2 res2. destruct res2 as [url|e]; cbn; [|by apply same_trans].
    intros [t1 Hf1 ? ?|t1 y1 y2 sess da u db Hf1 ? ? ? ? ? ?]; rewrite Hc in Hf1.
    - by eapply from_row; [..|eapply same_trans].
    - by apply (from_stripe sh m o d d2 t1 y1 y2 sess da u db); try done; eapply same_trans. }
  destruct (bool_decide_reflect (t_StripeSessionID t = "")) as [Hs|Hs]; cbn [negb].
  2: { unfold bind at 1. destruct (cacheURL_D key (stripeCheckoutURL (t_StripeSessionID t)) d1 x) as [x1 ->].
       unfold ret. intros [= <- <- <-]. split; [done|]. by eapply from_row. }
  unfold bind at 1, on_snd at 1. cbn [fst snd].
  destruct (Acquire _ _ x) as [[lock|e] x1].
  2: { intros [? ?]%resolveAfterLock_spec; [|done]. split; [done|]. by apply Hlift. }
  unfold bind at 1. destruct (underLock r sh m o key t (d1, x1)) as [res1 [d2 x2]] eqn:Eu.
  apply underLock_spec in Eu as [Hd2 Hr]; [|done|by rewrite Hc|done].
  unfold bind at 1, on_snd at 1, ret. cbn [fst snd]. destruct (Release lock x2) as [u x3]. cbn.
  intros [= <- <- <-]. split; [done|]. by apply Hlift.
Qed.

(** C25. Every answer of the hosted checkout is accounted for.  A URL is
    either the one the in-process cache holds for this (merchant, order)
    key, or belongs to a stored order of this merchant: the URL of the
    session the row already has, in which case nothing is written, or a
    session that Stripe just created for that row's amount, currency and ids
    and that was then handed to [UpdateCheckout] for it.  An error leaves
    every payment as it was. *)
Theorem Resolve_accounted m o d x res d' x' :
  store_inv d -> Resolve r m o (d, x) = (res, (d', x')) ->
  (exists url, cr_hasCache r = true /\ url_Get (cacheKeyOf m o) x = (Some url, x') /\ res = Ok url /\ d' = d) \/
  (is_ok res = false /\ same_payments d d') \/
  (exists x1 x2 mer, GetByMerchantID m x1 = (Ok mer, x2) /\ resolve_contract (m_ShardIndex mer) m o d d' res).
Proof.
  intros Hd. unfold Resolve, bind at 1.
  destruct (cr_hasCache r); cbv iota.
  - unfold on_snd at 1. cbn [fst snd]. destruct (url_Get _ x) as [[url|] x1] eqn:Eg.
    { unfold ret. intros [= <- <- <-]. left. by exists url. }
    unfold bind at 1, on_snd at 1. cbn [fst snd]. destruct (GetByMerchantID m x1) as [[mer|e] x2] eqn:Em.
    + intros [_ Hc]%resolveRow_spec; [|done]. right; right. eauto.
    + unfold ret. intros [= <- <- <-]. right; left. by destruct (errIs e ErrMerchantNotFound).
  - unfold ret at 1. cbn [fst snd]. unfold bind at 1, on_snd at 1. cbn [fst snd].
    destruct (GetByMerchantID m x) as [[mer|e] x2] eqn:Em.
    + intros [_ Hc]%resolveRow_spec; [|done]. right; right. eauto.
    + unfold ret. intros [= <- <- <-]. right; left. by destruct (errIs e ErrMerchantNotFound).
Qed.

(** No second session: when the row has a Stripe session, resolving it
    past the cache writes nothing to the repository and answers, if at all,
    with that session's URL. *)
Theorem Resolve_reuses_session sh m o key t d (x : X) res d' x' :
  store_inv d -> List.find (by_key key_eq m o) (content d sh) = Some t -> t_StripeSessionID t <> "" ->
  resolveRow r sh m o key (d, x) = (res, (d', x')) ->
  same_payments d d' /\ (forall url, res = Ok url -> url = stripeCheckoutURL (t_StripeSessionID t)) /\
  x' = match res with Ok url => (cacheURL r key url (d', x)).2.2 | Err _ => x end.
Proof.
  intros Hd Hf Hs. unfold resolveRow, bind at 1, on_fst at 1. cbn [fst snd].
  destruct (repo_GetByMerchantOrderID sh m o d) as [[t1|e] d1] eqn:Eg;
    destruct (get_order_law _ _ _ _ _ _ Hd Eg) as (Hd1 & Hc & Hr).
  - rewrite Hf in Hr. injection Hr as <-. rewrite bool_decide_false by done. cbn [negb].
    unfold bind at 1. destruct (cacheURL_D key (stripeCheckoutURL (t_StripeSessionID t)) d1 x) as [x1 E].
    rewrite E. unfold ret. intros [= <- <- <-]. split; [done|]. split; [by intros url [= <-]|]. by rewrite E.
  - unfold ret. intros [= <- <- <-]. destruct (errIs e ErrNotFound); (split; [done|]); by split.
Qed.
End Theorems.

(** The key of the cache and of the lock does not separate its two parts. *)
Lemma cacheKey_collision : cacheKeyOf "shop:eu" "42" = cacheKeyOf "shop" "eu:42".
Proof. reflexivity. Qed.

(** A URL cached for one order is answered for every order with the same key,
    before the merchant or the order is looked at. *)
Lemma cache_answers_other `{Unicode} {D X : Type} `{TransactionRepository D} `{Client X} `{MerchantRepository X}
    `{Locker X} `{URLCache X} `{TokenBucket X} r m o m' o' url (d : D) (x x' : X) :
  cacheKeyOf m o = cacheKeyOf m' o' -> cr_hasCache r = true -> url_Get (cacheKeyOf m' o') x = (Some url, x') ->
  Resolve r m o (d, x) = (Ok url, (d, x')).
Proof. intros Hk Hc Hg. unfold Resolve, bind, on_snd. rewrite Hc, Hk. cbn [fst snd]. by rewrite Hg. Qed.
