(* ===== verification/Reconciliation.v ===== *)
(** * Order reconciliation (internal/service/reconciliation.go)

    [tick] lists the payments stuck in created or pending and asks Stripe for
    the state of each.  The ticker loop of [Run] calls it once per interval. *)

From S2P Require Import Prelude GoStrings Domain TransactionStore StripeTypes Ports.
Local Open Scope Z_scope.

Record ReconciliationOptions : Type := { ro_Interval : Z; ro_StuckAfter : Z; ro_BatchSize : Z }.

(** The fallbacks of [NewOrderReconciliationWithOptions]. *)
Definition NewOrderReconciliationWithOptions (opts : ReconciliationOptions) : ReconciliationOptions := {|
  ro_Interval := if ro_Interval opts =? 0 then 5 * minute else ro_Interval opts;
  ro_StuckAfter := if ro_StuckAfter opts =? 0 then 10 * minute else ro_StuckAfter opts;
  ro_BatchSize := if ro_BatchSize opts =? 0 then 500 else ro_BatchSize opts |}.

Section Reconciler.
Context {D X : Type} `{TransactionRepository D} `{Client X} `{Clock X} `{EventPublisher X}.
Variable r : ReconciliationOptions.

Definition reconcileOne (o : Transaction) : ST (D * X) unit :=
  if bool_decide (t_StripePaymentIntentID o = "") then ret tt
  else
    (let! pi := on_snd (GetPaymentIntent (t_StripePaymentIntentID o)) in
     match pi with
     | Err _ => ret tt
     | Ok pi =>
         if bool_decide (pi_Status pi = "succeeded") then
           let! u := on_fst (repo_UpdateStatus (t_ShardIndex o) (t_MerchantID o) (t_OrderID o)
                               TransactionStatusPaid (pi_ID pi)) in
           match u with
           | Err _ => ret tt
           | Ok _ =>
               let! now := on_snd time_Now in
               let! _p := on_snd (PublishPaymentConfirmed {|
                 pc_OrderID := t_OrderID o; pc_MerchantID := t_MerchantID o;
                 pc_Status := TransactionStatusPaid; pc_StripePaymentIntentID := pi_ID pi;
                 pc_Amount := t_Amount o; pc_Currency := t_Currency o; pc_ConfirmedAt := Unix now |}) in
               ret tt
           end
         else if bool_decide (pi_Status pi = "canceled") || bool_decide (pi_Status pi = "requires_payment_method")
         then
           let! _u := on_fst (repo_UpdateStatus (t_ShardIndex o) (t_MerchantID o) (t_OrderID o)
                                TransactionStatusFailed (pi_ID pi)) in
           ret tt
         else ret tt
     end)%easypay.

Fixpoint reconcileAll (stuck : list Transaction) : ST (D * X) unit :=
  match stuck with
  | [] => ret tt
  | o :: rest => (let! _u := reconcileOne o in reconcileAll rest)%easypay
  end.

Definition tick : ST (D * X) (result unit) :=
  (let! now := on_snd time_Now in
   let! stuck := on_fst (repo_GetPendingBefore (now - ro_StuckAfter r) (ro_BatchSize r)) in
   match stuck with
   | Err e => ret (Err (Wrap "list stuck orders" e))
   | Ok stuck => let! _u := reconcileAll stuck in ret (Ok tt)
   end)%easypay.
End Reconciler.

(** ** Theorems *)

Section Theorems.
Context {D X : Type} `{HS : TransactionStore D} `{Client X} `{Clock X} `{EventPublisher X}.
Variable r : ReconciliationOptions.

(** What Stripe said about a payment intent, when asked in some state. *)
Definition stripe_said (pi st : string) : Prop :=
  exists (x x' : X) p, GetPaymentIntent pi x = (Ok p, x') /\
    ((st = TransactionStatusPaid /\ pi_Status p = "succeeded") \/
     (st = TransactionStatusFailed /\ (pi_Status p = "canceled" \/ pi_Status p = "requires_payment_method"))).

(** One justified change of the repository. *)
Inductive justified (stuck : list Transaction) (d d' : D) : Prop :=
  | just_read : (forall sh, content d' sh = content d sh) -> justified stuck d d'
  | just_update o st id u :
      o ∈ stuck -> t_StripePaymentIntentID o <> "" -> stripe_said (t_StripePaymentIntentID o) st ->
      repo_UpdateStatus (t_ShardIndex o) (t_MerchantID o) (t_OrderID o) st id d = (u, d') ->
      justified stuck d d'.

Lemma justified_weaken stuck stuck' d d' :
  (forall o, o ∈ stuck -> o ∈ stuck') -> justified stuck d d' -> justified stuck' d d'.
Proof. intros Hsub [?|o st id u ? ? ? ?]; [by apply just_read|]. eapply just_update; eauto. Qed.

Lemma reconcileOne_justified o d x u d' x' :
  store_inv d -> reconcileOne o (d, x) = (u, (d', x')) -> store_inv d' /\ justified [o] d d'.
Proof.
  intros Hd. unfold reconcileOne. case_bool_decide as Hpi.
  { unfold ret. intros [= <- <- <-]. split; [done|]. by apply just_read. }
  unfold bind at 1, on_snd at 1. cbn [fst snd].
  destruct (GetPaymentIntent _ x) as [[p|e] x1] eqn:Eg.
  2: { unfold ret. intros [= <- <- <-]. split; [done|]. by apply just_read. }
  case_bool_decide as Hs.
  - unfold bind at 1, on_fst at 1. cbn [fst snd].
    destruct (repo_UpdateStatus _ _ _ _ _ d) as [w d1] eqn:Eu.
    destruct (update_status_law _ _ _ _ _ _ _ _ Hd Eu) as [Hd1 _].
    assert (Hj : justified [o] d d1).
    { eapply just_update; [by left|exact Hpi| |exact Eu]. exists x, x1, p. split; [done|by left]. }
    destruct w as [?|e]; [|unfold ret; by intros [= <- <- <-]].
    unfold bind at 1, on_snd at 1. cbn [fst snd]. destruct (time_Now x1) as [now x2].
    unfold bind at 1, on_snd at 1. cbn [fst snd]. destruct (PublishPaymentConfirmed _ x2) as [pp x3].
    unfold ret. by intros [= <- <- <-].
  - destruct (bool_decide (pi_Status p = "canceled") || bool_decide (pi_Status p = "requires_payment_method")) eqn:Eor.
    2: { unfold ret. intros [= <- <- <-]. split; [done|]. by apply just_read. }
    unfold bind at 1, on_fst at 1, ret. cbn [fst snd].
    destruct (repo_UpdateStatus _ _ _ _ _ d) as [w d1] eqn:Eu. cbn [fst snd]. intros [= <- <- <-].
    destruct (update_status_law _ _ _ _ _ _ _ _ Hd Eu) as [Hd1 _]. split; [done|].
    eapply just_update; [by left|exact Hpi| |exact Eu]. exists x, x1, p. split; [done|]. right. split; [done|].
    apply orb_true_iff in Eor. by rewrite !bool_decide_eq_true in Eor.
Qed.

Lemma reconcileAll_justified stuck d x u d' x' :
  store_inv d -> reconcileAll stuck (d, x) = (u, (d', x')) -> store_inv d' /\ rtc (justified stuck) d d'.
Proof.
  revert d x. induction stuck as [|o rest IH]; intros d x Hd; cbn [reconcileAll].
  { unfold ret. intros [= <- <- <-]. done. }
  unfold bind. destruct (reconcileOne o (d, x)) as [w [d1 x1]] eqn:Eo.
  apply reconcileOne_justified in Eo as [Hd1 Hj]; [|done]. intros (Hd' & Hr)%IH; [|done]. split; [done|].
  eapply rtc_l.
  - eapply justified_weaken; [|exact Hj]. intros o' ->%list_elem_of_singleton. left.
  - eapply rtc_subrel; [|exact Hr]. intros a b. apply justified_weaken. intros o' Ho'. by right.
Qed.

(** A reconciliation pass changes payments only by status updates of
    payments it found stuck, each backed by Stripe's own answer for that
    payment's intent: "paid" if the intent succeeded, "failed" if it was
    canceled or is waiting for a payment method. *)
Theorem tick_justified d x res d' x' :
  store_inv d -> tick r (d, x) = (res, (d', x')) ->
  exists now d1 ans, repo_GetPendingBefore (now - ro_StuckAfter r) (ro_BatchSize r) d = (ans, d1) /\
    rtc (justified (match ans with Ok stuck => stuck | Err _ => [] end)) d d'.
Proof.
  intros Hd. unfold tick, bind at 1, on_snd at 1. cbn [fst snd]. destruct (time_Now x) as [now x1].
  unfold bind at 1, on_fst at 1. cbn [fst snd].
  destruct (repo_GetPendingBefore _ _ d) as [ans d1] eqn:Eg.
  destruct (pending_law _ _ _ _ _ Hd Eg) as [Hd1 Hc]. intros Ht. exists now, d1, ans. split; [done|].
  eapply rtc_l; [by apply just_read|]. destruct ans as [stuck|e].
  - unfold bind at 1 in Ht. destruct (reconcileAll stuck (d1, x1)) as [w [d2 x2]] eqn:Er.
    apply reconcileAll_justified in Er as [_ Hr]; [|done]. unfold ret in Ht. by injection Ht as <- <- <-.
  - unfold ret in Ht. by injection Ht as <- <- <-.
Qed.

Lemma reconcileAll_no_intent stuck (d : D) (x : X) :
  Forall (fun o => t_StripePaymentIntentID o = "") stuck -> reconcileAll stuck (d, x) = (tt, (d, x)).
Proof.
  induction 1 as [|o rest Ho _ IH]; cbn [reconcileAll]; [done|].
  unfold bind, reconcileOne. by rewrite bool_decide_true.
Qed.

(** Payments without a payment intent are never reconciled: a pass whose
    batch holds only such payments (lazy checkouts nobody opened, sessions
    Stripe gave no intent for, crypto payments) does nothing at all, so that
    a full batch of them keeps every younger payment from being looked at. *)
Theorem tick_starved (d d1 : D) (x x1 : X) now stuck :
  time_Now x = (now, x1) ->
  repo_GetPendingBefore (now - ro_StuckAfter r) (ro_BatchSize r) d = (Ok stuck, d1) ->
  Forall (fun o => t_StripePaymentIntentID o = "") stuck ->
  tick r (d, x) = (Ok tt, (d1, x1)).
Proof.
  intros Hn Hp Hall. unfold tick, bind at 1, on_snd at 1. cbn [fst snd]. rewrite Hn.
  unfold bind at 1, on_fst at 1. cbn [fst snd]. rewrite Hp.
  unfold bind at 1. by rewrite reconcileAll_no_intent.
Qed.
End Theorems.
