(* ===== verification/ReconcileLive.v ===== *)
(** * Reconciliation makes progress (internal/service/reconciliation.go)

    [tick_justified] of Reconciliation says what a pass may do; this file says
    what a pass does when nothing fails: a stuck payment whose intent has
    succeeded at Stripe becomes paid and is announced. *)

From S2P Require Import Prelude GoStrings Domain TransactionStore StripeTypes Ports Reconciliation.
Local Open Scope Z_scope.

(** A status update of one shard leaves another shard alone or, when the two
    share a pool, updates the same payments there. *)
Class StatusFrames (D : Type) `{TransactionStore D} : Prop :=
  update_status_frame d sh m o st pi res d' s :
    store_inv d -> repo_UpdateStatus sh m o st pi d = (res, d') ->
    content d' s = content d s \/
    exists u, content d' s = (fun t => if by_key key_eq m o t then put_status st pi u t else t) <$> content d s.

Section Progress.
Context {D X : Type} `{HS : TransactionStore D} `{!StatusFrames D} `{Client X} `{Clock X} `{EventPublisher X}.
Variable r : ReconciliationOptions.
Variable healthy : D -> Prop.
Variable outbox : X -> list PaymentConfirmedEvent.

(** A run without failures: the database answers and stays that way, Kafka
    takes every event.  Stripe ids fit their column. *)
Record no_faults : Prop := {
  nf_pending d before limit res d' : healthy d -> repo_GetPendingBefore before limit d = (res, d') -> healthy d';
  nf_status d sh m o st pi res d' : store_inv d -> healthy d -> repo_UpdateStatus sh m o st pi d = (res, d') -> healthy d';
  nf_paid d sh pi t res d' : store_inv d -> healthy d -> t ∈ content d sh -> len pi <= 64 ->
    repo_UpdateStatus sh (t_MerchantID t) (t_OrderID t) TransactionStatusPaid pi d = (res, d') -> res = Ok tt;
  nf_clock x now x' : time_Now x = (now, x') -> outbox x' = outbox x;
  nf_intent pi x res x' : GetPaymentIntent pi x = (res, x') -> outbox x' = outbox x;
  nf_publish ev x res x' : PublishPaymentConfirmed ev x = (res, x') -> outbox x' = outbox x ++ [ev];
}.
Hypothesis Hnf : no_faults.

(** Stripe reports the payment intent as succeeded, whenever it is asked. *)
Definition succeeds (pi : string) : Prop := forall x : X, exists p x',
  GetPaymentIntent pi x = (Ok p, x') /\ pi_Status p = "succeeded" /\ len (pi_ID p) <= 64.

(** The announcement of a paid order. *)
Definition announces (o : Transaction) (ev : PaymentConfirmedEvent) : Prop :=
  pc_OrderID ev = t_OrderID o /\ pc_MerchantID ev = t_MerchantID o /\ pc_Amount ev = t_Amount o /\
  pc_Currency ev = t_Currency o /\ pc_Status ev = TransactionStatusPaid.

(** A status update for another order does not touch a payment. *)
Lemma update_other d sh m o st pi res d' s t :
  store_inv d -> repo_UpdateStatus sh m o st pi d = (res, d') -> by_key key_eq m o t = false ->
  t ∈ content d s -> t ∈ content d' s.
Proof.
  intros Hd Hu Hk Ht. destruct (update_status_frame _ _ _ _ _ _ _ _ s Hd Hu) as [->|[u ->]]; [done|].
  apply list_elem_of_fmap. exists t. by rewrite Hk.
Qed.

Lemma reconcileOne_other o' t s d x d' x' u :
  store_inv d -> healthy d -> by_key key_eq (t_MerchantID o') (t_OrderID o') t = false -> t ∈ content d s ->
  reconcileOne o' (d, x) = (u, (d', x')) ->
  store_inv d' /\ healthy d' /\ t ∈ content d' s /\ outbox x `prefix_of` outbox x'.
Proof.
  intros Hd Hh Hk Ht. unfold reconcileOne. case_bool_decide as Hpi.
  { intros [= <- <- <-]. by split_and!. }
  unfold bind at 1, on_snd at 1. cbn [fst snd].
  destruct (GetPaymentIntent _ x) as [res x1] eqn:Eg. apply (nf_intent Hnf) in Eg.
  destruct res as [p|e]; [|intros [= <- <- <-]; rewrite Eg; by split_and!].
  case_bool_decide as Hs.
  - unfold bind at 1, on_fst at 1. cbn [fst snd]. destruct (repo_UpdateStatus _ _ _ _ _ d) as [w d1] eqn:Eu.
    pose proof (update_other _ _ _ _ _ _ _ _ s t Hd Eu Hk Ht) as Ht1.
    pose proof (nf_status Hnf _ _ _ _ _ _ _ _ Hd Hh Eu) as Hh1.
    destruct (update_status_law _ _ _ _ _ _ _ _ Hd Eu) as [Hd1 _].
    destruct w as [v|e]; [|intros [= <- <- <-]; rewrite Eg; by split_and!].
    unfold bind at 1, on_snd at 1. cbn [fst snd]. destruct (time_Now x1) as [now x2] eqn:Et.
    unfold bind at 1, on_snd at 1. cbn [fst snd]. destruct (PublishPaymentConfirmed _ x2) as [pp x3] eqn:Ep.
    apply (nf_clock Hnf) in Et. apply (nf_publish Hnf) in Ep. intros [= <- <- <-]. split_and!; try done.
    rewrite Ep, Et, Eg. by apply prefix_app_r.
  - destruct (_ || _); [|intros [= <- <- <-]; rewrite Eg; by split_and!].
    unfold bind at 1, on_fst at 1. cbn [fst snd]. destruct (repo_UpdateStatus _ _ _ _ _ d) as [w d1] eqn:Eu.
    pose proof (update_other _ _ _ _ _ _ _ _ s t Hd Eu Hk Ht) as Ht1.
    pose proof (nf_status Hnf _ _ _ _ _ _ _ _ Hd Hh Eu) as Hh1.
    destruct (update_status_law _ _ _ _ _ _ _ _ Hd Eu) as [Hd1 _].
    unfold ret. intros [= <- <- <-]. rewrite Eg. by split_and!.
Qed.

Lemma reconcileOne_self o d x d' x' u :
  store_inv d -> healthy d -> o ∈ content d (t_ShardIndex o) -> t_StripePaymentIntentID o <> "" ->
  succeeds (t_StripePaymentIntentID o) -> reconcileOne o (d, x) = (u, (d', x')) ->
  store_inv d' /\ healthy d' /\
  (exists pi v, put_status TransactionStatusPaid pi v o ∈ content d' (t_ShardIndex o)) /\
  exists ev, announces o ev /\ outbox x' = outbox x ++ [ev].
Proof.
  intros Hd Hh Ho Hpi Hs. unfold reconcileOne. rewrite bool_decide_false by done.
  unfold bind at 1, on_snd at 1. cbn [fst snd]. destruct (Hs x) as (p & x1 & Eg & Hst & Hlen). rewrite Eg.
  rewrite bool_decide_true by done. apply (nf_intent Hnf) in Eg.
  unfold bind at 1, on_fst at 1. cbn [fst snd]. destruct (repo_UpdateStatus _ _ _ _ _ d) as [w d1] eqn:Eu.
  assert (Hk : by_key key_eq (t_MerchantID o) (t_OrderID o) o = true) by (unfold by_key; by rewrite !key_eq_refl).
  pose proof (nf_paid Hnf _ _ _ _ _ _ Hd Hh Ho Hlen Eu) as ->.
  pose proof (nf_status Hnf _ _ _ _ _ _ _ _ Hd Hh Eu) as Hh1.
  destruct (update_status_law _ _ _ _ _ _ _ _ Hd Eu) as [Hd1 [[v Hc] _]].
  unfold bind at 1, on_snd at 1. cbn [fst snd]. destruct (time_Now x1) as [now x2] eqn:Et.
  unfold bind at 1, on_snd at 1. cbn [fst snd]. destruct (PublishPaymentConfirmed _ x2) as [pp x3] eqn:Ep.
  apply (nf_clock Hnf) in Et. apply (nf_publish Hnf) in Ep. intros [= <- <- <-]. split_and!; [done..| |].
  - exists (pi_ID p), v. rewrite Hc. apply list_elem_of_fmap. exists o. by rewrite Hk.
  - eexists. split; [|by rewrite Ep, Et, Eg]. by split_and!.
Qed.

Lemma reconcileAll_others os t s d x :
  store_inv d -> healthy d -> t ∈ content d s ->
  (forall o', o' ∈ os -> by_key key_eq (t_MerchantID o') (t_OrderID o') t = false) ->
  exists d' x', reconcileAll os (d, x) = (tt, (d', x')) /\
    store_inv d' /\ healthy d' /\ t ∈ content d' s /\ outbox x `prefix_of` outbox x'.
Proof.
  revert d x. induction os as [|o' os IH]; intros d x Hd Hh Ht Hk; cbn [reconcileAll].
  { exists d, x. by split_and!. }
  unfold bind. destruct (reconcileOne o' (d, x)) as [u [d1 x1]] eqn:E.
  apply (reconcileOne_other o' t s) in E as (Hd1 & Hh1 & Ht1 & Hp); [|done|done|apply Hk; by left|done].
  destruct (IH d1 x1) as (d' & x' & -> & ? & ? & ? & ?); [done..|intros o2 Ho2; apply Hk; by right|].
  exists d', x'. split_and!; try done. by etrans.
Qed.

Lemma reconcileAll_app os os' w :
  reconcileAll (os ++ os') w = (let! _u := reconcileAll os in reconcileAll os')%easypay w.
Proof.
  revert w. induction os as [|o os IH]; intros w; [done|]. cbn [app reconcileAll]. unfold bind in *.
  destruct (reconcileOne o w) as [u w1]. apply IH.
Qed.

(** C20. Reconciliation makes progress: a pass over a batch that holds a stuck
    payment whose intent has succeeded at Stripe ends with that payment paid
    and its confirmation published, whatever the other payments of the batch
    are, if the database and Kafka answer and no other payment of the batch
    has the same merchant and order for the database. *)
Theorem tick_confirms_stuck d x now x1 d1 pre o post :
  store_inv d -> healthy d -> time_Now x = (now, x1) ->
  repo_GetPendingBefore (now - ro_StuckAfter r) (ro_BatchSize r) d = (Ok (pre ++ o :: post), d1) ->
  o ∈ content d (t_ShardIndex o) -> t_StripePaymentIntentID o <> "" -> succeeds (t_StripePaymentIntentID o) ->
  (forall o', o' ∈ pre ++ post -> by_key key_eq (t_MerchantID o') (t_OrderID o') o = false) ->
  exists d' x' t ev, Reconciliation.tick r (d, x) = (Ok tt, (d', x')) /\
    t ∈ content d' (t_ShardIndex o) /\ t_TransactionID t = t_TransactionID o /\
    t_Status t = TransactionStatusPaid /\ ev ∈ outbox x' /\ announces o ev.
Proof.
  intros Hd Hh Hn Hp Ho Hpi Hs Hk. unfold Reconciliation.tick, bind at 1, on_snd at 1. cbn [fst snd]. rewrite Hn.
  unfold bind at 1, on_fst at 1. cbn [fst snd]. rewrite Hp. unfold bind at 1.
  apply (nf_clock Hnf) in Hn. pose proof (nf_pending Hnf _ _ _ _ _ Hh Hp) as Hh1.
  destruct (pending_law _ _ _ _ _ Hd Hp) as [Hd1 Hc]. rewrite <- Hc in Ho.
  rewrite reconcileAll_app. unfold bind at 1.
  destruct (reconcileAll_others pre o (t_ShardIndex o) d1 x1) as (d2 & x2 & -> & Hd2 & Hh2 & Ho2 & _); [done..| |].
  { intros o' Ho'. apply Hk, elem_of_app. by left. }
  cbn [reconcileAll]. unfold bind at 1. destruct (reconcileOne o (d2, x2)) as [u [d3 x3]] eqn:E.
  apply reconcileOne_self in E as (Hd3 & Hh3 & (pi & v & Hin) & ev & Hev & Hout); [|done..].
  destruct (reconcileAll_others post (put_status TransactionStatusPaid pi v o) (t_ShardIndex o) d3 x3)
    as (d4 & x4 & -> & _ & _ & Hin4 & Hpre); [done..| |].
  { intros o' Ho'. unfold by_key. cbn. apply Hk, elem_of_app. by right. }
  exists d4, x4, (put_status TransactionStatusPaid pi v o), ev. split_and!; try done.
  destruct Hpre as [k ->]. rewrite Hout. apply elem_of_app. left. apply elem_of_app. right. by left.
Qed.
End Progress.
