(* ===== verification/SqlFrames.v ===== *)
(** * What a statement of the SQL repository leaves alone

    [StoreKeeps] of Concurrency and [StatusFrames] of ReconcileLive hold of the
    SQL repository: a statement sent to one pool keeps the payments of every
    shard, and a status update changes the same payments in the shards that
    share the pool.  A database with no fault scheduled answers, and goes on
    answering. *)

From S2P Require Import Prelude GoStrings Domain Codec ShardRouter TransactionRepo TransactionTables.
From S2P Require Import TransactionStore TransactionRefines Concurrency ReconcileLive.
Local Open Scope Z_scope.

Lemma Forall2_pick {A B} (R : A -> B -> Prop) l k x :
  Forall2 R l k -> x ∈ l -> exists y, y ∈ k /\ R x y.
Proof.
  induction 1 as [|a b l k Hab _ IH]; intros Hx; [by apply not_elem_of_nil in Hx|].
  apply elem_of_cons in Hx as [->|Hx]; [exists b; split; [by left|done]|].
  destruct (IH Hx) as (y & Hy & Hr). exists y. split; [by right|done].
Qed.

Lemma rowView_same s x y t : wf_row y -> same_payment x y -> rowView s x = Some t ->
  exists t', rowView s y = Some t' /\ same_core t t'.
Proof.
  intros Hwf Hs Hv. destruct (rowView_wf s y Hwf) as (t0 & Hsc & Hv'). exists (with_shard s t0). split; [exact Hv'|].
  clear Hv'. unfold rowView in Hv. destruct (scanTransaction x) as [t1|] eqn:Hx; [|discriminate Hv]. injection Hv as <-.
  apply scanTransaction_inv in Hx as (E1 & E2 & E3 & E4 & E5 & _), Hsc as (F1 & F2 & F3 & F4 & F5 & _).
  destruct Hs as [Hm Htx Ho Ha Hc _ _ _ _]. split; cbn; [congruence..|]. rewrite Hc, E5 in F5. injection F5 as F5. exact (eq_sym F5).
Qed.

Section Keeps.
Context `{Unicode} `{HM : MySQL} `{!MySQLLaws}.
Variable r : multiShardRouter.
Hypothesis Hr : router_ok r.

Lemma tables_kept d d' s : sql_inv d' -> Forall2 evolves (tables d) (tables d') ->
  kept (sql_content r d s) (sql_content r d' s).
Proof.
  intros Hd' Hev. pose proof (shard_rows_wf r d' s Hd') as [_ Hwf].
  assert (Hrows : evolves (shard_rows r d s) (shard_rows r d' s)).
  { unfold shard_rows. destruct (route r s) as [h|]; [|done].
    destruct (tables d !! h) as [rows|] eqn:E1.
    - destruct (Forall2_lookup_l _ _ _ _ _ Hev E1) as (rows' & -> & HR). exact HR.
    - apply lookup_ge_None_1 in E1. rewrite (Forall2_length _ _ _ Hev) in E1.
      by rewrite (lookup_ge_None_2 _ _ E1). }
  destruct Hrows as (upd & ext & Erows & Hsame). intros t Ht. unfold sql_content in *.
  apply list_elem_of_omap in Ht as (x & Hx & Hv).
  destruct (Forall2_pick _ _ _ _ Hsame Hx) as (y & Hy & Hxy).
  assert (Hin : y ∈ shard_rows r d' s) by (rewrite Erows; apply elem_of_app; by left).
  destruct (rowView_same s x y t) as (t' & Hv' & Hc); [by eapply Forall_forall|exact Hxy|exact Hv|].
  exists t'. split; [|exact Hc]. apply list_elem_of_omap. exists y. split; [exact Hin|exact Hv'].
Qed.

Lemma sql_store_keeps : @StoreKeeps Db (sql_repo r) (sql_store r Hr).
Proof.
  split.
  - intros d t [t' res] d' s Hd Ha Hi. pose proof (@insert_law _ _ (sql_store r Hr) d t t' res d' Hd Ha Hi) as (Hd' & _).
    apply tables_kept; [exact Hd'|]. change d' with ((t', res), d').2. rewrite <- Hi.
    apply (step_evolves r), (step_call r (CInsert t)). exact Ha.
  - intros d sh m o st pi res d' s Hd Hi. pose proof (@update_status_law _ _ (sql_store r Hr) d sh m o st pi res d' Hd Hi) as (Hd' & _).
    apply tables_kept; [exact Hd'|]. change d' with (res, d').2. rewrite <- Hi.
    apply (step_evolves r), (step_call r (CUpdateStatus sh m o st pi)). exact I.
  - intros d sh m o sess pi res d' s Hd Hi. pose proof (@update_checkout_law _ _ (sql_store r Hr) d sh m o sess pi res d' Hd Hi) as (Hd' & _).
    apply tables_kept; [exact Hd'|]. change d' with (res, d').2. rewrite <- Hi.
    apply (step_evolves r), (step_call r (CUpdateCheckout sh m o sess pi)). exact I.
Qed.
End Keeps.

(** ** Status updates, seen from any shard *)

Section Frames.
Context `{Unicode} `{HM : MySQL} `{!MySQLLaws}.
Variable r : multiShardRouter.
Hypothesis Hr : router_ok r.

Lemma update_frame_sql s h (p : Row -> bool) (q : Transaction -> bool) f g d res d' :
  sql_inv d ->
  (forall x t, rowView s x = Some t -> q t = p x) ->
  (forall x t, rowView s x = Some t -> rowView s (f x) = Some (g t)) ->
  exec h (sql_update p f) d = (res, d') ->
  sql_content r d' s = sql_content r d s \/
  sql_content r d' s = (fun t => if q t then g t else t) <$> sql_content r d s.
Proof.
  intros Hd Hpq Hfg Hex. pose proof (shard_rows_wf r d s Hd) as Hwf.
  pose proof (wf_table_views s p q _ Hwf Hpq) as Hviews. unfold sql_content, shard_rows in *.
  apply exec_spec in Hex as [[Ht _]|(rows & Hrows & Ht & _)]; [left; by rewrite Ht|].
  destruct (route r s) as [h'|]; [|by left]. rewrite Ht. destruct (decide (h' = h)) as [->|Hne].
  2: { left. by rewrite list_lookup_insert_ne. }
  rewrite Hrows in *. rewrite list_lookup_insert_eq by (by eapply lookup_lt_Some). cbn [default] in *.
  unfold sql_update. destruct (List.existsb _ rows); cbn [snd]; [by left|right].
  apply omap_update. eapply Forall_impl; [exact Hviews|]. intros x (t & Hv & Hq). eauto 6.
Qed.

Lemma sql_status_frames : @StatusFrames Db (sql_repo r) (sql_store r Hr).
Proof.
  intros d sh m o st pi res d' s Hd Hu. cbn in Hu. unfold UpdateStatus in Hu.
  destruct (ValidateOrderID o); [|injection Hu as <- <-; by left].
  destruct (encodeStatus st) as [code|] eqn:Est; [|injection Hu as <- <-; by left].
  destruct (route r sh) as [h|]; [|injection Hu as <- <-; by left].
  unfold bind in Hu. destruct (Now d) as [now d1] eqn:En.
  destruct (exec h _ d1) as [ans d2] eqn:Ee. injection Hu as <- <-.
  assert (Ht : tables d1 = tables d) by (pose proof (Now_tables d) as Hx; by rewrite En in Hx).
  assert (Hc : sql_content r d1 s = sql_content r d s) by (unfold sql_content, shard_rows; by rewrite Ht).
  assert (Hd1 : sql_inv d1) by (unfold sql_inv; rewrite Ht; exact Hd).
  destruct (update_frame_sql s h (by_order m o) (by_key coll_eq m o) (set_status code now pi)
    (put_status st pi (ts_store now)) d1 ans d2 Hd1) as [E|E].
  - intros x t. apply by_order_view.
  - intros x t. apply set_status_view. by apply decodeStatus_encodeStatus.
  - exact Ee.
  - left. cbn. by rewrite E, Hc.
  - right. exists (ts_store now). cbn. by rewrite E, Hc.
Qed.
End Frames.

(** ** A database with no fault scheduled *)

Definition no_fault_scheduled (d : Db) : Prop := Forall (fun p => p_faults p = []) (d_pools d).

Lemma exec_no_fault {A} h (stmt : list Row -> result A * list Row) d a d' :
  no_fault_scheduled d -> exec h stmt d = (a, d') ->
  no_fault_scheduled d' /\ forall rows, tables d !! h = Some rows -> a = (stmt rows).1.
Proof.
  unfold no_fault_scheduled, exec, tables. intros Hd. destruct (d_pools d !! h) as [p|] eqn:Ep.
  - pose proof (Forall_lookup_1 _ _ _ _ Hd Ep) as Hp. cbn in Hp. rewrite Hp. cbn [head default].
    destruct (stmt (p_rows p)) as [a0 rows'] eqn:Es. intros [= <- <-]. cbn [d_pools]. split.
    + by apply Forall_insert.
    + intros rows. rewrite list_lookup_fmap, Ep. cbn. intros [= <-]. by rewrite Es.
  - intros [= <- <-]. split; [done|]. intros rows. rewrite list_lookup_fmap, Ep. done.
Qed.

Lemma Now_no_fault d : no_fault_scheduled d -> no_fault_scheduled (Now d).2.
Proof. unfold Now. by destruct (d_clock d) as [|t [|t' ts]]. Qed.

Lemma queryAll_no_fault {A} hs (stmt : list Row -> result A * list Row) d :
  no_fault_scheduled d -> no_fault_scheduled (queryAll hs stmt d).2.
Proof.
  revert d. induction hs as [|h hs IH]; intros d Hd; [done|]. cbn [queryAll]. rewrite !bind_snd. cbn [ret snd].
  apply IH. destruct (exec h stmt d) as [a d1] eqn:Ee. by apply exec_no_fault in Ee as [? _].
Qed.

Section NoFaults.
Context `{Unicode} `{HM : MySQL} `{!MySQLLaws}.
Variable r : multiShardRouter.

Lemma pending_no_fault before limit d res d' :
  no_fault_scheduled d -> GetPendingBefore r before limit d = (res, d') -> no_fault_scheduled d'.
Proof.
  intros Hd Hg. change d' with (res, d').2. rewrite <- Hg. unfold GetPendingBefore.
  destruct (limit <=? 0); [done|]. rewrite !bind_snd. cbn [ret snd].
  unfold NextArrival. pose proof (queryAll_no_fault (All r) (sql_select_oldest (stuck_row before) limit) d Hd) as Hq.
  destruct (queryAll _ _ d) as [qs d1]. cbn [fst snd] in *. by destruct (d_arrivals d1).
Qed.

Lemma status_no_fault sh m o st pi d res d' :
  no_fault_scheduled d -> UpdateStatus r sh m o st pi d = (res, d') -> no_fault_scheduled d'.
Proof.
  intros Hd Hu. unfold UpdateStatus in Hu. destruct (ValidateOrderID o); [|by injection Hu as <- <-].
  destruct (encodeStatus st); [|by injection Hu as <- <-]. destruct (route r sh); [|by injection Hu as <- <-].
  unfold bind in Hu. pose proof (Now_no_fault d Hd) as Hn. destruct (Now d) as [now d1]. cbn in Hn.
  destruct (exec _ _ d1) as [ans d2] eqn:Ee. injection Hu as <- <-. by apply exec_no_fault in Ee as [? _].
Qed.

(** An update of a stored payment succeeds. *)
Lemma paid_no_fault sh pi t d res d' :
  sql_inv d -> no_fault_scheduled d -> t ∈ sql_content r d sh -> len pi <= 64 ->
  UpdateStatus r sh (t_MerchantID t) (t_OrderID t) TransactionStatusPaid pi d = (res, d') -> res = Ok tt.
Proof.
  intros Hd Hf Ht Hpi Hu. pose proof (shard_rows_wf r d sh Hd) as [_ Hwf].
  unfold sql_content in Ht. apply list_elem_of_omap in Ht as (x & Hx & Hv).
  pose proof (proj1 (Forall_forall _ _) Hwf x Hx) as Hwx.
  apply rowView_inv in Hv as (Em & _ & Eo). unfold UpdateStatus in Hu.
  rewrite Em, Eo, (wr_order _ Hwx) in Hu. unfold shard_rows in Hx, Hwf.
  destruct (route r sh) as [h|]; [|by apply not_elem_of_nil in Hx].
  destruct (tables d !! h) as [rows|] eqn:Etab; [|by apply not_elem_of_nil in Hx]. cbn [default] in Hx, Hwf.
  destruct (encodeStatus TransactionStatusPaid) as [code|] eqn:Ec; [|discriminate Ec]. unfold bind in Hu.
  pose proof (Now_no_fault d Hf) as Hn. pose proof (Now_tables d) as Htn. destruct (Now d) as [now d1]. cbn in Hn, Htn.
  destruct (exec h _ d1) as [ans d2] eqn:Ee. injection Hu as <- <-. apply exec_no_fault in Ee as [_ Hans]; [|done].
  rewrite Htn in Hans. rewrite (Hans rows Etab). unfold sql_update.
  destruct (List.existsb _ rows) eqn:Eex.
  - exfalso. apply List.existsb_exists in Eex as (y & Hy & Hfit). apply list_elem_of_In in Hy.
    pose proof (proj1 (Forall_forall _ _) Hwf y Hy) as [_ _ _ _ _ _ Wpi Wse].
    apply andb_true_iff in Hfit as [_ Hfit]. apply negb_true_iff in Hfit. revert Hfit.
    assert (E : row_fits (set_status code now pi y) = true); [|by rewrite E].
    apply row_fits_iff. unfold set_status. cbn [r_pi r_session]. split.
    + unfold coalesce_nullif. case_bool_decide; [|cbn; lia].
      destruct (r_pi y) as [s|]; [|done]. cbn. destruct (Wpi s eq_refl). lia.
    + destruct (r_session y) as [s|]; [|done]. cbn. destruct (Wse s eq_refl). lia.
  - cbn [fst affected]. destruct (Z.eqb_spec (Z.of_nat (length (filter (fun y => by_order (r_merchant x) (r_order x) y = true) rows))) 0) as [E|]; [|done].
    exfalso. assert (Hin : x ∈ filter (fun y => by_order (r_merchant x) (r_order x) y = true) rows).
    { apply list_elem_of_filter. split; [|done]. unfold by_order.
      rewrite !(@Equivalence_Reflexive _ _ coll_equiv). done. }
    destruct (filter _ rows); [by apply not_elem_of_nil in Hin|]. cbn in E. lia.
Qed.

(** A stored payment is found. *)
Lemma get_no_fault sh t d res d' :
  sql_inv d -> no_fault_scheduled d -> t ∈ sql_content r d sh ->
  GetByMerchantOrderID r sh (t_MerchantID t) (t_OrderID t) d = (res, d') -> is_ok res = true /\ no_fault_scheduled d'.
Proof.
  intros Hd Hf Ht Hg. pose proof (shard_rows_wf r d sh Hd) as [_ Hwf].
  unfold sql_content in Ht. apply list_elem_of_omap in Ht as (x & Hx & Hv).
  pose proof (proj1 (Forall_forall _ _) Hwf x Hx) as Hwx.
  apply rowView_inv in Hv as (Em & _ & Eo). unfold GetByMerchantOrderID in Hg.
  rewrite Em, Eo, (wr_order _ Hwx) in Hg. unfold shard_rows in Hx, Hwf.
  destruct (route r sh) as [h|]; [|by apply not_elem_of_nil in Hx].
  destruct (tables d !! h) as [rows|] eqn:Etab; [|by apply not_elem_of_nil in Hx]. cbn [default] in Hx, Hwf.
  unfold bind, ret in Hg. destruct (exec h _ d) as [ans d1] eqn:Ee. injection Hg as <- <-.
  apply exec_no_fault in Ee as [Hf1 Hans]; [|done]. split; [|done]. rewrite (Hans rows Etab). unfold sql_select1. cbn [fst].
  destruct (List.find (by_order (r_merchant x) (r_order x)) rows) as [y|] eqn:Ef.
  - apply List.find_some in Ef as [Hy _]. apply list_elem_of_In in Hy.
    destruct (rowView_wf sh y (proj1 (Forall_forall _ _) Hwf y Hy)) as (ty & Hsc & _). cbn. by rewrite Hsc.
  - exfalso. apply list_elem_of_In in Hx. pose proof (List.find_none _ _ Ef x Hx) as Hno. unfold by_order in Hno.
    by rewrite !(@Equivalence_Reflexive _ _ coll_equiv) in Hno.
Qed.
End NoFaults.
