(* ===== verification/Scatter.v ===== *)
(** * Cross-shard reads under interference (scatterFirst of transaction_repo.go)

    [scatterFirst] of TransactionRepo asks the pools one after the other.  Here
    its goroutines are separate steps: each sends its query at some time and
    its answer to the channel at some later time, and between any two steps
    other requests may change the database.  [receive] is the loop that reads
    the channel; it returns at the first match, before the others have
    reported. *)

From S2P Require Import Prelude GoStrings Domain Codec ShardRouter TransactionRepo TransactionTables.
From S2P Require Import TransactionStore TransactionRefines TransactionTheorems Concurrency ReconcileLive SqlFrames.
Local Open Scope Z_scope.

(** What a goroutine reports: the pool, and the payment or an error. *)
Definition report : Type := nat * result Transaction.

(** The receiving loop: [k] more messages are waited for, of [total].
    [None]: it is still waiting. *)
Fixpoint receive (logical : list Z) (total k : nat) (chan : list report) (firstErr : option error) (misses : nat)
    : option (result Transaction) :=
  match k with
  | O => Some (if bool_decide (misses = total) then Err (Sentinel ErrNotFound)
               else Err (default (Text "nil error") firstErr))
  | S k =>
      match chan with
      | [] => None
      | (i, Ok t) :: _ => Some (Ok (with_shard (default 0 (logical !! i)) t))
      | (i, Err e) :: chan =>
          if errIs e ErrNotFound then receive logical total k chan firstErr (S misses)
          else receive logical total k chan (match firstErr with Some _ => firstErr | None => Some e end) misses
      end
  end.

Lemma receive_Ok logical total k chan fe m t :
  receive logical total k chan fe m = Some (Ok t) ->
  exists i t0, (i, Ok t0) ∈ chan /\ t = with_shard (default 0 (logical !! i)) t0.
Proof.
  revert chan fe m. induction k as [|k IH]; intros chan fe m; cbn; [by case_bool_decide|].
  destruct chan as [|[i [t0|e]] chan]; [done|intros [= <-]; exists i, t0; by split; [left|]|].
  destruct (errIs e ErrNotFound); intros (j & t0 & Hj & ?)%IH; exists j, t0; by split; [right|].
Qed.

Lemma receive_NotFound logical total k chan fe m e :
  receive logical total k chan fe m = Some (Err e) -> errIs e ErrNotFound = true ->
  (forall e', fe = Some e' -> errIs e' ErrNotFound = false) -> (m + k <= total)%nat ->
  (m + k = total)%nat /\ (k <= length chan)%nat /\
  forall i a, (i, a) ∈ take k chan -> exists e', a = Err e' /\ errIs e' ErrNotFound = true.
Proof.
  revert chan fe m. induction k as [|k IH]; intros chan fe m; cbn.
  - intros Hf He Hfe Hle. case_bool_decide as Hm.
    + split_and!; [lia|lia|]. intros i a Hi. by apply not_elem_of_nil in Hi.
    + simplify_eq. destruct fe as [e'|]; cbn in He; [by rewrite (Hfe e') in He|done].
  - destruct chan as [|[i [t0|e0]] chan]; [done|done|]. destruct (errIs e0 ErrNotFound) eqn:E0; intros Hf He Hfe Hle.
    + destruct (IH chan fe (S m) Hf He Hfe ltac:(lia)) as (Hl & Hn & Hall). cbn. split_and!; [lia|lia|].
      intros j a [[= -> ->]|Hj]%elem_of_cons; [eauto|by eapply Hall].
    + exfalso. destruct (IH chan _ m Hf He) as (Hl & _); [|lia|lia].
      intros e' He'. destruct fe as [e1|]; simplify_eq; [by apply Hfe|done].
Qed.

(** When all pools have reported, the loop returns what [firstMatch] says. *)
Lemma receive_firstMatch logical results arrival fe m :
  (forall i, i ∈ arrival -> is_Some (results !! i)) ->
  receive logical (length results) (length arrival) ((fun i => (i, default (Err (Text "")) (results !! i))) <$> arrival) fe m =
    Some (firstMatch logical results arrival fe m).
Proof.
  revert fe m. induction arrival as [|i arrival IH]; intros fe m Hi; cbn; [by case_bool_decide|].
  destruct (Hi i) as [a Ha]; [by left|]. rewrite Ha. cbn. destruct a as [t|e]; [done|].
  destruct (errIs e ErrNotFound); apply IH; intros j Hj; apply Hi; by right.
Qed.

Section Scatter.
Context `{Unicode} `{HM : MySQL} `{!MySQLLaws}.
Variable r : multiShardRouter.
Hypothesis Hr : router_ok r.
Variable p : Row -> bool.

(** The answers the goroutines have, the channel, and the database. *)
Record scatter : Type := mkScatter { sc_got : gmap nat (result Transaction); sc_chan : list report; sc_db : Db }.

Inductive scatter_step : scatter -> scatter -> Prop :=
  | sc_query got chan d i h a d' :
      got !! i = None -> All r !! i = Some h -> exec h (sql_select1 p) d = (a, d') ->
      scatter_step (mkScatter got chan d) (mkScatter (<[i := scanRow a]> got) chan d')
  | sc_send got chan d i a :
      got !! i = Some a -> i ∉ chan.*1 -> scatter_step (mkScatter got chan d) (mkScatter got (chan ++ [(i, a)]) d)
  | sc_other got chan d d' : db_step r d d' -> scatter_step (mkScatter got chan d) (mkScatter got chan d').

(** What the loop returns, once it returns. *)
Definition scattered (s : scatter) : option (result Transaction) :=
  let n := length (All r) in receive (physicalToFirstLogical r (Z.of_nat n)) n n (sc_chan s) None 0.

(** A state the database was in since it was [d]. *)
Definition since (d d' : Db) : Prop := sql_inv d' /\ Forall2 evolves (tables d) (tables d').

(** In the run from [s0] to [s], the goroutine of pool [i] sends its query in
    the state [s1] and gets the answer [a]. *)
Record asked (s0 s : scatter) (i : nat) (s1 : scatter) (a : result Transaction) : Prop := {
  as_before : rtc scatter_step s0 s1;
  as_first : sc_got s1 !! i = None;
  as_after : exists s2, scatter_step s1 s2 /\ sc_got s2 !! i = Some a /\ rtc scatter_step s2 s;
}.

(** What the answer of the pool [h] says about its rows. *)
Definition told (rows : list Row) (a : result Transaction) : Prop :=
  match a with
  | Ok t => exists x, List.find p rows = Some x /\ scanTransaction x = Ok t
  | Err e => errIs e ErrNotFound = true -> List.find p rows = None
  end.

(** How the answer of pool [i] came about. *)
Definition explained (s0 s : scatter) (i : nat) (a : result Transaction) : Prop :=
  exists h s1 rows, All r !! i = Some h /\ asked s0 s i s1 a /\
    (tables (sc_db s1) !! h = Some rows /\ told rows a \/ exists e, a = Err e /\ errIs e ErrNotFound = false).

Record scatter_inv (s0 s : scatter) : Prop := {
  si_since : since (sc_db s0) (sc_db s);
  si_got i a : sc_got s !! i = Some a -> explained s0 s i a;
  si_chan i a : (i, a) ∈ sc_chan s -> sc_got s !! i = Some a;
  si_once : NoDup (sc_chan s).*1;
}.

Lemma explained_later s0 s s' i a : scatter_step s s' -> explained s0 s i a -> explained s0 s' i a.
Proof.
  intros Hst (h & s1 & rows & Hh & [Hb Hf (s2 & H12 & Hg & Ha)] & Hw). exists h, s1, rows. split; [exact Hh|].
  split; [|exact Hw]. split; [done|done|]. exists s2. split; [done|]. split; [done|]. by eapply rtc_r.
Qed.

(** A failed query is not "not found". *)
Lemma failed_query a e : scanRow a = Err e -> (exists o, a = Err (outage_error o)) -> errIs e ErrNotFound = false.
Proof. intros Es Hio. apply not_true_iff_false. intros Hnf. by destruct (scanRow_NotFound _ _ Es Hnf Hio). Qed.

(** A query on one pool. *)
Lemma query_told d i h a d' :
  sql_inv d -> All r !! i = Some h -> exec h (sql_select1 p) d = (a, d') ->
  tables d' = tables d /\
  exists rows, tables d !! h = Some rows /\ told rows (scanRow a) \/ exists e, scanRow a = Err e /\ errIs e ErrNotFound = false.
Proof.
  intros Hd Hh Hex. split. { change d' with (a, d').2. rewrite <- Hex. by apply read_kept. }
  apply exec_spec in Hex as [[_ Hio]|(rows & Hrows & _ & [Ha|Hio])].
  - exists []. right. destruct (scanRow a) as [t|e] eqn:Es; [destruct Hio as [o ->]; by destruct o|].
    exists e. split; [done|]. by eapply failed_query.
  - exists rows. left. split; [done|]. pose proof (select1_view 0 p rows a (table_wf d h rows Hd Hrows) Ha) as Hv.
    unfold told. destruct (scanRow a) as [t|e] eqn:Es; [|done].
    subst a. cbn in Es. destruct (List.find p rows) as [x|]; [|discriminate Es]. exact (ex_intro _ x (conj eq_refl Es)).
  - exists []. right. destruct (scanRow a) as [t|e] eqn:Es; [destruct Hio as [o ->]; by destruct o|].
    exists e. split; [done|]. by eapply failed_query.
Qed.

Lemma scatter_step_inv s0 s s' : rtc scatter_step s0 s -> scatter_step s s' -> scatter_inv s0 s -> scatter_inv s0 s'.
Proof.
  intros Hrun Hst [Hs Hg Hc Ho].
  assert (Hlater : forall j b, sc_got s !! j = Some b -> explained s0 s' j b)
    by (intros j b Hj; eapply explained_later; [exact Hst|by apply Hg]).
  pose proof Hst as Hst'.
  destruct Hst as [got chan d i h a d' Hno Hh Hex|got chan d i a Hi Hnew|got chan d d' Hdb]; cbn in *.
  - destruct (query_told _ _ _ _ _ (proj1 Hs) Hh Hex) as (Ht & rows & Hx). split; cbn; [| | |done].
    + destruct Hs as [Hd He]. split; [unfold sql_inv|]; by rewrite Ht.
    + intros j b. rewrite lookup_insert_Some. intros [[<- <-]|[_ Hj]]; [|by apply Hlater].
      exists h, (mkScatter got chan d), rows. split; [done|]. split; [|exact Hx]. split; [done|done|].
      eexists. split; [exact Hst'|]. cbn. rewrite lookup_insert, decide_True by done. by split.
    + intros j b Hj%Hc. rewrite lookup_insert_ne; [done|congruence].
  - split; cbn; [done|done| |].
    + intros j b [Hj|[= -> ->]%list_elem_of_singleton]%elem_of_app; [by apply Hc|done].
    + rewrite fmap_app. cbn. apply NoDup_app. split; [done|]. split; [|apply NoDup_singleton].
      intros j Hj ->%list_elem_of_singleton. done.
  - pose proof (step_evolves r d d' Hdb) as He. split; cbn; [|done|done|done].
    destruct Hs as [Hd He0]. split; [by eapply step_wf|by etrans].
Qed.

Lemma scatter_reached d0 s : sql_inv d0 -> rtc scatter_step (mkScatter ∅ [] d0) s -> scatter_inv (mkScatter ∅ [] d0) s.
Proof.
  intros Hd. revert s. apply rtc_ind_r.
  - split; cbn; [split; [done|reflexivity]|done| |constructor]. intros i a Hi. by apply not_elem_of_nil in Hi.
  - intros s1 s2 Hrun Hst IH. by eapply scatter_step_inv.
Qed.

(** The pools of the first [n] messages are all the pools. *)
Lemma all_reported s0 s i :
  scatter_inv s0 s -> (length (All r) <= length (sc_chan s))%nat -> (i < length (All r))%nat ->
  exists a, (i, a) ∈ take (length (All r)) (sc_chan s).
Proof.
  intros Hi Hn Hlt. set (n := length (All r)) in *. set (c := take n (sc_chan s)).
  assert (Hnd : NoDup c.*1).
  { pose proof (si_once _ _ Hi) as Ho. rewrite <- (take_drop n (sc_chan s)), fmap_app in Ho. by apply NoDup_app in Ho as [? _]. }
  assert (Hin : forall j, j ∈ c.*1 -> j ∈ seq 0 n).
  { intros j ([j' a] & -> & Hj)%list_elem_of_fmap. apply elem_of_seq. split; [lia|]. cbn.
    assert (Hg : sc_got s !! j' = Some a).
    { apply (si_chan _ _ Hi). rewrite <- (take_drop n (sc_chan s)). apply elem_of_app. by left. }
    destruct (si_got _ _ Hi _ _ Hg) as (h & _ & _ & Hh & _). by apply lookup_lt_Some in Hh. }
  assert (Hp : c.*1 ≡ₚ seq 0 n).
  { apply submseteq_length_Permutation; [by apply NoDup_submseteq|]. rewrite length_seq, length_fmap. unfold c.
    rewrite length_take. by apply Nat.min_glb. }
  assert (Hi' : i ∈ c.*1) by (rewrite Hp; apply elem_of_seq; lia).
  apply list_elem_of_fmap in Hi' as ([j a] & -> & Hj). by exists a.
Qed.

(** What happens to the database after a pool was asked. *)
Lemma run_since s s' : sql_inv (sc_db s) -> rtc scatter_step s s' -> since (sc_db s) (sc_db s').
Proof.
  intros Hd Hrun. induction Hrun as [s|s1 s2 s3 Hst _ IH]; [split; [done|reflexivity]|].
  assert (H12 : since (sc_db s1) (sc_db s2)).
  { destruct Hst as [got chan d i h a d' _ Hh Hex|got chan d i a _ _|got chan d d' Hdb]; cbn in *.
    - destruct (query_told _ _ _ _ _ Hd Hh Hex) as [Ht _]. split; [unfold sql_inv|]; rewrite Ht; [done|reflexivity].
    - split; [done|reflexivity].
    - split; [by eapply step_wf|by eapply step_evolves]. }
  destruct H12 as [Hd2 He2]. destruct (IH Hd2) as [Hd3 He3]. split; [done|by etrans].
Qed.

Lemma asked_since d0 s i s1 a :
  sql_inv d0 -> asked (mkScatter ∅ [] d0) s i s1 a -> sql_inv (sc_db s1) /\ Forall2 evolves (tables (sc_db s1)) (tables (sc_db s)).
Proof.
  intros Hd [Hb _ (s2 & H12 & _ & Ha)]. destruct (run_since (mkScatter ∅ [] d0) s1 Hd Hb) as [Hd1 _]. split; [done|].
  apply (run_since s1 s Hd1). by eapply rtc_l.
Qed.

(** A row that is there at the start, in a later state of its pool. *)
Lemma row_later d0 d1 h rows0 x rows :
  Forall2 evolves (tables d0) (tables d1) -> tables d0 !! h = Some rows0 -> x ∈ rows0 -> tables d1 !! h = Some rows ->
  exists y, y ∈ rows /\ same_payment x y.
Proof.
  intros He H0' Hx Hrows. destruct (Forall2_lookup_l _ _ _ _ _ He H0') as (rows' & E & upd & ext & -> & Hsame).
  rewrite E in Hrows. injection Hrows as <-. destruct (Forall2_pick _ _ _ _ Hsame Hx) as (y & Hy & Hxy).
  exists y. split; [|done]. apply elem_of_app. by left.
Qed.

Lemma find_None_all (rows : list Row) : List.find p rows = None -> Forall (fun x => p x = false) rows.
Proof. intros Hn. apply Forall_forall. intros x Hx. apply (List.find_none _ _ Hn). by apply list_elem_of_In. Qed.

(** C11. A cross-shard read is right also while other requests write, whatever
    happens between its queries and in whatever order the pools report.  A
    payment it returns is the row its pool answered in the state in which this
    pool was asked, the first of the pool's rows that matched the query then,
    under a shard that is routed to that pool; and it is still stored there when
    the read returns.  "Not found" means that each pool had no matching row in
    the state in which it was asked, so that every payment stored before the
    read began was in a state during the read in which it did not match. *)
Theorem scatter_concurrent d0 s res :
  let s0 := mkScatter ∅ [] d0 in
  sql_inv d0 -> rtc scatter_step s0 s -> scattered s = Some res ->
  match res with
  | Ok t =>
      (exists i h s1 rows x t0, All r !! i = Some h /\ route r (t_ShardIndex t) = Ok h /\ asked s0 s i s1 (Ok t0) /\
         tables (sc_db s1) !! h = Some rows /\ List.find p rows = Some x /\ scanTransaction x = Ok t0 /\
         t = with_shard (t_ShardIndex t) t0) /\
      exists t', t' ∈ sql_content r (sc_db s) (t_ShardIndex t) /\ same_core t t'
  | Err e => errIs e ErrNotFound = true ->
      forall i h, All r !! i = Some h ->
        exists s1 e' rows1, asked s0 s i s1 (Err e') /\ tables (sc_db s1) !! h = Some rows1 /\
          Forall (fun x => p x = false) rows1 /\
          forall rows x, tables d0 !! h = Some rows -> x ∈ rows -> exists y, y ∈ rows1 /\ same_payment x y
  end.
Proof.
  intros s0 Hd Hs Hrec. pose proof (scatter_reached d0 s Hd Hs) as Hi. unfold scattered in Hrec. destruct res as [t|e].
  - apply receive_Ok in Hrec as (i & t0 & Hin & Et).
    destruct (si_got _ _ Hi _ _ (si_chan _ _ Hi _ _ Hin)) as (h & s1 & rows & Hh & Hask & [[Hrows (x & Hx & Hsc)]|(e & [=] & _)]).
    assert (Hlt : Z.of_nat i < Z.of_nat (length (All r))) by (apply lookup_lt_Some in Hh; lia). pose proof Hh as Hh'.
    unfold All in Hlt, Et, Hh. rewrite (physicalToFirstLogical_lookup r Hr i Hlt) in Et. cbn in Et.
    assert (Hroute : route r (t_ShardIndex t) = Ok h).
    { subst t. cbn [t_ShardIndex with_shard]. unfold route. by rewrite (first_logical_routes r Hr i Hlt), Hh. }
    split; [exists i, h, s1, rows, x, t0; do 6 (split; [done|]); by rewrite Et|].
    destruct (asked_since d0 s i s1 (Ok t0) Hd Hask) as [Hs1 He].
    apply (tables_kept r (sc_db s1) (sc_db s) _ (proj1 (si_since _ _ Hi)) He).
    unfold sql_content, shard_rows. rewrite Hroute, Hrows. cbn [default]. unfold id. apply list_elem_of_omap.
    exists x. split; [by apply list_elem_of_In, (List.find_some p)|]. unfold rowView. rewrite Hsc. by rewrite Et.
  - intros Hnf i h Hh.
    destruct (receive_NotFound _ _ _ _ _ _ _ Hrec Hnf ltac:(done) ltac:(lia)) as (_ & Hn & Hall).
    destruct (all_reported s0 s i Hi Hn ltac:(by eapply lookup_lt_Some)) as [a Ha].
    destruct (Hall i a Ha) as (e' & -> & He').
    assert (Hg : sc_got s !! i = Some (Err e')).
    { apply (si_chan _ _ Hi). rewrite <- (take_drop (length (All r)) (sc_chan s)). apply elem_of_app. by left. }
    destruct (si_got _ _ Hi _ _ Hg) as (h' & s1 & rows1 & Hh' & Hask & Hcase). rewrite Hh in Hh'. injection Hh' as <-.
    destruct Hcase as [[Hrows1 Hnone]|(e2 & [= <-] & Hno)]; [|congruence].
    exists s1, e', rows1. do 2 (split; [done|]). split; [by apply find_None_all, Hnone|]. intros rows x Hrows Hx.
    destruct (scatter_reached d0 s1 Hd (as_before _ _ _ _ _ Hask)) as [[_ Hev] _ _ _].
    exact (row_later d0 (sc_db s1) h rows x rows1 Hev Hrows Hx Hrows1).
Qed.
End Scatter.
