(* ===== verification/ChainEvents.v ===== *)
(** * Decoding payment events (internal/provider/blockchain/parser.go)

    A log of the chain, the parser of its [PaymentReceived] layout, and the
    round trip with the layout the contract writes: an order id left-padded
    with zero bytes in a topic, the token and a big-endian amount in the data.
    Byte slices are [string]s. *)

From S2P Require Import Prelude GoStrings Domain.
Local Open Scope Z_scope.

Record Log : Type := {
  lg_Topics : list string;
  lg_Data : string;
  lg_TxHash : string;
  lg_BlockNumber : Z;
}.

Record ParsedPaymentEvent : Type := {
  pe_OrderID : string;
  pe_Payer : string;
  pe_Token : string;
  pe_Amount : Z;
}.

(** [b[lo:hi]] *)
Definition slice (lo hi : nat) (b : string) : string := String.substring lo (hi - lo) b.

Fixpoint trimZero (b : string) : string :=
  match b with
  | EmptyString => ""
  | String c b' => if code c =? 0 then trimZero b' else b
  end.

Fixpoint zeros (n : nat) : string :=
  match n with O => "" | S n' => String (chr 0) (zeros n') end.

(** [common.BytesToAddress]: the last twenty bytes, left-padded. *)
Definition BytesToAddress (b : string) : string :=
  let n := String.length b in
  if (20 <? Z.of_nat n) then String.substring (n - 20) 20 b else zeros (20 - n) +:+ b.

(** [new(big.Int).SetBytes(b)]: big-endian, unsigned. *)
Fixpoint setBytes (acc : Z) (b : string) : Z :=
  match b with
  | EmptyString => acc
  | String c b' => setBytes (acc * 256 + code c) b'
  end.

Definition ParsePaymentEvent (log : Log) : result ParsedPaymentEvent :=
  match lg_Topics log with
  | _ :: order :: payer :: _ =>
      if Z.of_nat (String.length (lg_Data log)) <? 64 then Err (Sentinel ErrUnexpectedLog)
      else Ok {| pe_OrderID := trimZero order;
                 pe_Payer := BytesToAddress payer;
                 pe_Token := BytesToAddress (slice 12 32 (lg_Data log));
                 pe_Amount := setBytes 0 (slice 32 64 (lg_Data log)) |}
  | _ => Err (Sentinel ErrUnexpectedLog)
  end.

(** ** The layout the contract writes *)

(** [n] bytes, big-endian. *)
Fixpoint bigEndian (n : nat) (z : Z) : string :=
  match n with
  | O => ""
  | S n' => bigEndian n' (z / 256) +:+ String (chr (z mod 256)) ""
  end.

Definition leftPad (n : nat) (b : string) : string := zeros (n - String.length b) +:+ b.

Definition paymentLog (hash : string) (block : Z) (signature orderID payer token : string) (amount : Z)
    (extra : list string) (trailer : string) : Log := {|
  lg_Topics := signature :: leftPad 32 orderID :: leftPad 32 payer :: extra;
  lg_Data := leftPad 32 token +:+ (bigEndian 32 amount +:+ trailer);
  lg_TxHash := hash;
  lg_BlockNumber := block |}.

(** ** Lemmas *)

Lemma zeros_length n : String.length (zeros n) = n.
Proof. induction n as [|n IH]; [done|]. cbn. by rewrite IH. Qed.

Lemma str_length_app a b : String.length (a +:+ b) = (String.length a + String.length b)%nat.
Proof.
  induction a as [|c a IH]; [done|]. change (String c a +:+ b) with (String c (a +:+ b)). cbn [String.length]. lia.
Qed.

Lemma trimZero_zeros n b : trimZero (zeros n +:+ b) = trimZero b.
Proof.
  induction n as [|n IH]; [done|]. change (zeros (S n) +:+ b) with (String (chr 0) (zeros n +:+ b)).
  cbn [trimZero]. by rewrite IH.
Qed.

Lemma substring_all b n : String.length b = n -> String.substring 0 n b = b.
Proof.
  revert n. induction b as [|c b IH]; intros n <-; [done|]. cbn. by rewrite IH.
Qed.

Lemma substring_app_r a b n : String.substring (String.length a) n (a +:+ b) = String.substring 0 n b.
Proof.
  induction a as [|c a IH]; [done|]. change (String c a +:+ b) with (String c (a +:+ b)).
  cbn [String.length String.substring]. done.
Qed.

Lemma substring_app_l a b n : String.length a = n -> String.substring 0 n (a +:+ b) = a.
Proof.
  revert n. induction a as [|c a IH]; intros n <-; [by destruct b|].
  change (String c a +:+ b) with (String c (a +:+ b)). cbn [String.length String.substring]. by rewrite IH.
Qed.

Lemma bigEndian_length n z : String.length (bigEndian n z) = n.
Proof. revert z. induction n as [|n IH]; intros z; [done|]. cbn [bigEndian]. rewrite str_length_app, IH. cbn. lia. Qed.

Lemma setBytes_app acc a b : setBytes acc (a +:+ b) = setBytes (setBytes acc a) b.
Proof.
  revert acc. induction a as [|c a IH]; intros acc; [done|].
  change (String c a +:+ b) with (String c (a +:+ b)). cbn [setBytes]. apply IH.
Qed.

Lemma setBytes_bigEndian n acc z :
  0 <= z < 256 ^ Z.of_nat n -> setBytes acc (bigEndian n z) = acc * 256 ^ Z.of_nat n + z.
Proof.
  revert acc z. induction n as [|n IH]; intros acc z Hz.
  { change (256 ^ Z.of_nat 0) with 1 in *. cbn. lia. }
  cbn [bigEndian]. rewrite setBytes_app, Nat2Z.inj_succ, Z.pow_succ_r in * by lia. cbn [setBytes].
  pose proof (Z.mod_pos_bound z 256 ltac:(lia)) as Hm. rewrite code_chr by lia.
  rewrite IH.
  - pose proof (Z.div_mod z 256). lia.
  - split; [apply Z.div_pos; lia|]. apply Z.div_lt_upper_bound; lia.
Qed.

Lemma leftPad_length n b : (String.length b <= n)%nat -> String.length (leftPad n b) = n.
Proof. intros Hb. unfold leftPad. rewrite str_length_app, zeros_length. lia. Qed.

Lemma leftPad_tail b : String.length b = 20%nat -> String.substring 12 20 (leftPad 32 b) = b.
Proof.
  intros Hb. unfold leftPad. rewrite Hb.
  pose proof (substring_app_r (zeros 12) b 20) as Hs. rewrite zeros_length in Hs.
  etransitivity; [exact Hs|]. by apply substring_all.
Qed.

(** A slice inside the first part of a concatenation. *)
Lemma substring_prefix lo n a b :
  (lo + n <= String.length a)%nat -> String.substring lo n (a +:+ b) = String.substring lo n a.
Proof.
  revert lo n. induction a as [|c a IH]; intros lo n Hl.
  { cbn in Hl. destruct lo, n; [by destruct b|lia..]. }
  change (String c a +:+ b) with (String c (a +:+ b)).
  destruct lo as [|lo].
  - destruct n as [|n]; [done|]. cbn [String.substring]. f_equal. apply IH. cbn in Hl. lia.
  - cbn [String.substring]. apply IH. cbn in Hl. lia.
Qed.

Lemma valid_order_first s : ValidateOrderID s = Ok tt -> trimZero s = s.
Proof.
  intros [Hl Ha]%ValidateOrderID_Ok. destruct s as [|c s]; [done|]. cbn [trimZero all_chars] in *.
  apply andb_true_iff in Ha as [Hc _]. destruct (Z.eqb_spec (code c) 0) as [E|]; [|done].
  rewrite <- (chr_code c), E in Hc. discriminate.
Qed.

(** C31. A well-formed event decodes to what the contract wrote: the log of a
    payment of any 256-bit amount, for a valid order id of at most 32 bytes,
    parses to exactly that order id, payer, token and amount, whatever further
    topics and data follow. *)
Theorem ParsePaymentEvent_roundtrip hash block sg orderID payer token amount extra trailer :
  ValidateOrderID orderID = Ok tt -> len orderID <= 32 ->
  String.length payer = 20%nat -> String.length token = 20%nat -> 0 <= amount < 2 ^ 256 ->
  ParsePaymentEvent (paymentLog hash block sg orderID payer token amount extra trailer) =
    Ok {| pe_OrderID := orderID; pe_Payer := payer; pe_Token := token; pe_Amount := amount |}.
Proof.
  intros Ho Hlen Hp Ht Ha. unfold ParsePaymentEvent, paymentLog. cbn [lg_Topics lg_Data].
  assert (Hd : String.length (leftPad 32 token) = 32%nat) by (apply leftPad_length; lia).
  assert (Hb : String.length (bigEndian 32 amount) = 32%nat) by apply bigEndian_length.
  rewrite !str_length_app, Hd, Hb.
  destruct (Z.ltb_spec (Z.of_nat (32 + (32 + String.length trailer))) 64); [lia|].
  f_equal. f_equal.
  - unfold leftPad. rewrite trimZero_zeros. by apply valid_order_first.
  - unfold BytesToAddress. rewrite leftPad_length by lia. cbn [Z.ltb]. by apply leftPad_tail.
  - unfold slice. rewrite substring_prefix by (rewrite Hd; lia). cbn [Nat.sub].
    rewrite leftPad_tail by done. unfold BytesToAddress. rewrite Ht. cbn. done.
  - unfold slice. pose proof (substring_app_r (leftPad 32 token) (bigEndian 32 amount +:+ trailer) 32) as Hs.
    rewrite Hd in Hs. change (64 - 32)%nat with 32%nat. rewrite Hs, substring_app_l by done.
    rewrite setBytes_bigEndian; [lia|]. change (256 ^ Z.of_nat 32) with (2 ^ 256). lia.
Qed.

Lemma ParsePaymentEvent_roundtrip_witness :
  ParsePaymentEvent (paymentLog "h" 7 "sig" "ord-1234" (zeros 20) (zeros 20) 123456 [] "") =
    Ok {| pe_OrderID := "ord-1234"; pe_Payer := zeros 20; pe_Token := zeros 20; pe_Amount := 123456 |}.
Proof.
  apply (ParsePaymentEvent_roundtrip "h" 7 "sig" "ord-1234" (zeros 20) (zeros 20) 123456 [] "").
  - reflexivity.
  - discriminate.
  - reflexivity.
  - reflexivity.
  - lia.
Defined.
