(* ===== verification/OnchainRepo.v ===== *)
(** * On-chain transactions and block cursors
    (internal/repository/onchain_tx_repo.go, internal/provider/blockchain/cursor.go)

    The two tables live on the control-plane pool.  As for the transactions
    table, a statement runs, is refused, or takes effect and loses its answer,
    following a schedule of faults.  [OnchainTxRepository] and [CursorStore]
    are the Go interfaces, [OnchainStore] what the listener's theorems rely on,
    proved here of the SQL implementation. *)

From S2P Require Import Prelude GoStrings Sorting Domain TransactionRepo.
Local Open Scope Z_scope.

(** ** Interfaces *)

Class OnchainTxRepository (P : Type) : Type := {
  tx_Create : OnchainTransaction -> ST P (result unit);
  tx_GetByTxHash : string -> ST P (result OnchainTransaction);
  tx_UpdateConfirmations : string -> Z -> string -> ST P (result unit);
  tx_ListPendingByChain : Z -> Z -> ST P (result (list OnchainTransaction));
}.

Class CursorStore (K : Type) : Type := {
  cursor_Get : Z -> ST K (result Z);
  cursor_Set : Z -> Z -> ST K (result unit);
}.

(** What a stored row keeps of the record it was created from. *)
Record same_tx (a b : OnchainTransaction) : Prop := {
  st_hash : o_TxHash a = o_TxHash b;
  st_block : o_BlockNumber a = o_BlockNumber b;
  st_merchant : o_MerchantID a = o_MerchantID b;
  st_order : o_OrderID a = o_OrderID b;
  st_amount : o_Amount a = Some (default 0 (o_Amount b));
  st_chain : o_ChainID a = o_ChainID b;
  st_required : o_RequiredConfirm a = o_RequiredConfirm b;
}.

Definition with_conf (conf : Z) (status : string) (t : OnchainTransaction) : OnchainTransaction := {|
  o_ID := o_ID t; o_TxHash := o_TxHash t; o_BlockNumber := o_BlockNumber t; o_MerchantID := o_MerchantID t;
  o_OrderID := o_OrderID t; o_Payer := o_Payer t; o_Token := o_Token t; o_Amount := o_Amount t;
  o_ChainID := o_ChainID t; o_Confirmations := conf; o_RequiredConfirm := o_RequiredConfirm t;
  o_Status := status; o_CreatedAt := o_CreatedAt t |}.

Class OnchainStore (P : Type) `{OnchainTxRepository P} : Type := {
  (** the rows, oldest insertion first *)
  txs : P -> list OnchainTransaction;
  hash_eq : string -> string -> bool;
  hash_eq_refl h : hash_eq h h = true;

  create_law p t res p' :
    tx_Create t p = (res, p') ->
    let added := (exists row, txs p' = txs p ++ [row] /\ same_tx row t /\ o_Status row = o_Status t) /\
      forall y, y ∈ txs p -> hash_eq (o_TxHash y) (o_TxHash t) = false in
    match res with
    | Ok _ => added
    | Err _ => txs p' = txs p \/ added
    end;

  get_law p h res p' :
    tx_GetByTxHash h p = (res, p') ->
    txs p' = txs p /\
    match res with
    | Ok t => List.find (fun y => hash_eq (o_TxHash y) h) (txs p) = Some t
    | Err e => errIs e ErrOnchainTxNotFound = true ->
        List.find (fun y => hash_eq (o_TxHash y) h) (txs p) = None
    end;

  update_law p h conf st res p' :
    tx_UpdateConfirmations h conf st p = (res, p') ->
    let changed := txs p' = (fun y => if hash_eq (o_TxHash y) h then with_conf conf st y else y) <$> txs p in
    match res with
    | Ok _ => changed /\ exists y, y ∈ txs p /\ hash_eq (o_TxHash y) h = true
    | Err _ => txs p' = txs p \/ changed
    end;

  list_law p chain limit res p' :
    tx_ListPendingByChain chain limit p = (res, p') ->
    txs p' = txs p /\
    match res with
    | Ok l => (forall t, t ∈ l -> t ∈ txs p /\ o_ChainID t = chain /\ o_Status t = OnchainTxStatusPending) /\
        Z.of_nat (length l) <= Z.max 0 limit
    | Err _ => True
    end;
}.

(** ** The SQL implementation *)

Record OnchainDb : Type := mkOnchain {
  ox_rows : list OnchainTransaction;
  ox_next : Z;
  ox_clock : Z;
  ox_faults : list fault;
}.

Definition ox_exec {A} (stmt : list OnchainTransaction -> result A * list OnchainTransaction)
    : ST OnchainDb (result A) := fun d =>
  let '(a, rows') := stmt (ox_rows d) in
  let put rows := mkOnchain rows (ox_next d + 1) (ox_clock d) (tail (ox_faults d)) in
  match default NoFault (head (ox_faults d)) with
  | NoFault => (a, put rows')
  | FailBefore o => (Err (outage_error o), put (ox_rows d))
  | FailAfter o => (Err (outage_error o), put rows')
  end.

Definition enumStatus (s : string) : bool :=
  bool_decide (s ∈ [OnchainTxStatusPending; OnchainTxStatusConfirmed; OnchainTxStatusFailed; OnchainTxStatusReorged]).

(** The column widths of migrations/001 (strict SQL mode). *)
Definition tx_fits (t : OnchainTransaction) : bool :=
  (len (o_TxHash t) <=? 66) && (o_BlockNumber t <? 2 ^ 63) && (len (o_MerchantID t) <=? 16) &&
  (len (o_OrderID t) <=? 64) && (len (o_Payer t) <=? 42) && (len (o_Token t) <=? 42) &&
  (default 0 (o_Amount t) <? 10 ^ 65) && (o_Confirmations t <? 2 ^ 63) && (o_RequiredConfirm t <? 2 ^ 63) &&
  enumStatus (o_Status t).

Section SQL.
Context `{MySQL}.

Definition stored_tx (id now : Z) (t : OnchainTransaction) : OnchainTransaction := {|
  o_ID := id; o_TxHash := o_TxHash t; o_BlockNumber := o_BlockNumber t; o_MerchantID := o_MerchantID t;
  o_OrderID := o_OrderID t; o_Payer := o_Payer t; o_Token := o_Token t;
  o_Amount := Some (default 0 (o_Amount t));
  o_ChainID := o_ChainID t; o_Confirmations := o_Confirmations t; o_RequiredConfirm := o_RequiredConfirm t;
  o_Status := o_Status t; o_CreatedAt := ts_store now |}.

Definition onchain_Create (t : OnchainTransaction) : ST OnchainDb (result unit) := fun d =>
  let stmt rows :=
    if negb (tx_fits t) then (Err errTooLong, rows)
    else if List.existsb (fun y => coll_eq (o_TxHash y) (o_TxHash t)) rows then (Err errDup, rows)
    else (Ok tt, rows ++ [stored_tx (ox_next d) (ox_clock d) t]) in
  let '(res, d') := ox_exec stmt d in
  (match res with Err e => Err (Wrap "insert onchain_tx" e) | Ok _ => Ok tt end, d').

Definition scanOnchainTx (r : result OnchainTransaction) : result OnchainTransaction :=
  match r with
  | Ok t => Ok t
  | Err e => if errIs e ErrNoRows then Err (Sentinel ErrOnchainTxNotFound) else Err (Wrap "scan onchain_tx" e)
  end.

Definition onchain_GetByTxHash (hash : string) : ST OnchainDb (result OnchainTransaction) :=
  (let! r := ox_exec (fun rows =>
     (match List.find (fun y => coll_eq (o_TxHash y) hash) rows with
      | Some t => Ok t
      | None => Err (Sentinel ErrNoRows)
      end, rows)) in
   ret (scanOnchainTx r))%easypay.

Definition onchain_UpdateConfirmations (hash : string) (confirmations : Z) (status : string)
    : ST OnchainDb (result unit) :=
  (let! r := ox_exec (fun rows =>
     let hit y := coll_eq (o_TxHash y) hash in
     if List.existsb hit rows && negb ((confirmations <? 2 ^ 63) && enumStatus status)
     then (Err errTooLong, rows)
     else (Ok (Z.of_nat (length (filter (fun y => hit y = true) rows))),
           (fun y => if hit y then with_conf confirmations status y else y) <$> rows)) in
   ret (match r with
        | Err e => Err (Wrap "update onchain_tx" e)
        | Ok n => if n =? 0 then Err (Sentinel ErrOnchainTxNotFound) else Ok tt
        end))%easypay.

Definition earlier (a b : OnchainTransaction) : bool := o_BlockNumber a <=? o_BlockNumber b.

Definition onchain_ListPendingByChain (chainID limit : Z) : ST OnchainDb (result (list OnchainTransaction)) :=
  (let! r := ox_exec (fun rows =>
     (Ok (take (Z.to_nat limit) (insertion_sort earlier
        (filter (fun y => bool_decide (o_ChainID y = chainID) && bool_decide (o_Status y = OnchainTxStatusPending) = true) rows))),
      rows)) in
   ret (match r with Err e => Err (Wrap "query onchain_transactions" e) | Ok l => Ok l end))%easypay.

#[local] Instance onchain_repo : OnchainTxRepository OnchainDb := {|
  tx_Create := onchain_Create;
  tx_GetByTxHash := onchain_GetByTxHash;
  tx_UpdateConfirmations := onchain_UpdateConfirmations;
  tx_ListPendingByChain := onchain_ListPendingByChain |}.

Lemma ox_exec_spec {A} (stmt : list OnchainTransaction -> result A * list OnchainTransaction) d a d' :
  ox_exec stmt d = (a, d') ->
  (ox_rows d' = ox_rows d \/ ox_rows d' = (stmt (ox_rows d)).2) /\
  ((exists o, a = Err (outage_error o)) \/ (a = (stmt (ox_rows d)).1 /\ ox_rows d' = (stmt (ox_rows d)).2)).
Proof.
  unfold ox_exec. destruct (stmt (ox_rows d)) as [x rows]. destruct (default NoFault _) as [|o|o];
    intros [= <- <-]; cbn; eauto.
Qed.

#[local] Instance onchain_store `{!MySQLLaws} : OnchainStore OnchainDb.
Proof.
  refine {| txs := ox_rows; hash_eq := coll_eq |}.
  - intros h. apply (@Equivalence_Reflexive _ _ coll_equiv).
  - intros p t res p'. cbn. unfold onchain_Create.
    destruct (ox_exec _ p) as [a d'] eqn:Ex. intros [= <- <-].
    destruct (ox_exec_spec _ _ _ _ Ex) as [Hrows Hans]. cbv beta in *.
    destruct (tx_fits t); cbn [negb] in *.
    2: { destruct a as [?|e]; [|destruct Hrows; auto]. destruct Hans as [[o Ho]|[Ha _]]; discriminate. }
    destruct (List.existsb _ (ox_rows p)) eqn:Ee.
    { destruct a as [?|e]; [|destruct Hrows; auto]. destruct Hans as [[o Ho]|[Ha _]]; discriminate. }
    cbn [fst snd] in *.
    assert (Hadd : same_tx (stored_tx (ox_next p) (ox_clock p) t) t) by (by split).
    assert (Hnew : forall y, y ∈ ox_rows p -> coll_eq (o_TxHash y) (o_TxHash t) = false).
    { intros y Hy. apply Bool.not_true_iff_false. intros Hh. apply Bool.not_true_iff_false in Ee. apply Ee.
      apply List.existsb_exists. exists y. split; [by apply list_elem_of_In|done]. }
    destruct a as [?|e].
    + destruct Hans as [[o Ho]|[_ Hr]]; [discriminate|]. split; [eauto|exact Hnew].
    + destruct Hrows as [?|Hr]; [auto|]. right. split; [eauto|exact Hnew].
  - intros p h res p'. cbn. unfold onchain_GetByTxHash, bind, ret.
    destruct (ox_exec _ p) as [a d'] eqn:Ex. intros [= <- <-].
    destruct (ox_exec_spec _ _ _ _ Ex) as [Hrows Hans]. cbn [fst snd] in *.
    split; [by destruct Hrows|].
    destruct Hans as [[o ->]|[-> _]]; [destruct o; vm_compute; discriminate|].
    destruct (List.find _ _) as [t|]; [reflexivity|]. intros _. reflexivity.
  - intros p h conf st res p'. cbn. unfold onchain_UpdateConfirmations, bind, ret.
    destruct (ox_exec _ p) as [a d'] eqn:Ex. intros [= <- <-].
    destruct (ox_exec_spec _ _ _ _ Ex) as [Hrows Hans]. cbv beta in *.
    destruct (List.existsb _ (ox_rows p) && _) eqn:Eb.
    { destruct a as [n|e]; [|destruct Hrows; auto]. destruct Hans as [[o Ho]|[Ha _]]; discriminate. }
    cbn [fst snd] in *. destruct a as [n|e]; [|destruct Hrows; auto].
    destruct Hans as [[o Ho]|[[= ->] Hr]]; [discriminate|].
    destruct (Z.eqb_spec (Z.of_nat (length (filter (fun y => coll_eq (o_TxHash y) h = true) (ox_rows p)))) 0) as [Hz|Hnz]; [auto|].
    split; [done|]. destruct (filter _ (ox_rows p)) as [|y l] eqn:Ef; [done|].
    exists y. assert (Hy : y ∈ filter (fun y => coll_eq (o_TxHash y) h = true) (ox_rows p)) by (rewrite Ef; left).
    apply list_elem_of_filter in Hy. tauto.
  - intros p chain limit res p'. cbn. unfold onchain_ListPendingByChain, bind, ret.
    destruct (ox_exec _ p) as [a d'] eqn:Ex. intros [= <- <-].
    destruct (ox_exec_spec _ _ _ _ Ex) as [Hrows Hans]. cbn [fst snd] in *.
    split; [by destruct Hrows|]. destruct Hans as [[o ->]|[-> _]]; [done|]. split.
    + intros t Ht. apply elem_of_take in Ht as (i & Hi%list_elem_of_lookup_2 & _).
      rewrite (insertion_sort_perm earlier), list_elem_of_filter in Hi.
      destruct Hi as [Hc Hin]. apply andb_true_iff in Hc as [H1%bool_decide_eq_true H2%bool_decide_eq_true]. done.
    + rewrite length_take. lia.
Defined.
End SQL.

(** ** Block cursors *)

Record CursorDb : Type := mkCursors { cu_rows : gmap Z Z; cu_faults : list fault }.

Definition cu_exec {A} (stmt : gmap Z Z -> result A * gmap Z Z) : ST CursorDb (result A) := fun d =>
  let '(a, rows') := stmt (cu_rows d) in
  let rest := tail (cu_faults d) in
  match default NoFault (head (cu_faults d)) with
  | NoFault => (a, mkCursors rows' rest)
  | FailBefore o => (Err (outage_error o), mkCursors (cu_rows d) rest)
  | FailAfter o => (Err (outage_error o), mkCursors rows' rest)
  end.

Definition mysqlCursor_Get (chainID : Z) : ST CursorDb (result Z) :=
  (let! r := cu_exec (fun rows =>
     (match rows !! chainID with Some v => Ok v | None => Err (Sentinel ErrNoRows) end, rows)) in
   ret (match r with
        | Ok v => Ok v
        | Err e => if errIs e ErrNoRows then Ok 0 else Err (Wrap "cursor get" e)
        end))%easypay.

(** INSERT ... ON DUPLICATE KEY UPDATE; last_block is a signed BIGINT. *)
Definition mysqlCursor_Set (chainID block : Z) : ST CursorDb (result unit) :=
  (let! r := cu_exec (fun rows =>
     if 2 ^ 63 <=? block then (Err errTooLong, rows) else (Ok tt, <[chainID := block]> rows)) in
   ret (match r with Err e => Err (Wrap "cursor set" e) | Ok _ => Ok tt end))%easypay.

#[export] Instance mysqlCursor : CursorStore CursorDb := {|
  cursor_Get := mysqlCursor_Get; cursor_Set := mysqlCursor_Set |}.

(** A cursor that was set is read back, cursors of other chains are
    untouched, and a chain without a cursor reads 0; an error of [Set] leaves
    the cursor at its old or at its new value. *)
Theorem cursor_set_get chain block k res k' v k'' :
  0 <= block < 2 ^ 63 -> cursor_Set chain block k = (res, k') -> cursor_Get chain k' = (Ok v, k'') ->
  (forall c, c <> chain -> cu_rows k' !! c = cu_rows k !! c) /\
  match res with
  | Ok _ => v = block
  | Err _ => v = block \/ v = default 0 (cu_rows k !! chain)
  end.
Proof.
  intros Hb. cbn [cursor_Set cursor_Get mysqlCursor]. unfold mysqlCursor_Set, mysqlCursor_Get, bind, ret, cu_exec.
  destruct (Z.leb_spec (2 ^ 63) block); [lia|].
  assert (Hne : forall c, c <> chain -> <[chain := block]> (cu_rows k) !! c = cu_rows k !! c)
    by (intros c Hc; by apply lookup_insert_ne).
  destruct (default NoFault (head (cu_faults k))) as [|o|o]; intros [= <- <-]; cbn [cu_rows cu_faults].
  - rewrite lookup_insert, decide_True by done. destruct (default NoFault _) as [|o|o]; [|by destruct o..].
    intros [= <- <-]. done.
  - destruct (default NoFault _) as [|o'|o']; [|by destruct o'..].
    destruct (cu_rows k !! chain) as [w|]; cbn; intros [= <- <-]; auto.
  - rewrite lookup_insert, decide_True by done. destruct (default NoFault _) as [|o'|o']; [|by destruct o'..].
    intros [= <- <-]. auto.
Qed.

Lemma cursor_set_get_witness :
  exists v, (cursor_Get 1 (cursor_Set 1 7 (mkCursors ∅ [])).2).1 = Ok v /\ v = 7.
Proof.
  exists 7. split; [reflexivity|].
  exact (proj2 (cursor_set_get 1 7 (mkCursors ∅ []) (Ok tt) (mkCursors (<[1 := 7]> ∅) []) 7 (mkCursors (<[1 := 7]> ∅) [])
    ltac:(lia) eq_refl eq_refl)).
Defined.
