(* ===== verification/ChainListener.v ===== *)
(** * The blockchain listener (internal/provider/blockchain)

    The subscriber's log handler, the backfill scanner, the confirmation
    tracker and the reconciler.  They run on the orders [D], the on-chain rows
    [P], the cursors [K] and the rest of the world [X] (the chain, the clock,
    the publisher). *)

From S2P Require Import Prelude GoStrings Domain TransactionStore Ports ChainEvents OnchainRepo.
Local Open Scope Z_scope.

(** go-ethereum's text forms of hashes and addresses. *)
Class EthFormat : Type := {
  Hash_Hex : string -> string;
  HexToHash : string -> string;
  Address_Hex : string -> string;
}.

Record ChainConfig : Type := {
  cc_ChainID : Z;
  cc_ContractAddress : string;
  cc_RequiredConfirmations : Z;
  cc_StartBlock : Z;
  cc_EventTopic : string;
}.

Record FilterQuery : Type := {
  fq_FromBlock : Z;
  fq_ToBlock : Z;
  fq_Addresses : list string;
  fq_Topics : list (list string);
}.

(** The status of a receipt. *)
Record Receipt : Type := { rc_Status : Z }.

(** internal/provider/blockchain/client.go: ChainClient; a receipt may be nil
    without an error. *)
Class ChainClient (X : Type) : Type := {
  BlockNumber : ST X (result Z);
  FilterLogs : FilterQuery -> ST X (result (list Log));
  TransactionReceipt : string -> ST X (result (option Receipt));
}.

Definition zeroHash : string := zeros 32.

Section Listener.
Context `{EthFormat}.
Context {D P K X : Type} `{TransactionRepository D} `{OnchainTxRepository P} `{CursorStore K}
  `{ChainClient X} `{Clock X} `{EventPublisher X}.
Variable cfg : ChainConfig.

Abbreviation W := (D * (P * (K * X)))%type.
Definition on_orders {A} (m : ST D A) : ST W A := on_fst m.
Definition on_txs {A} (m : ST P A) : ST W A := on_snd (on_fst m).
Definition on_cursor {A} (m : ST K A) : ST W A := on_snd (on_snd (on_fst m)).
Definition on_chain {A} (m : ST X A) : ST W A := on_snd (on_snd (on_snd m)).

(** The row both writers create for an event. *)
Definition pendingTx (hash : string) (lg : Log) (parsed : ParsedPaymentEvent) (merchantID : string)
    : OnchainTransaction := {|
  o_ID := 0; o_TxHash := hash; o_BlockNumber := lg_BlockNumber lg; o_MerchantID := merchantID;
  o_OrderID := pe_OrderID parsed; o_Payer := Address_Hex (pe_Payer parsed); o_Token := Address_Hex (pe_Token parsed);
  o_Amount := Some (pe_Amount parsed); o_ChainID := cc_ChainID cfg; o_Confirmations := 0;
  o_RequiredConfirm := cc_RequiredConfirmations cfg; o_Status := OnchainTxStatusPending;
  o_CreatedAt := zero_time |}.

(** ** subscriber.go *)

Definition handleLog (lg : Log) : ST W (result unit) :=
  let hash := Hash_Hex (lg_TxHash lg) in
  (let! existing := on_txs (tx_GetByTxHash hash) in
   match existing with
   | Ok _ => ret (Ok tt)
   | Err e =>
       if negb (errIs e ErrOnchainTxNotFound) then ret (Err (Wrap "dedup lookup" e))
       else
         match ParsePaymentEvent lg with
         | Err e => ret (Err (Wrap "parse event" e))
         | Ok parsed =>
             let! order := on_orders (repo_GetByOrderIDAny (pe_OrderID parsed)) in
             match order with
             | Err e => ret (if errIs e ErrNotFound then Ok tt else Err (Wrap "resolve merchant" e))
             | Ok order =>
                 let! created := on_txs (tx_Create (pendingTx hash lg parsed (t_MerchantID order))) in
                 match created with
                 | Err e => ret (Err (Wrap "persist pending_tx" e))
                 | Ok _ =>
                     let! _c := on_cursor (cursor_Set (cc_ChainID cfg) (lg_BlockNumber lg)) in
                     ret (Ok tt)
                 end
             end
         end
   end)%easypay.

(** [d *= 2; if d > max { return max }; return d] on int64 nanoseconds. *)
Definition doubleCapped (d max : Z) : Z :=
  let d := i64 (d * 2) in
  if max <? d then max else d.

(** ** backfill.go *)

Definition persist (lg : Log) : ST W unit :=
  let hash := Hash_Hex (lg_TxHash lg) in
  (let! existing := on_txs (tx_GetByTxHash hash) in
   match existing with
   | Ok _ => ret tt
   | Err _ =>
       match ParsePaymentEvent lg with
       | Err _ => ret tt
       | Ok parsed =>
           let! order := on_orders (repo_GetByOrderIDAny (pe_OrderID parsed)) in
           match order with
           | Err _ => ret tt
           | Ok order =>
               let! _c := on_txs (tx_Create (pendingTx hash lg parsed (t_MerchantID order))) in
               ret tt
           end
       end
   end)%easypay.

Fixpoint persistAll (logs : list Log) : ST W unit :=
  match logs with
  | [] => ret tt
  | lg :: rest => (let! _u := persist lg in persistAll rest)%easypay
  end.

Definition backfillQuery (from to : Z) : FilterQuery := {|
  fq_FromBlock := from; fq_ToBlock := to; fq_Addresses := [cc_ContractAddress cfg];
  fq_Topics := if bool_decide (cc_EventTopic cfg = zeroHash) then [] else [[cc_EventTopic cfg]] |}.

Definition next_to (batch from head : Z) : Z :=
  let to := u64 (from + batch) in
  if head <? to then head else to.

(** The first [rounds] rounds of the loop [for from < head]; [None]: it has not
    returned by then. *)
Fixpoint backfillLoop (rounds : nat) (batch from head : Z) : ST W (option (result unit)) :=
  match rounds with
  | O => ret None
  | S rounds =>
      if head <=? from then ret (Some (Ok tt))
      else
        let to := next_to batch from head in
        (let! logs := on_chain (FilterLogs (backfillQuery from to)) in
         match logs with
         | Err e => ret (Some (Err (Wrap "filter logs" e)))
         | Ok logs =>
             let! _u := persistAll logs in
             let! _c := on_cursor (cursor_Set (cc_ChainID cfg) to) in
             backfillLoop rounds batch to head
         end)%easypay
  end.

Definition backfill_tick (rounds : nat) (batch : Z) : ST W (option (result unit)) :=
  (let! cur := on_cursor (cursor_Get (cc_ChainID cfg)) in
   match cur with
   | Err e => ret (Some (Err (Wrap "cursor get" e)))
   | Ok cur =>
       let from := if cur =? 0 then cc_StartBlock cfg else cur in
       let! head := on_chain BlockNumber in
       match head with
       | Err e => ret (Some (Err (Wrap "block number" e)))
       | Ok head =>
           if head <=? from then ret (Some (Ok tt))
           else backfillLoop rounds batch from head
       end
   end)%easypay.

(** ** confirmation.go *)

(** [p.Amount == nil || p.Amount.Int64() != order.Amount] *)
Definition amountMismatch (p : OnchainTransaction) (order : Transaction) : bool :=
  match o_Amount p with
  | None => true
  | Some a => negb (i64 a =? t_Amount order)
  end.

(** From the order lookup on: the transaction is deep enough. *)
Definition settle (p : OnchainTransaction) (confirmations : Z) : ST W unit :=
  (let! order := on_orders (repo_GetByOrderIDAny (o_OrderID p)) in
   match order with
   | Err _ => ret tt
   | Ok order =>
       if bool_decide (t_Status order = TransactionStatusPaid) || bool_decide (t_Status order = TransactionStatusRefunded)
       then let! _u := on_txs (tx_UpdateConfirmations (o_TxHash p) confirmations OnchainTxStatusConfirmed) in ret tt
       else if amountMismatch p order
       then let! _u := on_txs (tx_UpdateConfirmations (o_TxHash p) confirmations OnchainTxStatusFailed) in ret tt
       else
         let! marked := on_txs (tx_UpdateConfirmations (o_TxHash p) confirmations OnchainTxStatusConfirmed) in
         match marked with
         | Err _ => ret tt
         | Ok _ =>
             let! paid := on_orders (repo_UpdateStatus (t_ShardIndex order) (t_MerchantID order) (t_OrderID order)
                                       TransactionStatusPaid "") in
             match paid with
             | Err _ => ret tt
             | Ok _ =>
                 let! now := on_chain time_Now in
                 let! _p := on_chain (PublishPaymentConfirmed {|
                   pc_OrderID := t_OrderID order; pc_MerchantID := t_MerchantID order;
                   pc_Status := TransactionStatusPaid; pc_StripePaymentIntentID := "";
                   pc_Amount := t_Amount order; pc_Currency := t_Currency order;
                   pc_ConfirmedAt := Unix now |}) in
                 ret tt
             end
         end
   end)%easypay.

Definition processOne (p : OnchainTransaction) (latest : Z) : ST W unit :=
  (let! receipt := on_chain (TransactionReceipt (HexToHash (o_TxHash p))) in
   match receipt with
   | Err _ | Ok None =>
       let! _u := on_txs (tx_UpdateConfirmations (o_TxHash p) 0 OnchainTxStatusReorged) in ret tt
   | Ok (Some receipt) =>
       if negb (rc_Status receipt =? 1)
       then let! _u := on_txs (tx_UpdateConfirmations (o_TxHash p) 0 OnchainTxStatusFailed) in ret tt
       else if latest <? o_BlockNumber p then ret tt
       else
         let confirmations := u64 (latest - o_BlockNumber p) in
         if confirmations <? o_RequiredConfirm p
         then let! _u := on_txs (tx_UpdateConfirmations (o_TxHash p) confirmations OnchainTxStatusPending) in ret tt
         else settle p confirmations
   end)%easypay.

Fixpoint processAll (ps : list OnchainTransaction) (latest : Z) : ST W unit :=
  match ps with
  | [] => ret tt
  | p :: rest => (let! _u := processOne p latest in processAll rest latest)%easypay
  end.

Definition confirmation_tick (batchLimit : Z) : ST W (result unit) :=
  (let! latest := on_chain BlockNumber in
   match latest with
   | Err e => ret (Err (Wrap "block number" e))
   | Ok latest =>
       let! pendings := on_txs (tx_ListPendingByChain (cc_ChainID cfg) batchLimit) in
       match pendings with
       | Err e => ret (Err (Wrap "list pending" e))
       | Ok ps => let! _u := processAll ps latest in ret (Ok tt)
       end
   end)%easypay.

(** ** reconciliation.go *)

(** One transaction of the pass (the alert is a log line). *)
Definition recheckOne (p : OnchainTransaction) : ST W unit :=
  (let! receipt := on_chain (TransactionReceipt (HexToHash (o_TxHash p))) in
   match receipt with
   | Err _ | Ok None =>
       let! _u := on_txs (tx_UpdateConfirmations (o_TxHash p) (o_Confirmations p) OnchainTxStatusReorged) in ret tt
   | Ok (Some receipt) =>
       if negb (rc_Status receipt =? 1)
       then let! _u := on_txs (tx_UpdateConfirmations (o_TxHash p) (o_Confirmations p) OnchainTxStatusFailed) in ret tt
       else ret tt
   end)%easypay.

Fixpoint recheckAll (ps : list OnchainTransaction) : ST W unit :=
  match ps with
  | [] => ret tt
  | p :: rest => (let! _u := recheckOne p in recheckAll rest)%easypay
  end.

Definition reconciler_tick (batchSize : Z) : ST W (result unit) :=
  (let! pendings := on_txs (tx_ListPendingByChain (cc_ChainID cfg) batchSize) in
   match pendings with
   | Err e => ret (Err e)
   | Ok ps =>
       let! _now := on_chain time_Now in
       let! _u := recheckAll ps in
       ret (Ok tt)
   end)%easypay.
End Listener.
