(* ===== verification/ChainTheorems.v ===== *)
(** * The blockchain listener: what it guarantees

    Cursors move after the row they stand for is durable, one row per
    transaction hash, the backfill scans every block up to the head and stops,
    an order is only marked paid by a deep enough successful transaction of its
    amount; and what taking a transaction off the pending list costs. *)

From S2P Require Import Prelude GoStrings Domain TransactionStore Ports ChainEvents OnchainRepo ChainListener.
Local Open Scope Z_scope.

(** ** Reconnect backoff *)

(** The subscriber's reconnect delay doubles from its minimum and is
    capped: after [n] failures in a row it is min * 2^n, at most the maximum,
    with no int64 overflow as long as the maximum is below 2^62 ns. *)
Theorem backoff_closed_form lo hi n :
  0 < lo <= hi -> hi < 2 ^ 62 ->
  Nat.iter n (fun d => doubleCapped d hi) lo = Z.min hi (lo * 2 ^ Z.of_nat n).
Proof.
  intros Hlo Hhi. induction n as [|n IH].
  { change (2 ^ Z.of_nat 0) with 1. cbn. lia. }
  rewrite Nat.iter_succ, IH.
  rewrite Nat2Z.inj_succ, Z.pow_succ_r by lia.
  assert (0 < 2 ^ Z.of_nat n) by (apply Z.pow_pos_nonneg; lia).
  assert (0 < lo * 2 ^ Z.of_nat n) by nia.
  unfold doubleCapped. rewrite i64_small by (unfold int64_range; lia).
  destruct (Z.ltb_spec hi (Z.min hi (lo * 2 ^ Z.of_nat n) * 2)); lia.
Qed.

Lemma backoff_closed_form_witness : Nat.iter 3 (fun d => doubleCapped d (30 * second)) second = 8 * second.
Proof. rewrite (backoff_closed_form second (30 * second) 3); [reflexivity|unfold second; lia|unfold second; lia]. Defined.

Section Theorems.
Context `{EthFormat}.
Context {D P K X : Type} `{HS : TransactionStore D} `{HO : OnchainStore P} `{CursorStore K}
  `{ChainClient X} `{Clock X} `{EventPublisher X}.
Variable cfg : ChainConfig.

Definition orders_kept (d d' : D) : Prop := forall sh, content d' sh = content d sh.

Lemma orders_kept_trans d1 d2 d3 : orders_kept d1 d2 -> orders_kept d2 d3 -> orders_kept d1 d3.
Proof. intros H12 H23 sh. by rewrite H23, H12. Qed.

(** One row was appended for an event whose hash was not there. *)
Definition appended (hash : string) (lg : Log) (p p' : P) : Prop :=
  exists parsed mid row, ParsePaymentEvent lg = Ok parsed /\ txs p' = txs p ++ [row] /\
    same_tx row (pendingTx cfg hash lg parsed mid) /\ o_Status row = OnchainTxStatusPending /\
    forall y, y ∈ txs p -> hash_eq (o_TxHash y) hash = false.

(** ** The two writers *)

Lemma handleLog_run lg (d : D) (p : P) (k : K) (x : X) res d' p' k' x' :
  store_inv d -> handleLog cfg lg (d, (p, (k, x))) = (res, (d', (p', (k', x')))) ->
  store_inv d' /\ orders_kept d d' /\ x' = x /\
  (txs p' = txs p \/ appended (Hash_Hex (lg_TxHash lg)) lg p p') /\
  (k' = k \/ appended (Hash_Hex (lg_TxHash lg)) lg p p' /\
     exists c, cursor_Set (cc_ChainID cfg) (lg_BlockNumber lg) k = (c, k')).
Proof.
  intros Hd. unfold handleLog, bind at 1. unfold on_txs at 1, on_snd at 1, on_fst at 1. cbn [fst snd].
  destruct (tx_GetByTxHash _ p) as [[t|e] p1] eqn:Eg; destruct (get_law _ _ _ _ Eg) as [Hp1 _].
  { unfold ret. intros [= <- <- <- <- <-]. split_and!; try done; auto. }
  destruct (errIs e ErrOnchainTxNotFound); cbn [negb].
  2: { unfold ret. intros [= <- <- <- <- <-]. split_and!; try done; auto. }
  destruct (ParsePaymentEvent lg) as [parsed|e2] eqn:Ep.
  2: { unfold ret. intros [= <- <- <- <- <-]. split_and!; try done; auto. }
  unfold bind at 1, on_orders at 1, on_fst at 1. cbn [fst snd].
  destruct (repo_GetByOrderIDAny _ d) as [[order|e3] d1] eqn:Eo; destruct (get_any_law _ _ _ _ Hd Eo) as (Hd1 & Hc & _).
  2: { unfold ret. intros [= <- <- <- <- <-]. split_and!; try done; auto. }
  unfold bind at 1, on_txs at 1, on_snd at 1, on_fst at 1. cbn [fst snd].
  destruct (tx_Create _ p1) as [created p2] eqn:Ec. pose proof (create_law _ _ _ _ Ec) as Hcr. cbn zeta in Hcr.
  rewrite Hp1 in Hcr.
  assert (Happ : forall (A : (exists row, txs p2 = txs p ++ [row] /\ same_tx row (pendingTx cfg (Hash_Hex (lg_TxHash lg)) lg parsed (t_MerchantID order)) /\
      o_Status row = OnchainTxStatusPending) /\ forall y, y ∈ txs p -> hash_eq (o_TxHash y) (Hash_Hex (lg_TxHash lg)) = false),
    appended (Hash_Hex (lg_TxHash lg)) lg p p2).
  { intros [(row & ? & ? & ?) ?]. exists parsed, (t_MerchantID order), row. done. }
  destruct created as [u|e4].
  - unfold bind at 1, on_cursor at 1, on_snd at 1 2, on_fst at 1. cbn [fst snd].
    destruct (cursor_Set _ _ k) as [c k1] eqn:Ek. unfold ret. intros [= <- <- <- <- <-].
    split_and!; try done; [right; by apply Happ|]. right. split; [by apply Happ|eauto].
  - unfold ret. intros [= <- <- <- <- <-]. split_and!; try done; [|auto]. destruct Hcr as [?|Hcr]; [auto|].
    right. by apply Happ.
Qed.

(** At-least-once delivery of the subscriber: handling a log never
    touches the orders; it stores at most one row, for an event that parses
    and a transaction hash not stored before; and the block cursor moves
    only in a call that stored that row, to the block of the log. *)
Theorem handleLog_cursor_after_row lg (d : D) (p : P) (k : K) (x : X) res d' p' k' x' :
  store_inv d -> handleLog cfg lg (d, (p, (k, x))) = (res, (d', (p', (k', x')))) ->
  orders_kept d d' /\
  (txs p' = txs p \/ appended (Hash_Hex (lg_TxHash lg)) lg p p') /\
  (k' = k \/ appended (Hash_Hex (lg_TxHash lg)) lg p p' /\
     exists c, cursor_Set (cc_ChainID cfg) (lg_BlockNumber lg) k = (c, k')).
Proof. intros Hd Hh. destruct (handleLog_run _ _ _ _ _ _ _ _ _ _ Hd Hh) as (_ & ? & _ & ? & ?). done. Qed.

Lemma persist_run lg (d : D) (p : P) (k : K) (x : X) u d' p' k' x' :
  store_inv d -> persist cfg lg (d, (p, (k, x))) = (u, (d', (p', (k', x')))) ->
  store_inv d' /\ orders_kept d d' /\ x' = x /\ k' = k /\
  (txs p' = txs p \/ appended (Hash_Hex (lg_TxHash lg)) lg p p').
Proof.
  intros Hd. unfold persist, bind at 1. unfold on_txs at 1, on_snd at 1, on_fst at 1. cbn [fst snd].
  destruct (tx_GetByTxHash _ p) as [[t|e] p1] eqn:Eg; destruct (get_law _ _ _ _ Eg) as [Hp1 _].
  { unfold ret. intros [= <- <- <- <- <-]. split_and!; try done; auto. }
  destruct (ParsePaymentEvent lg) as [parsed|e2] eqn:Ep.
  2: { unfold ret. intros [= <- <- <- <- <-]. split_and!; try done; auto. }
  unfold bind at 1, on_orders at 1, on_fst at 1. cbn [fst snd].
  destruct (repo_GetByOrderIDAny _ d) as [[order|e3] d1] eqn:Eo; destruct (get_any_law _ _ _ _ Hd Eo) as (Hd1 & Hc & _).
  2: { unfold ret. intros [= <- <- <- <- <-]. split_and!; try done; auto. }
  unfold bind at 1, on_txs at 1, on_snd at 1, on_fst at 1. cbn [fst snd].
  destruct (tx_Create _ p1) as [created p2] eqn:Ec. pose proof (create_law _ _ _ _ Ec) as Hcr. cbn zeta in Hcr.
  rewrite Hp1 in Hcr. unfold ret. intros [= <- <- <- <- <-]. split_and!; try done.
  destruct created as [u|e4]; [|destruct Hcr as [?|Hcr]; [auto|]]; right; destruct Hcr as [(row & ? & ? & ?) ?];
    exists parsed, (t_MerchantID order), row; done.
Qed.

(** Rows are only appended, each for a hash that was not there. *)
Inductive grows : P -> P -> Prop :=
  | grows_same p p' : txs p' = txs p -> grows p p'
  | grows_step hash lg p p1 p' : appended hash lg p p1 -> grows p1 p' -> grows p p'.

Lemma grows_trans p1 p2 p3 : grows p1 p2 -> grows p2 p3 -> grows p1 p3.
Proof.
  intros H12 H23. revert H23. induction H12 as [p p' Heq|hash lg p pa p' Ha _ IH]; intros H23.
  - destruct H23 as [q q' Hq|hash lg q q1 q' Ha Hg].
    + apply grows_same. congruence.
    + eapply grows_step; [|exact Hg]. unfold appended in *. by rewrite <- Heq.
  - eapply grows_step; [exact Ha|]. by apply IH.
Qed.

Lemma persistAll_run logs (d : D) (p : P) (k : K) (x : X) u d' p' k' x' :
  store_inv d -> persistAll cfg logs (d, (p, (k, x))) = (u, (d', (p', (k', x')))) ->
  store_inv d' /\ orders_kept d d' /\ x' = x /\ k' = k /\ grows p p'.
Proof.
  revert d p k x. induction logs as [|lg logs IH]; intros d p k x Hd; cbn [persistAll].
  { unfold ret. intros [= <- <- <- <- <-]. split_and!; try done. by apply grows_same. }
  unfold bind. destruct (persist cfg lg (d, (p, (k, x)))) as [w [d1 [p1 [k1 x1]]]] eqn:Ep.
  destruct (persist_run _ _ _ _ _ _ _ _ _ _ Hd Ep) as (Hd1 & Hk1 & -> & -> & Hp1).
  intros (Hd' & Hk' & -> & -> & Hg)%IH; [|done]. split_and!; try done.
  - by eapply orders_kept_trans.
  - destruct Hp1 as [Heq|Ha]; [|by eapply grows_step]. eapply grows_trans; [by apply grows_same|exact Hg].
Qed.

(** ** The backfill loop *)

(** The ranges it asked for, in order; each was answered, its logs went
    through [persist], and the cursor was set to its end. *)
Inductive scanned : list (Z * Z) -> D * (P * (K * X)) -> D * (P * (K * X)) -> Prop :=
  | scanned_nil w : scanned [] w w
  | scanned_cons lo hi rs d p k x logs x1 u d2 p2 c k2 w' :
      FilterLogs (backfillQuery cfg lo hi) x = (Ok logs, x1) ->
      persistAll cfg logs (d, (p, (k, x1))) = (u, (d2, (p2, (k, x1)))) ->
      cursor_Set (cc_ChainID cfg) hi k = (c, k2) ->
      scanned rs (d2, (p2, (k2, x1))) w' ->
      scanned ((lo, hi) :: rs) (d, (p, (k, x))) w'.

(** Consecutive ranges, each starting where the previous one ended. *)
Fixpoint chained (from head : Z) (rs : list (Z * Z)) : Prop :=
  match rs with
  | [] => head <= from
  | (lo, hi) :: rest => lo = from /\ from < hi <= head /\ chained hi head rest
  end.

Lemma chained_covers from head rs b :
  chained from head rs -> from <= b <= head -> from < head ->
  exists lo hi, (lo, hi) ∈ rs /\ lo <= b <= hi.
Proof.
  revert from. induction rs as [|[lo hi] rs IH]; intros from Hc Hb Hlt; cbn in Hc; [lia|].
  destruct Hc as (-> & Hhi & Hc). destruct (decide (b <= hi)).
  - exists from, hi. split; [left|lia].
  - destruct (IH hi Hc ltac:(lia) ltac:(lia)) as (lo & hi' & Hin & ?). exists lo, hi'. split; [by right|done].
Qed.

Lemma next_to_range batch from head :
  0 <= from < head -> 1 <= batch -> head + batch < 2 ^ 64 -> from < next_to batch from head <= head.
Proof.
  intros Hf Hb Hh. unfold next_to. rewrite u64_small by (unfold uint64_range; lia).
  destruct (Z.ltb_spec head (from + batch)); lia.
Qed.

(** Beyond that the sum wraps around: the next range ends before it begins, and
    the loop goes back. *)
Lemma next_to_wraps from head : 1 <= from <= head -> head < 2 ^ 64 -> next_to (2 ^ 64 - 1) from head = from - 1.
Proof.
  intros Hf Hh. unfold next_to, u64. replace (from + (2 ^ 64 - 1)) with (from - 1 + 1 * 2 ^ 64) by lia.
  rewrite Z.mod_add, Z.mod_small by lia. by destruct (Z.ltb_spec head (from - 1)); [lia|].
Qed.

Lemma backfillLoop_run rounds batch from head (d : D) (p : P) (k : K) (x : X) res d' p' k' x' :
  store_inv d -> 0 <= from -> 1 <= batch -> head + batch < 2 ^ 64 -> (Z.to_nat (head - from) < rounds)%nat ->
  backfillLoop cfg rounds batch from head (d, (p, (k, x))) = (res, (d', (p', (k', x')))) ->
  store_inv d' /\ orders_kept d d' /\ grows p p' /\
  match res with
  | None => False
  | Some (Ok _) => exists rs, chained from head rs /\ scanned rs (d, (p, (k, x))) (d', (p', (k', x')))
  | Some (Err e) => exists lo hi y y' e', FilterLogs (backfillQuery cfg lo hi) y = (Err e', y') /\ e = Wrap "filter logs" e'
  end.
Proof.
  revert from d p k x. induction rounds as [|rounds IH]; intros from d p k x Hd Hfrom Hb Hh Hfuel; [lia|].
  cbn [backfillLoop]. destruct (Z.leb_spec head from) as [Hle|Hlt].
  { unfold ret. intros [= <- <- <- <- <-]. split_and!; try done; [by apply grows_same|].
    exists []. split; [done|constructor]. }
  pose proof (next_to_range batch from head ltac:(lia) Hb Hh) as Hto. set (to := next_to batch from head) in *.
  unfold bind at 1, on_chain at 1, on_snd at 1 2 3. cbn [fst snd].
  destruct (FilterLogs _ x) as [[logs|e] x1] eqn:Ef.
  2: { unfold ret. intros [= <- <- <- <- <-]. split_and!; try done; [by apply grows_same|]. eauto 8. }
  unfold bind at 1. destruct (persistAll cfg logs (d, (p, (k, x1)))) as [u [d1 [p1 [k1 x2]]]] eqn:Ep.
  destruct (persistAll_run _ _ _ _ _ _ _ _ _ _ Hd Ep) as (Hd1 & Hk1 & -> & -> & Hg1).
  unfold bind at 1, on_cursor at 1, on_snd at 1 2, on_fst at 1. cbn [fst snd].
  destruct (cursor_Set _ to k) as [c k2] eqn:Ec. intros Hrun.
  destruct (IH to d1 p1 k2 x1 Hd1 ltac:(lia) Hb Hh ltac:(lia) Hrun) as (Hd' & Hk' & Hg' & Hres).
  split; [done|]. split; [by eapply orders_kept_trans|]. split; [by eapply grows_trans|].
  destruct res as [[[]|e]|]; [|done|done]. destruct Hres as (rs & Hch & Hsc). exists ((from, to) :: rs).
  split; [cbn; split; [done|split; [lia|done]]|]. by eapply scanned_cons.
Qed.


(** ** The confirmation tracker *)

Definition txs_status (p p' : P) (h : string) (conf : Z) (st : string) : Prop :=
  txs p' = (fun y => if hash_eq (o_TxHash y) h then with_conf conf st y else y) <$> txs p.

(** What one step of the tracker may do to the orders. *)
Definition paid_by (tx : OnchainTransaction) (latest : Z) (x : X) (d d' : D) : Prop :=
  exists receipt x1 order a d1 u d2,
    TransactionReceipt (HexToHash (o_TxHash tx)) x = (Ok (Some receipt), x1) /\ rc_Status receipt = 1 /\
    o_BlockNumber tx <= latest /\ o_RequiredConfirm tx <= u64 (latest - o_BlockNumber tx) /\
    order ∈ content d (t_ShardIndex order) /\ key_eq (t_OrderID order) (o_OrderID tx) = true /\
    t_Status order <> TransactionStatusPaid /\ t_Status order <> TransactionStatusRefunded /\
    o_Amount tx = Some a /\ i64 a = t_Amount order /\
    store_inv d1 /\ orders_kept d d1 /\
    repo_UpdateStatus (t_ShardIndex order) (t_MerchantID order) (t_OrderID order) TransactionStatusPaid "" d1 = (u, d2) /\
    orders_kept d2 d'.

Lemma settle_run tx conf (d : D) (p : P) (k : K) (x : X) u d' p' k' x' :
  store_inv d -> settle tx conf (d, (p, (k, x))) = (u, (d', (p', (k', x')))) ->
  store_inv d' /\
  (orders_kept d d' \/
   exists order a d1 w d2, order ∈ content d (t_ShardIndex order) /\ key_eq (t_OrderID order) (o_OrderID tx) = true /\
     t_Status order <> TransactionStatusPaid /\ t_Status order <> TransactionStatusRefunded /\
     o_Amount tx = Some a /\ i64 a = t_Amount order /\ store_inv d1 /\ orders_kept d d1 /\
     repo_UpdateStatus (t_ShardIndex order) (t_MerchantID order) (t_OrderID order) TransactionStatusPaid "" d1 = (w, d2) /\
     orders_kept d2 d').
Proof.
  intros Hd. unfold settle, bind at 1, on_orders at 1, on_fst at 1. cbn [fst snd].
  destruct (repo_GetByOrderIDAny _ d) as [[order|e] d1] eqn:Eo; destruct (get_any_law _ _ _ _ Hd Eo) as (Hd1 & Hc & Ho).
  2: { unfold ret. intros [= <- <- <- <- <-]. split; [done|by left]. }
  destruct (bool_decide_reflect (t_Status order = TransactionStatusPaid)) as [|Hn1]; cbn [orb].
  { unfold bind, on_txs, on_snd, on_fst, ret. cbn [fst snd]. destruct (tx_UpdateConfirmations _ _ _ p) as [w p1]. cbn.
    intros [= <- <- <- <- <-]. split; [done|by left]. }
  destruct (bool_decide_reflect (t_Status order = TransactionStatusRefunded)) as [|Hn2].
  { unfold bind, on_txs, on_snd, on_fst, ret. cbn [fst snd]. destruct (tx_UpdateConfirmations _ _ _ p) as [w p1]. cbn.
    intros [= <- <- <- <- <-]. split; [done|by left]. }
  unfold amountMismatch. destruct (o_Amount tx) as [a|] eqn:Ea.
  2: { unfold bind, on_txs, on_snd, on_fst, ret. cbn [fst snd]. destruct (tx_UpdateConfirmations _ _ _ p) as [w p1]. cbn.
       intros [= <- <- <- <- <-]. split; [done|by left]. }
  destruct (Z.eqb_spec (i64 a) (t_Amount order)) as [Ham|]; cbn [negb].
  2: { unfold bind, on_txs, on_snd, on_fst, ret. cbn [fst snd]. destruct (tx_UpdateConfirmations _ _ _ p) as [w p1]. cbn.
       intros [= <- <- <- <- <-]. split; [done|by left]. }
  unfold bind at 1, on_txs at 1, on_snd at 1, on_fst at 1. cbn [fst snd].
  destruct (tx_UpdateConfirmations _ _ _ p) as [[m|e] p1].
  2: { unfold ret. intros [= <- <- <- <- <-]. split; [done|by left]. }
  unfold bind at 1, on_orders at 1, on_fst at 1. cbn [fst snd].
  destruct (repo_UpdateStatus _ _ _ _ _ d1) as [w d2] eqn:Eu.
  destruct (update_status_law _ _ _ _ _ _ _ _ Hd1 Eu) as [Hd2 _]. destruct Ho as [Hin Hkey].
  assert (Hend : forall d3, orders_kept d2 d3 ->
    exists order a d1 w d2, order ∈ content d (t_ShardIndex order) /\ key_eq (t_OrderID order) (o_OrderID tx) = true /\
     t_Status order <> TransactionStatusPaid /\ t_Status order <> TransactionStatusRefunded /\
     Some a = Some a /\ i64 a = t_Amount order /\ store_inv d1 /\ orders_kept d d1 /\
     repo_UpdateStatus (t_ShardIndex order) (t_MerchantID order) (t_OrderID order) TransactionStatusPaid "" d1 = (w, d2) /\
     orders_kept d2 d3) by (intros d3 Hd3; exists order, a, d1, w, d2; done).
  destruct w as [v|e].
  2: { unfold ret. intros [= <- <- <- <- <-]. split; [done|]. right.
       exists order, a, d1, (Err e), d2. done. }
  unfold bind at 1, on_chain at 1, on_snd at 1 2 3. cbn [fst snd]. destruct (time_Now x) as [now x1].
  unfold bind at 1, on_chain at 1, on_snd at 1 2 3. cbn [fst snd]. destruct (PublishPaymentConfirmed _ x1) as [pp x2].
  unfold ret. intros [= <- <- <- <- <-]. split; [done|]. right. exists order, a, d1, (Ok v), d2. done.
Qed.

(** C29. The tracker marks an order paid only for a reason: the chain knows
    a receipt of this transaction with status 1, the transaction has at least
    the required confirmations, the order carries the event's order id and is
    neither paid nor refunded, and the low 64 bits of the on-chain amount are
    the order's amount.  The only change it can make to the orders is that
    one status update. *)
Theorem processOne_sound tx latest (d : D) (p : P) (k : K) (x : X) u d' p' k' x' :
  store_inv d -> processOne tx latest (d, (p, (k, x))) = (u, (d', (p', (k', x')))) ->
  orders_kept d d' \/ paid_by tx latest x d d'.
Proof.
  intros Hd. unfold processOne, bind at 1, on_chain at 1, on_snd at 1 2 3. cbn [fst snd].
  assert (Hmark : forall conf st (x0 : X),
    (let! _u := on_txs (tx_UpdateConfirmations (o_TxHash tx) conf st) in ret tt)%easypay (d, (p, (k, x0))) =
      (u, (d', (p', (k', x')))) -> d' = d).
  { intros conf st x0. unfold bind, on_txs, on_snd, on_fst, ret. cbn [fst snd].
    destruct (tx_UpdateConfirmations _ conf st p) as [w p1]. cbn. by intros [= <- <- <- <- <-]. }
  destruct (TransactionReceipt _ x) as [[[receipt|]|e] x1] eqn:Er.
  2, 3: intros ->%Hmark; left; done.
  destruct (Z.eqb_spec (rc_Status receipt) 1) as [Hst|]; cbn [negb].
  2: { intros ->%Hmark. by left. }
  destruct (Z.ltb_spec latest (o_BlockNumber tx)) as [|Hblk].
  { unfold ret. intros [= <- <- <- <- <-]. by left. }
  destruct (Z.ltb_spec (u64 (latest - o_BlockNumber tx)) (o_RequiredConfirm tx)) as [|Hconf].
  { intros ->%Hmark. by left. }
  intros [_ [?|(order & a & d1 & w & d2 & ? & ? & ? & ? & ? & ? & ? & ? & ? & ?)]]%settle_run; [by left| |done].
  right. exists receipt, x1, order, a, d1, w, d2. done.
Qed.

(** ** Leaving the pending list *)

Lemma not_pending_not_listed p h conf st p' chain limit l p'' t :
  txs_status p p' h conf st -> st <> OnchainTxStatusPending ->
  tx_ListPendingByChain chain limit p' = (Ok l, p'') -> t ∈ l -> hash_eq (o_TxHash t) h = false.
Proof.
  intros Hs Hne Hl Ht. destruct (list_law _ _ _ _ _ Hl) as [_ [Hin _]].
  destruct (Hin t Ht) as (Htx & _ & Hst). rewrite Hs in Htx.
  apply list_elem_of_fmap in Htx as (y & -> & Hy). destruct (hash_eq (o_TxHash y) h) eqn:Eh; [|done].
  cbn in Hst. congruence.
Qed.

(** A transaction whose receipt could not be fetched, be it for a
    passing RPC error, is taken off the pending list: once the tracker has
    written the mark, no later listing returns it, so neither the tracker
    nor the reconciler looks at it again. *)
Theorem rpc_error_drops_payment tx latest (d : D) (p : P) (k : K) (x : X) e x1 w p1 u d' p' k' x' chain limit l p'' t :
  TransactionReceipt (HexToHash (o_TxHash tx)) x = (Err e, x1) ->
  tx_UpdateConfirmations (o_TxHash tx) 0 OnchainTxStatusReorged p = (Ok w, p1) ->
  processOne tx latest (d, (p, (k, x))) = (u, (d', (p', (k', x')))) ->
  tx_ListPendingByChain chain limit p' = (Ok l, p'') -> t ∈ l ->
  hash_eq (o_TxHash t) (o_TxHash tx) = false.
Proof.
  intros Hr Eu. unfold processOne, bind at 1, on_chain at 1, on_snd at 1 2 3. cbn [fst snd]. rewrite Hr.
  unfold bind, on_txs, on_snd, on_fst, ret. cbn [fst snd].
  rewrite Eu. cbn. intros [= <- <- <- <- <-].
  destruct (update_law _ _ _ _ _ _ Eu) as [Hch _]. by apply (not_pending_not_listed p (o_TxHash tx) 0 OnchainTxStatusReorged).
Qed.

(** The tracker marks a transaction confirmed before it marks the order
    paid: if the second write fails, the transaction is no longer listed and
    nothing of the listener will mark the order paid. *)
Theorem confirmed_before_paid tx conf (d : D) (p : P) (k : K) (x : X) order d1 p1 m e d2 u d' p' k' x' chain limit l p'' t :
  store_inv d ->
  repo_GetByOrderIDAny (o_OrderID tx) d = (Ok order, d1) ->
  t_Status order = TransactionStatusCreated -> amountMismatch tx order = false ->
  tx_UpdateConfirmations (o_TxHash tx) conf OnchainTxStatusConfirmed p = (Ok m, p1) ->
  repo_UpdateStatus (t_ShardIndex order) (t_MerchantID order) (t_OrderID order) TransactionStatusPaid "" d1 = (Err e, d2) ->
  settle tx conf (d, (p, (k, x))) = (u, (d', (p', (k', x')))) ->
  d' = d2 /\ x' = x /\
  (tx_ListPendingByChain chain limit p' = (Ok l, p'') -> t ∈ l -> hash_eq (o_TxHash t) (o_TxHash tx) = false).
Proof.
  intros Hd Ho Hst Ham Hm Hu. unfold settle, bind at 1, on_orders at 1, on_fst at 1. cbn [fst snd]. rewrite Ho.
  rewrite bool_decide_false by (rewrite Hst; discriminate). rewrite bool_decide_false by (rewrite Hst; discriminate).
  cbn [orb]. rewrite Ham. unfold bind at 1, on_txs at 1, on_snd at 1, on_fst at 1. cbn [fst snd]. rewrite Hm.
  unfold bind at 1, on_orders at 1, on_fst at 1. cbn [fst snd]. rewrite Hu.
  unfold ret. intros [= <- <- <- <- <-]. split; [done|]. split; [done|].
  destruct (update_law _ _ _ _ _ _ Hm) as [Hch _]. by apply (not_pending_not_listed p (o_TxHash tx) conf OnchainTxStatusConfirmed).
Qed.
End Theorems.
