(* ===== verification/Merchants.v ===== *)
(** * Merchants (internal/repository/merchant_repo.go, internal/service/merchant_service.go)

    The merchants table on the control-plane pool, the in-memory cache in front
    of it, the choice of a shard for a new merchant, and the admin service that
    creates merchants.  Go iterates over a map in an unspecified order: the
    state carries the order the next eviction will see. *)

From S2P Require Import Prelude GoStrings Domain TransactionRepo Ports.
Local Open Scope Z_scope.

(** ** lruCache *)

Record cacheEntry : Type := { ce_value : Merchant; ce_expiresAt : Z }.

Record lruCache : Type := mkLru {
  lru_cap : Z;
  lru_ttl : Z;
  lru_data : gmap string cacheEntry;
}.

Definition newLRUCache (cap ttl : Z) : lruCache := mkLru cap ttl ∅.

(** [get] also drops an expired entry. *)
Definition lru_get (now : Z) (key : string) (c : lruCache) : option Merchant * lruCache :=
  match lru_data c !! key with
  | None => (None, c)
  | Some e =>
      if ce_expiresAt e <? now then (None, mkLru (lru_cap c) (lru_ttl c) (delete key (lru_data c)))
      else (Some (ce_value e), c)
  end.

(** The eviction loop, over the keys in iteration order. *)
Fixpoint evictLoop (data : gmap string cacheEntry) (order : list string) (oldest : Z) (evict : string) : string :=
  match order with
  | [] => evict
  | k :: rest =>
      match data !! k with
      | None => evictLoop data rest oldest evict
      | Some e =>
          if IsZero oldest || (ce_expiresAt e <? oldest) then evictLoop data rest (ce_expiresAt e) k
          else evictLoop data rest oldest evict
      end
  end.

Definition lru_put (now : Z) (order : list string) (key : string) (m : Merchant) (c : lruCache) : lruCache :=
  let data := if lru_cap c <=? Z.of_nat (size (lru_data c))
              then delete (evictLoop (lru_data c) order zero_time "") (lru_data c)
              else lru_data c in
  mkLru (lru_cap c) (lru_ttl c) (<[key := {| ce_value := m; ce_expiresAt := now + lru_ttl c |}]> data).

(** ** The merchants table *)

Record MerchantDb : Type := mkMerchants {
  mt_rows : list Merchant;
  mt_nextID : Z;
  mt_clock : list Z;
  mt_faults : list fault;
  mt_orders : list (list string);
  mt_cache : lruCache;
}.

Definition set_cache (c : lruCache) (d : MerchantDb) : MerchantDb :=
  mkMerchants (mt_rows d) (mt_nextID d) (mt_clock d) (mt_faults d) (mt_orders d) c.

Definition mt_Now : ST MerchantDb Z := fun d =>
  match mt_clock d with
  | [] => (0, d)
  | [t] => (t, d)
  | t :: ts => (t, mkMerchants (mt_rows d) (mt_nextID d) ts (mt_faults d) (mt_orders d) (mt_cache d))
  end.

(** The order of the next iteration over the cache: a permutation of its
    keys. *)
Definition mt_NextOrder : ST MerchantDb (list string) := fun d =>
  let keys := (map_to_list (lru_data (mt_cache d))).*1 in
  match mt_orders d with
  | [] => (keys, d)
  | o :: rest =>
      (if bool_decide (o ≡ₚ keys) then o else keys,
       mkMerchants (mt_rows d) (mt_nextID d) (mt_clock d) (mt_faults d) rest (mt_cache d))
  end.

Definition mt_exec {A} (stmt : list Merchant -> result A * list Merchant) : ST MerchantDb (result A) := fun d =>
  let '(a, rows') := stmt (mt_rows d) in
  let put rows := mkMerchants rows (mt_nextID d + 1) (mt_clock d) (tail (mt_faults d)) (mt_orders d) (mt_cache d) in
  match default NoFault (head (mt_faults d)) with
  | NoFault => (a, put rows')
  | FailBefore o => (Err (outage_error o), put (mt_rows d))
  | FailAfter o => (Err (outage_error o), put rows')
  end.

Definition with_cache {A} (f : lruCache -> A * lruCache) : ST MerchantDb A := fun d =>
  let '(a, c) := f (mt_cache d) in (a, set_cache c d).

Section Repo.
Context `{MySQL}.
(** whether the server accepts the values for the columns (strict mode) *)
Variable fitsColumns : Merchant -> bool.
Variable logicalShardCount : Z.

Definition scanMerchant (r : result Merchant) : result Merchant :=
  match r with
  | Ok m => Ok m
  | Err e => if errIs e ErrNoRows then Err (Sentinel ErrMerchantNotFound) else Err (Wrap "query merchant" e)
  end.

(** The two lookups differ in the prefix of the cache key and in the column.
    A lookup asks the cache and, on a miss, the table; the flag says that the
    cache answered. *)
Definition lookup_find (prefix : string) (col : Merchant -> string) (v : string)
    : ST MerchantDb (bool * result Merchant) :=
  (let! now := mt_Now in
   let! hit := with_cache (lru_get now (prefix +:+ v)) in
   match hit with
   | Some m => ret (true, Ok m)
   | None =>
       let! r := mt_exec (fun rows =>
         (match List.find (fun y => coll_eq (col y) v) rows with
          | Some m => Ok m
          | None => Err (Sentinel ErrNoRows)
          end, rows)) in
       ret (false, scanMerchant r)
   end)%easypay.

(** [r.cache.put], which reads the clock again. *)
Definition lookup_store (key : string) (m : Merchant) : ST MerchantDb unit :=
  (let! now := mt_Now in
   let! order := mt_NextOrder in
   with_cache (fun c => (tt, lru_put now order key m c)))%easypay.

Definition lookup_cached (prefix : string) (col : Merchant -> string) (v : string)
    : ST MerchantDb (result Merchant) :=
  (let! found := lookup_find prefix col v in
   match found with
   | (false, Ok m) =>
       let! _u := lookup_store (prefix +:+ v) m in
       ret (Ok m)
   | (_, r) => ret r
   end)%easypay.

Definition repo_GetByAPIKey (apiKey : string) : ST MerchantDb (result Merchant) :=
  lookup_cached "api:" m_APIKey apiKey.

Definition repo_GetByMerchantID (merchantID : string) : ST MerchantDb (result Merchant) :=
  lookup_cached "mid:" m_MerchantID merchantID.

(** SELECT shard_index, COUNT of rows, WHERE shard_index < ?, GROUP BY. *)
Definition shard_load (rows : list Merchant) (i : Z) : Z :=
  Z.of_nat (length (filter (fun m => m_ShardIndex m = i) rows)).
Definition sql_group_counts (rows : list Merchant) : list (Z * Z) :=
  filter (fun g => 0 < g.2) ((fun i : nat => (Z.of_nat i, shard_load rows (Z.of_nat i))) <$> seq 0 (Z.to_nat logicalShardCount)).

(** [counts[idx] = n] for each group, on an array of zeros. *)
Definition fillCounts (groups : list (Z * Z)) : list Z :=
  fold_left (fun counts g => if g.1 <? logicalShardCount then <[Z.to_nat g.1 := g.2]> counts else counts)
    groups (replicate (Z.to_nat logicalShardCount) 0).

(** The scan for the smallest count. *)
Fixpoint argmin (i : Z) (counts : list Z) (best bestN : Z) : Z :=
  match counts with
  | [] => best
  | n :: rest => if n <? bestN then argmin (i + 1) rest i n else argmin (i + 1) rest best bestN
  end.

(** [None] is the panic of [counts[0]] on an empty array. *)
Definition pickFrom (counts : list Z) : option Z :=
  match counts with
  | [] => None
  | n :: rest => Some (argmin 1 rest 0 n)
  end.

Definition pickLeastLoadedShard : ST MerchantDb (result Z) :=
  (let! r := mt_exec (fun rows => (Ok (sql_group_counts rows), rows)) in
   ret (match r with
        | Err e => Err (Wrap "count by shard" e)
        | Ok groups =>
            match pickFrom (fillCounts groups) with
            | None => Err (Text "panic: index out of range")
            | Some i => Ok i
            end
        end))%easypay.

Definition prepared (m : Merchant) (idx : Z) : Merchant := {|
  m_ID := m_ID m; m_MerchantID := m_MerchantID m; m_Name := m_Name m; m_APIKey := m_APIKey m;
  m_SecretKey := m_SecretKey m; m_CallbackURL := m_CallbackURL m;
  m_RateLimit := if m_RateLimit m =? 0 then 1000 else m_RateLimit m;
  m_Status := if bool_decide (m_Status m = "") then MerchantStatusActive else m_Status m;
  m_ShardIndex := idx; m_CreatedAt := m_CreatedAt m |}.

Definition with_id (id : Z) (created : Z) (m : Merchant) : Merchant := {|
  m_ID := id; m_MerchantID := m_MerchantID m; m_Name := m_Name m; m_APIKey := m_APIKey m;
  m_SecretKey := m_SecretKey m; m_CallbackURL := m_CallbackURL m; m_RateLimit := m_RateLimit m;
  m_Status := m_Status m; m_ShardIndex := m_ShardIndex m; m_CreatedAt := created |}.

Definition errDupMerchant : error := Text "Error 1062 (23000): Duplicate entry for key 'merchants'".

Definition sql_insert_merchant (id now : Z) (m : Merchant) (rows : list Merchant) : result unit * list Merchant :=
  if negb (fitsColumns m) then (Err errTooLong, rows)
  else if List.existsb (fun y => coll_eq (m_MerchantID y) (m_MerchantID m) || coll_eq (m_APIKey y) (m_APIKey m)) rows
  then (Err errDupMerchant, rows)
  else (Ok tt, rows ++ [with_id id (ts_store now) m]).

Definition repo_InsertMerchant (m : Merchant) : ST MerchantDb (Merchant * result unit) :=
  (let! picked := pickLeastLoadedShard in
   match picked with
   | Err e => ret (m, Err (Wrap "pick shard" e))
   | Ok idx =>
       let m' := prepared m idx in
       let! id := (fun d => (mt_nextID d, d)) in
       let! now := mt_Now in
       let! r := mt_exec (sql_insert_merchant id now m') in
       ret (match r with
            | Err e => (m', Err (Wrap (if isDuplicateKeyErr e then "merchant exists" else "insert merchant") e))
            | Ok _ => ((if id =? 0 then m' else with_id id (m_CreatedAt m') m'), Ok tt)
            end)
   end)%easypay.

#[local] Instance merchant_repo : MerchantRepository MerchantDb := {|
  GetByAPIKey := repo_GetByAPIKey;
  GetByMerchantID := repo_GetByMerchantID;
  merchants_Insert := repo_InsertMerchant |}.
End Repo.

(** ** merchant_service.go *)

(** [crypto/rand.Read] of [n] bytes. *)
Class RandBytes (X : Type) : Type := rand_Bytes : Z -> ST X (result string).

Record CreateMerchantInput : Type := {
  cm_MerchantID : string; cm_Name : string; cm_CallbackURL : string; cm_RateLimit : Z;
}.

Record CreateMerchantResult : Type := {
  cmr_MerchantID : string; cmr_Name : string; cmr_APIKey : string; cmr_SecretKey : string;
  cmr_CallbackURL : string; cmr_RateLimit : Z; cmr_ShardIndex : Z;
}.

Section Service.
Context `{Unicode} {M X : Type} `{MerchantRepository M} `{RandBytes X}.

Definition randomHex (n : Z) : ST X (result string) :=
  if n <=? 0 then ret (Err (Text "randomHex: n must be > 0"))
  else (let! b := rand_Bytes n in
        ret (match b with Err e => Err e | Ok b => Ok (hexEncode b) end))%easypay.

Definition merchant_Create (input : CreateMerchantInput) : ST (M * X) (result CreateMerchantResult) :=
  let mID := TrimSpace (cm_MerchantID input) in
  if bool_decide (mID = "") || (64 <? len mID)
  then ret (Err (Wrap "merchant_id length must be 1..64" (Sentinel ErrInvalidRequest)))
  else
    let name := TrimSpace (cm_Name input) in
    if bool_decide (name = "") || (255 <? len name)
    then ret (Err (Wrap "name length must be 1..255" (Sentinel ErrInvalidRequest)))
    else
      (let! apiKey := on_snd (randomHex 32) in
       match apiKey with
       | Err e => ret (Err (Wrap "gen api_key" e))
       | Ok apiKey =>
           let! secretKey := on_snd (randomHex 32) in
           match secretKey with
           | Err e => ret (Err (Wrap "gen secret_key" e))
           | Ok secretKey =>
               let m := {|
                 m_ID := 0; m_MerchantID := mID; m_Name := name; m_APIKey := apiKey; m_SecretKey := secretKey;
                 m_CallbackURL := TrimSpace (cm_CallbackURL input);
                 m_RateLimit := if cm_RateLimit input <=? 0 then 1000 else cm_RateLimit input;
                 m_Status := MerchantStatusActive; m_ShardIndex := 0; m_CreatedAt := zero_time |} in
               let! ins := on_fst (merchants_Insert m) in
               let m := ins.1 in
               ret (match ins.2 with
                    | Err e => Err e
                    | Ok _ => Ok {|
                        cmr_MerchantID := m_MerchantID m; cmr_Name := m_Name m; cmr_APIKey := m_APIKey m;
                        cmr_SecretKey := m_SecretKey m; cmr_CallbackURL := m_CallbackURL m;
                        cmr_RateLimit := m_RateLimit m; cmr_ShardIndex := m_ShardIndex m |}
                    end)
           end
       end)%easypay.
End Service.
