(* ===== verification/MerchantTheorems.v ===== *)
(** * Merchants: what the repository, its cache and the admin service guarantee

    The cache is bounded and answers with rows that were cached at most five
    minutes before, a new merchant goes to a least-loaded shard, the admin service validates what it stores, and which
    of its merchants can never be paid. *)

From S2P Require Import Prelude GoStrings Domain ShardRouter TransactionRepo TransactionStore TransactionRefines StripeTypes Ports.
From S2P Require Import PaymentService Merchants.
Local Open Scope Z_scope.

(** ** The cache *)

Lemma evictLoop_elem data order oldest evict :
  (forall k, k ∈ order -> is_Some (data !! k)) -> order <> [] -> IsZero oldest = true ->
  is_Some (data !! evictLoop data order oldest evict).
Proof.
  assert (Hgen : forall order oldest evict, (forall k, k ∈ order -> is_Some (data !! k)) -> is_Some (data !! evict) ->
    is_Some (data !! evictLoop data order oldest evict)).
  { induction order0 as [|k rest IH]; intros old ev Hall Hev; cbn [evictLoop]; [done|].
    destruct (Hall k ltac:(left)) as [e Ee]. rewrite Ee.
    destruct (_ || _); apply IH; try (intros k' Hk'; apply Hall; by right); [by eexists|done]. }
  intros Hall Hne Hz. destruct order as [|k rest]; [done|]. cbn [evictLoop].
  destruct (Hall k ltac:(left)) as [e Ee]. rewrite Ee, Hz. cbn [orb].
  apply Hgen; [intros k' Hk'; apply Hall; by right|by eexists].
Qed.

(** The merchant cache is bounded and does not serve stale entries: with
    a capacity of at least one it never holds more than its capacity, whatever
    order Go iterates the map in; a lookup returns what was last put under the
    key, up to the time to live after the put, and nothing after it. *)
Theorem lru_bounded_and_fresh now now' order key m c :
  1 <= lru_cap c -> Z.of_nat (size (lru_data c)) <= lru_cap c ->
  order ≡ₚ (map_to_list (lru_data c)).*1 ->
  Z.of_nat (size (lru_data (lru_put now order key m c))) <= lru_cap c /\
  (lru_get now' key (lru_put now order key m c)).1 = (if now' <=? now + lru_ttl c then Some m else None) /\
  (forall k, k <> key -> lru_data (lru_put now order key m c) !! k = lru_data c !! k \/
     lru_data (lru_put now order key m c) !! k = None).
Proof.
  intros Hcap Hsz Hperm. unfold lru_put. cbn [lru_cap lru_ttl lru_data].
  set (data := if lru_cap c <=? Z.of_nat (size (lru_data c)) then _ else _).
  assert (Hdata : Z.of_nat (size data) <= lru_cap c - 1 /\
    forall k, data !! k = lru_data c !! k \/ data !! k = None).
  { unfold data. destruct (Z.leb_spec (lru_cap c) (Z.of_nat (size (lru_data c)))) as [Hfull|Hroom].
    - set (ev := evictLoop _ _ _ _). assert (Hev : is_Some (lru_data c !! ev)).
      { apply evictLoop_elem; [| |done].
        - intros k Hk. rewrite Hperm in Hk. apply list_elem_of_fmap in Hk as ([k' e] & -> & Hin).
          apply elem_of_map_to_list in Hin. by eexists.
        - intros ->. apply Permutation_nil_l in Hperm. apply (f_equal length) in Hperm.
          rewrite length_fmap, length_map_to_list in Hperm. cbn in Hperm. lia. }
      split; [rewrite map_size_delete_Some by done; lia|].
      intros k. destruct (decide (k = ev)) as [->|]; [right; by rewrite lookup_delete, decide_True|].
      left. by rewrite lookup_delete_ne.
    - split; [lia|auto]. }
  destruct Hdata as [Hs Hk]. split_and!.
  - destruct (data !! key) as [e|] eqn:Ek; [rewrite map_size_insert_Some by (by eexists)|rewrite map_size_insert_None by done]; lia.
  - unfold lru_get. cbn [lru_data]. rewrite lookup_insert, decide_True by done. cbn [ce_expiresAt ce_value].
    destruct (Z.ltb_spec (now + lru_ttl c) now'), (Z.leb_spec now' (now + lru_ttl c)); try lia; done.
  - intros k Hne. rewrite lookup_insert_ne by done. apply Hk.
Qed.

(** ** Choosing a shard *)

Lemma argmin_spec i counts best bestN :
  0 <= best < i ->
  let r := argmin i counts best bestN in
  0 <= r < i + Z.of_nat (length counts) /\
  (forall n, (if r <? i then n = bestN /\ r = best else counts !! Z.to_nat (r - i) = Some n) ->
     n <= bestN /\ (forall j m, counts !! j = Some m -> n <= m) /\
     (forall j m, counts !! j = Some m -> i + Z.of_nat j < r -> n < m) /\ (r <> best -> n < bestN)) /\
  (i <= r -> exists n, counts !! Z.to_nat (r - i) = Some n) /\ (r < i -> r = best).
Proof.
  revert i best bestN. induction counts as [|c counts IH]; intros i best bestN Hb; cbn [argmin].
  { cbn zeta. split; [cbn; lia|]. split.
    - destruct (Z.ltb_spec best i); [|lia]. intros n [-> _]. split_and!; try done.
    - split; [lia|done]. }
  destruct (Z.ltb_spec c bestN) as [Hlt|Hge].
  - specialize (IH (i + 1) i c ltac:(lia)). cbn zeta in *. set (r := argmin (i + 1) counts i c) in *.
    destruct IH as (Hr & Hn & Hex & Hlow). cbn [length].
    assert (Hri : i <= r) by (destruct (decide (r < i + 1)); [rewrite Hlow by lia; lia|lia]).
    split; [lia|]. split_and!.
    + intros n Hcase. destruct (Z.ltb_spec r i); [lia|].
      assert (Hprem : if r <? i + 1 then n = c /\ r = i else counts !! Z.to_nat (r - (i + 1)) = Some n).
      { destruct (Z.ltb_spec r (i + 1)).
        - assert (Hi : r = i) by lia. rewrite Hi, Z.sub_diag in Hcase. cbn in Hcase. injection Hcase as ->. done.
        - replace (Z.to_nat (r - i)) with (S (Z.to_nat (r - (i + 1)))) in Hcase by lia. done. }
      destruct (Hn n Hprem) as (Hnc & Hall & Hstrict & Hneq). split_and!; try lia.
      * intros [|j] m; cbn; [intros [= <-]; lia|apply Hall].
      * intros [|j] m; cbn; [intros [= <-] Hj; apply Hneq; lia|intros Hj Hlt'; eapply Hstrict; [exact Hj|lia]].
    + intros _. destruct (decide (r = i)) as [Hi|Hi]; [rewrite Hi, Z.sub_diag; by eexists|].
      destruct (Hex ltac:(lia)) as [n Hn']. exists n.
      replace (Z.to_nat (r - i)) with (S (Z.to_nat (r - (i + 1)))) by lia. done.
    + lia.
  - specialize (IH (i + 1) best bestN ltac:(lia)). cbn zeta in *. set (r := argmin (i + 1) counts best bestN) in *.
    destruct IH as (Hr & Hn & Hex & Hlow). cbn [length]. split; [lia|]. split_and!.
    + intros n Hcase.
      assert (Hprem : if r <? i + 1 then n = bestN /\ r = best else counts !! Z.to_nat (r - (i + 1)) = Some n).
      { destruct (Z.ltb_spec r (i + 1)) as [Hr1|Hr1].
        - pose proof (Hlow Hr1) as Hrb. destruct (Z.ltb_spec r i); [done|lia].
        - destruct (Z.ltb_spec r i); [lia|].
          replace (Z.to_nat (r - i)) with (S (Z.to_nat (r - (i + 1)))) in Hcase by lia. done. }
      destruct (Hn n Hprem) as (Hnb & Hall & Hstrict & Hneq). split_and!; try done.
      * intros [|j] m; cbn; [intros [= <-]; lia|apply Hall].
      * intros [|j] m; cbn.
        -- intros [= <-] Hj. destruct (decide (r = best)) as [->|Hd]; [lia|]. specialize (Hneq Hd). lia.
        -- intros Hj Hlt'. eapply Hstrict; [exact Hj|lia].
    + intros Hir. destruct (decide (r < i + 1)) as [Hc|Hc]; [rewrite Hlow in Hir by lia; lia|].
      destruct (Hex ltac:(lia)) as [n Hn']. exists n.
      replace (Z.to_nat (r - i)) with (S (Z.to_nat (r - (i + 1)))) by lia. done.
    + intros Hri. apply Hlow. lia.
Qed.

(** The index picked is the first of the smallest counts. *)
Lemma pickFrom_spec counts :
  counts <> [] ->
  exists i n, pickFrom counts = Some (Z.of_nat i) /\ counts !! i = Some n /\
    (forall j m, counts !! j = Some m -> n <= m /\ ((j < i)%nat -> n < m)).
Proof.
  destruct counts as [|c counts]; [done|]. intros _. cbn [pickFrom].
  pose proof (argmin_spec 1 counts 0 c ltac:(lia)) as Hs. cbn zeta in Hs. set (r := argmin 1 counts 0 c) in *.
  destruct Hs as (Hr & Hn & Hex & Hlow). exists (Z.to_nat r).
  destruct (decide (r < 1)) as [Hz|Hz].
  - pose proof (Hlow Hz) as Hr0. exists c. rewrite Hr0. split; [reflexivity|]. split; [reflexivity|].
    destruct (Hn c) as (_ & Hall & _); [destruct (Z.ltb_spec r 1); [done|lia]|].
    intros [|j] m; cbn; [intros [= <-]; lia|]. intros Hj. split; [by eapply Hall|lia].
  - destruct (Hex ltac:(lia)) as [n Hn']. exists n. rewrite Z2Nat.id by lia. split; [reflexivity|].
    replace (Z.to_nat r) with (S (Z.to_nat (r - 1))) by lia. split; [exact Hn'|].
    destruct (Hn n) as (Hc & Hall & Hstrict & Hneq); [destruct (Z.ltb_spec r 1); [lia|done]|].
    intros [|j] m; cbn.
    + intros [= <-]. split; [done|]. intros _. apply Hneq. lia.
    + intros Hj. split; [by eapply Hall|]. intros Hlt. eapply Hstrict; [exact Hj|lia].
Qed.

Section Picker.
Variables (L : Z) (rows : list Merchant).
Hypothesis HL : 1 <= L.

(** The array the groups are written into holds the load of every shard. *)
Lemma fillCounts_load (i : nat) :
  Z.of_nat i < L -> fillCounts L (sql_group_counts L rows) !! i = Some (shard_load rows (Z.of_nat i)).
Proof.
  intros Hi. unfold fillCounts, sql_group_counts.
  assert (Hgen : forall idx acc, NoDup idx -> Forall (fun j => Z.of_nat j < L) idx -> length acc = Z.to_nat L ->
    fold_left (fun counts g => if g.1 <? L then <[Z.to_nat g.1 := g.2]> counts else counts)
      (filter (fun g => 0 < g.2) ((fun j : nat => (Z.of_nat j, shard_load rows (Z.of_nat j))) <$> idx)) acc !! i =
    (if decide (i ∈ idx /\ 0 < shard_load rows (Z.of_nat i)) then Some (shard_load rows (Z.of_nat i)) else acc !! i)).
  { induction idx as [|j idx IH]; intros acc Hnd Hlt Hlen; cbn [fmap list_fmap].
    { rewrite filter_nil. cbn [fold_left]. rewrite decide_False; [done|]. intros [Hn _]. by apply not_elem_of_nil in Hn. }
    apply NoDup_cons in Hnd as [Hj Hnd]. apply Forall_cons in Hlt as [Hjl Hlt].
    rewrite filter_cons. cbn [snd]. destruct (decide (0 < shard_load rows (Z.of_nat j))) as [Hpos|Hzero].
    - cbn [fold_left fst snd]. destruct (Z.ltb_spec (Z.of_nat j) L); [|lia]. rewrite Nat2Z.id.
      rewrite IH by (try done; by rewrite length_insert). destruct (decide (i = j)) as [->|Hne].
      + rewrite decide_False by tauto. rewrite decide_True by (split; [left|done]).
        rewrite list_lookup_insert_eq by lia. done.
      + rewrite list_lookup_insert_ne by done. repeat case_decide; try done; exfalso;
          rewrite elem_of_cons in *; tauto.
    - rewrite IH by done. destruct (decide (i = j)) as [->|Hne].
      + rewrite !decide_False by tauto. done.
      + repeat case_decide; try done; exfalso; rewrite elem_of_cons in *; tauto. }
  rewrite Hgen; [|apply NoDup_seq| |by rewrite length_replicate].
  - destruct (decide (_ /\ _)) as [Hd|Hd]; [done|]. rewrite lookup_replicate_2 by lia. f_equal.
    assert (~ 0 < shard_load rows (Z.of_nat i)).
    { intros Hp. apply Hd. split; [apply elem_of_seq; lia|done]. }
    unfold shard_load in *. lia.
  - apply Forall_forall. intros j Hj%elem_of_seq. lia.
Qed.

Lemma fillCounts_length : length (fillCounts L (sql_group_counts L rows)) = Z.to_nat L.
Proof.
  unfold fillCounts. generalize (sql_group_counts L rows) as gs.
  assert (Hgen : forall (gs : list (Z * Z)) (acc : list Z), length (fold_left (fun counts g => if g.1 <? L then <[Z.to_nat g.1 := g.2]> counts else counts) gs acc) = length acc).
  { induction gs as [|g gs IH]; intros acc; [done|]. cbn [fold_left]. rewrite IH. destruct (_ <? _); [by rewrite length_insert|done]. }
  intros gs. by rewrite Hgen, length_replicate.
Qed.

Lemma pick_spec :
  exists i, pickFrom (fillCounts L (sql_group_counts L rows)) = Some i /\ 0 <= i < L /\
    (forall j, 0 <= j < L -> shard_load rows i <= shard_load rows j /\ (j < i -> shard_load rows i < shard_load rows j)).
Proof.
  pose proof fillCounts_length as Hlen.
  destruct (pickFrom_spec (fillCounts L (sql_group_counts L rows))) as (i & n & Hp & Hn & Hmin).
  { intros E. rewrite E in Hlen. cbn in Hlen. lia. }
  assert (Hi : Z.of_nat i < L) by (apply lookup_lt_Some in Hn; lia).
  exists (Z.of_nat i). split; [done|]. split; [lia|]. intros j Hj.
  rewrite fillCounts_load in Hn by done. injection Hn as <-.
  destruct (Hmin (Z.to_nat j) (shard_load rows j)) as [Hle Hlt].
  { rewrite fillCounts_load by lia. by rewrite Z2Nat.id by lia. }
  split; [done|]. intros Hji. apply Hlt. lia.
Qed.
End Picker.

(** Loads of a table grown by one row. *)
Lemma shard_load_app rows m i :
  shard_load (rows ++ [m]) i = shard_load rows i + (if decide (m_ShardIndex m = i) then 1 else 0).
Proof.
  unfold shard_load. rewrite filter_app, length_app, filter_cons, filter_nil. case_decide; cbn; lia.
Qed.

(** Every two shards differ by at most one merchant. *)
Definition balanced (L : Z) (rows : list Merchant) : Prop :=
  forall i j, 0 <= i < L -> 0 <= j < L -> shard_load rows i <= shard_load rows j + 1.

Lemma mt_exec_rows {A} (stmt : list Merchant -> result A * list Merchant) d a d' :
  mt_exec stmt d = (a, d') ->
  mt_cache d' = mt_cache d /\
  (mt_rows d' = mt_rows d \/ mt_rows d' = (stmt (mt_rows d)).2) /\
  (is_ok a = true -> a = (stmt (mt_rows d)).1 /\ mt_rows d' = (stmt (mt_rows d)).2).
Proof.
  unfold mt_exec. destruct (stmt (mt_rows d)) as [x rows]. destruct (default NoFault _); intros [= <- <-]; cbn; split_and!; auto; done.
Qed.

Lemma mt_Now_faults d : mt_faults (mt_Now d).2 = mt_faults d.
Proof. unfold mt_Now. by repeat case_match. Qed.

Lemma mt_Now_same d : mt_rows (mt_Now d).2 = mt_rows d /\ mt_cache (mt_Now d).2 = mt_cache d.
Proof. unfold mt_Now. by repeat case_match. Qed.

Section Repo.
Context `{MySQL}.
Variable fitsColumns : Merchant -> bool.
Variable L : Z.
Hypothesis HL : 1 <= L.

Lemma pick_run d res d' :
  pickLeastLoadedShard L d = (res, d') ->
  mt_rows d' = mt_rows d /\ mt_cache d' = mt_cache d /\
  (forall i, res = Ok i -> 0 <= i < L /\
     forall j, 0 <= j < L -> shard_load (mt_rows d) i <= shard_load (mt_rows d) j /\
       (j < i -> shard_load (mt_rows d) i < shard_load (mt_rows d) j)).
Proof.
  unfold pickLeastLoadedShard, bind, ret. destruct (mt_exec _ d) as [a d1] eqn:Ex. intros [= <- <-].
  destruct (mt_exec_rows _ _ _ _ Ex) as (Hc & Hr & Ha). cbn [snd fst] in *. split; [by destruct Hr|]. split; [done|].
  destruct a as [groups|e]; [|discriminate]. destruct (Ha eq_refl) as [[= ->] _].
  destruct (pick_spec L (mt_rows d) HL) as (i & -> & Hi & Hmin). intros i' [= <-]. done.
Qed.

(** What inserting a merchant does to the table. *)
Lemma insert_run m d m' res d' :
  repo_InsertMerchant fitsColumns L m d = ((m', res), d') ->
  mt_cache d' = mt_cache d /\
  (mt_rows d' = mt_rows d \/
   exists i id now, mt_rows d' = mt_rows d ++ [with_id id now (prepared m i)] /\ 0 <= i < L /\
     (forall j, 0 <= j < L -> shard_load (mt_rows d) i <= shard_load (mt_rows d) j /\
        (j < i -> shard_load (mt_rows d) i < shard_load (mt_rows d) j)) /\
     (forall y, y ∈ mt_rows d -> coll_eq (m_MerchantID y) (m_MerchantID m) = false /\
        coll_eq (m_APIKey y) (m_APIKey m) = false) /\
     m_ShardIndex m' = i) /\
  (is_ok res = true -> mt_rows d' <> mt_rows d).
Proof.
  unfold repo_InsertMerchant, bind at 1. destruct (pickLeastLoadedShard L d) as [picked d1] eqn:Ep.
  destruct (pick_run _ _ _ Ep) as (Hr1 & Hc1 & Hpick).
  destruct picked as [i|e].
  2: { unfold ret. intros [= <- <- <-]. split; [done|]. split; [by left|done]. }
  destruct (Hpick i eq_refl) as [Hi Hmin]. unfold bind, ret.
  destruct (mt_Now d1) as [now d2] eqn:En. pose proof (mt_Now_same d1) as [Hr2 Hc2]. rewrite En in Hr2, Hc2. cbn [snd] in *.
  destruct (mt_exec _ d2) as [a d3] eqn:Ex. destruct (mt_exec_rows _ _ _ _ Ex) as (Hc3 & Hr3 & Ha).
  intros [= Hm <-]. rewrite Hr2, Hr1 in *. split; [congruence|].
  unfold sql_insert_merchant in *. destruct (fitsColumns (prepared m i)); cbn [negb] in *.
  2: { split; [left; by destruct Hr3|]. intros Hok. destruct a as [?|e]; [|by injection Hm as _ <-].
       by destruct (Ha eq_refl) as [[=] _]. }
  destruct (List.existsb _ (mt_rows d)) eqn:Ee.
  { split; [left; by destruct Hr3|]. intros Hok. destruct a as [?|e]; [|by injection Hm as _ <-].
    by destruct (Ha eq_refl) as [[=] _]. }
  cbn [fst snd] in *. split.
  - destruct Hr3 as [?|Hr3]; [by left|]. right. exists i, (mt_nextID d1), (ts_store now). split; [done|]. split; [done|].
    split; [done|]. split.
    + intros y Hy. apply Bool.not_true_iff_false in Ee.
      assert (Hn : ~ (coll_eq (m_MerchantID y) (m_MerchantID m) = true \/ coll_eq (m_APIKey y) (m_APIKey m) = true)).
      { intros Hor. apply Ee, List.existsb_exists. exists y. split; [by apply list_elem_of_In|]. by apply orb_true_iff. }
      split; apply Bool.not_true_iff_false; tauto.
    + destruct a as [?|e]; injection Hm as <- _; [|done]. by destruct (_ =? 0).
  - intros Hok Heq. destruct a as [?|e]; [|by injection Hm as _ <-].
    destruct (Ha eq_refl) as [_ Hrow]. rewrite Hrow in Heq. apply (f_equal length) in Heq.
    rewrite length_app in Heq. cbn in Heq. lia.
Qed.

(** C39. New merchants go to a least-loaded shard: an accepted insert stores
    one row, for ids not stored before, in the smallest-numbered shard among
    those with the fewest merchants, and keeps the shards balanced to within
    one merchant if they were. *)
Theorem insert_least_loaded m d m' res d' :
  repo_InsertMerchant fitsColumns L m d = ((m', res), d') -> is_ok res = true ->
  exists row, mt_rows d' = mt_rows d ++ [row] /\ m_MerchantID row = m_MerchantID m /\
    m_ShardIndex row = m_ShardIndex m' /\ 0 <= m_ShardIndex row < L /\
    (forall j, 0 <= j < L -> shard_load (mt_rows d) (m_ShardIndex row) <= shard_load (mt_rows d) j /\
       (j < m_ShardIndex row -> shard_load (mt_rows d) (m_ShardIndex row) < shard_load (mt_rows d) j)) /\
    (forall y, y ∈ mt_rows d -> coll_eq (m_MerchantID y) (m_MerchantID m) = false /\ coll_eq (m_APIKey y) (m_APIKey m) = false) /\
    (balanced L (mt_rows d) -> balanced L (mt_rows d')).
Proof.
  intros Hins Hok. destruct (insert_run _ _ _ _ _ Hins) as (_ & Hcase & Hne).
  destruct Hcase as [?|(i & id & now & Hrows & Hi & Hmin & Hnew & Hsh)]; [by specialize (Hne Hok)|].
  exists (with_id id now (prepared m i)). cbn [m_MerchantID m_ShardIndex with_id prepared].
  split_and!; try done; [lia|lia|]. intros Hbal a b Hra Hrb. rewrite Hrows, !shard_load_app.
  cbn [m_ShardIndex with_id prepared]. specialize (Hbal a b Hra Hrb). pose proof (proj1 (Hmin b Hrb)).
  repeat case_decide; subst; lia.
Qed.

End Repo.

(** ** Cached lookups *)

Section Lookup.
Context `{MySQL}.

(** The lookups of one instance run side by side, and between any two of
    their steps the table changes as it likes: other instances insert
    merchants, credentials are rotated, cmd/bench rewrites rows.  The mutex of
    the cache makes [get] and [put] one step each.  What the lookups did is
    kept in a log: [Found key m table] is a query that was answered with [m]
    while the table was [table], [Stored key m t] a [put] at time [t]. *)
Inductive cacheEvent : Type :=
  | Found (key : string) (m : Merchant) (table : list Merchant)
  | Stored (key : string) (m : Merchant) (t : Z).

(** The columns that are looked up, with the prefix of their cache keys. *)
Inductive looked_up : string -> (Merchant -> string) -> Prop :=
  | by_api_key : looked_up "api:" m_APIKey
  | by_merchant_id : looked_up "mid:" m_MerchantID.

Definition found_in (key : string) (table : list Merchant) (found : bool * result Merchant) : list cacheEvent :=
  match found with
  | (false, Ok m) => [Found key m table]
  | _ => []
  end.

(** [lives log d]: the instance can be in state [d] after doing [log]. *)
Inductive lives : list cacheEvent -> MerchantDb -> Prop :=
  | lives_new d : mt_cache d = newLRUCache 1024 (5 * minute) -> lives [] d
  | lives_else log d d' : lives log d -> mt_cache d' = mt_cache d -> lives log d'
  | lives_find log d prefix col v found d' :
      lives log d -> looked_up prefix col -> lookup_find prefix col v d = (found, d') ->
      lives (log ++ found_in (prefix +:+ v) (mt_rows d) found) d'
  | lives_store log d key m table d' :
      lives log d -> Found key m table ∈ log -> lookup_store key m d = (tt, d') ->
      lives (log ++ [Stored key m (mt_Now d).1]) d'.

(** A [put] of what a query had found. *)
Definition filled (log : list cacheEvent) (key : string) (m : Merchant) (table : list Merchant) (t : Z) : Prop :=
  exists l1 l2 l3, log = l1 ++ Found key m table :: l2 ++ Stored key m t :: l3.

Lemma filled_app log more key m table t : filled log key m table t -> filled (log ++ more) key m table t.
Proof.
  intros (l1 & l2 & l3 & ->). exists l1, l2, (l3 ++ more). by rewrite <- !app_assoc, <- app_comm_cons, <- app_assoc.
Qed.

Lemma lru_get_run now key c m c' :
  lru_get now key c = (m, c') ->
  lru_ttl c' = lru_ttl c /\
  (forall k e, lru_data c' !! k = Some e -> lru_data c !! k = Some e) /\
  (forall x, m = Some x -> exists e, lru_data c !! key = Some e /\ ce_value e = x /\ now <= ce_expiresAt e).
Proof.
  unfold lru_get. destruct (lru_data c !! key) as [e|] eqn:Ek; [|intros [= <- <-]; done].
  destruct (Z.ltb_spec (ce_expiresAt e) now); intros [= <- <-]; cbn [lru_data lru_ttl]; split_and!; try done.
  - intros k e' Hk. apply lookup_delete_Some in Hk. tauto.
  - intros x [= <-]. eauto.
Qed.

Lemma lru_put_run now order key m c k e :
  lru_data (lru_put now order key m c) !! k = Some e ->
  (k = key /\ e = {| ce_value := m; ce_expiresAt := now + lru_ttl c |}) \/ lru_data c !! k = Some e.
Proof.
  unfold lru_put. cbn [lru_data]. destruct (decide (k = key)) as [->|Hne].
  - rewrite lookup_insert, decide_True by done. intros [= <-]. by left.
  - rewrite lookup_insert_ne by done. destruct (_ <=? _); [|auto].
    intros Hk. apply lookup_delete_Some in Hk. tauto.
Qed.

(** The first half of a lookup: what the cache answers is an entry that has
    not expired, what the table answers is a row with the value looked for,
    and without a fault an error means that there is none. *)
Lemma lookup_find_run prefix col v d hit r d' :
  lookup_find prefix col v d = ((hit, r), d') ->
  mt_rows d' = mt_rows d /\ lru_ttl (mt_cache d') = lru_ttl (mt_cache d) /\
  (forall k e, lru_data (mt_cache d') !! k = Some e -> lru_data (mt_cache d) !! k = Some e) /\
  (forall m, r = Ok m ->
     if hit then exists e, lru_data (mt_cache d) !! (prefix +:+ v) = Some e /\ ce_value e = m /\ (mt_Now d).1 <= ce_expiresAt e
     else m ∈ mt_rows d /\ coll_eq (col m) v = true) /\
  (forall e, r = Err e -> hit = false /\
     (default NoFault (head (mt_faults d)) = NoFault ->
        e = Sentinel ErrMerchantNotFound /\ forall y, y ∈ mt_rows d -> coll_eq (col y) v = false)).
Proof.
  unfold lookup_find, bind at 1.
  destruct (mt_Now d) as [now d1] eqn:En. destruct (mt_Now_same d) as [Hr1 Hc1].
  pose proof (mt_Now_faults d) as Hf1. rewrite En in Hr1, Hc1, Hf1. cbn [fst snd] in *.
  unfold bind at 1, with_cache at 1. destruct (lru_get now (prefix +:+ v) (mt_cache d1)) as [m c1] eqn:Eg.
  rewrite Hc1 in Eg. destruct (lru_get_run _ _ _ _ _ Eg) as (Httl & Hsub & Hhit). unfold ret.
  destruct m as [m|].
  { intros [= <- <- <-]. cbn. split_and!; try done. intros m' [= <-]. by apply Hhit. }
  unfold bind. destruct (mt_exec _ (set_cache c1 d1)) as [a d2] eqn:Ex. intros [= <- <- <-].
  destruct (mt_exec_rows _ _ _ _ Ex) as (Hc2 & Hr2 & Ha). rewrite Hc2. cbn in Hr2, Ha |- *.
  split; [destruct Hr2 as [-> | ->]; done|]. split; [done|]. split; [done|]. split.
  - intros m Hm. destruct a as [m0|e]; cbn in Hm; [|by destruct (errIs e ErrNoRows)]. injection Hm as <-.
    destruct (Ha eq_refl) as [Hfind _]. rewrite Hr1 in Hfind.
    destruct (List.find _ (mt_rows d)) as [m1|] eqn:Ef; [|discriminate]. injection Hfind as <-.
    apply List.find_some in Ef as [Hin Hcol]. by apply list_elem_of_In in Hin.
  - intros e He. split; [done|]. intros Hnf. unfold mt_exec in Ex. cbn in Ex. rewrite Hf1, Hnf, Hr1 in Ex.
    injection Ex as <- _. destruct (List.find _ (mt_rows d)) as [m1|] eqn:Ef; cbn in He; [discriminate|].
    injection He as <-. split; [done|]. intros y Hy.
    apply (List.find_none _ _ Ef y). by apply list_elem_of_In.
Qed.

Lemma lookup_store_run key m d u d' :
  lookup_store key m d = (u, d') ->
  mt_rows d' = mt_rows d /\ lru_ttl (mt_cache d') = lru_ttl (mt_cache d) /\
  (forall k e, lru_data (mt_cache d') !! k = Some e ->
     (k = key /\ e = {| ce_value := m; ce_expiresAt := (mt_Now d).1 + lru_ttl (mt_cache d) |}) \/
     lru_data (mt_cache d) !! k = Some e).
Proof.
  unfold lookup_store, bind at 1. destruct (mt_Now d) as [now d1] eqn:En. destruct (mt_Now_same d) as [Hr1 Hc1].
  rewrite En in Hr1, Hc1. cbn [fst snd] in *. unfold bind at 1. destruct (mt_NextOrder d1) as [order d2] eqn:Eo.
  assert (H2 : mt_rows d2 = mt_rows d1 /\ mt_cache d2 = mt_cache d1).
  { unfold mt_NextOrder in Eo. destruct (mt_orders d1); by injection Eo as _ <-. }
  destruct H2 as [Hr2 Hc2]. unfold with_cache. intros [= _ <-]. cbn [mt_rows mt_cache set_cache].
  rewrite Hr2, Hr1, Hc2, Hc1. split; [done|]. split; [done|]. apply lru_put_run.
Qed.

(** A lookup is its two halves, one after the other. *)
Lemma lookup_cached_run prefix col v d res d' :
  lookup_cached prefix col v d = (res, d') ->
  exists hit d1, lookup_find prefix col v d = ((hit, res), d1) /\
    ((hit = false /\ exists m, res = Ok m /\ lookup_store (prefix +:+ v) m d1 = (tt, d')) \/
     (d' = d1 /\ (hit = true \/ is_ok res = false))).
Proof.
  unfold lookup_cached, bind at 1. destruct (lookup_find prefix col v d) as [[hit r] d1]. unfold bind, ret.
  destruct hit, r as [m|e].
  1,2,4: intros [= <- <-]; eexists _, d1; (split; [done|]); right; by auto.
  destruct (lookup_store (prefix +:+ v) m d1) as [[] d2] eqn:Es. intros [= <- <-]. exists false, d1. split; [done|].
  left. eauto.
Qed.

Lemma lookup_uncached_run prefix col v d res d' :
  lru_data (mt_cache d) !! (prefix +:+ v) = None -> lookup_cached prefix col v d = (res, d') ->
  mt_rows d' = mt_rows d /\ forall m, res = Ok m -> m ∈ mt_rows d /\ coll_eq (col m) v = true.
Proof.
  intros Hnone Hrun. destruct (lookup_cached_run _ _ _ _ _ _ Hrun) as (hit & d1 & Hfind & Hcase).
  destruct (lookup_find_run _ _ _ _ _ _ _ Hfind) as (Hrows & _ & _ & Hok & _). split.
  - destruct Hcase as [(_ & m & _ & Hst)|[-> _]]; [|done]. by destruct (lookup_store_run _ _ _ _ _ Hst) as (-> & _).
  - intros m Hm. specialize (Hok m Hm). destruct hit; [|done]. destruct Hok as (e & Hk & _). congruence.
Qed.

(** What the log says about the cache: every entry was put there after a
    query had found it, and expires five minutes after that. *)
Lemma lives_accounts log d :
  lives log d ->
  lru_ttl (mt_cache d) = 5 * minute /\
  (forall key m table, Found key m table ∈ log -> exists prefix col v,
     looked_up prefix col /\ key = prefix +:+ v /\ m ∈ table /\ coll_eq (col m) v = true) /\
  (forall k e, lru_data (mt_cache d) !! k = Some e -> exists table t,
     filled log k (ce_value e) table t /\ ce_expiresAt e = t + 5 * minute).
Proof.
  induction 1 as [d Hnew|log d d' _ IH Hc|log d prefix col v [hit r] d' _ (Ht & Hf & He) Hlk Hfind
    |log d key m table d' _ (Ht & Hf & He) Hin Hst].
  - rewrite Hnew. cbn. split; [done|]. split; [intros key m table Hin; by apply elem_of_nil in Hin|].
    intros k e Hk. by rewrite lookup_empty in Hk.
  - by rewrite Hc.
  - destruct (lookup_find_run _ _ _ _ _ _ _ Hfind) as (_ & Httl & Hsub & Hok & _). split; [congruence|]. split.
    + intros key m table [Hin|Hin]%elem_of_app; [by apply Hf|].
      destruct hit, r as [m0|]; cbn in Hin; try by apply elem_of_nil in Hin.
      apply list_elem_of_singleton in Hin as [= -> -> ->]. destruct (Hok m0 eq_refl). by exists prefix, col, v.
    + intros k e Hk. destruct (He k e (Hsub k e Hk)) as (table & t & Hfl & Hexp). exists table, t.
      split; [by apply filled_app|done].
  - destruct (lookup_store_run _ _ _ _ _ Hst) as (_ & Httl & Hsub). split; [congruence|]. split.
    + intros key' m' table' [Hin'|Hin']%elem_of_app; [by apply Hf in Hin'|].
      by apply list_elem_of_singleton in Hin'.
    + intros k e Hk. destruct (Hsub k e Hk) as [[-> ->]|Hk'].
      * exists table, (mt_Now d).1. cbn. rewrite Ht. split; [|done].
        apply list_elem_of_split in Hin as (l1 & l2 & ->). exists l1, l2, []. by rewrite <- app_assoc.
      * destruct (He k e Hk') as (table' & t & Hfl & Hexp). exists table', t. split; [by apply filled_app|done].
Qed.

(** A whole lookup is a piece of the instance's life. *)
Lemma lookup_lives log d prefix col v res d' :
  lives log d -> looked_up prefix col -> lookup_cached prefix col v d = (res, d') -> exists more, lives (log ++ more) d'.
Proof.
  intros Hl Hlk Hrun. destruct (lookup_cached_run _ _ _ _ _ _ Hrun) as (hit & d1 & Hfind & Hcase).
  pose proof (lives_find _ _ _ _ _ _ _ Hl Hlk Hfind) as Hl1.
  destruct Hcase as [(-> & m & -> & Hst)|[-> _]]; [|eauto]. cbn [found_in] in Hl1.
  exists ([Found (prefix +:+ v) m (mt_rows d)] ++ [Stored (prefix +:+ v) m (mt_Now d1).1]). rewrite app_assoc.
  apply (lives_store _ _ _ _ (mt_rows d) _ Hl1); [|exact Hst].
  apply elem_of_app. right. by apply list_elem_of_singleton.
Qed.

Lemma api_key_of v prefix col v' : looked_up prefix col -> "api:" +:+ v = prefix +:+ v' -> col = m_APIKey /\ v' = v.
Proof.
  intros [] Heq; [|discriminate Heq]. split; [done|].
  change (String "a" (String "p" (String "i" (String ":" v))) = String "a" (String "p" (String "i" (String ":" v')))) in Heq.
  congruence.
Qed.

(** C40. A lookup by API key, at any moment of the life of an instance whose
    lookups interleave with each other and with arbitrary changes of the
    table, leaves the table alone.  The merchant it answers has that key and
    is a row of the table now, or the lookup was answered from the cache with
    a row that an earlier query for the same key had found in the table and
    that was put in the cache at most five minutes before.  It fails only
    after a fault of the server, or with [ErrMerchantNotFound] when no row of
    the table has the key. *)
Theorem GetByAPIKey_sound log d key res d' :
  lives log d -> repo_GetByAPIKey key d = (res, d') ->
  mt_rows d' = mt_rows d /\ (exists more, lives (log ++ more) d') /\
  match res with
  | Ok m => coll_eq (m_APIKey m) key = true /\
      (m ∈ mt_rows d \/
       exists table t, filled log ("api:" +:+ key) m table t /\ m ∈ table /\ (mt_Now d).1 <= t + 5 * minute)
  | Err e => default NoFault (head (mt_faults d)) = NoFault ->
      e = Sentinel ErrMerchantNotFound /\ forall y, y ∈ mt_rows d -> coll_eq (m_APIKey y) key = false
  end.
Proof.
  intros Hl Hg. destruct (lives_accounts _ _ Hl) as (_ & Hf & He).
  destruct (lookup_cached_run _ _ _ _ _ _ Hg) as (hit & d1 & Hfind & Hcase).
  destruct (lookup_find_run _ _ _ _ _ _ _ Hfind) as (Hrows & _ & _ & Hok & Herr). split.
  { destruct Hcase as [(_ & m & _ & Hst)|[-> _]]; [|done]. destruct (lookup_store_run _ _ _ _ _ Hst) as (-> & _). done. }
  split; [by apply (lookup_lives _ _ _ _ _ _ _ Hl by_api_key Hg)|].
  destruct res as [m|e]; [|by apply Herr]. specialize (Hok m eq_refl). destruct hit.
  2: { destruct Hok. auto. }
  destruct Hok as (e & Hk & <- & Hnow). destruct (He _ _ Hk) as (table & t & Hfl & Hexp).
  destruct (Hf ("api:" +:+ key) (ce_value e) table) as (prefix & col & v & Hlk & Hkey & Hin & Hcol).
  { destruct Hfl as (l1 & l2 & l3 & ->). apply elem_of_app. right. by left. }
  destruct (api_key_of _ _ _ _ Hlk Hkey) as [-> ->]. split; [done|]. right. exists table, t.
  split; [done|]. split; [done|]. lia.
Qed.
End Lookup.

(** ** The admin service *)

Section Service.
Context `{Unicode} {M X : Type} `{MerchantRepository M} `{RandBytes X}.

Lemma randomHex_run (x : X) :
  randomHex 32 x = (match (rand_Bytes 32 x).1 with Ok b => Ok (hexEncode b) | Err e => Err e end, (rand_Bytes 32 x).2).
Proof.
  unfold randomHex, bind, ret, rand_Bytes. change (32 <=? 0) with false. cbv beta iota. by destruct (H1 32 x).
Qed.

(** A merchant that is created has a trimmed id of 1 to 64 bytes and a
    trimmed name of 1 to 255, two fresh 32-byte keys in hex, a positive rate
    limit and the active status, and the answer repeats what the repository
    stored; nothing is stored for a request that fails these bounds. *)
Theorem merchant_Create_spec input (d : M) (x : X) res d' x' :
  merchant_Create input (d, x) = (res, (d', x')) ->
  let mID := TrimSpace (cm_MerchantID input) in
  let name := TrimSpace (cm_Name input) in
  match res with
  | Ok r =>
      exists a b x1 m m', 1 <= len mID <= 64 /\ 1 <= len name <= 255 /\
      rand_Bytes 32 x = (Ok a, x1) /\ rand_Bytes 32 x1 = (Ok b, x') /\
      merchants_Insert m d = ((m', Ok tt), d') /\
      m_MerchantID m = mID /\ m_Name m = name /\ m_APIKey m = hexEncode a /\ m_SecretKey m = hexEncode b /\
      0 < m_RateLimit m /\ m_Status m = MerchantStatusActive /\
      r = {| cmr_MerchantID := m_MerchantID m'; cmr_Name := m_Name m'; cmr_APIKey := m_APIKey m';
             cmr_SecretKey := m_SecretKey m'; cmr_CallbackURL := m_CallbackURL m';
             cmr_RateLimit := m_RateLimit m'; cmr_ShardIndex := m_ShardIndex m' |}
  | Err _ => (mID = "" \/ 64 < len mID \/ name = "" \/ 255 < len name -> d' = d /\ x' = x)
  end.
Proof.
  cbn zeta. assert (Hlen : forall v, v <> "" -> 1 <= len v).
  { intros [|c v] Hv; [done|]. unfold len. cbn [String.length]. lia. }
  unfold merchant_Create, ret.
  destruct (bool_decide_reflect (TrimSpace (cm_MerchantID input) = "")) as [|Hm]; cbn [orb].
  { by intros [= <- <- <-]. }
  destruct (Z.ltb_spec 64 (len (TrimSpace (cm_MerchantID input)))) as [|Hm']; [by intros [= <- <- <-]|].
  destruct (bool_decide_reflect (TrimSpace (cm_Name input) = "")) as [|Hn]; cbn [orb].
  { by intros [= <- <- <-]. }
  destruct (Z.ltb_spec 255 (len (TrimSpace (cm_Name input)))) as [|Hn']; [by intros [= <- <- <-]|].
  unfold bind at 1, on_snd at 1. cbn [fst snd]. rewrite randomHex_run.
  destruct (rand_Bytes 32 x) as [[a|e] x1] eqn:Ea; cbn [fst snd].
  2: { intros [= <- <- <-]. intros [?|[?|[?|?]]]; [done|lia|done|lia]. }
  unfold bind at 1, on_snd at 1. cbn [fst snd]. rewrite randomHex_run.
  destruct (rand_Bytes 32 x1) as [[b|e] x2] eqn:Eb; cbn [fst snd].
  2: { intros [= <- <- <-]. intros [?|[?|[?|?]]]; [done|lia|done|lia]. }
  unfold bind at 1, on_fst at 1. cbn [fst snd].
  destruct (merchants_Insert _ d) as [[m' [[]|e]] d1] eqn:Ei; cbn; intros [= <- <- <-].
  2: { intros [?|[?|[?|?]]]; [done|lia|done|lia]. }
  eexists a, b, x1, _, m'. split; [by split; [apply Hlen|]|]. split; [by split; [apply Hlen|]|].
  split; [done|]. split; [done|]. split; [exact Ei|]. cbn. split_and!; try done.
  destruct (Z.leb_spec (cm_RateLimit input) 0); lia.
Qed.
End Service.

Section Unusable.
Context `{Unicode} `{MySQL} {X : Type} `{Client X} `{Clock X}.
Variables (r : multiShardRouter) (s : paymentService).
#[local] Instance repo_of_router : TransactionRepository Db := sql_repo r.

(** A merchant id of more than sixteen bytes, which the admin service
    accepts up to 64, can never be paid: every payment request of such a
    merchant is refused before the database is touched. *)
Theorem long_merchant_id_never_paid m input (d : Db) (x : X) :
  in_Merchant input = Some m -> 16 < len (m_MerchantID m) ->
  exists e, Create (D := Db) s input (d, x) = (Err e, (d, x)).
Proof.
  intros Hm Hlen. unfold Create, ret. rewrite Hm.
  destruct (ValidateOrderID _) as [[]|e]; [|eauto].
  destruct (in_Amount input <=? 0); [eauto|].
  unfold bind at 1, on_fst at 1. cbn [fst snd repo_Insert repo_of_router sql_repo]. unfold Insert, encodeChecks.
  cbn [t_MerchantID newRow]. destruct (Z.ltb_spec 16 (len (m_MerchantID m))); [|lia]. cbn. eauto.
Qed.
End Unusable.
