(* ===== verification/Api.v ===== *)
(** * The HTTP layer (internal/api/middleware, internal/api/handler, pkg/response)

    Requests, responses, the authentication and rate-limit middleware and the
    handlers, composed into the routes of internal/api/router.go.  A handler
    gets the request and the merchant the middleware attached to it, as fiber
    passes [c.Locals]; a middleware takes the rest of the chain as its argument.
    Decoding a JSON body is a parameter; request ids, metrics and logs are left
    out. *)

From S2P Require Import Prelude GoStrings Sha256 Domain TransactionStore StripeTypes Signatures Ports PaymentService.
From S2P Require Import WebhookService CheckoutResolver Merchants.
Local Open Scope Z_scope.

(** What the handlers read of a [fiber.Ctx]: [c.Get], [c.Query], [c.Params]
    (empty when absent), [c.Body] and the request id. *)
Record Request : Type := {
  rq_Get : string -> string;
  rq_Query : string -> string;
  rq_Params : string -> string;
  rq_Body : string;
  rq_RequestID : string;
}.

(** pkg/response: the status code and the envelope. *)
Inductive envelope (A : Type) : Type :=
  | Data (a : A)
  | Fault (code message : string).
Arguments Data {A} _.
Arguments Fault {A} _ _.

Record Response (A : Type) : Type := mkResponse { rs_Status : Z; rs_Envelope : envelope A }.
Arguments mkResponse {A} _ _.
Arguments rs_Status {A} _.
Arguments rs_Envelope {A} _.

Definition Fail {A} (status : Z) (code message : string) : Response A := mkResponse status (Fault code message).
Definition OK {A} (a : A) : Response A := mkResponse 200 (Data a).
Definition Created {A} (a : A) : Response A := mkResponse 201 (Data a).
Definition Accepted {A} (a : A) : Response A := mkResponse 202 (Data a).
Definition BadRequest {A} (code message : string) : Response A := Fail 400 code message.
Definition Unauthorized {A} (code message : string) : Response A := Fail 401 code message.
Definition Conflict {A} (code message : string) : Response A := Fail 409 code message.
Definition TooManyRequests {A} (code message : string) : Response A := Fail 429 code message.
Definition InternalError {A} (code message : string) : Response A := Fail 500 code message.

(** The rest of the chain: the request, the attached merchant, the world. *)
Definition Handler (W A : Type) : Type := Request -> option Merchant -> ST W (Response A).

(** internal/cache/ratelimiter.go: RateLimiter. *)
Class RateLimiter (X : Type) : Type := rl_Allow : string -> Z -> Z -> ST X (result (bool * Z)).

(** ** Middleware *)

Definition HeaderAPIKey : string := "X-API-Key".
Definition HeaderTimestamp : string := "X-Timestamp".
Definition HeaderSignature : string := "X-Signature".
Definition HeaderAdminKey : string := "X-Admin-Key".

Section Middleware.
Context {W X A : Type} `{MerchantRepository X} `{Clock X} `{RateLimiter X}.
(** how the middleware's part of the world sits in the handler's *)
Variable lift : forall B, ST X B -> ST W B.

Definition HMACAuth (skew : Z) (next : Handler W A) : Handler W A := fun c locals =>
  let apiKey := rq_Get c HeaderAPIKey in
  let ts := rq_Get c HeaderTimestamp in
  let sig := rq_Get c HeaderSignature in
  if bool_decide (apiKey = "") || bool_decide (ts = "") || bool_decide (sig = "")
  then ret (Unauthorized "missing_auth_headers" "X-API-Key, X-Timestamp, X-Signature are required")
  else
    match ParseInt ts with
    | None => ret (Unauthorized "bad_timestamp" "X-Timestamp must be unix seconds")
    | Some tsInt =>
        (let! now := lift _ time_Now in
         if outside (Unix now) tsInt skew
         then ret (Unauthorized "timestamp_skew" "X-Timestamp outside acceptable skew")
         else
           let! merchant := lift _ (GetByAPIKey apiKey) in
           match merchant with
           | Err _ => ret (Unauthorized "unknown_api_key" "API key not recognized")
           | Ok merchant =>
               if negb (bool_decide (m_Status merchant = MerchantStatusActive))
               then ret (Unauthorized "merchant_suspended" "merchant is not active")
               else if negb (Hmac.Verify (m_SecretKey merchant) (ts +:+ "." +:+ rq_Body c) sig)
               then ret (Unauthorized "bad_signature" "signature does not match")
               else next c (Some merchant)
           end)%easypay
    end.

Definition RateLimit (next : Handler W A) : Handler W A := fun c locals =>
  match locals with
  | None => next c locals
  | Some m =>
      let limit := if m_RateLimit m <=? 0 then 1000 else m_RateLimit m in
      (let! answer := lift _ (rl_Allow (m_MerchantID m) limit minute) in
       match answer with
       | Err _ => next c locals
       | Ok (allowed, _) =>
           if negb allowed then ret (TooManyRequests "rate_limited" "merchant rate limit exceeded")
           else next c locals
       end)%easypay
  end.

Definition AdminAuth (expected : string) (next : Handler W A) : Handler W A := fun c locals =>
  if bool_decide (expected = "") then ret (Unauthorized "admin_disabled" "admin endpoints disabled")
  else
    let got := rq_Get c HeaderAdminKey in
    if bool_decide (got = "") || negb (bool_decide (got = expected))
    then ret (Unauthorized "bad_admin_key" "X-Admin-Key invalid or missing")
    else next c locals.
End Middleware.

(** ** Request bodies *)

Record createPaymentRequest : Type := {
  cpr_OrderID : string;
  cpr_Amount : Z;
  cpr_Currency : string;
  cpr_PaymentMethodTypes : list string;
  cpr_CustomerEmail : string;
  cpr_SuccessURL : string;
  cpr_CancelURL : string;
}.

Record refundRequest : Type := { rfr_Amount : Z; rfr_Reason : string }.

Record createMerchantRequest : Type := {
  cmq_MerchantID : string; cmq_Name : string; cmq_CallbackURL : string; cmq_RateLimit : Z;
}.

(** [c.BodyParser] at the three types. *)
Class BodyParser : Type := {
  parsePayment : string -> result createPaymentRequest;
  parseRefund : string -> result refundRequest;
  parseMerchant : string -> result createMerchantRequest;
}.

(** The layout "2006-01-02T15:04:05Z" of a UTC time in nanoseconds, by the
    calendar of the proleptic Gregorian year (years counted from March in eras
    of 400 years). *)
Fixpoint digits (n : nat) (z : Z) : string :=
  match n with
  | O => ""
  | S n' => digits n' (z / 10) +:+ String (chr (48 + z mod 10)) ""
  end.

Definition civil (days : Z) : Z * Z * Z :=
  let z := days + 719468 in
  let era := z / 146097 in
  let doe := z mod 146097 in
  let yoe := (doe - doe / 1460 + doe / 36524 - doe / 146096) / 365 in
  let doy := doe - (365 * yoe + yoe / 4 - yoe / 100) in
  let mp := (5 * doy + 2) / 153 in
  let m := if mp <? 10 then mp + 3 else mp - 9 in
  (yoe + era * 400 + (if m <=? 2 then 1 else 0), m, doy - (153 * mp + 2) / 5 + 1).

Definition formatTime (t : Z) : string :=
  let s := Unix t in
  let '(y, m, d) := civil (s / 86400) in
  let sod := s mod 86400 in
  digits 4 y +:+ "-" +:+ digits 2 m +:+ "-" +:+ digits 2 d +:+ "T" +:+
  digits 2 (sod / 3600) +:+ ":" +:+ digits 2 (sod / 60 mod 60) +:+ ":" +:+ digits 2 (sod mod 60) +:+ "Z".

Example formatTime_samples :
  formatTime zero_time = "0001-01-01T00:00:00Z" /\ formatTime 0 = "1970-01-01T00:00:00Z" /\
  formatTime (1709210096 * second) = "2024-02-29T12:34:56Z".
Proof. vm_compute. repeat split. Qed.

Record paymentStatusResponse : Type := {
  psr_OrderID : string; psr_TransactionID : string; psr_Status : string; psr_Amount : Z; psr_Currency : string;
  psr_PaymentMethod : string; psr_StripeSessionID : string; psr_StripePaymentIntentID : string;
  psr_CheckoutURL : string; psr_CreatedAt : string; psr_UpdatedAt : string;
}.

Definition checkoutURLFor (o : Transaction) : string :=
  if bool_decide (t_StripeSessionID o = "") then ""
  else "https://checkout.stripe.com/c/pay/" +:+ t_StripeSessionID o.

(** ** Handlers *)

Section Handlers.
Context `{Unicode} `{ObjectJSON} `{BodyParser}.
Context {D R X : Type} `{TransactionRepository D} `{RedisSetNX R} `{Client X} `{Clock X}
  `{MerchantRepository X} `{EventPublisher X} `{Locker X} `{URLCache X} `{TokenBucket X} `{RateLimiter X}.

(** handler/payment.go *)
Definition paymentInput (c : Request) (merchant : Merchant) (req : createPaymentRequest) : CreatePaymentInput := {|
  in_Merchant := Some merchant; in_OrderID := cpr_OrderID req; in_Amount := cpr_Amount req;
  in_Currency := cpr_Currency req; in_PaymentMethodTypes := cpr_PaymentMethodTypes req;
  in_CustomerEmail := cpr_CustomerEmail req; in_SuccessURL := cpr_SuccessURL req;
  in_CancelURL := cpr_CancelURL req; in_Method := rq_Query c "method" |}.

Definition paymentAnswer (res : result CreatePaymentResult) : Response CreatePaymentResult :=
  match res with
  | Ok res => Accepted res
  | Err e =>
      if errIs e ErrInvalidRequest then BadRequest "invalid_request" (errText e)
      else if errIs e ErrTransactionConflict then Conflict "transaction_conflict" (errText e)
      else InternalError "create_failed" (errText e)
  end.

Definition PaymentHandler_Create (svc : paymentService) : Handler (D * X) CreatePaymentResult := fun c locals =>
  match locals with
  | None => ret (Unauthorized "missing_merchant" "merchant not authenticated")
  | Some merchant =>
      match parsePayment (rq_Body c) with
      | Err _ => ret (BadRequest "bad_json" "invalid JSON body")
      | Ok req => (let! res := Create svc (paymentInput c merchant req) in ret (paymentAnswer res))%easypay
      end
  end.

(** handler/payment_status.go *)
Definition statusOf (order : Transaction) : paymentStatusResponse := {|
  psr_OrderID := t_OrderID order; psr_TransactionID := t_TransactionID order; psr_Status := t_Status order;
  psr_Amount := t_Amount order; psr_Currency := t_Currency order; psr_PaymentMethod := t_PaymentMethod order;
  psr_StripeSessionID := t_StripeSessionID order; psr_StripePaymentIntentID := t_StripePaymentIntentID order;
  psr_CheckoutURL := checkoutURLFor order; psr_CreatedAt := formatTime (t_CreatedAt order);
  psr_UpdatedAt := formatTime (t_UpdatedAt order) |}.

Definition PaymentStatusHandler_Get : Handler (D * X) paymentStatusResponse := fun c locals =>
  let id := rq_Params c "id" in
  if bool_decide (id = "") then ret (BadRequest "missing_id" "order id required")
  else
    match locals with
    | None => ret (Unauthorized "missing_merchant" "merchant not authenticated")
    | Some merchant =>
        (let! order := on_fst (repo_GetByMerchantOrderID (m_ShardIndex merchant) (m_MerchantID merchant) id) in
         ret (match order with
              | Err e =>
                  if errIs e ErrNotFound || errIs e ErrInvalidOrderID then Fail 404 "not_found" "order not found"
                  else InternalError "lookup_failed" (errText e)
              | Ok order => OK (statusOf order)
              end))%easypay
    end.

(** handler/refund.go; a body that does not parse asks for a full refund *)
Definition RefundHandler_Create : Handler (D * (R * X)) RefundResult := fun c locals =>
  match locals with
  | None => ret (Unauthorized "missing_merchant" "merchant not authenticated")
  | Some merchant =>
      let id := rq_Params c "id" in
      if bool_decide (id = "") then ret (BadRequest "missing_id" "order id required")
      else
        let req := match parseRefund (rq_Body c) with Ok req => req | Err _ => {| rfr_Amount := 0; rfr_Reason := "" |} end in
        (let! res := service_CreateRefund {|
           ri_Merchant := Some merchant; ri_OrderID := id; ri_Amount := rfr_Amount req; ri_Reason := rfr_Reason req;
           ri_IdemKey := "refund:" +:+ id +:+ ":" +:+ rq_RequestID c |} in
         ret (match res with
              | Err e => InternalError "refund_failed" (errText e)
              | Ok res => Accepted res
              end))%easypay
  end.

(** handler/webhook.go: only the status code matters to Stripe *)
Definition webhookAnswer (res : result unit) : Response unit :=
  match res with
  | Ok _ => OK tt
  | Err e =>
      if errIs e ErrWebhookDuplicate then OK tt
      else if errIs e ErrWebhookOrderMissing then Fail 500 "" (errText e)
      else Fail 400 "" (errText e)
  end.

Definition WebhookHandler_Stripe (webhookSecret : string) : Handler (D * (R * X)) unit := fun c _ =>
  (let! res := Process webhookSecret (rq_Body c) (rq_Get c "Stripe-Signature") in ret (webhookAnswer res))%easypay.

(** handler/checkout.go: the answer is the target of the redirect or a page *)
Definition sendInvalid : Response string := Fail 410 "" "invalid".
Definition redirectAnswer (res : result string) : Response string :=
  match res with
  | Ok url => mkResponse 302 (Data url)
  | Err e =>
      if errIs e ErrOrderNotFound then Fail 404 "" "not found"
      else if errIs e ErrOrderNotReady then Fail 503 "" "not ready"
      else Fail 503 "" "unavailable"
  end.

Definition CheckoutHandler_Redirect (tokenSecret : string) (resolver : checkoutResolver) : Handler (D * X) string :=
  fun c _ =>
    let merchantID := rq_Params c "merchant_id" in
    let orderID := rq_Params c "order_id" in
    let go := (let! res := Resolve resolver merchantID orderID in ret (redirectAnswer res))%easypay in
    if bool_decide (merchantID = "") || bool_decide (orderID = "") then ret sendInvalid
    else if bool_decide (tokenSecret = "") then go
    else
      let token := rq_Query c "t" in
      if bool_decide (token = "") then ret sendInvalid
      else (let! now := on_snd time_Now in
            match CheckoutToken.Verify now tokenSecret merchantID orderID token with
            | Err _ => ret sendInvalid
            | Ok _ => go
            end)%easypay.

(** ** Routes (internal/api/router.go) *)

Definition route_CreatePayment (skew : Z) (svc : paymentService) : Handler (D * X) CreatePaymentResult :=
  HMACAuth (X := X) (fun B => on_snd) skew (RateLimit (X := X) (fun B => on_snd) (PaymentHandler_Create svc)).

Definition route_GetPayment (skew : Z) : Handler (D * X) paymentStatusResponse :=
  HMACAuth (X := X) (fun B => on_snd) skew (RateLimit (X := X) (fun B => on_snd) PaymentStatusHandler_Get).

Definition route_Refund (skew : Z) : Handler (D * (R * X)) RefundResult :=
  HMACAuth (X := X) (fun B m => on_snd (on_snd m)) skew
    (RateLimit (X := X) (fun B m => on_snd (on_snd m)) RefundHandler_Create).
End Handlers.

Section Admin.
Context `{Unicode} `{BodyParser} {M X : Type} `{MerchantRepository M} `{RandBytes X}.

(** handler/merchant.go *)
Definition MerchantHandler_Create : Handler (M * X) CreateMerchantResult := fun c _ =>
  match parseMerchant (rq_Body c) with
  | Err _ => ret (BadRequest "bad_json" "invalid JSON body")
  | Ok req =>
      (let! res := merchant_Create {|
         cm_MerchantID := cmq_MerchantID req; cm_Name := cmq_Name req; cm_CallbackURL := cmq_CallbackURL req;
         cm_RateLimit := cmq_RateLimit req |} in
       ret (match res with
            | Err e => if errIs e ErrInvalidRequest then BadRequest "invalid_request" (errText e)
                       else InternalError "create_failed" (errText e)
            | Ok res => Created res
            end))%easypay
  end.

Definition route_CreateMerchant (adminKey : string) : Handler (M * X) CreateMerchantResult :=
  AdminAuth adminKey MerchantHandler_Create.
End Admin.
