(* ===== verification/ApiTheorems.v ===== *)
(** * The HTTP layer: what the routes guarantee

    Only a request signed with the secret of an active merchant reaches a
    handler of the merchant API; what a merchant reads and creates is its own;
    a hosted checkout needs its token; and how a failed webhook looks to
    Stripe. *)

From S2P Require Import Prelude GoStrings Sha256 Domain TransactionStore StripeTypes Signatures Ports PaymentService.
From S2P Require Import PaymentTheorems WebhookService WebhookTheorems CheckoutResolver Merchants Api.
Local Open Scope Z_scope.

(** ** Authentication *)

Section Auth.
Context {W X A : Type} `{MerchantRepository X} `{Clock X} `{RateLimiter X}.

(** The request carries a key of merchant [m], which is active, a timestamp
    that passes the skew check at the clock reading, and the HMAC of
    timestamp and body under the merchant's secret; [x1] is the world after
    the two lookups. *)
Record authenticated (skew : Z) (c : Request) (x : X) (m : Merchant) (x1 : X) : Prop := {
  au_key : exists now x0, time_Now x = (now, x0) /\ GetByAPIKey (rq_Get c HeaderAPIKey) x0 = (Ok m, x1) /\
    exists ts, ParseInt (rq_Get c HeaderTimestamp) = Some ts /\ outside (Unix now) ts skew = false;
  au_active : m_Status m = MerchantStatusActive;
  au_mac : hexDecode (rq_Get c HeaderSignature) =
    Some (hmac_sha256 (m_SecretKey m) (rq_Get c HeaderTimestamp +:+ "." +:+ rq_Body c));
}.

Variables (lift : forall B, ST X B -> ST W B) (get : W -> X) (put : X -> W -> W).
Hypothesis lift_run : forall B (m : ST X B) w, lift B m w = ((m (get w)).1, put (m (get w)).2 w).
Hypothesis get_put : forall x w, get (put x w) = x.
Hypothesis put_put : forall x y w, put x (put y w) = put x w.
Hypothesis put_get : forall w, put (get w) w = w.

(** The middleware either refuses with 401 and has only moved its own part of
    the world, or hands an authenticated request to the rest of the chain. *)
Lemma HMACAuth_run skew (next : Handler W A) c locals w resp w' :
  HMACAuth lift skew next c locals w = (resp, w') ->
  (rs_Status resp = 401 /\ exists x, w' = put x w) \/
  (exists m x1, authenticated skew c (get w) m x1 /\ next c (Some m) (put x1 w) = (resp, w')).
Proof.
  unfold HMACAuth, ret. destruct (_ || _ || _).
  { intros [= <- <-]. left. split; [done|]. exists (get w). by rewrite put_get. }
  destruct (ParseInt _) as [ts|] eqn:Ep.
  2: { intros [= <- <-]. left. split; [done|]. exists (get w). by rewrite put_get. }
  unfold bind at 1. rewrite lift_run. destruct (time_Now (get w)) as [now x0] eqn:En. cbn [fst snd].
  destruct (outside _ _ _) eqn:Eo; [intros [= <- <-]; left; eauto|].
  unfold bind at 1. rewrite lift_run, get_put. destruct (GetByAPIKey _ x0) as [[m|e] x1] eqn:Eg; cbn [fst snd]; rewrite put_put.
  2: { intros [= <- <-]. left. eauto. }
  destruct (bool_decide_reflect (m_Status m = MerchantStatusActive)) as [Ha|]; cbn [negb].
  2: { intros [= <- <-]. left. eauto. }
  unfold Hmac.Verify. destruct (hexDecode _) as [sg|] eqn:Eh; [|intros [= <- <-]; left; eauto].
  case_bool_decide as Hm; [|intros [= <- <-]; left; eauto]. cbn [negb]. intros Hn. right. exists m, x1.
  split; [|exact Hn]. split; [|done|by rewrite Eh, Hm]. exists now, x0. eauto.
Qed.

Lemma RateLimit_run (next : Handler W A) c m w resp w' :
  RateLimit lift next c (Some m) w = (resp, w') ->
  exists x, (rs_Status resp = 429 /\ w' = put x w) \/ next c (Some m) (put x w) = (resp, w').
Proof.
  unfold RateLimit, bind, ret. rewrite lift_run. destruct (rl_Allow _ _ _ (get w)) as [[[[] rem]|e] x]; cbn [fst snd negb].
  - intros Hn. exists x. by right.
  - intros [= <- <-]. exists x. by left.
  - intros Hn. exists x. by right.
Qed.
End Auth.

(** The position of the world in the two kinds of state. *)
Lemma on_snd_run {V X B} (m : ST X B) (w : V * X) : on_snd m w = ((m w.2).1, (w.1, (m w.2).2)).
Proof. unfold on_snd. by destruct (m w.2). Qed.

Section Routes.
Context `{Unicode} `{ObjectJSON} `{BodyParser}.
Context {D R X : Type} `{HS : TransactionStore D} `{HR : RedisSetNXLaws R} `{Client X} `{Clock X}
  `{MerchantRepository X} `{EventPublisher X} `{Locker X} `{URLCache X} `{TokenBucket X} `{RateLimiter X}.
Variable skew : Z.

(** A chain of the merchant API on a pair state. *)
Lemma chain_run {A} (next : Handler (D * X) A) c d x resp d' x' :
  HMACAuth (X := X) (fun B => on_snd) skew (RateLimit (X := X) (fun B => on_snd) next) c None (d, x) = (resp, (d', x')) ->
  ((rs_Status resp = 401 \/ rs_Status resp = 429) /\ d' = d) \/
  (exists m x1 x2, authenticated skew c x m x1 /\ next c (Some m) (d, x2) = (resp, (d', x'))).
Proof.
  intros Hr. apply (HMACAuth_run (fun B => on_snd) snd (fun x (w : D * X) => (w.1, x))) in Hr.
  2: { intros B m w. apply on_snd_run. } 2, 3: done. 2: { by intros []. }
  destruct Hr as [[Hs [y [= -> ->]]]|(m & x1 & Ha & Hn)]; [left; eauto|].
  apply (RateLimit_run (fun B => on_snd) snd (fun x (w : D * X) => (w.1, x))) in Hn.
  2: { intros B m' w. apply on_snd_run. }
  destruct Hn as [y [[Hs [= -> ->]]|Hn]]; [left; eauto|]. right. exists m, x1, y. done.
Qed.

(** C16. POST /api/payments: either nothing is stored, or the request was
    signed with the secret of an active merchant within the skew, and what
    ran is [Create] for that merchant; an answer 202 means that the payment
    it describes is stored in that merchant's shard. *)
Theorem payments_api_authenticated svc c d x resp d' x' :
  store_inv d -> (forall req, parsePayment (rq_Body c) = Ok req -> int64_range (cpr_Amount req)) ->
  route_CreatePayment skew svc c None (d, x) = (resp, (d', x')) ->
  (d' = d /\ rs_Status resp <> 202) \/
  (exists m x1 x2 req res, authenticated skew c x m x1 /\ parsePayment (rq_Body c) = Ok req /\
     Create svc (paymentInput c m req) (d, x2) = (res, (d', x')) /\ resp = paymentAnswer res /\
     (rs_Status resp = 202 -> exists ans t, rs_Envelope resp = Data ans /\ t ∈ content d' (m_ShardIndex m) /\
        recorded (HS := HS) svc m (paymentInput c m req) ans t)).
Proof.
  intros Hd Ha [[Hs ->]|(m & x1 & x2 & Hau & Hn)]%chain_run.
  { left. split; [done|]. by destruct Hs as [-> | ->]. }
  unfold PaymentHandler_Create in Hn. destruct (parsePayment (rq_Body c)) as [req|e].
  2: { left. unfold ret in Hn. injection Hn as <- <- <-. done. }
  unfold bind, ret in Hn. destruct (Create svc _ (d, x2)) as [res [d1 y1]] eqn:Ec.
  injection Hn as <- <- <-. right. exists m, x1, x2, req, res. do 4 (split; [done|]). intros Hst.
  destruct res as [ans|e].
  - destruct (Create_recorded svc (paymentInput c m req) d x2 ans d1 y1 Hd (Ha req eq_refl) Ec) as (_ & m' & t & [= <-] & Hin & Hrec).
    exists ans, t. done.
  - unfold paymentAnswer in Hst. by repeat destruct (errIs e _) in Hst.
Qed.

(** C17. GET /api/payments/:id changes nothing, and an answer 200 shows a
    payment of the authenticated merchant with that order id. *)
Theorem status_api_isolated c d x resp d' x' :
  store_inv d -> route_GetPayment skew c None (d, x) = (resp, (d', x')) ->
  (forall s, content d' s = content d s) /\
  (rs_Status resp = 200 -> exists m x1 t, authenticated skew c x m x1 /\ t ∈ content d (m_ShardIndex m) /\
     key_eq (t_MerchantID t) (m_MerchantID m) = true /\ key_eq (t_OrderID t) (rq_Params c "id") = true /\
     rs_Envelope resp = Data (statusOf t)).
Proof.
  intros Hd [[Hs ->]|(m & x1 & x2 & Hau & Hn)]%chain_run.
  { split; [done|]. intros E. rewrite E in Hs. by destruct Hs. }
  unfold PaymentStatusHandler_Get in Hn. case_bool_decide as Hid.
  { unfold ret in Hn. by injection Hn as <- <- <-. }
  unfold bind, ret, on_fst in Hn. cbn [fst snd] in Hn.
  destruct (repo_GetByMerchantOrderID _ _ _ d) as [found d1] eqn:Eg. injection Hn as <- <- <-.
  destruct (get_order_law _ _ _ _ _ _ Hd Eg) as (_ & Hc & Hf). split; [exact Hc|].
  destruct found as [t|e].
  - intros _. exists m, x1, t. apply List.find_some in Hf as [Hin Hk]. apply list_elem_of_In in Hin.
    unfold by_key in Hk. apply andb_true_iff in Hk. tauto.
  - by destruct (_ || _).
Qed.

(** GET /pay/:merchant_id/:order_id with a token secret set: a redirect
    is only sent to the holder of a token for this merchant and order that
    has not expired, and goes where [Resolve] says; without such a token
    nothing is stored. *)
Theorem checkout_redirect_needs_token secret resolver c d x resp d' x' :
  secret <> "" -> CheckoutHandler_Redirect secret resolver c None (d, x) = (resp, (d', x')) ->
  (d' = d /\ rs_Status resp = 410) \/
  (exists now x1 url, time_Now x = (now, x1) /\
     CheckoutToken.Verify now secret (rq_Params c "merchant_id") (rq_Params c "order_id") (rq_Query c "t") = Ok tt /\
     Resolve resolver (rq_Params c "merchant_id") (rq_Params c "order_id") (d, x1) = (url, (d', x')) /\
     (rs_Status resp = 302 <-> is_ok url = true) /\ resp = redirectAnswer url).
Proof.
  intros Hs. unfold CheckoutHandler_Redirect. destruct (_ || _).
  { unfold ret. intros [= <- <- <-]. by left. }
  rewrite (bool_decide_false (secret = "")) by done. case_bool_decide.
  { unfold ret. intros [= <- <- <-]. by left. }
  unfold bind at 1, on_snd at 1. cbn [fst snd]. destruct (time_Now x) as [now x1] eqn:En.
  destruct (CheckoutToken.Verify _ _ _ _ _) as [[]|e] eqn:Ev.
  2: { unfold ret. intros [= <- <- <-]. by left. }
  unfold bind, ret. destruct (Resolve _ _ _ _) as [url [d1 x2]] eqn:Er. intros [= <- <- <-]. right.
  exists now, x1, url. do 3 (split; [done|]). split; [|done].
  destruct url as [u|e]; [done|]. cbn. by repeat destruct (errIs e _).
Qed.

(** C21. A webhook that fails after its mark was set is lost over HTTP: the
    first delivery is answered with 400 or 500, which asks Stripe to try
    again, and the next delivery of the same signed body, while the mark
    lives, is answered 200 without having changed any payment. *)
Theorem webhook_retry_acknowledged secret c ev d r x x1 r1 e d' r' x' y y1 resp2 d2 r2 y2 :
  VerifyWebhookSignature (rq_Body c) (rq_Get c "Stripe-Signature") secret x = (Ok ev, x1) ->
  SetNX (dedupKey ev) "1" (24 * hour) r = (Ok true, r1) -> store_inv d ->
  Process secret (rq_Body c) (rq_Get c "Stripe-Signature") (d, (r, x)) = (Err e, (d', (r', x'))) ->
  errIs e ErrWebhookDuplicate = false ->
  VerifyWebhookSignature (rq_Body c) (rq_Get c "Stripe-Signature") secret y = (Ok ev, y1) ->
  (exists ok r3, SetNX (dedupKey ev) "1" (24 * hour) r' = (Ok ok, r3)) ->
  WebhookHandler_Stripe secret c None (d', (r', y)) = (resp2, (d2, (r2, y2))) ->
  (rs_Status (WebhookHandler_Stripe secret c None (d, (r, x))).1 = 400 \/
   rs_Status (WebhookHandler_Stripe secret c None (d, (r, x))).1 = 500) /\
  rs_Status resp2 = 200 /\ d2 = d'.
Proof.
  intros Hv Hs Hd Hp Hdup Hv2 (ok & r3 & Hs2) Hw. split.
  { unfold WebhookHandler_Stripe, bind, ret. rewrite Hp. unfold webhookAnswer. rewrite Hdup.
    destruct (errIs e ErrWebhookOrderMissing); [right|left]; reflexivity. }
  assert (Hmark : is_Some (live r' (dedupKey ev))).
  { unfold Process, bind at 1, on_world at 1, on_snd at 1 2 in Hp. cbn [fst snd] in Hp. rewrite Hv in Hp.
    unfold bind at 1, on_redis at 1, on_snd at 1, on_fst at 1 in Hp. cbn [fst snd] in Hp. rewrite Hs in Hp.
    destruct (dispatch_spec _ _ _ _ _ _ _ _ Hd Hp) as (_ & -> & _).
    apply setnx_law in Hs as [_ [_ ->]]. by eexists. }
  revert Hw. unfold WebhookHandler_Stripe, bind at 1. unfold Process, bind at 1, on_world at 1, on_snd at 1 2. cbn [fst snd].
  rewrite Hv2. unfold bind at 1, on_redis at 1, on_snd at 1, on_fst at 1. cbn [fst snd]. rewrite Hs2.
  destruct ok.
  { exfalso. apply setnx_law in Hs2 as [_ [Hn _]]. rewrite Hn in Hmark. by destruct Hmark. }
  unfold ret. by intros [= <- <- <- <-].
Qed.
End Routes.

(** ** The admin route *)

Section Admin.
Context `{Unicode} `{BodyParser} {M X : Type} `{MerchantRepository M} `{RandBytes X}.

(** POST /admin/merchants touches nothing without the configured key,
    and is closed when no key is configured. *)
Theorem admin_route_closed adminKey c w :
  (adminKey = "" \/ rq_Get c HeaderAdminKey <> adminKey) ->
  exists code msg, route_CreateMerchant adminKey c None w = (Unauthorized code msg, w).
Proof.
  unfold route_CreateMerchant, AdminAuth, ret. intros Hk. case_bool_decide as He; [eauto|].
  destruct Hk as [?|Hk]; [done|]. rewrite (bool_decide_false (rq_Get c HeaderAdminKey = adminKey)) by done.
  rewrite orb_true_r. eauto.
Qed.
End Admin.
