(* ===== verification/Lifecycle.v ===== *)
(** * From the callback to the merchant's screen

    The theorems of WebhookTheorems and ApiTheorems say what must have been done
    when a call succeeds.  Here is what the gateway does when nothing fails: a
    correctly signed request is let in, the "succeeded" event of a stored
    payment is handled, and the merchant then reads the payment as paid. *)

From S2P Require Import Prelude GoStrings Sha256 Domain TransactionStore StripeTypes Signatures Ports.
From S2P Require Import PaymentService WebhookService WebhookTheorems CheckoutResolver Merchants Api ApiTheorems.
Local Open Scope Z_scope.

(** What the database does for stored payments while it is healthy. *)
Class StoreAnswers (D : Type) `{TransactionStore D} (healthy : D -> Prop) : Prop := {
  answers_paid d sh pi t res d' : store_inv d -> healthy d -> t ∈ content d sh -> len pi <= 64 ->
    repo_UpdateStatus sh (t_MerchantID t) (t_OrderID t) TransactionStatusPaid pi d = (res, d') -> res = Ok tt /\ healthy d';
  answers_read d sh t res d' : store_inv d -> healthy d -> t ∈ content d sh ->
    repo_GetByMerchantOrderID sh (t_MerchantID t) (t_OrderID t) d = (res, d') -> is_ok res = true /\ healthy d';
}.

(** ** A signed request is let in *)

Section Accepts.
Context {W X A : Type} `{MerchantRepository X} `{Clock X} `{RateLimiter X}.
Variables (lift : forall B, ST X B -> ST W B) (get : W -> X) (put : X -> W -> W).
Hypothesis lift_run : forall B (m : ST X B) w, lift B m w = ((m (get w)).1, put (m (get w)).2 w).
Hypothesis get_put : forall x w, get (put x w) = x.
Hypothesis put_put : forall x y w, put x (put y w) = put x w.

Lemma HMACAuth_accepts skew (next : Handler W A) c locals w m x1 :
  rq_Get c HeaderAPIKey <> "" -> authenticated skew c (get w) m x1 ->
  HMACAuth lift skew next c locals w = next c (Some m) (put x1 w).
Proof.
  intros Hkey [(now & x0 & En & Eg & ts & Ep & Eo) Ha Hm]. unfold HMACAuth.
  assert (Hts : rq_Get c HeaderTimestamp <> "") by (intros E; by rewrite E in Ep).
  assert (Hsg : rq_Get c HeaderSignature <> "").
  { intros E. rewrite E in Hm. cbn in Hm. injection Hm as Hm. apply (f_equal String.length) in Hm.
    by rewrite hmac_sha256_length in Hm. }
  rewrite !bool_decide_false by done. cbn [orb]. rewrite Ep. unfold bind at 1. rewrite lift_run, En. cbn [fst snd]. rewrite Eo.
  unfold bind at 1. rewrite lift_run, get_put, Eg. cbn [fst snd]. rewrite put_put, bool_decide_true by done. cbn [negb].
  unfold Hmac.Verify. by rewrite Hm, bool_decide_true.
Qed.

(** The limiter lets a request of the merchant pass, also by failing. *)
Definition lets_pass (m : Merchant) (x x' : X) : Prop :=
  exists a, rl_Allow (m_MerchantID m) (if m_RateLimit m <=? 0 then 1000 else m_RateLimit m) minute x = (a, x') /\
    match a with Ok (ok, _) => ok = true | Err _ => True end.

Lemma RateLimit_accepts (next : Handler W A) c m w x1 :
  lets_pass m (get w) x1 -> RateLimit lift next c (Some m) w = next c (Some m) (put x1 w).
Proof.
  intros (a & Ea & Ha). unfold RateLimit, bind. rewrite lift_run, Ea. cbn [fst snd].
  destruct a as [[ok rem]|e]; [by rewrite Ha|done].
Qed.
End Accepts.

Section Lifecycle.
Context `{Unicode} `{ObjectJSON} `{BodyParser}.
Context {D R X : Type} `{HS : TransactionStore D} `{HR : RedisSetNXLaws R} `{Client X} `{Clock X}
  `{MerchantRepository X} `{EventPublisher X} `{Locker X} `{URLCache X} `{TokenBucket X} `{RateLimiter X}.
Variable healthy : D -> Prop.
Context `{!StoreAnswers D healthy}.
Variables (secret : string) (skew : Z).

Lemma chain_accepts {A} (next : Handler (D * X) A) c d x m x1 x2 :
  rq_Get c HeaderAPIKey <> "" -> authenticated skew c x m x1 -> lets_pass m x1 x2 ->
  HMACAuth (X := X) (fun B => on_snd) skew (RateLimit (X := X) (fun B => on_snd) next) c None (d, x) = next c (Some m) (d, x2).
Proof.
  intros Hk Ha Hp.
  rewrite (HMACAuth_accepts (fun B => on_snd) snd (fun x (w : D * X) => (w.1, x))) with (m := m) (x1 := x1); try done.
  2: { intros B f w. apply on_snd_run. }
  rewrite (RateLimit_accepts (fun B => on_snd) snd (fun x (w : D * X) => (w.1, x))) with (x1 := x2); try done.
  intros B f w. apply on_snd_run.
Qed.

(** A call on one part of the state of a callback. *)
Lemma on_world_run {A} (m : ST X A) (d : D) (r : R) x :
  on_world m (d, (r, x)) = ((m x).1, (d, (r, (m x).2))).
Proof. unfold on_world, on_snd. cbn. by destruct (m x). Qed.

Lemma on_redis_run {A} (m : ST R A) (d : D) (r : R) (x : X) :
  on_redis m (d, (r, x)) = ((m r).1, (d, ((m r).2, x))).
Proof. unfold on_redis, on_snd, on_fst. cbn. by destruct (m r). Qed.

(** The world around a callback, when nothing fails: Stripe confirms the
    intent, the merchants repository knows the merchant, Kafka accepts. *)
Record world_answers (pi : string) (mer : Merchant) : Prop := {
  wa_intent x : pi = "" \/ exists p x', GetPaymentIntent pi x = (Ok p, x') /\ pi_Status p = "succeeded";
  wa_merchant x : exists x', GetByMerchantID (m_MerchantID mer) x = (Ok mer, x');
  wa_publish ev x : exists x', PublishPaymentConfirmed ev x = (Ok tt, x');
}.

Lemma crossCheck_ok pi mer (d : D) (r : R) x :
  world_answers pi mer -> exists x', crossCheck pi (d, (r, x)) = (Ok tt, (d, (r, x'))).
Proof.
  intros [Hi _ _]. unfold crossCheck. case_bool_decide as Hpi; [by exists x|].
  destruct (Hi x) as [?|(p & x' & E & Hs)]; [done|]. exists x'. unfold bind, on_world, on_snd, ret. cbn [fst snd].
  by rewrite E, bool_decide_true.
Qed.

(** The status is written and announced. *)
Lemma paid_transition (mer : Merchant) t pi d (r : R) x :
  store_inv d -> healthy d -> t ∈ content d (m_ShardIndex mer) -> len pi <= 64 -> world_answers pi mer ->
  exists d' x', (let! u := transition (m_ShardIndex mer) (t_MerchantID t) (t_OrderID t) TransactionStatusPaid pi "update order" in
      match u with
      | Err err => ret (Err err)
      | Ok _ => publish (m_ShardIndex mer) (t_MerchantID t) (t_OrderID t) TransactionStatusPaid
      end)%easypay (d, (r, x)) = (Ok tt, (d', (r, x'))) /\
    store_inv d' /\ healthy d' /\
    exists v, content d' (m_ShardIndex mer) =
      (fun t' => if by_key key_eq (t_MerchantID t) (t_OrderID t) t' then put_status TransactionStatusPaid pi v t' else t')
        <$> content d (m_ShardIndex mer).
Proof.
  intros Hd Hh Ht Hl Hw. unfold bind at 1, transition, bind at 1, on_repo, on_fst at 1. cbn [fst snd].
  destruct (repo_UpdateStatus _ _ _ _ _ d) as [u d1] eqn:Eu.
  destruct (answers_paid _ _ _ _ _ _ Hd Hh Ht Hl Eu) as [-> Hh1].
  destruct (update_status_law _ _ _ _ _ _ _ _ Hd Eu) as (Hd1 & [v Hc] & _). cbn [ret].
  assert (Ht1 : put_status TransactionStatusPaid pi v t ∈ content d1 (m_ShardIndex mer)).
  { rewrite Hc. apply list_elem_of_fmap. exists t. split; [|done]. unfold by_key. by rewrite !key_eq_refl. }
  unfold publish, bind at 1, on_repo, on_fst at 1. cbn [fst snd].
  destruct (repo_GetByMerchantOrderID _ _ _ d1) as [o d2] eqn:Eg.
  destruct (answers_read _ _ (put_status TransactionStatusPaid pi v t) _ _ Hd1 Hh1 Ht1 Eg) as [Ho Hh2].
  destruct o as [o|e]; [|done]. destruct (get_order_law _ _ _ _ _ _ Hd1 Eg) as (Hd2 & Hsame & _).
  unfold bind at 1, on_world, on_snd. cbn [fst snd]. destruct (time_Now x) as [now x1].
  match goal with |- context [PublishPaymentConfirmed ?ev] => destruct (wa_publish _ _ Hw ev x1) as [x2 E2] end.
  cbn [fst snd]. rewrite E2. exists d2, x2. split; [done|]. split; [done|]. split; [done|]. exists v. by rewrite Hsame.
Qed.

(** What a merchant reads of a payment that its key matches. *)
Lemma status_reads mer t st pi v c d (x : X) :
  store_inv d -> healthy d -> m_MerchantID mer = t_MerchantID t -> rq_Params c "id" = t_OrderID t -> t_OrderID t <> "" ->
  t ∈ content d (m_ShardIndex mer) ->
  forall d', store_inv d' -> healthy d' ->
  content d' (m_ShardIndex mer) = (fun t' => if by_key key_eq (t_MerchantID t) (t_OrderID t) t' then put_status st pi v t' else t')
    <$> content d (m_ShardIndex mer) ->
  exists o d2, PaymentStatusHandler_Get c (Some mer) (d', x) = (OK (statusOf o), (d2, x)) /\ t_Status o = st.
Proof.
  intros Hd Hh Em Ec Hne Ht d' Hd' Hh' Hc. unfold PaymentStatusHandler_Get. rewrite Ec, bool_decide_false by done.
  unfold bind, on_fst, ret. cbn [fst snd]. rewrite Em.
  destruct (repo_GetByMerchantOrderID _ _ _ d') as [o d2] eqn:Eg.
  assert (Ht' : put_status st pi v t ∈ content d' (m_ShardIndex mer)).
  { rewrite Hc. apply list_elem_of_fmap. exists t. split; [|done]. unfold by_key. by rewrite !key_eq_refl. }
  destruct (answers_read _ _ (put_status st pi v t) _ _ Hd' Hh' Ht' Eg) as [Ho _]. destruct o as [o|e]; [|done].
  destruct (get_order_law _ _ _ _ _ _ Hd' Eg) as (_ & _ & Hf). cbn in Hf.
  exists o, d2. split; [done|]. apply List.find_some in Hf as [Hin Hk]. apply list_elem_of_In in Hin.
  rewrite Hc in Hin. apply list_elem_of_fmap in Hin as (t0 & -> & _).
  destruct (by_key key_eq (t_MerchantID t) (t_OrderID t) t0) eqn:Ek; [done|congruence].
Qed.

(** The types of the events that report a successful payment. *)
Definition success_event (ev : Event) : Prop :=
  ev_Type ev = "payment_intent.succeeded" \/ ev_Type ev = "checkout.session.completed".

(** A verified event that was not handled before and names the payment [t]. *)
Record reports_paid (p sg : string) (r : R) (x : X) (t : Transaction) (pi : string) (r1 : R) : Prop := {
  rp_event : exists ev x1 ob, VerifyWebhookSignature p sg secret x = (Ok ev, x1) /\ success_event ev /\
    SetNX (dedupKey ev) "1" (24 * hour) r = (Ok true, r1) /\ decodeStripeObject (ev_Data ev) = Ok ob /\
    meta ob "order_id" = t_OrderID t /\ meta ob "merchant_id" = t_MerchantID t /\ object_pi ob = pi;
  rp_fits : len pi <= 64;
  rp_named : t_OrderID t <> "" /\ t_MerchantID t <> "";
}.

Lemma Process_pays p sg r x t pi r1 mer d :
  store_inv d -> healthy d -> t ∈ content d (m_ShardIndex mer) -> m_MerchantID mer = t_MerchantID t ->
  reports_paid p sg r x t pi r1 -> world_answers pi mer ->
  exists d' x', Process secret p sg (d, (r, x)) = (Ok tt, (d', (r1, x'))) /\ store_inv d' /\ healthy d' /\
    exists v, content d' (m_ShardIndex mer) =
      (fun t' => if by_key key_eq (t_MerchantID t) (t_OrderID t) t' then put_status TransactionStatusPaid pi v t' else t')
        <$> content d (m_ShardIndex mer).
Proof.
  intros Hd Hh Ht Em [(ev & x1 & ob & Ev & Hty & Es & Eob & Eo & Eme & Epi) Hfit [Hno Hnm]] Hw.
  unfold Process. unfold bind at 1. rewrite on_world_run, Ev. cbn [fst snd].
  unfold bind at 1. rewrite on_redis_run, Es. cbn [fst snd].
  assert (Edis : dispatch ev (D := D) (R := R) (X := X) = handleSucceeded ev).
  { unfold dispatch. destruct Hty as [-> | ->]; done. }
  rewrite Edis. unfold handleSucceeded. rewrite Eob, Eo, Eme, !bool_decide_false by done. cbn [orb]. rewrite Epi.
  destruct (crossCheck_ok pi mer d r1 x1 Hw) as [x2 Ec]. unfold bind at 1. rewrite Ec.
  destruct (wa_merchant _ _ Hw x2) as [x3 E3]. rewrite Em in E3.
  unfold bind at 1, resolveShard. unfold bind at 1. rewrite on_world_run, E3. cbn [ret fst snd].
  apply paid_transition; done.
Qed.

(** C8. When nothing fails, a payment completes: a verified, fresh "succeeded"
    event that names a stored payment is handled without an error, and
    whatever the merchant's part of the world is by then, its signed request
    GET /api/payments/:id that the limiter lets pass is answered 200 with the
    status "paid". *)
Theorem payment_completes p sg r x t pi r1 mer d :
  store_inv d -> healthy d -> t ∈ content d (m_ShardIndex mer) -> m_MerchantID mer = t_MerchantID t ->
  reports_paid p sg r x t pi r1 -> world_answers pi mer ->
  exists d' x', Process secret p sg (d, (r, x)) = (Ok tt, (d', (r1, x'))) /\
    forall c y y1 y2, rq_Get c HeaderAPIKey <> "" -> rq_Params c "id" = t_OrderID t ->
      authenticated skew c y mer y1 -> lets_pass mer y1 y2 ->
      exists ans d2, route_GetPayment skew c None (d', y) = (OK ans, (d2, y2)) /\ psr_Status ans = TransactionStatusPaid.
Proof.
  intros Hd Hh Ht Em Hev Hw. pose proof (rp_named _ _ _ _ _ _ _ Hev) as [Hne _].
  destruct (Process_pays _ _ _ _ _ _ _ _ _ Hd Hh Ht Em Hev Hw) as (d' & x' & E & Hd' & Hh' & v & Hc).
  exists d', x'. split; [exact E|]. intros c y y1 y2 Hk Hid Ha Hp. unfold route_GetPayment.
  rewrite (chain_accepts _ _ _ _ _ _ _ Hk Ha Hp).
  destruct (status_reads mer t TransactionStatusPaid pi v c d y2 Hd Hh Em Hid Hne Ht d' Hd' Hh' Hc) as (o & d2 & -> & Hst).
  by exists (statusOf o), d2.
Qed.
End Lifecycle.
