(* ===== verification/Cache.v ===== *)
(** * Redis and in-process caches (internal/cache)

    The distributed lock and the URL cache.  Redis commands are parameters with
    their documented behaviour; the Lua script of the lock is translated over
    them, and a script runs atomically. *)

From S2P Require Import Prelude GoStrings Domain Ports.
Local Open Scope Z_scope.

(** ** lock.go *)

Class RedisStrings (R : Type) : Type := {
  cmd_GET : string -> ST R (option string);
  cmd_DEL : string -> ST R Z;
}.

(** [EVAL]: the script runs, or the connection fails before or after it. *)
Class RedisEval (R : Type) : Type := Eval_script : forall A, ST R A -> ST R (result A).

Class UUID (U : Type) : Type := uuid_NewString : ST U string.

Section Lock.
Context {R U : Type} `{RedisSetNX R} `{RedisStrings R} `{RedisEval R} `{UUID U}.

Definition redis_Acquire (key : string) (ttl : Z) : ST (R * U) (result Lock) :=
  (let! token := on_snd uuid_NewString in
   let! ok := on_fst (SetNX ("lock:" +:+ key) token ttl) in
   ret (match ok with
        | Err e => Err (Wrap "acquire lock" e)
        | Ok false => Err (Sentinel ErrLockNotAcquired)
        | Ok true => Ok {| lk_key := "lock:" +:+ key; lk_token := token |}
        end))%easypay.

Definition releaseScript (key token : string) : ST R Z :=
  (let! v := cmd_GET key in
   if bool_decide (v = Some token) then cmd_DEL key else ret 0)%easypay.

Definition redis_Release (lk : Lock) : ST (R * U) (result unit) :=
  (let! r := on_fst (Eval_script Z (releaseScript (lk_key lk) (lk_token lk))) in
   ret (match r with
        | Ok _ => Ok tt
        | Err e => if errIs e RedisNil then Ok tt else Err (Wrap "release lock" e)
        end))%easypay.

#[local] Instance redisLocker : Locker (R * U) := {| Acquire := redis_Acquire; Release := redis_Release |}.
End Lock.

(** What the lock relies on: [GET] reads the live value, [DEL] removes the
    key, a script runs once or, on an error, at most once. *)
Class RedisScriptLaws (R : Type) `{RedisSetNXLaws R} `{RedisStrings R} `{RedisEval R} : Prop := {
  get_reads k r v r' : cmd_GET k r = (v, r') -> v = live r k /\ forall k', live r' k' = live r k';
  del_removes k r n r' : cmd_DEL k r = (n, r') ->
    live r' k = None /\ forall k', k' <> k -> live r' k' = live r k';
  eval_runs A (f : ST R A) r a r' : Eval_script A f r = (a, r') ->
    match a with
    | Ok v => f r = (v, r')
    | Err _ => (forall k, live r' k = live r k) \/ exists v, f r = (v, r')
    end;
}.

Section LockTheorem.
Context {R U : Type} `{HL : RedisScriptLaws R} `{UUID U}.

Lemma releaseScript_run key token r n r' :
  releaseScript key token r = (n, r') ->
  (forall k, k <> key -> live r' k = live r k) /\
  (if bool_decide (live r key = Some token) then live r' key = None else live r' key = live r key).
Proof.
  unfold releaseScript, bind, ret. destruct (cmd_GET key r) as [v r1] eqn:Eg.
  destruct (get_reads _ _ _ _ Eg) as [-> Hg]. case_bool_decide.
  - intros [Hk Hne]%del_removes. split; [|done]. intros k Hk'. by rewrite Hne, Hg.
  - intros [= _ <-]. split; [|done]. intros k _. apply Hg.
Qed.

(** The lock is exclusive and is only taken back by its holder: it is
    acquired only when its key was free, and then holds the holder's token;
    releasing removes the key only if it still holds that token, so a holder
    whose lock has expired cannot remove the lock of the next one. *)
Theorem lock_exclusive key ttl (r : R) (u : U) lk r1 (u1 : U) r2 r3 (u2 u3 : U) res :
  redis_Acquire key ttl (r, u) = (Ok lk, (r1, u1)) -> redis_Release lk (r2, u2) = (res, (r3, u3)) ->
  live r ("lock:" +:+ key) = None /\ live r1 ("lock:" +:+ key) = Some (lk_token lk) /\
  lk_key lk = "lock:" +:+ key /\ (forall k, k <> "lock:" +:+ key -> live r3 k = live r2 k) /\
  (live r2 ("lock:" +:+ key) <> Some (lk_token lk) -> live r3 ("lock:" +:+ key) = live r2 ("lock:" +:+ key)) /\
  (forall n, Eval_script Z (releaseScript (lk_key lk) (lk_token lk)) r2 = (Ok n, r3) ->
     live r3 ("lock:" +:+ key) <> Some (lk_token lk) /\ res = Ok tt).
Proof.
  unfold redis_Acquire, bind, on_snd, on_fst, ret. cbn [fst snd]. destruct (uuid_NewString u) as [token u0].
  cbn [fst snd]. destruct (SetNX _ token ttl r) as [[[]|e] r0] eqn:Es; intros [= <- <- <-].
  apply setnx_law in Es as [_ [Hfree Hheld]].
  unfold redis_Release, bind, on_fst, ret. cbn [fst snd lk_key lk_token].
  destruct (Eval_script _ _ r2) as [a r4] eqn:Ev. intros [= <- <- <-]. apply eval_runs in Ev as Hrun.
  do 3 (split; [done|]). destruct a as [n|e].
  - apply releaseScript_run in Hrun as [Hne Hkey]. split; [done|].
    case_bool_decide as Hd; (split; [done|]); intros n' _; (split; [|done]); by rewrite Hkey.
  - assert (Hfr : (forall k, live r4 k = live r2 k) \/
      (forall k, k <> "lock:" +:+ key -> live r4 k = live r2 k) /\
      (live r2 ("lock:" +:+ key) <> Some token -> live r4 ("lock:" +:+ key) = live r2 ("lock:" +:+ key))).
    { destruct Hrun as [?|[v Hrun]]; [by left|]. right. apply releaseScript_run in Hrun as [Hne Hkey]. split; [done|].
      intros Hn. by rewrite bool_decide_false in Hkey by done. }
    split; [|split].
    + destruct Hfr as [Hf|[Hf _]]; [intros k _; apply Hf|exact Hf].
    + destruct Hfr as [Hf|[_ Hf]]; [intros _; apply Hf|exact Hf].
    + intros n Hn. discriminate Hn.
Qed.
End LockTheorem.

(** ** url_cache.go *)

Record urlEntry : Type := { ue_url : string; ue_expiresAt : Z }.
Record urlCache : Type := mkURLCache { uc_data : gmap string urlEntry; uc_maxSize : Z; uc_ttl : Z }.

Definition NewURLCache (maxSize ttl : Z) : urlCache := mkURLCache ∅ maxSize ttl.

Definition urlCache_Get (now : Z) (key : string) (c : urlCache) : option string :=
  match uc_data c !! key with
  | None => None
  | Some e => if ue_expiresAt e <? now then None else Some (ue_url e)
  end.

(** Drop the first expired entry in iteration order. *)
Fixpoint dropExpired (now : Z) (order : list string) (data : gmap string urlEntry) : gmap string urlEntry :=
  match order with
  | [] => data
  | k :: rest =>
      match data !! k with
      | Some e => if ue_expiresAt e <? now then delete k data else dropExpired now rest data
      | None => dropExpired now rest data
      end
  end.

(** [now] is read for the eviction, [now'] for the entry; the two orders are
    those of the two loops over the map. *)
Definition urlCache_Put (now now' : Z) (order order' : list string) (key url : string) (c : urlCache) : urlCache :=
  let full data := uc_maxSize c <=? Z.of_nat (size data) in
  let data := uc_data c in
  let data := if full data then
                let data := dropExpired now order data in
                if full data then match order' with k :: _ => delete k data | [] => data end else data
              else data in
  mkURLCache (<[key := {| ue_url := url; ue_expiresAt := now' + uc_ttl c |}]> data) (uc_maxSize c) (uc_ttl c).

Definition urlCache_Invalidate (key : string) (c : urlCache) : urlCache :=
  mkURLCache (delete key (uc_data c)) (uc_maxSize c) (uc_ttl c).

Lemma dropExpired_sub now order data :
  dropExpired now order data = data \/ exists k, is_Some (data !! k) /\ dropExpired now order data = delete k data.
Proof.
  induction order as [|k order IH]; [by left|]. cbn. destruct (data !! k) as [e|] eqn:Ek; [|done].
  destruct (_ <? _); [|done]. right. exists k. rewrite Ek. split; [by eexists|done].
Qed.

(** The cache keeps its size, and serves what was put until it expires. *)
Theorem urlCache_bounded now now' now'' order order' key url c :
  1 <= uc_maxSize c -> Z.of_nat (size (uc_data c)) <= uc_maxSize c ->
  order' ≡ₚ (map_to_list (dropExpired now order (uc_data c))).*1 ->
  Z.of_nat (size (uc_data (urlCache_Put now now' order order' key url c))) <= uc_maxSize c /\
  urlCache_Get now'' key (urlCache_Put now now' order order' key url c) =
    (if now'' <=? now' + uc_ttl c then Some url else None).
Proof.
  intros Hmax Hsz Hperm. unfold urlCache_Put. cbn [uc_data uc_maxSize].
  set (data := if _ : bool then _ else _).
  assert (Hd : Z.of_nat (size data) <= uc_maxSize c - 1).
  { unfold data. destruct (Z.leb_spec (uc_maxSize c) (Z.of_nat (size (uc_data c)))) as [Hfull|]; [|lia].
    destruct (Z.leb_spec (uc_maxSize c) (Z.of_nat (size (dropExpired now order (uc_data c))))) as [Hf2|]; [|lia].
    destruct order' as [|k order'].
    - apply Permutation_nil_l, (f_equal length) in Hperm. rewrite length_fmap, length_map_to_list in Hperm. cbn in Hperm. lia.
    - assert (Hk : is_Some (dropExpired now order (uc_data c) !! k)).
      { assert (Hin : k ∈ (map_to_list (dropExpired now order (uc_data c))).*1) by (rewrite <- Hperm; left).
        apply list_elem_of_fmap in Hin as ([k' e] & -> & Hin). apply elem_of_map_to_list in Hin. by eexists. }
      rewrite map_size_delete_Some by done.
      destruct (dropExpired_sub now order (uc_data c)) as [->|(k' & Hk' & ->)]; [lia|].
      rewrite map_size_delete_Some by done. lia. }
  split.
  - destruct (data !! key) eqn:Ek; [rewrite map_size_insert_Some by (by eexists)|rewrite map_size_insert_None by done]; lia.
  - unfold urlCache_Get. cbn [uc_data]. rewrite lookup_insert, decide_True by done. cbn [ue_expiresAt ue_url].
    destruct (Z.ltb_spec (now' + uc_ttl c) now''), (Z.leb_spec now'' (now' + uc_ttl c)); try lia; done.
Qed.
