(* ===== verification/TokenBucket.v ===== *)
(** * The token bucket in front of Stripe (internal/cache/token_bucket.go)

    The Lua script computes on doubles: [fl] rounds an exact rational to the
    nearest double, after every operation that may be inexact.  [Rounding]
    states what IEEE 754 guarantees of it.  The hash of one key is the state;
    [PEXPIRE] counts on the clock of the Redis server, the refill on the clock
    of the caller. *)

From Stdlib Require Import QArith Qminmax Qround Lqa.
From S2P Require Import Prelude GoStrings Domain TransactionRepo Ports.
Local Open Scope Q_scope.

Abbreviation of_Z := inject_Z.

(** The unit roundoff of a double, the smallest error near zero, and a range in
    which no operation of the script overflows. *)
Definition ulp : Q := 1 # (2 ^ 53).
Definition tiny : Q := 1 # (2 ^ 1000).
Definition huge : Q := of_Z (2 ^ 300).

Class Rounding (fl : Q -> Q) : Prop := {
  fl_mono x y : x <= y -> fl x <= fl y;
  fl_int z : (0 <= z <= 2 ^ 53)%Z -> fl (of_Z z) == of_Z z;
  fl_err x : 0 <= x -> x <= huge -> x - (ulp * x + tiny) <= fl x /\ fl x <= x + (ulp * x + tiny);
}.

(** ** The script *)

Record bucket : Type := mkBucket { b_tokens : Q; b_ts : Z; b_expire : option Z }.

Section Script.
Variable fl : Q -> Q.
Variable capacity : Z.
Variable refill : Q.

(** The hash, unless it has expired. *)
Definition alive (srv : Z) (st : option bucket) : option bucket :=
  match st with
  | Some b => match b_expire b with Some t => if (t <=? srv)%Z then None else Some b | None => Some b end
  | None => None
  end.

Definition refilled (now_ms : Z) (tokens : Q) (ts : Z) : Q :=
  let elapsed := fl (of_Z (Z.max 0 (now_ms - ts)) / 1000) in
  Qmin (of_Z capacity) (fl (tokens + fl (elapsed * refill))).

(** [math.ceil(capacity / refill * 1000) + 5000] *)
Definition key_ttl : Z := (Qceiling (fl (fl (of_Z capacity / refill) * 1000)) + 5000)%Z.

(** [tbScript]: allowed and the waiting time, and the hash left behind.  A zero
    rate gives PEXPIRE no number: the script stops there with an error, after
    its HSET. *)
Definition tbScript (now_ms srv : Z) (st : option bucket) : result (Z * Z) * option bucket :=
  let data := alive srv st in
  let tokens := match data with Some b => b_tokens b | None => of_Z capacity end in
  let ts := match data with Some b => b_ts b | None => now_ms end in
  let tokens := refilled now_ms tokens ts in
  let '(allowed, wait_ms, tokens) :=
    if Qle_bool 1 tokens then (1%Z, 0%Z, fl (tokens - 1))
    else (0%Z, Qceiling (fl (fl (fl (1 - tokens) / refill) * 1000)), tokens) in
  if Qeq_bool refill 0
  then (Err (Text "ERR value is not an integer or out of range"),
        Some (mkBucket tokens now_ms (match data with Some b => b_expire b | None => None end)))
  else (Ok (allowed, wait_ms), Some (mkBucket tokens now_ms (Some (srv + key_ttl)%Z))).

(** ** Allow *)

(** The clock of the Redis server, and what happens to the connection. *)
Class RedisServer (X : Type) : Type := { redis_Time : ST X Z; redis_Fault : ST X fault }.

Definition UnixMilli (t : Z) : Z := (t / 1000000)%Z.

Definition Allow {X : Type} `{Clock X} `{RedisServer X} : ST (option bucket * X) (result unit) :=
  (let! now := on_snd time_Now in
   let! srv := on_snd redis_Time in
   let! f := on_snd redis_Fault in
   let eval := on_fst (tbScript (UnixMilli now) srv) in
   match f with
   | FailBefore o => ret (Err (Wrap "token bucket eval" (outage_error o)))
   | FailAfter o => let! _r := eval in ret (Err (Wrap "token bucket eval" (outage_error o)))
   | NoFault =>
       let! res := eval in
       ret (match res with
            | Err e => Err (Wrap "token bucket eval" e)
            | Ok (allowed, _) => if (allowed =? 1)%Z then Ok tt else Err (Sentinel ErrRateLimited)
            end)
   end)%easypay.

#[local] Instance redisTokenBucket {X : Type} `{Clock X} `{RedisServer X} : TokenBucket (option bucket * X) := Allow.

(** Calls at the given client and server times, one after the other: how many
    were allowed. *)
Fixpoint granted (calls : list (Z * Z)) (st : option bucket) : Z * option bucket :=
  match calls with
  | [] => (0%Z, st)
  | (now, srv) :: rest =>
      let '(r, st1) := tbScript now srv st in
      let '(n, st2) := granted rest st1 in
      ((match r with Ok (1%Z, _) => 1 + n | _ => n end)%Z, st2)
  end.
End Script.

(** A bucket by its parameters; its state is the hash at [tb_key]. *)
Record redis_bucket : Type := { tb_key : string; tb_capacity : Z; tb_refill : Q }.
Definition NewTokenBucket (key : string) (capacity : Z) (ratePerSec : Q) : redis_bucket := {|
  tb_key := "tb:" +:+ key; tb_capacity := capacity; tb_refill := ratePerSec |}.
Definition bucket_Allow (fl : Q -> Q) {X : Type} `{Clock X} `{RedisServer X} (b : redis_bucket)
    : ST (option bucket * X) (result unit) :=
  Allow fl (tb_capacity b) (tb_refill b).

(** ** Bounds of the arithmetic *)

Section Bounds.
Context (fl : Q -> Q) `{Rounding fl}.
Variable capacity : Z.
Variable refill : Q.
Hypothesis capacity_range : (1 <= capacity <= 2 ^ 53)%Z.
Hypothesis refill_range : 1 <= refill /\ refill <= 9007199254740992.

Lemma cap_bounds : 1 <= of_Z capacity /\ of_Z capacity <= 9007199254740992.
Proof. change 1 with (of_Z 1). change 9007199254740992 with (of_Z (2 ^ 53)). rewrite <- !Zle_Qle. lia. Qed.

Lemma consts : 0 < ulp /\ 0 < tiny /\ ulp * 9007199254740992 == 1 /\ tiny * 1152921504606846976 <= ulp /\
  1000000000000000000000000000000000000000000 <= huge.
Proof. by split_and!; vm_compute. Qed.

Lemma fl_zero : fl 0 == 0.
Proof. by apply (fl_int 0). Qed.

Lemma fl_nonneg x : 0 <= x -> 0 <= fl x.
Proof. intros Hx. pose proof (fl_mono 0 x Hx). rewrite fl_zero in *. done. Qed.

Lemma fl_cap_le x : x <= of_Z capacity -> fl x <= of_Z capacity.
Proof. intros Hx. pose proof (fl_mono _ _ Hx) as Hm. rewrite (fl_int capacity) in Hm by lia. done. Qed.

Lemma fl_ge_cap x : of_Z capacity <= x -> of_Z capacity <= fl x.
Proof. intros Hx. pose proof (fl_mono _ _ Hx) as Hm. rewrite (fl_int capacity) in Hm by lia. done. Qed.

Lemma elapsed_nonneg now ts : 0 <= of_Z (Z.max 0 (now - ts)) / 1000.
Proof.
  apply Qle_shift_div_l; [done|]. rewrite Qmult_0_l. change 0 with (of_Z 0). rewrite <- Zle_Qle. lia.
Qed.

Lemma added_nonneg now ts : 0 <= fl (fl (of_Z (Z.max 0 (now - ts)) / 1000) * refill).
Proof. apply fl_nonneg, Qmult_le_0_compat; [apply fl_nonneg, elapsed_nonneg|lra]. Qed.

Lemma refilled_range now t ts : 0 <= t -> 
  0 <= refilled fl capacity refill now t ts /\ refilled fl capacity refill now t ts <= of_Z capacity.
Proof.
  intros Ht. unfold refilled. pose proof cap_bounds. split; [|apply Q.le_min_l].
  apply Q.min_glb; [lra|]. apply fl_nonneg. pose proof (added_nonneg now ts). lra.
Qed.

Definition bucket_ok (st : option bucket) : Prop :=
  match st with Some b => 0 <= b_tokens b /\ b_tokens b <= of_Z capacity | None => True end.

Lemma alive_ok srv st : bucket_ok st -> bucket_ok (alive srv st).
Proof. unfold alive. destruct st as [b|]; [|done]. destruct (b_expire b) as [t|]; [|done]. by destruct (t <=? srv)%Z. Qed.

(** What one run of the script does: the answer follows the refilled amount, a
    granted call takes one token. *)
Lemma tbScript_step now srv st r st' :
  bucket_ok st -> tbScript fl capacity refill now srv st = (r, st') ->
  exists t ts x b', (t, ts) = match alive srv st with Some b => (b_tokens b, b_ts b) | None => (of_Z capacity, now) end /\
    0 <= t /\ t <= of_Z capacity /\ x = refilled fl capacity refill now t ts /\ st' = Some b' /\
    b_ts b' = now /\ b_expire b' = Some (srv + key_ttl fl capacity refill)%Z /\
    ((1 <= x /\ r = Ok (1, 0)%Z /\ b_tokens b' = fl (x - 1)) \/
     (x < 1 /\ (exists w, r = Ok (0, w)%Z) /\ b_tokens b' = x)).
Proof.
  intros Hok%(alive_ok srv). unfold tbScript.
  set (t := match alive srv st with Some b => b_tokens b | None => of_Z capacity end).
  set (ts := match alive srv st with Some b => b_ts b | None => now end).
  set (x := refilled fl capacity refill now t ts).
  assert (Ht : 0 <= t /\ t <= of_Z capacity).
  { pose proof cap_bounds. subst t. destruct (alive srv st); [done|lra]. }
  assert (Hr : Qeq_bool refill 0 = false).
  { apply not_true_is_false. intros E%Qeq_bool_eq. rewrite E in *. lra. }
  assert (Hts : (t, ts) = match alive srv st with Some b => (b_tokens b, b_ts b) | None => (of_Z capacity, now) end)
    by (subst t ts; by destruct (alive srv st)).
  destruct (Qle_bool 1 x) eqn:Ex; rewrite Hr; intros [= <- <-]; exists t, ts, x, (mkBucket (if Qle_bool 1 x then fl (x - 1) else x) now (Some (srv + key_ttl fl capacity refill)%Z)); rewrite Ex.
  - apply Qle_bool_iff in Ex. split_and!; try done; try lra. left. by split_and!.
  - assert (x < 1) by (apply Qnot_le_lt; intros Hx%Qle_bool_iff; congruence).
    split_and!; try done; try lra. right. split_and!; [done|by eexists|done].
Qed.

(** The tokens of a bucket never leave [0, capacity]. *)
Lemma tbScript_ok now srv st r st' :
  bucket_ok st -> tbScript fl capacity refill now srv st = (r, st') -> bucket_ok st'.
Proof.
  intros Hok (t & ts & x & b' & _ & Ht & Htc & Hx & -> & _ & _ & Hb)%tbScript_step; [|done].
  pose proof (refilled_range now t ts Ht) as [Hx0 Hx1]. rewrite <- Hx in *. cbn.
  destruct Hb as [(H1 & _ & ->)|(_ & _ & ->)]; [|done]. split; [apply fl_nonneg|apply fl_cap_le]; lra.
Qed.

(** ** Expiry of the key *)

Lemma Qmin_cap x : of_Z capacity <= x -> Qmin (of_Z capacity) x = of_Z capacity.
Proof. intros Hx. unfold Qmin, GenericMinMax.gmin. destruct (Qcompare_spec (of_Z capacity) x); [done|done|lra]. Qed.

Lemma refilled_fresh now : refilled fl capacity refill now (of_Z capacity) now = of_Z capacity.
Proof. apply Qmin_cap, fl_ge_cap. pose proof (added_nonneg now now). lra. Qed.

Lemma ulp_cap : ulp * of_Z capacity <= 1.
Proof.
  destruct consts as (Hu & _ & <- & _). destruct cap_bounds as [_ Hc].
  apply Qmult_le_l; [exact Hu|exact Hc].
Qed.

(** How much earlier than [key_ttl] the refill alone has filled the bucket: the
    code adds five seconds. *)
Definition margin : Z := 900.

Lemma added_after_ttl now ts : (ts + key_ttl fl capacity refill <= now + margin)%Z -> (now - ts < 2 ^ 64)%Z ->
  of_Z capacity <= fl (of_Z (Z.max 0 (now - ts)) / 1000) * refill.
Proof.
  intros Httl Hr64. destruct consts as (Hu & Ht & Hu1 & Htu & Hhuge). destruct cap_bounds as [Hc1 Hc2].
  pose proof ulp_cap as Huc. destruct refill_range as [Hr1 Hr2].
  set (q := of_Z capacity / refill). assert (Hq : q * refill == of_Z capacity) by (unfold q; field; lra).
  assert (Hq0 : 0 <= q) by (apply Qle_shift_div_l; lra).
  assert (Hqc : q <= of_Z capacity) by (rewrite <- Hq; nra).
  destruct (fl_err q Hq0) as [Hz1 Hz2]; [lra|]. set (z := fl q) in *.
  assert (Hz0 : 0 <= z) by (apply fl_nonneg; done).
  destruct (fl_err (z * 1000)) as [Hy1 _]; [lra|nra|].
  assert (He : of_Z (Z.max 0 (now - ts)) == of_Z (now - ts)).
  { rewrite Z.max_r; [done|]. unfold key_ttl, margin in Httl.
    assert (0 <= Qceiling (fl (fl (of_Z capacity / refill) * 1000)))%Z; [|lia].
    rewrite Zle_Qle. eapply Qle_trans; [|apply Qle_ceiling]. apply fl_nonneg. fold q z. lra. }
  assert (Hn : fl (z * 1000) + 4100 <= of_Z (now - ts)).
  { unfold key_ttl, margin in Httl. fold q z in Httl. eapply Qle_trans; [apply Qplus_le_l, Qle_ceiling|].
    change 4100 with (of_Z 4100). rewrite <- inject_Z_plus, <- Zle_Qle. lia. }
  assert (Hn64 : of_Z (now - ts) <= 18446744073709551616).
  { change 18446744073709551616 with (of_Z (2 ^ 64)). rewrite <- Zle_Qle. lia. }
  set (e := of_Z (Z.max 0 (now - ts)) / 1000).
  assert (Hee : e * 1000 == of_Z (now - ts)) by (unfold e; rewrite He; field).
  destruct (fl_err e) as [Hf _]; [unfold e; apply elapsed_nonneg|lra|].
  assert (Hus : ulp <= 1 # 1000) by done. assert (Hts : tiny <= 1 # 1000) by done.
  clear - Hq Hz1 Hy1 Hn Hee Hf Huc Hr1 Hc1 Hu Ht Hus Hts Hq0. revert Hz1 Hy1 Hn Hee Hf Huc Hu Ht Hus Hts.
  generalize ulp, tiny. generalize (fl (z * 1000)), (fl e). generalize z, e, (of_Z (now - ts)). clear e z.
  intros z e n y f u tau Hz Hy Hn He Hf Huc Hu Ht Hus Hts.
  assert (Hzw : (1 - u) * ((1 - u) * q - tau) <= (1 - u) * z) by (apply Qmult_le_l; lra).
  assert (Hew : (1 - u) * ((1 - u) * ((1 - u) * q - tau) - tau + (41 # 10)) <= (1 - u) * e) by (apply Qmult_le_l; lra).
  assert (Hf2 : (1 - u) * (1 - u) * (1 - u) * q + (31 # 10) <= f).
  { assert (0 <= u * tau) by nra. assert (u * tau <= 1 # 1000) by nra.
    assert (0 <= u * u * tau) by nra. assert (u * u * tau <= 1 # 1000) by nra.
    assert (E : (1 - u) * ((1 - u) * ((1 - u) * q - tau) - tau + (41 # 10)) ==
      (1 - u) * (1 - u) * (1 - u) * q + (41 # 10) - (41 # 10) * u - 2 * tau + 3 * (u * tau) - u * u * tau) by ring.
    rewrite E in Hew. revert Hew. generalize ((1 - u) * (1 - u) * (1 - u) * q). intros Q3 Hew. lra. }
  assert (Hfr : ((1 - u) * (1 - u) * (1 - u) * q + (31 # 10)) * refill <= f * refill) by (apply Qmult_le_r; lra).
  assert (Hexp : ((1 - u) * (1 - u) * (1 - u) * q + (31 # 10)) * refill ==
    of_Z capacity - 3 * (u * of_Z capacity) + 3 * (u * (u * of_Z capacity)) - u * (u * (u * of_Z capacity)) + (31 # 10) * refill)
    by (rewrite <- Hq; ring).
  assert (0 <= u * of_Z capacity) by nra.
  assert (u * (u * (u * of_Z capacity)) <= u * (u * of_Z capacity)) by nra.
  assert (0 <= u * (u * of_Z capacity)) by nra. lra.
Qed.

Lemma refilled_after_ttl now t ts :
  0 <= t -> (ts + key_ttl fl capacity refill <= now + margin)%Z -> (now - ts < 2 ^ 64)%Z ->
  refilled fl capacity refill now t ts = of_Z capacity.
Proof.
  intros Ht Httl H64. apply Qmin_cap, fl_ge_cap.
  pose proof (fl_ge_cap _ (added_after_ttl now ts Httl H64)). lra.
Qed.

(** Letting the key expire never changes an answer: a bucket that has been
    idle for its time to live is full by its own refill, so that the script
    run on the expired key and on the key that was kept give the same answer
    and leave the same hash. *)
Theorem expiry_transparent now srv b :
  0 <= b_tokens b -> (b_ts b + key_ttl fl capacity refill <= now)%Z -> (now - b_ts b < 2 ^ 64)%Z ->
  tbScript fl capacity refill now srv (Some b) =
  tbScript fl capacity refill now srv (Some (mkBucket (b_tokens b) (b_ts b) None)).
Proof.
  intros Ht Httl H64. unfold tbScript at 1. cbn [alive]. destruct (b_expire b) as [t|] eqn:Eb.
  2: { unfold tbScript, alive. cbn [b_expire b_tokens b_ts]. by rewrite Eb. }
  unfold tbScript. cbn [alive b_expire b_tokens b_ts].
  destruct (t <=? srv)%Z.
  - rewrite refilled_fresh, refilled_after_ttl by (done || unfold margin; lia). done.
  - rewrite Eb. rewrite refilled_after_ttl by (done || unfold margin; lia).
    assert (E : Qeq_bool refill 0 = false).
    { apply not_true_is_false. intros E%Qeq_bool_eq. rewrite E in *. lra. }
    rewrite E. by destruct (Qle_bool 1 (of_Z capacity)).
Qed.
(** ** The long-run rate *)

(** The refill rate with the rounding of one call, and the milliseconds a
    sequence of clock readings moves forward. *)
Definition rate : Q := (1 + ulp) * (1 + ulp) * (1 + ulp) * refill.
Fixpoint advance (last : Z) (nows : list Z) : Z :=
  match nows with [] => 0%Z | now :: rest => (Z.max 0 (now - last) + advance now rest)%Z end.

Lemma refilled_upper now t ts : 0 <= t -> t <= of_Z capacity -> (now - ts < 2 ^ 64)%Z ->
  refilled fl capacity refill now t ts <=
  t + rate * (of_Z (Z.max 0 (now - ts)) / 1000) + 2 * (ulp * of_Z capacity).
Proof.
  intros Ht Htc H64. unfold refilled, rate. pose proof (elapsed_nonneg now ts) as He0.
  assert (He1 : of_Z (Z.max 0 (now - ts)) / 1000 <= 18446744073709551616).
  { assert (of_Z (Z.max 0 (now - ts)) <= of_Z (2 ^ 64)) by (rewrite <- Zle_Qle; lia).
    change (of_Z (2 ^ 64)) with 18446744073709551616 in *. apply Qle_shift_div_r; [done|].
    assert (0 <= of_Z (Z.max 0 (now - ts))) by (change 0 with (of_Z 0); rewrite <- Zle_Qle; lia). lra. }
  set (e := of_Z (Z.max 0 (now - ts)) / 1000) in *.
  destruct consts as (Hu & Hta & Hu1 & Htu & Hhuge). destruct cap_bounds as [Hc1 Hc2]. destruct refill_range as [Hr1 Hr2].
  assert (Hus : ulp <= 1 # 1000) by done. assert (Hts : tiny <= 1 # 1000) by done.
  destruct (fl_err e He0) as [_ Hf]; [lra|].
  assert (Hf0 : 0 <= fl e) by (apply fl_nonneg; done).
  assert (Hf1 : fl e <= 36893488147419103232) by nra.
  assert (Hfr : fl e * refill <= (e + (ulp * e + tiny)) * refill) by (apply Qmult_le_r; lra).
  assert (Hfrb : fl e * refill <= 36893488147419103232 * 9007199254740992) by nra.
  assert (Hfr0 : 0 <= fl e * refill) by nra.
  destruct (fl_err (fl e * refill) Hfr0) as [_ Ha]; [lra|].
  assert (Ha0 : 0 <= fl (fl e * refill)) by (by apply fl_nonneg).
  assert (Hab : fl (fl e * refill) <= 36893488147419103232 * 9007199254740992 * 2) by nra.
  destruct (fl_err (t + fl (fl e * refill))) as [_ Hx]; [lra|lra|].
  eapply Qle_trans; [apply Q.le_min_r|].
  revert Hx Ha. generalize (fl (t + fl (fl e * refill))). revert Ha0 Hab.
  generalize (fl (fl e * refill)). revert Hfr Hf Hf0 Hf1 Hfrb Hfr0. generalize (fl e).
  clearbody e. clear - Ht Htc Hu Hta Htu Hus Hts Hc1 Hr1 Hr2. revert Hu Hta Htu Hus Hts. generalize ulp, tiny.
  intros u tau Hu Hta Htu Hus Hts f Hfr _ _ _ _ _ a Ha0 _ x Hx Ha.
  assert (Haw : (1 + u) * (f * refill) <= (1 + u) * ((e + (u * e + tau)) * refill)) by (apply Qmult_le_l; lra).
  assert (Hxw : (1 + u) * a <= (1 + u) * ((1 + u) * ((e + (u * e + tau)) * refill) + tau))
    by (apply Qmult_le_l; lra).
  assert (Hslack : u * t + (1 + u) * ((1 + u) * (tau * refill)) + (1 + u) * tau + tau <= 2 * (u * of_Z capacity)).
  { assert (u * t <= u * of_Z capacity) by (apply Qmult_le_l; done).
    assert (u * 1 <= u * of_Z capacity) by (apply Qmult_le_l; done).
    assert (Htr : tau * refill <= tau * 9007199254740992) by (apply Qmult_le_l; done).
    assert (0 <= tau * refill) by nra. revert Htr H1. generalize (tau * refill). intros p Htr Hp.
    assert ((1 + u) * p <= 2 * p) by nra. assert ((1 + u) * ((1 + u) * p) <= (1 + u) * (2 * p)) by (apply Qmult_le_l; lra).
    assert ((1 + u) * tau <= 2 * tau) by nra. lra. }
  assert (E : (1 + u) * ((1 + u) * ((e + (u * e + tau)) * refill) + tau) ==
    (1 + u) * (1 + u) * (1 + u) * refill * e + (1 + u) * ((1 + u) * (tau * refill)) + (1 + u) * tau) by ring.
  rewrite E in Hxw. revert Hxw Hslack. generalize ((1 + u) * (1 + u) * (1 + u) * refill * e),
    ((1 + u) * ((1 + u) * (tau * refill))). intros p1 p2 Hxw Hslack. lra.
Qed.

Lemma take_upper x : 1 <= x -> x <= of_Z capacity -> fl (x - 1) <= x - 1 + ulp * of_Z capacity.
Proof.
  intros Hx Hc. destruct consts as (Hu & Hta & Hu1 & Htu & Hhuge). destruct cap_bounds as [Hc1 Hc2].
  destruct (fl_err (x - 1)) as [_ Hf]; [lra|lra|].
  assert (ulp * x <= ulp * of_Z capacity) by (apply Qmult_le_l; lra). lra.
Qed.
(** A call at the time [c.1] of the caller and [c.2] of the server: the two
    clocks are [off] apart, up to less than half a second. *)
Definition in_step (off : Z) (c : Z * Z) : Prop :=
  (0 <= c.1 < 2 ^ 63)%Z /\ (Z.abs (c.2 - c.1 - off) <= 450)%Z.

(** The key of a bucket expires [key_ttl] after the call that wrote it. *)
Definition expires_by (off : Z) (b : bucket) : Prop :=
  exists srv, in_step off (b_ts b, srv) /\ b_expire b = Some (srv + key_ttl fl capacity refill)%Z.

(** One call. *)
Lemma call_upper off now srv b r st' :
  bucket_ok (Some b) -> expires_by off b -> in_step off (now, srv) ->
  tbScript fl capacity refill now srv (Some b) = (r, st') ->
  exists b', st' = Some b' /\ bucket_ok st' /\ b_ts b' = now /\ expires_by off b' /\
    (match r with Ok (1%Z, _) => 1 | _ => 0 end) + b_tokens b' <=
    b_tokens b + rate * (of_Z (Z.max 0 (now - b_ts b)) / 1000) + 3 * (ulp * of_Z capacity).
Proof.
  intros Hb (srv0 & [Hts Hoff0] & Hexp) [Hnow Hoff] Hrun. cbn in Hts, Hoff0, Hnow, Hoff. pose proof (tbScript_ok _ _ _ _ _ Hb Hrun) as Hok'.
  apply tbScript_step in Hrun as (t & ts & x & b' & Et & Ht & Htc & Hx & -> & Hb1 & Hb2 & Hr); [|done].
  exists b'. do 3 (split; [done|]). split; [exists srv; rewrite Hb1; by split|]. destruct Hb as [Hb0 Hbc].
  assert (Hxb : x = refilled fl capacity refill now (b_tokens b) (b_ts b)).
  { rewrite Hx. cbn [alive] in Et. rewrite Hexp in Et.
    destruct (Z.leb_spec (srv0 + key_ttl fl capacity refill) srv) as [Hle|Hgt].
    - injection Et as -> ->. rewrite refilled_fresh, refilled_after_ttl by (done || unfold margin; lia). done.
    - by injection Et as -> ->. }
  assert (H64 : (now - b_ts b < 2 ^ 64)%Z) by lia.
  pose proof (refilled_upper now _ _ Hb0 Hbc H64) as Hup. rewrite <- Hxb in Hup.
  pose proof (refilled_range now _ (b_ts b) Hb0) as [_ Hxc]. rewrite <- Hxb in Hxc.
  destruct consts as (Hu & _). destruct cap_bounds as [Hc1 _].
  assert (0 <= ulp * of_Z capacity) by (apply Qmult_le_0_compat; lra).
  revert Hup. generalize (rate * (of_Z (Z.max 0 (now - b_ts b)) / 1000)). intros g Hup.
  destruct Hr as [(H1 & -> & ->)|(_ & [w ->] & ->)]; cbv beta iota; [pose proof (take_upper _ H1 Hxc)|]; lra.
Qed.

Lemma granted_upper off calls b k st' :
  bucket_ok (Some b) -> expires_by off b -> Forall (in_step off) calls ->
  granted fl capacity refill calls (Some b) = (k, st') ->
  of_Z k <= b_tokens b + rate * (of_Z (advance (b_ts b) calls.*1) / 1000) +
            of_Z (Z.of_nat (length calls)) * (3 * (ulp * of_Z capacity)).
Proof.
  revert b k. induction calls as [|[now srv] calls IH]; intros b k Hb Hexp Hcalls.
  { intros [= <- <-]. cbn [fmap list_fmap advance length]. destruct Hb. change (Z.of_nat 0) with 0%Z. change (of_Z 0) with 0. unfold Qdiv. lra. }
  apply Forall_cons in Hcalls as [Hc Hcalls]. cbn [granted].
  destruct (tbScript fl capacity refill now srv (Some b)) as [r st1] eqn:Er.
  apply (call_upper off) in Er as (b1 & -> & Hok1 & Hts1 & Hexp1 & Hup); [|done..].
  destruct (granted _ _ _ _ (Some b1)) as [n st2] eqn:En. intros [= <- <-].
  subst now. apply IH in En; [|done..]. clear IH. cbn [fmap list_fmap fst advance length].
  rewrite Nat2Z.inj_succ, <- Z.add_1_l, !inject_Z_plus. change (of_Z 1) with 1.
  unfold Qdiv in *. revert En Hup. generalize (rate), (of_Z (Z.of_nat (length calls))), (ulp * of_Z capacity).
  intros rt ln u En Hup.
  destruct r as [[[|[]|] ?]|?]; cbv beta iota in Hup |- *; rewrite ?inject_Z_plus; change (of_Z 1) with 1; lra.
Qed.

(** C33. The bucket keeps its rate, over any run of calls of one clock: let the
    capacity be from 1 to 2^53, the refill from one to 2^53 tokens a second, and
    the clock of the Redis server stay at a constant distance from the clock of the callers, up to 450
    milliseconds either way.  Then, from an empty hash, the calls let through are
    at most the capacity plus the refill rate times the time the readings of the
    clock move forward, up to the rounding of the doubles (three units in the
    last place of the capacity for each call). *)
Theorem bucket_rate_respected off now srv calls k st' :
  in_step off (now, srv) -> Forall (in_step off) calls ->
  granted fl capacity refill ((now, srv) :: calls) None = (k, st') ->
  of_Z k <= of_Z capacity + rate * (of_Z (advance now calls.*1) / 1000) +
            of_Z (Z.of_nat (S (length calls))) * (3 * (ulp * of_Z capacity)).
Proof.
  intros Hnow Hcalls. cbn [granted].
  destruct (tbScript fl capacity refill now srv None) as [r st1] eqn:Er.
  pose proof (tbScript_ok _ _ None _ _ I Er) as Hok1.
  apply tbScript_step in Er as (t & ts & x & b1 & Et & _ & _ & Hx & -> & Hts1 & Hexp1 & Hr); [|done].
  injection Et as -> ->. rewrite refilled_fresh in Hx. subst x.
  destruct (granted _ _ _ _ (Some b1)) as [n st2] eqn:En. intros [= <- <-].
  subst now. apply (granted_upper off) in En; [|done|by exists srv|done].
  destruct consts as (Hu & _). destruct cap_bounds as [Hc1 _].
  assert (0 <= ulp * of_Z capacity) by (apply Qmult_le_0_compat; lra).
  rewrite Nat2Z.inj_succ, <- Z.add_1_l, inject_Z_plus. change (of_Z 1) with 1. unfold Qdiv in *.
  revert En. generalize (rate * (of_Z (advance (b_ts b1) calls.*1) * / 1000)), (of_Z (Z.of_nat (length calls))).
  intros g ln En. destruct Hr as [(H1 & -> & Hb)|(H1 & _ & _)]; [|lra].
  rewrite inject_Z_plus. change (of_Z 1) with 1. rewrite Hb in En.
  pose proof (take_upper _ H1 (Qle_refl _)). lra.
Qed.

(** ** Clocks that disagree *)

Section Skew.
Variables (slow secs : Z).
Hypothesis capacity_two : (2 <= capacity)%Z.
Hypothesis secs_range : (0 < secs <= 1000000)%Z.
Hypothesis two_tokens : 2 <= of_Z secs * refill.

Definition at_slow (st : option bucket) : Prop :=
  bucket_ok st /\ match st with Some b => b_ts b = slow | None => True end.

Lemma fl_ge n x : (0 <= n <= 2 ^ 53)%Z -> of_Z n <= x -> of_Z n <= fl x.
Proof. intros Hn Hx. pose proof (fl_mono _ _ Hx) as Hm. by rewrite (fl_int n) in Hm by lia. Qed.

Lemma fast_call srv st : at_slow st ->
  exists b', tbScript fl capacity refill (slow + 1000 * secs) srv st = (Ok (1, 0)%Z, Some b') /\
    bucket_ok (Some b') /\ b_ts b' = (slow + 1000 * secs)%Z /\ 1 <= b_tokens b'.
Proof.
  intros [Hok Hslow]. destruct (tbScript _ _ _ _ srv st) as [r st'] eqn:Er.
  pose proof (tbScript_ok _ _ _ _ _ Hok Er) as Hok'.
  apply tbScript_step in Er as (t & ts & x & b' & Et & Ht & Htc & Hx & -> & Hts & _ & Hr); [|done].
  exists b'. assert (Hx2 : 2 <= x).
  { subst x. unfold refilled. apply Q.min_glb; [change 2 with (of_Z 2); rewrite <- Zle_Qle; lia|].
    destruct (alive srv st) as [b|] eqn:Ea.
    - assert (st = Some b) as ->.
      { unfold alive in Ea. destruct st as [b0|]; [|done]. destruct (b_expire b0) as [e|]; [|done]. by destruct (e <=? srv)%Z. }
      injection Et as -> ->. rewrite Hslow.
      replace (Z.max 0 (slow + 1000 * secs - slow))%Z with (secs * 1000)%Z by lia.
      apply (fl_ge 2); [lia|]. change (of_Z 2) with 2.
      assert (2 <= fl (fl (of_Z (secs * 1000) / 1000) * refill)); [|lra]. apply (fl_ge 2); [lia|].
      assert (Hs : of_Z secs <= fl (of_Z (secs * 1000) / 1000)).
      { apply fl_ge; [lia|]. rewrite inject_Z_mult. change (of_Z 1000) with 1000. apply Qle_shift_div_l; [done|]. lra. }
      change (of_Z 2) with 2. assert (of_Z secs * refill <= fl (of_Z (secs * 1000) / 1000) * refill); [|lra].
      apply Qmult_le_r; [lra|exact Hs].
    - injection Et as -> ->. apply (fl_ge 2); [lia|]. change (of_Z 2) with 2.
      pose proof (added_nonneg (slow + 1000 * secs) (slow + 1000 * secs)).
      assert (2 <= of_Z capacity) by (change 2 with (of_Z 2); rewrite <- Zle_Qle; lia). lra. }
  destruct Hr as [(_ & -> & Hb)|(Hx1 & _)]; [|lra]. do 3 (split; [done|]).
  rewrite Hb. apply (fl_ge 1); [lia|]. change (of_Z 1) with 1. lra.
Qed.

Lemma slow_call srv b : bucket_ok (Some b) -> 1 <= b_tokens b ->
  exists b', tbScript fl capacity refill slow srv (Some b) = (Ok (1, 0)%Z, Some b') /\ at_slow (Some b').
Proof.
  intros Hok H1. destruct (tbScript _ _ _ _ srv (Some b)) as [r st'] eqn:Er.
  pose proof (tbScript_ok _ _ _ _ _ Hok Er) as Hok'.
  apply tbScript_step in Er as (t & ts & x & b' & Et & Ht & Htc & Hx & -> & Hts & _ & Hr); [|done].
  exists b'. destruct cap_bounds as [Hc1 _]. assert (Hx1 : 1 <= x).
  { subst x. unfold refilled. apply Q.min_glb; [done|]. apply (fl_ge 1); [lia|]. change (of_Z 1) with 1.
    pose proof (added_nonneg slow ts). assert (1 <= t); [|lra].
    destruct (alive srv (Some b)) as [b0|] eqn:Ea; injection Et as -> _; [|done].
    unfold alive in Ea. destruct (b_expire b) as [e|]; [destruct (e <=? srv)%Z|]; by simplify_eq. }
  destruct Hr as [(_ & -> & Hb)|(Hlt & _)]; [|lra]. done.
Qed.

(** The calls of the two instances, in turn, at any times of the server. *)
Definition alternating (srvs : list (Z * Z)) : list (Z * Z) :=
  flat_map (fun s => [(slow + 1000 * secs, s.1); (slow, s.2)]%Z) srvs.

(** The limit does not hold across callers whose clocks differ: two
    instances whose clocks are some whole seconds apart, with at least two
    tokens refilled in that difference, are let through for ever when they
    call in turn, since each call of the slow one puts the time back that the
    next call of the fast one is paid for. *)
Theorem skewed_clocks_unlimited srvs :
  exists st', granted fl capacity refill (alternating srvs) None = (2 * Z.of_nat (length srvs), st')%Z.
Proof.
  assert (Hgen : forall st, at_slow st ->
    exists st', granted fl capacity refill (alternating srvs) st = (2 * Z.of_nat (length srvs), st')%Z).
  2: { by apply Hgen. }
  induction srvs as [|[s1 s2] srvs IH]; intros st Hst; [by exists st|].
  cbn [alternating flat_map app granted fst snd length].
  destruct (fast_call s1 st Hst) as (b1 & -> & Hok1 & _ & H1).
  destruct (slow_call s2 b1 Hok1 H1) as (b2 & -> & Hst2).
  destruct (IH _ Hst2) as [st' E]. unfold alternating in E. rewrite E. exists st'. f_equal. lia.
Qed.
End Skew.
End Bounds.
