(* ===== verification/RateLimiter.v ===== *)
(** * The sliding-window rate limiter (internal/cache/ratelimiter.go)

    The commands of Redis that the script calls are a parameter ([RedisZSets]),
    of which [RedisZSetLaws] states the documented behaviour: what they do to
    the members of a sorted set and to the time at which its key expires.  The
    Lua script computes on doubles, rounded by [fl] as in TokenBucket.  [now] is
    the clock of the caller in nanoseconds, [srv] that of the Redis server in
    milliseconds. *)

From Stdlib Require Import QArith Qround Lqa.
From S2P Require Import Prelude GoStrings Domain TransactionRepo Ports Api TokenBucket.
Local Open Scope Z_scope.

(** ** Sorted sets *)

(** [redis_tick srv]: what the server does until its clock shows [srv]. *)
Class RedisZSets (R : Type) : Type := {
  cmd_ZREMRANGEBYSCORE : string -> Q -> Q -> ST R Z;
  cmd_ZCARD : string -> ST R Z;
  cmd_ZADD : string -> Q -> string -> ST R Z;
  cmd_PEXPIRE : string -> Z -> ST R Z;
  redis_tick : Z -> ST R unit;
}.

Definition in_range (lo hi score : Q) : bool := Qle_bool lo score && Qle_bool score hi.

(** The members of the set at a key (none: there is no such key), when the key
    expires, and the clock of the server.  A key is not dropped before its
    time. *)
Class RedisZSetLaws (R : Type) `{RedisZSets R} : Type := {
  members : R -> string -> gmap string Q;
  deadline : R -> string -> option Z;
  server_clock : R -> Z;
  zrem_law k lo hi r n r' : cmd_ZREMRANGEBYSCORE k lo hi r = (n, r') ->
    server_clock r' = server_clock r /\
    members r' k = filter (fun m => in_range lo hi m.2 = false) (members r k) /\
    (members r' k <> ∅ -> deadline r' k = deadline r k) /\
    forall k', k' <> k -> members r' k' = members r k' /\ deadline r' k' = deadline r k';
  zcard_law k r n r' : cmd_ZCARD k r = (n, r') ->
    n = Z.of_nat (size (members r k)) /\ server_clock r' = server_clock r /\
    forall k', members r' k' = members r k' /\ deadline r' k' = deadline r k';
  zadd_law k score member r n r' : cmd_ZADD k score member r = (n, r') ->
    server_clock r' = server_clock r /\ members r' k = <[member := score]> (members r k) /\
    forall k', k' <> k -> members r' k' = members r k' /\ deadline r' k' = deadline r k';
  pexpire_law k ms r n r' : cmd_PEXPIRE k ms r = (n, r') -> 0 < ms ->
    members r' k = members r k /\ (members r k <> ∅ -> deadline r' k = Some (server_clock r + ms));
  pexpire_frame k ms r n r' : cmd_PEXPIRE k ms r = (n, r') ->
    forall k', k' <> k -> members r' k' = members r k' /\ deadline r' k' = deadline r k';
  tick_law srv r u r' : redis_tick srv r = (u, r') ->
    server_clock r' = srv /\
    forall k, members r' k = members r k /\ deadline r' k = deadline r k \/ exists t, deadline r k = Some t /\ t <= srv;
}.

(** What EVAL returns: an integer or something else, or an array of these. *)
Inductive item : Type := IInt (n : Z) | IOther.
Inductive reply : Type := RItem (i : item) | RArr (l : list item).

(** A Lua number as a Redis integer. *)
Definition lua_int (q : Q) : Z := if Qle_bool 0 q then Qfloor q else Qceiling q.

Section Limiter.
Variable fl : Q -> Q.
Context {R : Type} `{RedisZSets R}.

(** [now - windowNs] *)
Definition window_cutoff (now window : Z) : Q := fl (fl (of_Z now) - fl (of_Z window))%Q.

(** [math.ceil(windowNs / 1000000)] *)
Definition window_ms (window : Z) : Z := Qceiling (fl (fl (of_Z window) / 1000000)%Q).

(** ** The script *)

Definition slidingWindowScript (key : string) (now window limit : Z) (member : string) : ST R reply :=
  let limit := fl (of_Z limit) in
  (let! _n := cmd_ZREMRANGEBYSCORE key 0 (window_cutoff now window) in
   let! count := cmd_ZCARD key in
   let count := of_Z count in
   if Qle_bool limit count then ret (RArr [IInt 0; IInt (lua_int (fl (limit - count)%Q))])
   else
     let! _a := cmd_ZADD key (fl (of_Z now)) member in
     let! _e := cmd_PEXPIRE key (window_ms window) in
     ret (RArr [IInt 1; IInt (lua_int (fl (limit - fl (count + 1))%Q))]))%easypay.

(** ** Allow *)

Definition asInt (i : item) : Z := match i with IInt n => n | IOther => 0 end.

Definition readReply (res : result reply) : result (bool * Z) :=
  match res with
  | Err e => Err (Wrap "ratelimit eval" e)
  | Ok (RArr [allowed; remaining]) =>
      Ok (asInt allowed =? 1, if asInt remaining <? 0 then 0 else asInt remaining)
  | Ok _ => Err (Text "ratelimit unexpected reply")
  end.

(** EVAL at a time of the server, and what happens to the connection. *)
Definition eval_with {A} (srv : Z) (f : fault) (script : ST R A) : ST R (result A) :=
  let run := (let! _t := redis_tick srv in script)%easypay in
  match f with
  | NoFault => (let! a := run in ret (Ok a))%easypay
  | FailBefore o => ret (Err (outage_error o))
  | FailAfter o => (let! _a := run in ret (Err (outage_error o)))%easypay
  end.

(** [Allow] from the call on, given the clocks. *)
Definition allowAt (key : string) (limit window now srv : Z) (f : fault) : ST R (result (bool * Z)) :=
  (let! res := eval_with srv f (slidingWindowScript ("rate:" +:+ key) now window limit (FormatInt now)) in
   ret (readReply res))%easypay.

Definition rate_Allow {X : Type} `{Clock X} `{RedisServer X} (key : string) (limit window : Z)
    : ST (R * X) (result (bool * Z)) :=
  if limit <=? 0 then ret (Ok (false, 0))
  else
    (let! now := on_snd time_Now in
     let! srv := on_snd redis_Time in
     let! f := on_snd redis_Fault in
     on_fst (allowAt key limit window now srv f))%easypay.

#[local] Instance redisRateLimiter {X : Type} `{Clock X} `{RedisServer X} : RateLimiter (R * X) := rate_Allow.

(** ** Runs *)

(** A call for a key with a positive limit: when it was made, when its script
    runs, and whether the connection held. *)
Record rl_call : Type := mkCall { rc_key : string; rc_limit : Z; rc_now : Z; rc_srv : Z; rc_fault : fault }.

Definition run_call (window : Z) (c : rl_call) : ST R (result (bool * Z)) :=
  allowAt (rc_key c) (rc_limit c) window (rc_now c) (rc_srv c) (rc_fault c).

Definition let_through (r : result (bool * Z)) : bool := match r with Ok (true, _) => true | _ => false end.

(** The calls of a run that were let through, in the order of their scripts. *)
Fixpoint admitted (window : Z) (calls : list rl_call) (r : R) : list rl_call :=
  match calls with
  | [] => []
  | c :: rest =>
      let '(a, r') := run_call window c r in
      if let_through a then c :: admitted window rest r' else admitted window rest r'
  end.
End Limiter.

(** ** Rounding of clock readings *)

(** The part of a window in which a request may be forgotten: a millisecond of
    the server's clock and ten microseconds of rounding. *)
Definition slack : Z := 1010000.

Section Bounds.
Context (fl : Q -> Q) `{Rounding fl}.
Context {R : Type} `{HR : RedisZSetLaws R}.
Variables window latency : Z.
Hypothesis window_range : slack < window < 2 ^ 63.

(** Doubles of this size are at most 2049 apart from what they round. *)
Lemma fl_close x : (0 <= x -> x <= 18446744073709551616 -> x - 2049 <= fl x /\ fl x <= x + 2049)%Q.
Proof.
  intros Hx Hx'. destruct consts as (Hu & Ht & Hu1 & Htu & Hh). destruct (fl_err x Hx) as [H1 H2]; [lra|].
  assert (ulp * x <= ulp * 18446744073709551616)%Q by (apply Qmult_le_l; done).
  assert (tiny <= 1 # 1000)%Q by done. lra.
Qed.

Lemma of_Z_range z : 0 <= z < 2 ^ 63 -> (0 <= of_Z z /\ of_Z z <= 9223372036854775808)%Q.
Proof.
  intros Hz. change 9223372036854775808%Q with (of_Z (2 ^ 63)). change 0%Q with (of_Z 0). rewrite <- !Zle_Qle. lia.
Qed.

Lemma lt_of_Z a b : (of_Z a < of_Z b)%Q <-> a < b.
Proof. by rewrite <- Zlt_Qlt. Qed.

(** A request within the window, up to the slack, is not trimmed. *)
Lemma cutoff_below now s :
  0 < now < 2 ^ 63 -> 0 < s < 2 ^ 63 -> now + 10000 < s + window ->
  in_range 0 (window_cutoff fl now window) (fl (of_Z s)) = false.
Proof.
  intros Hn Hs Hlt. unfold in_range. apply andb_false_iff. right. apply not_true_iff_false. rewrite Qle_bool_iff. apply Qlt_not_le.
  unfold window_cutoff. destruct (of_Z_range now ltac:(lia)) as [N0 N1], (of_Z_range s ltac:(lia)) as [S0 S1],
    (of_Z_range window) as [W0 W1]; [unfold slack in *; lia|].
  destruct (fl_close (of_Z now)) as [_ Fn]; [lra|lra|]. destruct (fl_close (of_Z s)) as [Fs _]; [lra|lra|].
  destruct (fl_close (of_Z window)) as [Fw _]; [lra|lra|].
  assert (Hq : (of_Z now + 10000 < of_Z s + of_Z window)%Q).
  { change 10000%Q with (of_Z 10000). rewrite <- !inject_Z_plus. by apply lt_of_Z. }
  destruct (Qlt_le_dec (fl (of_Z now) - fl (of_Z window)) 0) as [Hneg|Hpos].
  - pose proof (fl_mono _ _ (Qlt_le_weak _ _ Hneg)) as Hm. rewrite (fl_int 0) in Hm by done. change (of_Z 0) with 0%Q in Hm.
    assert (H1s : (of_Z 1 <= of_Z s)%Q) by (rewrite <- Zle_Qle; lia).
    pose proof (fl_mono _ _ H1s) as H1f. rewrite (fl_int 1) in H1f by done. change (of_Z 1) with 1%Q in H1f. lra.
  - destruct (fl_close _ Hpos) as [_ Fx]; lra.
Qed.

(** The key outlives the window, up to the rounding. *)
Lemma window_ms_lower : window <= window_ms fl window * 1000000 + 10000.
Proof.
  unfold window_ms. destruct (of_Z_range window) as [W0 W1]; [unfold slack in *; lia|].
  destruct (fl_close (of_Z window)) as [Fw Fw']; [lra|lra|].
  assert (Wpos : (of_Z slack < of_Z window)%Q) by (apply lt_of_Z; lia). change (of_Z slack) with 1010000%Q in Wpos.
  set (y := (fl (of_Z window) / 1000000)%Q). assert (Ey : (y * 1000000 == fl (of_Z window))%Q) by (unfold y; field).
  destruct consts as (Hu & Ht & Hu1 & Htu & Hh). destruct (fl_err y) as [Fy _]; [lra|lra|].
  assert (ulp * y <= ulp * 18446744073709)%Q by (apply Qmult_le_l; lra).
  assert (tiny <= 1 # 1000000)%Q by done. assert (ulp * 18446744073709 <= 3 # 1000)%Q by done.
  pose proof (Qle_ceiling (fl y)) as Hc. rewrite Zle_Qle, inject_Z_plus, inject_Z_mult.
  change (of_Z 1000000) with 1000000%Q. change (of_Z 10000) with 10000%Q. lra.
Qed.

(** ** One script *)

(** When a call is timely: its script runs within [latency] of the reading of
    the caller's clock (the server truncates its clock to milliseconds). *)
Definition timely (c : rl_call) : Prop :=
  0 < rc_now c < 2 ^ 63 /\ rc_now c < (rc_srv c + 1) * 1000000 /\ rc_srv c * 1000000 <= rc_now c + latency.

(** The request of time [s] is in the set at [k], and the key will keep it. *)
Definition remembers (r : R) (k : string) (s : Z) : Prop :=
  members r k !! FormatInt s = Some (fl (of_Z s)) /\
  exists t, deadline r k = Some t /\ s + window <= t * 1000000 + slack.

(** The requests [acc] were let through before the time [srv] of the server;
    those that a window can still count are remembered. *)
Record covered (srv : Z) (acc : list Z) (r : R) (k : string) : Prop := {
  co_range : Forall (fun s => 0 < s < 2 ^ 63) acc;
  co_past : Forall (fun s => s < (srv + 1) * 1000000) acc;
  co_kept : forall s, s ∈ acc -> srv * 1000000 + slack < s + window -> remembers r k s;
}.

Lemma covered_later srv srv' acc r k : srv <= srv' -> covered srv acc r k -> covered srv' acc r k.
Proof.
  intros Hle [Hr Hp Hk]. split; [done|eapply Forall_impl; [exact Hp|cbn; lia]|]. intros s Hs Hlt. apply Hk; [done|lia].
Qed.

(** Nothing happened to the key. *)
Lemma covered_frame srv acc r r' k :
  members r' k = members r k /\ deadline r' k = deadline r k -> covered srv acc r k -> covered srv acc r' k.
Proof. intros [Em Ed] [Hr Hp Hk]. split; [done..|]. intros s Hs Hlt. unfold remembers. rewrite Em, Ed. by apply Hk. Qed.

Lemma tick_covered srv acc r u r' k : redis_tick srv r = (u, r') -> covered srv acc r k -> covered srv acc r' k.
Proof.
  intros Ht [Hr Hp Hk]. apply tick_law in Ht as [_ Ht]. split; [done..|]. intros s Hs Hlt.
  destruct (Hk s Hs Hlt) as (Hm & t & Hd & Hlate). destruct (Ht k) as [[Em Ed]|(t' & Hd' & Hle)].
  - split; [by rewrite Em|]. exists t. by rewrite Ed.
  - rewrite Hd in Hd'. injection Hd' as <-. lia.
Qed.

Lemma trim_covered now srv acc r n r' k :
  0 < now < 2 ^ 63 -> now < (srv + 1) * 1000000 ->
  cmd_ZREMRANGEBYSCORE k 0 (window_cutoff fl now window) r = (n, r') -> covered srv acc r k -> covered srv acc r' k.
Proof.
  intros Hn Hsrv Hz [Hr Hp Hk]. apply zrem_law in Hz as (_ & Hm & Hd & _). split; [done..|]. intros s Hs Hlt.
  destruct (Hk s Hs Hlt) as (Hin & t & Ht & Hlate). rewrite Forall_forall in Hr.
  assert (Hin' : members r' k !! FormatInt s = Some (fl (of_Z s))).
  { rewrite Hm. apply map_lookup_filter_Some. split; [done|]. apply cutoff_below; [done|by apply Hr|]. unfold slack in *; lia. }
  split; [done|]. exists t. rewrite Hd; [done|]. intros E. rewrite E in Hin'. by apply lookup_empty_Some in Hin'.
Qed.

Lemma zadd_covered now srv acc r n r1 e r' k :
  0 < now < 2 ^ 63 -> now < (srv + 1) * 1000000 -> server_clock r = srv ->
  cmd_ZADD k (fl (of_Z now)) (FormatInt now) r = (n, r1) -> cmd_PEXPIRE k (window_ms fl window) r1 = (e, r') ->
  covered srv acc r k -> now ∉ acc -> covered srv (acc ++ [now]) r' k.
Proof.
  intros Hn Hsrv Hclock Ha He [Hr Hp Hk] Hnew. pose proof window_ms_lower as Hms.
  apply zadd_law in Ha as (Hc1 & Hm1 & _). apply pexpire_law in He as (Hm & Hd); [|unfold slack in *; lia].
  assert (Hne : members r1 k <> ∅) by (rewrite Hm1; apply insert_non_empty). specialize (Hd Hne). split.
  - apply Forall_app. split; [done|by constructor].
  - apply Forall_app. split; [done|by constructor].
  - intros s Hs Hlt. unfold remembers. rewrite Hm, Hm1, Hd, Hc1, Hclock. split; [|eexists; split; [done|]].
    + apply elem_of_app in Hs as [Hs| ->%list_elem_of_singleton]; [|apply lookup_insert_eq].
      destruct (Hk s Hs Hlt) as (Hz & _). rewrite lookup_insert_ne; [done|].
      intros E. apply Hnew. rewrite Forall_forall in Hr. specialize (Hr s Hs).
      by rewrite (FormatInt_inj now s) by (done || unfold int64_range; lia).
    + assert (s < (srv + 1) * 1000000); [|unfold slack in *; lia].
      apply elem_of_app in Hs as [Hs| ->%list_elem_of_singleton]; [|done]. rewrite Forall_forall in Hp. by apply Hp.
Qed.

(** An insert that is not let through (its answer was lost) only adds. *)
Lemma covered_drop srv acc x r k : covered srv (acc ++ [x]) r k -> covered srv acc r k.
Proof.
  intros [[Hr _]%Forall_app [Hp _]%Forall_app Hk]. split; [done..|]. intros s Hs. apply Hk, elem_of_app. by left.
Qed.

(** The requests that must still be there are no more than the members. *)
Lemma covered_size srv acc r k (P : Z -> Prop) `{!forall s, Decision (P s)} :
  NoDup acc -> covered srv acc r k -> (forall s, s ∈ acc -> P s -> srv * 1000000 + slack < s + window) ->
  (length (filter P acc) <= size (members r k))%nat.
Proof.
  intros Hnd [Hr _ Hk] HP.
  assert (Hin : forall s, s ∈ filter P acc -> remembers r k s).
  { intros s [Ps Hs]%list_elem_of_filter. by apply Hk, HP. }
  rewrite <- size_dom, <- (length_fmap FormatInt). set (l := FormatInt <$> _).
  rewrite <- (size_list_to_set (C := gset string) l).
  - apply subseteq_size. intros x Hkl. unfold l in Hkl. rewrite elem_of_list_to_set, list_elem_of_fmap in Hkl.
    destruct Hkl as (s & -> & Hs). destruct (Hin s Hs) as (Hz & _). apply elem_of_dom. by rewrite Hz.
  - apply NoDup_fmap_2_strong; [|by apply NoDup_filter].
    intros a b [_ Ha]%list_elem_of_filter [_ Hb]%list_elem_of_filter. rewrite Forall_forall in Hr.
    pose proof (Hr a Ha). pose proof (Hr b Hb). apply FormatInt_inj; unfold int64_range; lia.
Qed.

(** The comparison of the script on doubles is the one on integers. *)
Lemma below_limit n limit :
  0 <= n -> limit <= 2 ^ 53 -> Qle_bool (fl (of_Z limit)) (of_Z n) = false -> n < limit.
Proof.
  intros Hn Hl Ele. assert (Hlt : (of_Z n < of_Z limit)%Q); [|by rewrite <- Zlt_Qlt in Hlt].
  apply Qnot_le_lt. intros Hle. apply not_true_iff_false in Ele. apply Ele, Qle_bool_iff.
  destruct (Z.le_gt_cases 0 limit) as [Hge|Hneg].
  - by rewrite (fl_int limit) by lia.
  - assert (Hlz : (of_Z limit <= of_Z 0)%Q) by (rewrite <- Zle_Qle; lia). apply fl_mono in Hlz.
    rewrite (fl_int 0) in Hlz by done. eapply Qle_trans; [exact Hlz|]. rewrite <- Zle_Qle. lia.
Qed.

(** What one run of the script does to the requests of its key. *)
Lemma script_step now srv limit acc r k rep r' (P : Z -> Prop) `{!forall s, Decision (P s)} :
  0 < now < 2 ^ 63 -> now < (srv + 1) * 1000000 -> limit <= 2 ^ 53 -> NoDup acc -> now ∉ acc ->
  server_clock r = srv -> covered srv acc r k ->
  (forall s, s ∈ acc -> P s -> srv * 1000000 + slack < s + window) ->
  slidingWindowScript fl k now window limit (FormatInt now) r = (rep, r') ->
  covered srv acc r' k /\
  (let_through (readReply (Ok rep)) = true ->
   covered srv (acc ++ [now]) r' k /\ Z.of_nat (length (filter P acc)) < limit).
Proof.
  intros Hn Hsrv Hl Hnd Hnew Hclock Hc HP. unfold slidingWindowScript, bind, ret.
  destruct (cmd_ZREMRANGEBYSCORE _ _ _ r) as [n1 r1] eqn:E1. apply (trim_covered now srv acc r n1 r1 k Hn Hsrv E1) in Hc.
  apply zrem_law in E1 as (Hcl1 & _).
  destruct (cmd_ZCARD k r1) as [n r2] eqn:E2. destruct (zcard_law _ _ _ _ E2) as (Hcard & Hcl2 & Hsame).
  pose proof (covered_size _ _ _ _ P Hnd Hc HP) as Hsize. apply (covered_frame _ _ r1 r2 k (Hsame k)) in Hc.
  destruct (Qle_bool _ _) eqn:Ele; [intros [= <- <-]; split; [done|cbn; done]|].
  destruct (cmd_ZADD _ _ _ r2) as [a r3] eqn:E3. destruct (cmd_PEXPIRE _ _ r3) as [e r4] eqn:E4. intros [= <- <-].
  pose proof (zadd_covered now srv acc r2 a r3 e r4 k Hn Hsrv ltac:(congruence) E3 E4 Hc Hnew) as Hc'.
  split; [by eapply covered_drop|]. intros _. split; [done|].
  pose proof (below_limit n limit ltac:(lia) Hl Ele). lia.
Qed.

(** A script for another key. *)
Lemma script_frame now limit r k k' rep r' member :
  k <> k' -> slidingWindowScript fl k' now window limit member r = (rep, r') ->
  members r' k = members r k /\ deadline r' k = deadline r k.
Proof.
  intros Hne. unfold slidingWindowScript, bind, ret.
  destruct (cmd_ZREMRANGEBYSCORE _ _ _ r) as [n1 r1] eqn:E1. destruct (zrem_law _ _ _ _ _ _ E1) as (_ & _ & _ & F1).
  destruct (cmd_ZCARD k' r1) as [n r2] eqn:E2. destruct (zcard_law _ _ _ _ E2) as (_ & _ & F2).
  specialize (F2 k). destruct (F1 k Hne) as [G1 G1'].
  rewrite G1, G1' in F2. destruct (Qle_bool _ _); [by intros [= _ <-]|].
  destruct (cmd_ZADD _ _ _ r2) as [a r3] eqn:E3. destruct (zadd_law _ _ _ _ _ _ E3) as (_ & _ & F3).
  destruct (cmd_PEXPIRE _ _ r3) as [e r4] eqn:E4. intros [= _ <-].
  destruct (pexpire_frame _ _ _ _ _ E4 k Hne) as [-> ->]. destruct (F3 k Hne) as [-> ->]. done.
Qed.

(** ** Runs *)

(** The times of the calls for a key. *)
Definition times_for (key : string) (calls : list rl_call) : list Z :=
  rc_now <$> filter (fun c => rc_key c = key) calls.

Definition within (x : Z) (s : Z) : Prop := x <= s < x + (window - latency - slack).
#[local] Instance within_dec x s : Decision (within x s).
Proof. unfold within. apply _. Defined.

Lemma times_for_cons key c calls :
  times_for key (c :: calls) = (if bool_decide (rc_key c = key) then [rc_now c] else []) ++ times_for key calls.
Proof. unfold times_for. rewrite filter_cons. case_bool_decide; [by rewrite decide_True|by rewrite decide_False]. Qed.

(** A call: its script did not run, or it ran at the time of the server, and an
    answer means that it ran. *)
Lemma run_call_cases c r a r' :
  run_call fl window c r = (a, r') ->
  (r' = r /\ let_through a = false) \/
  exists u r1 rep, redis_tick (rc_srv c) r = (u, r1) /\
    slidingWindowScript fl ("rate:" +:+ rc_key c) (rc_now c) window (rc_limit c) (FormatInt (rc_now c)) r1 = (rep, r') /\
    (let_through a = true -> let_through (readReply (Ok rep)) = true).
Proof.
  unfold run_call, allowAt, eval_with, bind, ret. destruct (rc_fault c).
  2: { intros [= <- <-]. by left. }
  all: destruct (redis_tick (rc_srv c) r) as [u r1]; destruct (slidingWindowScript _ _ _ _ _ _ r1) as [rep r2] eqn:E;
    intros [= <- <-]; right; exists u, r1, rep; by rewrite E.
Qed.

(** A call for another key. *)
Lemma run_call_other c key acc r a r' :
  rc_key c <> key -> run_call fl window c r = (a, r') ->
  covered (rc_srv c) acc r ("rate:" +:+ key) -> covered (rc_srv c) acc r' ("rate:" +:+ key).
Proof.
  intros Hne Hrun Hc. destruct (run_call_cases _ _ _ _ Hrun) as [[-> _]|(u & r1 & rep & Ht & Hs & _)]; [done|].
  apply (tick_covered _ _ _ _ _ _ Ht) in Hc. eapply covered_frame; [|exact Hc]. eapply script_frame; [|exact Hs].
  intros E. apply Hne. by apply (inj (String.append "rate:")) in E.
Qed.

(** A call for the key. *)
Lemma run_call_same c acc r a r' (P : Z -> Prop) `{!forall s, Decision (P s)} :
  timely c -> rc_limit c <= 2 ^ 53 -> NoDup acc -> rc_now c ∉ acc -> run_call fl window c r = (a, r') ->
  covered (rc_srv c) acc r ("rate:" +:+ rc_key c) ->
  (forall s, s ∈ acc -> P s -> rc_srv c * 1000000 + slack < s + window) ->
  covered (rc_srv c) acc r' ("rate:" +:+ rc_key c) /\
  (let_through a = true ->
   covered (rc_srv c) (acc ++ [rc_now c]) r' ("rate:" +:+ rc_key c) /\ Z.of_nat (length (filter P acc)) < rc_limit c).
Proof.
  intros (Hn & Hp & _) Hl Hnd Hnew Hrun Hc HP.
  destruct (run_call_cases _ _ _ _ Hrun) as [[-> Ha]|(u & r1 & rep & Ht & Hs & Hok)]; [split; [done|congruence]|].
  apply (tick_covered _ _ _ _ _ _ Ht) in Hc. apply tick_law in Ht as [Hclock _].
  destruct (script_step _ _ _ _ _ _ _ _ P Hn Hp Hl Hnd Hnew Hclock Hc HP Hs) as [? Hadm]. split; [done|]. intros Ha.
  by apply Hadm, Hok.
Qed.

Definition bounded (limit : Z) (acc : list Z) : Prop := forall x, Z.of_nat (length (filter (within x) acc)) <= limit.

Lemma bounded_snoc limit acc c srv :
  timely c -> rc_srv c = srv -> bounded limit acc ->
  (forall P (HdP : forall s, Decision (P s)), (forall s, s ∈ acc -> P s -> srv * 1000000 + slack < s + window) ->
     Z.of_nat (length (filter P acc)) < limit) ->
  bounded limit (acc ++ [rc_now c]).
Proof.
  intros (_ & _ & Hlat) <- Hb Hroom x. rewrite filter_app, length_app. rewrite filter_cons, filter_nil.
  case_decide as Hw; [|cbn; specialize (Hb x); lia]. cbn.
  specialize (Hroom (within x) _ ltac:(intros s _ Hs; unfold within in *; lia)). lia.
Qed.

Lemma admitted_bounded key limit srv calls acc r :
  limit <= 2 ^ 53 -> Forall timely calls -> Forall (fun c => srv <= rc_srv c) calls -> StronglySorted Z.le (rc_srv <$> calls) ->
  Forall (fun c => rc_key c = key -> rc_limit c <= limit) calls -> NoDup (acc ++ times_for key calls) ->
  covered srv acc r ("rate:" +:+ key) -> bounded limit acc ->
  bounded limit (acc ++ times_for key (admitted fl window calls r)).
Proof.
  intros Hl. revert srv acc r. induction calls as [|c calls IH]; intros srv acc r Ht Hsrv Hs Hlim Hnd Hc Hb.
  { by rewrite app_nil_r. }
  apply Forall_cons in Ht as [Htc Ht], Hsrv as [Hsc Hsrv], Hlim as [Hlc Hlim].
  cbn in Hs. apply StronglySorted_inv in Hs as [Hs Hle].
  assert (Hsrv' : Forall (fun c' => rc_srv c <= rc_srv c') calls) by exact (proj1 (Forall_fmap _ _ _) Hle).
  cbn [admitted]. destruct (run_call fl window c r) as [a r'] eqn:Er.
  rewrite times_for_cons in Hnd. apply (covered_later _ (rc_srv c)) in Hc; [|done].
  case_bool_decide as Hk.
  - subst key. specialize (Hlc eq_refl). apply NoDup_app in Hnd as Hnd'. destruct Hnd' as (Hna & Hdisj & Hnr).
    assert (Hnew : rc_now c ∉ acc) by (intros Hin; apply (Hdisj _ Hin); cbn; left).
    pose proof (fun P HdP => @run_call_same c acc r a r' P HdP Htc ltac:(lia) Hna Hnew Er Hc) as Hstep.
    destruct (Hstep (fun _ => False) _ ltac:(done)) as [Hc0 Hc1].
    destruct (let_through a) eqn:Ea.
    + rewrite times_for_cons, bool_decide_true by done. rewrite app_assoc in Hnd |- *. apply IH with (srv := rc_srv c); try done.
      * by apply Hc1.
      * eapply bounded_snoc; [done|done|done|]. intros P HdP HP. destruct (Hstep P HdP HP) as [_ Hs1].
        destruct (Hs1 eq_refl) as [_ Hlt]. lia.
    + apply IH with (srv := rc_srv c); try done.
      apply NoDup_app. split; [done|]. split; [|cbn in Hnr; by apply NoDup_cons in Hnr as [_ ?]].
      intros s Hs' Hin. apply (Hdisj s Hs'). cbn. by right.
  - rewrite app_nil_l in Hnd. assert (E : times_for key (if let_through a then c :: admitted fl window calls r'
        else admitted fl window calls r') = times_for key (admitted fl window calls r')).
    { destruct (let_through a); [|done]. by rewrite times_for_cons, bool_decide_false. }
    rewrite E. apply IH with (srv := rc_srv c); try done. by eapply run_call_other.
Qed.

End Bounds.
