(* ===== verification/KafkaConsumer.v ===== *)
(** * Consuming confirmed payments (internal/kafka/consumer.go, internal/consumer/settlement_consumer.go)

    The batch consumer reads, hands messages to its handler, falls back to one
    message at a time and to the dead-letter topic, and commits.  Reader,
    writer, handler and context are interfaces over a state [X]; the consumer
    runs on [X] beside the trace of what it has done.  The settlement handler
    posts each event, signed, to the merchant's callback. *)

From S2P Require Import Prelude GoStrings Sha256 Domain Signatures Ports.
Local Open Scope Z_scope.

(** ** Messages and interfaces *)

Record Message : Type := {
  msg_Topic : string;
  msg_Partition : Z;
  msg_Offset : Z;
  msg_Key : string;
  msg_Value : string;
}.

(** [FetchMessage] with or without the deadline of the batch. *)
Class MessageReader (X : Type) : Type := {
  FetchMessage : bool -> ST X (result Message);
  CommitMessages : list Message -> ST X (result unit);
}.

Class MessageWriter (X : Type) : Type := WriteMessages : Message -> ST X (result unit).

Class BatchHandler (X : Type) : Type := {
  Handle : list Message -> ST X (result unit);
  HandleOne : Message -> ST X (result unit);
}.

(** [ctx.Err()], and waiting for a duration or for [ctx.Done()]. *)
Class GoContext (X : Type) : Type := {
  ctx_Err : ST X (option error);
  ctx_Wait : Z -> ST X (option error);
}.

(** What is written to the dead-letter topic: where the message came from, why
    it failed, and the message. *)
Record dlqEnvelope : Type := {
  dl_Topic : string;
  dl_Partition : Z;
  dl_Offset : Z;
  dl_Error : string;
  dl_Key : string;
  dl_Value : string;
}.

(** [encoding/json] on the envelope. *)
Class DLQJSON : Type := marshalEnvelope : dlqEnvelope -> result string.

Definition MarshalForDLQ `{DLQJSON} (m : Message) (cause : error) : result string :=
  match marshalEnvelope {| dl_Topic := msg_Topic m; dl_Partition := msg_Partition m; dl_Offset := msg_Offset m;
          dl_Error := errText cause; dl_Key := msg_Key m; dl_Value := msg_Value m |} with
  | Err e => Err (Wrap "marshal dlq" e)
  | Ok b => Ok b
  end.

(** ** The consumer *)

Inductive kevent : Type :=
  | Fetched (m : Message)
  | BatchHandled (ms : list Message) (ok : bool)
  | OneHandled (m : Message) (ok : bool)
  | DeadLettered (m : Message) (ok : bool)
  | Committed (ms : list Message) (ok : bool).

Section Consumer.
Context {X : Type} `{MessageReader X} `{MessageWriter X} `{BatchHandler X} `{GoContext X} `{DLQJSON}.
Variable BatchSize : Z.

Abbreviation W := (list kevent * X)%type.
Definition record_event (e : kevent) : ST W unit := fun w => (tt, (w.1 ++ [e], w.2)).

(** The loop [for len(out) < c.BatchSize]; what was fetched is returned with
    the error. *)
Fixpoint fetchLoop (room : nat) (out : list Message) (first : bool) : ST W (list Message * option error) :=
  match room with
  | O => ret (out, None)
  | S room' =>
      (let! m := on_snd (FetchMessage (negb first)) in
       match m with
       | Err e => ret (out, if errIs e ContextDeadlineExceeded && negb first then None else Some e)
       | Ok m => let! _u := record_event (Fetched m) in fetchLoop room' (out ++ [m]) false
       end)%easypay
  end.

Definition fetchBatch : ST W (list Message * option error) := fetchLoop (Z.to_nat BatchSize) [] true.

Definition commit (msgs : list Message) : ST W unit :=
  (let! r := on_snd (CommitMessages msgs) in record_event (Committed msgs (is_ok r)))%easypay.

Definition toDLQ (m : Message) (cause : error) : ST W unit :=
  let b := match MarshalForDLQ m cause with Ok b => b | Err _ => "" end in
  (let! r := on_snd (WriteMessages {| msg_Topic := ""; msg_Partition := 0; msg_Offset := 0; msg_Key := msg_Key m; msg_Value := b |}) in
   record_event (DeadLettered m (is_ok r)))%easypay.

(** The per-message fallback. *)
Fixpoint fallback (msgs : list Message) : ST W unit :=
  match msgs with
  | [] => ret tt
  | m :: rest =>
      (let! r := on_snd (HandleOne m) in
       let! _u := record_event (OneHandled m (is_ok r)) in
       let! _v := match r with Ok _ => ret tt | Err e => toDLQ m e end in
       fallback rest)%easypay
  end.

(** One round of the loop of [Run]: [Some] is the value it returns with. *)
Definition round : ST W (option (result unit)) :=
  (let! stop := on_snd ctx_Err in
   match stop with
   | Some e => ret (Some (Err e))
   | None =>
       let! batch := fetchBatch in
       match batch.2 with
       | Some e =>
           if errIs e ContextCanceled || errIs e ContextDeadlineExceeded then ret (Some (Ok tt))
           else ret None
       | None =>
           match batch.1 with
           | [] => ret None
           | msgs =>
               let! r := on_snd (Handle msgs) in
               let! _u := record_event (BatchHandled msgs (is_ok r)) in
               match r with
               | Ok _ => let! _c := commit msgs in ret None
               | Err _ => let! _f := fallback msgs in let! _c := commit msgs in ret None
               end
           end
       end
   end)%easypay.

(** [n] rounds at most. *)
Fixpoint Run (n : nat) : ST W (option (result unit)) :=
  match n with
  | O => ret None
  | S n' =>
      (let! r := round in
       match r with
       | Some res => ret (Some res)
       | None => Run n'
       end)%easypay
  end.
End Consumer.

(** ** Settlement *)

Record MerchantCallback : Type := { cb_URL : string; cb_Secret : string }.

(** The lookup of a merchant's callback, the POST of a body with its two
    headers (the status code of the answer), and [encoding/json] on the event. *)
Class Settlement (X : Type) : Type := {
  lookup_callback : string -> ST X MerchantCallback;
  http_Post : string -> string -> string -> string -> ST X (result Z);
  unmarshalConfirmed : string -> result PaymentConfirmedEvent;
  marshalConfirmed : PaymentConfirmedEvent -> result string;
}.

Section SettlementConsumer.
Context {X : Type} `{Settlement X} `{Clock X} `{GoContext X}.
Variable maxAttempts : Z.

Definition sendOnce (url secret body : string) : ST X (result unit) :=
  (let! now := time_Now in
   let ts := FormatInt (Unix now) in
   let! resp := http_Post url ts (Hmac.Sign secret (ts +:+ "." +:+ body)) body in
   ret (match resp with
        | Err e => Err e
        | Ok code => if (code <? 200) || (300 <=? code) then Err (Text "merchant returned status") else Ok tt
        end))%easypay.

(** The loop [for attempt := 1; attempt <= s.maxAttempts; attempt++];
    [left] counts the attempts that remain. *)
Fixpoint attempts (left : nat) (attempt : Z) (url secret body : string) (last : option error) : ST X (result unit) :=
  match left with
  | O => ret (Err (match last with Some e => Wrap "merchant callback exhausted retries" e
                   | None => Text "merchant callback exhausted retries: %!w(<nil>)" end))
  | S left' =>
      (let! r := sendOnce url secret body in
       match r with
       | Ok _ => ret (Ok tt)
       | Err e =>
           let! stop := ctx_Wait (attempt * second) in
           match stop with
           | Some c => ret (Err c)
           | None => attempts left' (attempt + 1) url secret body (Some e)
           end
       end)%easypay
  end.

Definition settlement_HandleOne (m : Message) : ST X (result unit) :=
  match unmarshalConfirmed (msg_Value m) with
  | Err e => ret (Err (Wrap "decode confirmed event" e))
  | Ok ev =>
      (let! cb := lookup_callback (pc_MerchantID ev) in
       if bool_decide (cb_URL cb = "") then ret (Ok tt)
       else if bool_decide (cb_Secret cb = "") then ret (Err (Text "no secret for merchant"))
       else match marshalConfirmed ev with
            | Err e => ret (Err (Wrap "marshal callback body" e))
            | Ok body => attempts (Z.to_nat maxAttempts) 1 (cb_URL cb) (cb_Secret cb) body None
            end)%easypay
  end.

Fixpoint settlement_Handle (msgs : list Message) : ST X (result unit) :=
  match msgs with
  | [] => ret (Ok tt)
  | m :: rest =>
      (let! r := settlement_HandleOne m in
       match r with
       | Err e => ret (Err e)
       | Ok _ => settlement_Handle rest
       end)%easypay
  end.

#[local] Instance settlement_handler : BatchHandler X := {|
  Handle := settlement_Handle; HandleOne := settlement_HandleOne |}.
End SettlementConsumer.
