(* ===== verification/KafkaTheorems.v ===== *)
(** * Consuming confirmed payments: what the consumer guarantees

    Nothing is committed that was not handled or sent to the dead-letter topic,
    what happens to messages read before a fetch error, and that a delivered
    callback carries a valid signature. *)

From S2P Require Import Prelude GoStrings Sha256 Domain Signatures Ports KafkaConsumer.
Local Open Scope Z_scope.

(** The message was handled, alone or in a batch, or the consumer tried to
    write it to the dead-letter topic. *)
Definition accounted (tr : list kevent) (m : Message) : Prop :=
  (exists ms, m ∈ ms /\ BatchHandled ms true ∈ tr) \/ OneHandled m true ∈ tr \/ exists ok, DeadLettered m ok ∈ tr.

Lemma accounted_app tr l m : accounted tr m -> accounted (tr ++ l) m.
Proof.
  intros [(ms & Hm & He)|[He|[ok He]]]; [left; exists ms|right; left|right; right; exists ok];
    [split; [done|]| |]; apply elem_of_app; by left.
Qed.

(** Commits come after the account of what they commit. *)
Definition commits_accounted (tr : list kevent) : Prop :=
  forall pre ms ok post, tr = pre ++ Committed ms ok :: post -> Forall (accounted pre) ms.

Lemma commits_snoc tr e :
  commits_accounted tr -> (forall ms ok, e = Committed ms ok -> Forall (accounted tr) ms) -> commits_accounted (tr ++ [e]).
Proof.
  intros Hc He pre ms ok post Heq. destruct post as [|q post] using rev_ind.
  - apply app_inj_tail in Heq as [-> ->]. by eapply He.
  - rewrite app_comm_cons, app_assoc in Heq. apply app_inj_tail in Heq as [-> _]. by eapply Hc.
Qed.

Definition is_commit (e : kevent) : bool := match e with Committed _ _ => true | _ => false end.

Lemma commits_app tr l : commits_accounted tr -> Forall (fun e => is_commit e = false) l -> commits_accounted (tr ++ l).
Proof.
  intros Hc Hl. induction l as [|e l IH] using rev_ind; [by rewrite app_nil_r|].
  apply Forall_app in Hl as [Hl He]. apply Forall_cons in He as [He _]. rewrite app_assoc.
  apply commits_snoc; [by apply IH|]. by intros ms ok ->.
Qed.

Section Consumer.
Context {X : Type} `{MessageReader X} `{MessageWriter X} `{BatchHandler X} `{GoContext X} `{DLQJSON}.
Variable BatchSize : Z.

(** Fetching records what it fetched, and returns it. *)
Lemma fetchLoop_run room out first tr (x : X) batch tr' x' :
  fetchLoop room out first (tr, x) = (batch, (tr', x')) ->
  exists new, batch.1 = out ++ new /\ tr' = tr ++ (Fetched <$> new).
Proof.
  revert out first tr x. induction room as [|room IH]; intros out first tr x; cbn [fetchLoop].
  { unfold ret. intros [= <- <- <-]. exists []. by rewrite !app_nil_r. }
  unfold bind at 1, on_snd at 1. cbn [fst snd]. destruct (FetchMessage _ x) as [[m|e] x1].
  - unfold bind, record_event. cbn [fst snd]. intros (new & Hb & Ht)%IH. exists (m :: new).
    rewrite Hb, Ht, <- !app_assoc. done.
  - unfold ret. intros [= <- <- <-]. exists []. by rewrite !app_nil_r.
Qed.

Lemma fallback_run msgs tr (x : X) u tr' x' :
  fallback msgs (tr, x) = (u, (tr', x')) ->
  exists l, tr' = tr ++ l /\ Forall (fun e => is_commit e = false) l /\ Forall (accounted tr') msgs.
Proof.
  revert tr x. induction msgs as [|m msgs IH]; intros tr x; cbn [fallback].
  { unfold ret. intros [= <- <- <-]. exists []. by rewrite app_nil_r. }
  unfold bind at 1, on_snd at 1. cbn [fst snd]. destruct (HandleOne m x) as [r x1].
  unfold bind at 1, record_event at 1. cbn [fst snd]. destruct r as [v|e].
  - unfold bind, ret. cbn [is_ok]. intros (l & -> & Hl & Hacc)%IH. exists (OneHandled m true :: l).
    rewrite <- app_assoc. split; [done|]. split; [by constructor|]. constructor; [|by rewrite <- app_assoc in Hacc].
    right. left. apply elem_of_app. right. by left.
  - unfold bind at 1, toDLQ at 1, bind at 1, on_snd at 1. cbn [fst snd].
    destruct (WriteMessages _ x1) as [w x2]. unfold record_event. cbn [fst snd is_ok].
    intros (l & -> & Hl & Hacc)%IH. exists (OneHandled m false :: DeadLettered m (is_ok w) :: l).
    rewrite <- !app_assoc in *. split; [done|]. split; [by repeat constructor|]. constructor; [|done].
    right. right. exists (is_ok w). apply elem_of_app. right. right. by left.
Qed.

(** A round either drops what it fetched, which takes a failed fetch, or
    accounts for all of it and then commits. *)
Lemma round_run tr (x : X) r tr' x' :
  round BatchSize (tr, x) = (r, (tr', x')) ->
  exists fetched, tr' = tr ++ (Fetched <$> fetched) \/
    exists l ok, tr' = tr ++ (Fetched <$> fetched) ++ l ++ [Committed fetched ok] /\ r = None /\
      Forall (fun e => is_commit e = false) l /\ Forall (accounted (tr ++ (Fetched <$> fetched) ++ l)) fetched.
Proof.
  unfold round, bind at 1, on_snd at 1. cbn [fst snd]. destruct (ctx_Err x) as [[e|] x1].
  { unfold ret. intros [= <- <- <-]. exists []. left. by rewrite app_nil_r. }
  unfold bind at 1, fetchBatch. destruct (fetchLoop _ _ _ (tr, x1)) as [[batch err] [tr1 x2]] eqn:Ef.
  destruct (fetchLoop_run _ _ _ _ _ _ _ _ Ef) as (new & Hb & ->). cbn [fst snd app] in *. subst batch. intros Hrun. exists new.
  destruct err as [e|].
  { left. revert Hrun. destruct (_ || _); unfold ret; by intros [= _ <- _]. }
  destruct new as [|m new]; [left; revert Hrun; unfold ret; by intros [= _ <- _]|]. set (ms := m :: new) in *. revert Hrun.
  unfold bind at 1, on_snd at 1. cbn [fst snd]. destruct (Handle ms x2) as [h x3].
  unfold bind at 1, record_event at 1. cbn [fst snd].
  unfold commit. destruct h as [v|e]; cbn [is_ok].
  - unfold bind, on_snd, record_event, ret. cbn [fst snd]. destruct (CommitMessages ms x3) as [c x4].
    cbn [fst snd]. intros [= <- <- <-]. right. exists [BatchHandled ms true], (is_ok c). rewrite <- !app_assoc.
    split; [done|]. split; [done|]. split; [by repeat constructor|]. apply Forall_forall. intros m' Hm.
    left. exists ms. split; [done|]. apply elem_of_app. right. apply elem_of_app. right. by left.
  - unfold bind at 1. destruct (fallback ms _) as [u [tr2 x4]] eqn:Efb.
    destruct (fallback_run _ _ _ _ _ _ Efb) as (l & -> & Hl & Hacc).
    unfold bind, on_snd, record_event, ret. cbn [fst snd]. destruct (CommitMessages ms x4) as [c x5].
    cbn [fst snd]. intros [= <- <- <-]. right. exists (BatchHandled ms false :: l), (is_ok c).
    rewrite <- !app_assoc in *. split; [done|]. split; [done|]. split; [by constructor|]. exact Hacc.
Qed.

(** C34. The consumer commits only what it has accounted for: in every run,
    each message of a commit was before that handled successfully, in its
    batch or alone, or written to the dead-letter topic, successfully or
    not. *)
Theorem commits_only_accounted n (x : X) r tr x' :
  Run BatchSize n ([], x) = (r, (tr, x')) -> commits_accounted tr.
Proof.
  assert (Hgen : forall n tr (x : X) r tr' x', commits_accounted tr -> Run BatchSize n (tr, x) = (r, (tr', x')) ->
    commits_accounted tr').
  { clear n x r tr x'. induction n as [|n IH]; intros tr x r tr' x' Hc; cbn [Run].
    { unfold ret. by intros [= _ <- _]. }
    unfold bind. destruct (round BatchSize (tr, x)) as [r1 [tr1 x1]] eqn:Er.
    assert (Hc1 : commits_accounted tr1).
    { destruct (round_run _ _ _ _ _ Er) as [fetched [->|(l & ok & -> & _ & Hl & Hacc)]].
      - apply commits_app; [done|]. apply Forall_fmap, Forall_true. by intros.
      - rewrite !app_assoc. apply commits_snoc.
        + apply commits_app; [|done]. apply commits_app; [done|]. apply Forall_fmap, Forall_true. by intros.
        + intros ms ok' [= <- <-]. by rewrite <- app_assoc. }
    destruct r1; [unfold ret; by intros [= _ <- _]|]. by apply IH. }
  apply Hgen. intros pre ms ok post Heq. by destruct pre.
Qed.

(** Messages read before a fetch error are dropped: when a later fetch
    of the same batch fails with anything but the end of the context, the
    round ends with nothing handled, nothing dead-lettered and nothing
    committed, and the loop goes on with the messages after them. *)
Theorem fetch_error_drops_batch tr (x x1 x2 x3 : X) m e :
  2 <= BatchSize -> ctx_Err x = (None, x1) -> FetchMessage false x1 = (Ok m, x2) -> FetchMessage true x2 = (Err e, x3) ->
  errIs e ContextCanceled = false -> errIs e ContextDeadlineExceeded = false ->
  round BatchSize (tr, x) = (None, (tr ++ [Fetched m], x3)) /\ ~ accounted [Fetched m] m.
Proof.
  intros Hb Hc Hf1 Hf2 He1 He2. split.
  - unfold round, bind at 1, on_snd at 1. cbn [fst snd]. rewrite Hc.
    unfold fetchBatch. destruct (Z.to_nat BatchSize) as [|[|n]] eqn:Eb; [lia|lia|]. cbn [fetchLoop].
    unfold bind, on_snd, record_event, ret. cbn [fst snd negb]. rewrite Hf1. cbn [fst snd]. rewrite Hf2, He2. cbn.
    by rewrite He1, He2.
  - intros [(ms & _ & Hin)|[Hin|[ok Hin]]]; apply list_elem_of_singleton in Hin; discriminate Hin.
Qed.
End Consumer.

Section SettlementTheorems.
Context {X : Type} `{Settlement X} `{Clock X} `{GoContext X}.

(** The merchant answered 2xx to a POST whose signature verifies. *)
Definition delivered (url secret body : string) : Prop :=
  exists ts sig code (y y1 : X), http_Post url ts sig body y = (Ok code, y1) /\ 200 <= code < 300 /\
    Hmac.Verify secret (ts +:+ "." +:+ body) sig = true.

Lemma attempts_Ok left attempt url secret body last (x x' : X) :
  attempts left attempt url secret body last x = (Ok tt, x') -> delivered url secret body.
Proof.
  revert attempt last x. induction left as [|left IH]; intros attempt last x; cbn [attempts].
  { unfold ret. by destruct last. }
  unfold bind at 1, sendOnce, bind at 1. destruct (time_Now x) as [now x1].
  unfold bind at 1, ret. destruct (http_Post _ _ _ _ x1) as [[code|e] x2] eqn:Ep.
  - destruct (Z.ltb_spec code 200), (Z.leb_spec 300 code); cbn [orb].
    1, 2, 3: unfold bind; destruct (ctx_Wait _ x2) as [[c|] x3]; [discriminate|apply IH].
    intros _. eexists _, _, code, x1, x2. split; [exact Ep|]. split; [lia|].
    unfold Hmac.Verify, Hmac.Sign. rewrite hexDecode_encode. by apply bool_decide_eq_true.
  - unfold bind. destruct (ctx_Wait _ x2) as [[c|] x3]; [discriminate|apply IH].
Qed.

(** C35. A settlement message counts as handled only when it decodes to an
    event whose merchant has no callback, or when the merchant's server
    answered 2xx to a POST of the event signed with the merchant's secret. *)
Theorem settlement_delivers maxAttempts m (x x' : X) :
  settlement_HandleOne maxAttempts m x = (Ok tt, x') ->
  exists ev cb x1, unmarshalConfirmed (msg_Value m) = Ok ev /\ lookup_callback (pc_MerchantID ev) x = (cb, x1) /\
    (cb_URL cb = "" \/ cb_Secret cb <> "" /\
       exists body, marshalConfirmed ev = Ok body /\ delivered (cb_URL cb) (cb_Secret cb) body).
Proof.
  unfold settlement_HandleOne. destruct (unmarshalConfirmed _) as [ev|e]; [|discriminate].
  unfold bind, ret. destruct (lookup_callback _ x) as [cb x1] eqn:El. intros Hrun. exists ev, cb, x1.
  split; [done|]. split; [done|]. case_bool_decide as Hu; [by left|]. right.
  case_bool_decide as Hs; [discriminate|]. split; [done|].
  destruct (marshalConfirmed ev) as [body|e]; [|discriminate]. exists body. split; [done|].
  by eapply attempts_Ok.
Qed.
End SettlementTheorems.
