(* ===== verification/Producer.v ===== *)
(** * Publishing confirmed payments (internal/kafka/producer.go)

    The publisher's message, the eager creation of its topic and the readiness
    ping.  Connections to brokers are made by kafka-go: dialing and the admin
    requests are parameters, and a trace keeps what was opened, asked and
    closed. *)

From S2P Require Import Prelude GoStrings Config Ports KafkaConsumer.
Local Open Scope Z_scope.

(** ** The writer *)

(** The fields of the [kafka.Writer] that [NewPublisher] sets. *)
Record kafkaWriter : Type := {
  kw_Addr : list string; kw_Topic : string; kw_RequireAll : bool; kw_MaxAttempts : Z;
  kw_BatchTimeout : Z; kw_BatchBytes : Z; kw_AllowAutoTopicCreation : bool;
}.

Definition publisherWriter (cfg : KafkaConfig) : kafkaWriter := {|
  kw_Addr := kf_Brokers cfg; kw_Topic := kf_TopicConfirmed cfg; kw_RequireAll := true; kw_MaxAttempts := 3;
  kw_BatchTimeout := 5000000; kw_BatchBytes := 64 * 1024; kw_AllowAutoTopicCreation := true |}.

Section Publish.
Context {X : Type} `{MessageWriter X}.
(** [json.Marshal] on the event *)
Variable marshal : PaymentConfirmedEvent -> result string.

Definition publisher_PublishPaymentConfirmed (e : PaymentConfirmedEvent) : ST X (result unit) :=
  match marshal e with
  | Err err => ret (Err (Wrap "marshal confirmed event" err))
  | Ok payload =>
      WriteMessages {| msg_Topic := ""; msg_Partition := 0; msg_Offset := 0;
                       msg_Key := pc_OrderID e; msg_Value := payload |}
  end.

(** Without a writer there is nothing to close. *)
Definition publisher_Close (writer : option kafkaWriter) (writer_Close : kafkaWriter -> ST X (result unit))
    : ST X (result unit) :=
  match writer with
  | None => ret (Ok tt)
  | Some w => writer_Close w
  end.

#[local] Instance publisher : EventPublisher X := publisher_PublishPaymentConfirmed.
End Publish.

(** ** Creating the topics *)

Record TopicConfig : Type := { tc_Topic : string; tc_NumPartitions : Z; tc_ReplicationFactor : Z }.

(** A connection to a broker and its controller's address. *)
Class KafkaAdmin (C X : Type) : Type := {
  kafka_dial : string -> ST X (result C);
  conn_Controller : C -> ST X (result (string * Z));
  conn_CreateTopics : C -> list TopicConfig -> ST X (result unit);
  conn_Brokers : C -> ST X (result unit);
  conn_Close : C -> ST X (result unit);
}.

Inductive admin_event (C : Type) : Type :=
  | Dialed (c : C)
  | Requested (c : C) (topics : list TopicConfig)
  | Hung (c : C).
Arguments Dialed {C} c.
Arguments Requested {C} c topics.
Arguments Hung {C} c.

Section Admin.
Context {C X : Type} `{KafkaAdmin C X}.

Abbreviation W := (list (admin_event C) * X)%type.
Definition log_event (e : admin_event C) : ST W unit := fun w => (tt, (w.1 ++ [e], w.2)).

Definition dial_logged (addr : string) : ST W (result C) :=
  (let! r := on_snd (kafka_dial addr) in
   match r with
   | Ok c => let! _u := log_event (Dialed c) in ret (Ok c)
   | Err e => ret (Err e)
   end)%easypay.

(** A deferred [conn.Close()]. *)
Definition closing {A} (c : C) (m : ST W A) : ST W A :=
  (let! a := m in
   let! _r := on_snd (conn_Close c) in
   let! _u := log_event (Hung c) in
   ret a)%easypay.

(** The loop over the topics. *)
Definition topicSpecs (topics : list string) : list TopicConfig :=
  (fun t => {| tc_Topic := t; tc_NumPartitions := 1; tc_ReplicationFactor := 1 |}) <$>
  filter (fun t => t <> "") topics.

Definition ensureTopicsWithDialer (brokers topics : list string) : ST W unit :=
  match brokers with
  | [] => ret tt
  | b0 :: _ =>
      (let! conn := dial_logged b0 in
       match conn with
       | Err _ => ret tt
       | Ok conn => closing conn
           (let! controller := on_snd (conn_Controller conn) in
            match controller with
            | Err _ => ret tt
            | Ok (host, port) =>
                let! ctrl := dial_logged (host +:+ ":" +:+ FormatInt port) in
                match ctrl with
                | Err _ => ret tt
                | Ok ctrl => closing ctrl
                    (let! _u := log_event (Requested ctrl (topicSpecs topics)) in
                     let! _r := on_snd (conn_CreateTopics ctrl (topicSpecs topics)) in
                     ret tt)
                end
            end)
       end)%easypay
  end.

(** [NewPublisher]: the topic first, then the writer. *)
Definition NewPublisher (cfg : KafkaConfig) : ST W kafkaWriter :=
  (let! _u := ensureTopicsWithDialer (kf_Brokers cfg) [kf_TopicConfirmed cfg] in
   ret (publisherWriter cfg))%easypay.

(** The readiness ping. *)
Definition Pinger_Ping (brokers : list string) : ST W (result unit) :=
  match brokers with
  | [] => ret (Err (Text "no brokers configured"))
  | b0 :: _ =>
      (let! conn := dial_logged b0 in
       match conn with
       | Err e => ret (Err e)
       | Ok conn => closing conn (on_snd (conn_Brokers conn))
       end)%easypay
  end.

(** ** What reaches the brokers *)

(** Every way the creation can end. *)
Lemma ensureTopics_trace brokers topics tr x u tr' x' :
  ensureTopicsWithDialer brokers topics (tr, x) = (u, (tr', x')) ->
  tr' = tr \/ exists c, tr' = tr ++ [Dialed c; Hung c] \/
    exists k, tr' = tr ++ [Dialed c; Dialed k; Requested k (topicSpecs topics); Hung k; Hung c].
Proof.
  unfold ensureTopicsWithDialer. destruct brokers as [|b0 bs]; [intros [= <- <- <-]; by left|].
  unfold dial_logged, closing, log_event, bind, on_snd, ret. cbn [fst snd].
  destruct (kafka_dial b0 x) as [[c|e] x1]; [|intros [= <- <- <-]; by left]. cbn [fst snd].
  destruct (conn_Controller c x1) as [[[host port]|e] x2].
  - cbn [fst snd]. destruct (kafka_dial _ x2) as [[k|e] x3]; cbn [fst snd].
    + destruct (conn_CreateTopics k _ x3) as [r x4]. cbn [fst snd].
      destruct (conn_Close k x4) as [r5 x5]. cbn [fst snd]. destruct (conn_Close c x5) as [r6 x6].
      intros [= <- <- <-]. right. exists c. right. exists k. by rewrite <- !app_assoc.
    + destruct (conn_Close c x3) as [r4 x4]. intros [= <- <- <-]. right. exists c. left. by rewrite <- !app_assoc.
  - cbn [fst snd]. destruct (conn_Close c x2) as [r3 x3]. intros [= <- <- <-]. right. exists c. left. by rewrite <- !app_assoc.
Qed.

Lemma topicSpecs_spec topics tc :
  tc ∈ topicSpecs topics <->
  tc_Topic tc ∈ topics /\ tc_Topic tc <> "" /\ tc_NumPartitions tc = 1 /\ tc_ReplicationFactor tc = 1.
Proof.
  unfold topicSpecs. rewrite list_elem_of_fmap. split.
  - intros (t & -> & [? ?]%list_elem_of_filter). by split_and!.
  - intros (Ht & Hne & Hp & Hr). exists (tc_Topic tc). split; [destruct tc; cbn in *; by subst|].
    by apply list_elem_of_filter.
Qed.
End Admin.
