(* ===== verification/Runners.v ===== *)
(** * The worker loops (service/reconciliation.go, provider/blockchain)

    Each worker is a loop around a ticker, a subscription or a connection.  A
    [select] takes whichever channel is ready: the sequence of what arrives is
    an argument, so that a theorem covers every order.  A loop that is still
    waiting has the value [None]. *)

From S2P Require Import Prelude GoStrings Domain TransactionStore StripeTypes Ports ChainEvents OnchainRepo.
From S2P Require Import ChainListener KafkaConsumer ChainTheorems Reconciliation.
Local Open Scope Z_scope.

(** ** Ticker loops *)

(** What wakes the loop: the context is done, with its error, or the ticker. *)
Inductive wake : Type := CtxDone (e : error) | Ticked.

(** A pass that has not returned holds the loop up. *)
Fixpoint tickerLoop {W} (tick : ST W (option (result unit))) (wakes : list wake) : ST W (option error) :=
  match wakes with
  | [] => ret None
  | CtxDone e :: _ => ret (Some e)
  | Ticked :: rest =>
      (let! r := tick in match r with Some _ => tickerLoop tick rest | None => ret None end)%easypay
  end.

(** A pass that always returns. *)
Definition returning {W A} (tick : ST W A) : ST W (option A) := (let! r := tick in ret (Some r))%easypay.

(** Number of ticks before the context ends. *)
Fixpoint ticks (wakes : list wake) : nat :=
  match wakes with
  | Ticked :: rest => S (ticks rest)
  | _ => 0
  end.

Fixpoint repeat_tick {W} (tick : ST W (result unit)) (n : nat) : ST W unit :=
  match n with
  | O => ret tt
  | S n' => (let! _r := tick in repeat_tick tick n')%easypay
  end.

(** The loop runs one pass per tick, whatever each pass returns, and stops
    only for the context. *)
Lemma tickerLoop_spec {W} (tick : ST W (result unit)) wakes w :
  (tickerLoop (returning tick) wakes w).2 = (repeat_tick tick (ticks wakes) w).2 /\
  (tickerLoop (returning tick) wakes w).1 = match drop (ticks wakes) wakes with CtxDone e :: _ => Some e | _ => None end.
Proof.
  revert w. induction wakes as [|[e|] wakes IH]; intros w; [done|done|].
  cbn [tickerLoop ticks repeat_tick drop]. unfold bind, returning at 1 3, bind, ret. destruct (tick w) as [r w1]. apply IH.
Qed.

Section OrderReconciler.
Context {D X : Type} `{TransactionRepository D} `{Client X} `{Clock X} `{EventPublisher X}.

(** [NewOrderReconciliation]: the production defaults. *)
Definition NewOrderReconciliation : ReconciliationOptions :=
  NewOrderReconciliationWithOptions {| ro_Interval := 0; ro_StuckAfter := 0; ro_BatchSize := 0 |}.

Definition orderReconciliation_Run (r : ReconciliationOptions) (wakes : list wake) : ST (D * X) (option error) :=
  tickerLoop (returning (Reconciliation.tick r)) wakes.
End OrderReconciler.

(** ** The client of the chain *)

(** What a log subscription brings: the end of the context, the end of the
    subscription with its error (nil when it was closed), or a log. *)
Inductive subEvent : Type := EvDone (e : error) | EvErr (e : option error) | EvLog (lg : Log).

(** One endpoint of go-ethereum's client, and dialing it; [close_rpc] closes a
    connection. *)
Class RPC (C X : Type) : Type := {
  dial : string -> ST X (result C);
  close_rpc : C -> ST X unit;
  rpc_BlockNumber : C -> ST X (result Z);
  rpc_FilterLogs : C -> FilterQuery -> ST X (result (list Log));
  rpc_TransactionReceipt : C -> string -> ST X (result (option Receipt));
  rpc_SubscribeFilterLogs : C -> FilterQuery -> ST X (result (list subEvent));
}.

Section EthClient.
Context {C X : Type} `{RPC C X}.

Record ethClient : Type := { ec_ws : option C; ec_http : option C }.

(** [NewClient]: an empty URL leaves a transport out; when the second dial
    fails the first connection is closed. *)
Definition NewClient (ws httpURL : string) : ST X (result ethClient) :=
  (let! w := if bool_decide (ws = "") then ret (Ok None)
             else (let! r := dial ws in ret (match r with Ok c => Ok (Some c) | Err e => Err (Wrap "dial ws" e) end)) in
   match w with
   | Err e => ret (Err e)
   | Ok w =>
       let! h := if bool_decide (httpURL = "") then ret (Ok None)
                 else (let! r := dial httpURL in
                       match r with
                       | Ok c => ret (Ok (Some c))
                       | Err e =>
                           let! _u := match w with Some c => close_rpc c | None => ret tt end in
                           ret (Err (Wrap "dial http" e))
                       end) in
       ret (match h with
            | Err e => Err e
            | Ok h => match w, h with
                      | None, None => Err (Text "no rpc endpoint configured")
                      | _, _ => Ok {| ec_ws := w; ec_http := h |}
                      end
            end)
   end)%easypay.

Definition preferHTTP (c : ethClient) : option C :=
  match ec_http c with Some h => Some h | None => ec_ws c end.

Definition with_rpc {A} (o : option C) (msg : string) (f : C -> ST X (result A)) : ST X (result A) :=
  match o with None => ret (Err (Text msg)) | Some c => f c end.

Definition eth_BlockNumber (c : ethClient) : ST X (result Z) :=
  with_rpc (preferHTTP c) "no client available" rpc_BlockNumber.
Definition eth_FilterLogs (c : ethClient) (q : FilterQuery) : ST X (result (list Log)) :=
  with_rpc (preferHTTP c) "no client available" (fun h => rpc_FilterLogs h q).
Definition eth_TransactionReceipt (c : ethClient) (hash : string) : ST X (result (option Receipt)) :=
  with_rpc (preferHTTP c) "no client available" (fun h => rpc_TransactionReceipt h hash).
Definition eth_SubscribeFilterLogs (c : ethClient) (q : FilterQuery) : ST X (result (list subEvent)) :=
  with_rpc (ec_ws c) "websocket endpoint not configured" (fun w => rpc_SubscribeFilterLogs w q).
Definition eth_Close (c : ethClient) : ST X unit :=
  (let! _u := match ec_ws c with Some w => close_rpc w | None => ret tt end in
   match ec_http c with Some h => close_rpc h | None => ret tt end)%easypay.

#[local] Instance eth_chain_client (c : ethClient) : ChainClient X := {|
  BlockNumber := eth_BlockNumber c; FilterLogs := eth_FilterLogs c; TransactionReceipt := eth_TransactionReceipt c |}.

(** A client that was built has a transport, the configured ones and no other:
    queries never fail for want of one, and only a configured websocket can be
    subscribed to. *)
Lemma NewClient_spec ws httpURL x c x' :
  NewClient ws httpURL x = (Ok c, x') ->
  (ec_ws c = None <-> ws = "") /\ (ec_http c = None <-> httpURL = "") /\ is_Some (preferHTTP c) /\
  (ws = "" -> forall q y, eth_SubscribeFilterLogs c q y = (Err (Text "websocket endpoint not configured"), y)).
Proof.
  unfold NewClient, bind, ret. case_bool_decide as Hw; [|destruct (dial ws x) as [[w|e] x1]; [|discriminate]].
  - case_bool_decide as Hh; [discriminate|]. destruct (dial httpURL x) as [[h|e] x1]; intros [= <- <-]. cbn.
    by split_and!.
  - case_bool_decide as Hh; [intros [= <- <-]; cbn; by split_and!|].
    destruct (dial httpURL x1) as [[h|e] x2].
    + intros [= <- <-]. cbn. by split_and!.
    + destruct (close_rpc w x2). discriminate.
Qed.
End EthClient.

(** ** The listener's workers *)

(** [SubscribeFilterLogs] of the chain client: the events the subscription
    will deliver. *)
Class LogStream (X : Type) : Type := SubscribeFilterLogs : FilterQuery -> ST X (result (list subEvent)).

Record Subscriber : Type := { sub_Cfg : ChainConfig; sub_BackoffMin : Z; sub_BackoffMax : Z }.
Record BackfillScanner : Type := { bf_Cfg : ChainConfig; bf_Interval : Z; bf_BatchSize : Z }.
Record ConfirmationTracker : Type := { ct_Cfg : ChainConfig; ct_BlockTime : Z; ct_BatchLimit : Z }.
Record ChainReconciler : Type := { cr_Cfg : ChainConfig; cr_Interval : Z; cr_StuckAfter : Z; cr_BatchSize : Z }.
Record Listener : Type := {
  li_Subscriber : Subscriber; li_Backfill : BackfillScanner;
  li_Confirmation : ConfirmationTracker; li_Reconciler : ChainReconciler;
}.

Definition NewSubscriber (cfg : ChainConfig) : Subscriber :=
  {| sub_Cfg := cfg; sub_BackoffMin := second; sub_BackoffMax := 30 * second |}.
Definition NewBackfillScanner (cfg : ChainConfig) : BackfillScanner :=
  {| bf_Cfg := cfg; bf_Interval := 5 * minute; bf_BatchSize := 5000 |}.
Definition NewConfirmationTracker (cfg : ChainConfig) : ConfirmationTracker :=
  {| ct_Cfg := cfg; ct_BlockTime := 12 * second; ct_BatchLimit := 100 |}.
Definition NewReconciler (cfg : ChainConfig) : ChainReconciler :=
  {| cr_Cfg := cfg; cr_Interval := hour; cr_StuckAfter := 30 * minute; cr_BatchSize := 500 |}.
Definition NewListener (cfg : ChainConfig) : Listener := {|
  li_Subscriber := NewSubscriber cfg; li_Backfill := NewBackfillScanner cfg;
  li_Confirmation := NewConfirmationTracker cfg; li_Reconciler := NewReconciler cfg |}.

Section Workers.
Context `{EthFormat}.
Context {D P K X : Type} `{TransactionRepository D} `{OnchainTxRepository P} `{CursorStore K}
  `{ChainClient X} `{Clock X} `{EventPublisher X} `{GoContext X} `{LogStream X}.

Abbreviation W := (D * (P * (K * X)))%type.

(** [rounds] bounds how far the loop of a pass is followed. *)
Definition backfill_Run (b : BackfillScanner) (rounds : nat) (wakes : list wake) : ST W (option error) :=
  tickerLoop (backfill_tick (bf_Cfg b) rounds (bf_BatchSize b)) wakes.
Definition confirmation_Run (t : ConfirmationTracker) (wakes : list wake) : ST W (option error) :=
  tickerLoop (returning (confirmation_tick (ct_Cfg t) (ct_BatchLimit t))) wakes.
Definition reconciler_Run (r : ChainReconciler) (wakes : list wake) : ST W (option error) :=
  tickerLoop (returning (reconciler_tick (cr_Cfg r) (cr_BatchSize r))) wakes.

(** *** subscriber.go *)

Section Subscribe.
Variable s : Subscriber.

Definition subscribeQuery : FilterQuery := {|
  fq_FromBlock := 0; fq_ToBlock := 0; fq_Addresses := [cc_ContractAddress (sub_Cfg s)];
  fq_Topics := if bool_decide (cc_EventTopic (sub_Cfg s) = zeroHash) then [] else [[cc_EventTopic (sub_Cfg s)]] |}.

(** The loop of [runOnce]; [Some (Ok tt)] would be a nil error. *)
Fixpoint pump (evs : list subEvent) : ST W (option (result unit)) :=
  match evs with
  | [] => ret None
  | EvDone e :: _ => ret (Some (Err e))
  | EvErr (Some e) :: _ => ret (Some (Err (Wrap "subscription" e)))
  | EvErr None :: _ => ret (Some (Err (Text "subscription: %!w(<nil>)")))
  | EvLog lg :: rest => (let! _r := handleLog (sub_Cfg s) lg in pump rest)%easypay
  end.

Definition runOnce : ST W (option (result unit)) :=
  (let! sub := on_chain (SubscribeFilterLogs subscribeQuery) in
   match sub with
   | Err e => ret (Some (Err (Wrap "subscribe" e)))
   | Ok evs => pump evs
   end)%easypay.

(** [Run], its first [n] rounds; the list records how long it waited before
    each reconnection. *)
Fixpoint subscriber_loop (n : nat) (backoff : Z) : ST (list Z * W) (option (result unit)) :=
  match n with
  | O => ret None
  | S n' =>
      (let! stop := on_snd (on_chain ctx_Err) in
       match stop with
       | Some e => ret (Some (Err e))
       | None =>
           let! r := on_snd runOnce in
           match r with
           | None => ret None
           | Some (Err e) =>
               if errIs e ContextCanceled then ret (Some (Ok tt))
               else
                 let! _w := (fun w => (tt, (w.1 ++ [backoff], w.2))) in
                 let! c := on_snd (on_chain (ctx_Wait backoff)) in
                 match c with
                 | Some e => ret (Some (Err e))
                 | None => subscriber_loop n' (doubleCapped backoff (sub_BackoffMax s))
                 end
           | Some (Ok _) => subscriber_loop n' (sub_BackoffMin s)
           end
       end)%easypay
  end.

Definition subscriber_Run (n : nat) : ST (list Z * W) (option (result unit)) :=
  subscriber_loop n (sub_BackoffMin s).

Lemma pump_not_nil evs w : (pump evs w).1 <> Some (Ok tt).
Proof.
  revert w. induction evs as [|[e|[e|]|lg] evs IH]; intros w; cbn [pump]; [discriminate..|].
  unfold bind. destruct (handleLog _ lg w) as [r w1]. apply IH.
Qed.

Lemma runOnce_not_nil w : (runOnce w).1 <> Some (Ok tt).
Proof.
  unfold runOnce, bind. destruct (on_chain _ w) as [[evs|e] w1]; [apply pump_not_nil|discriminate].
Qed.

(** The [i]-th wait. *)
Definition wait_of (i : nat) : Z := Z.min (sub_BackoffMax s) (sub_BackoffMin s * 2 ^ Z.of_nat i).

Lemma backoff_next i : 0 < sub_BackoffMin s <= sub_BackoffMax s -> sub_BackoffMax s < 2 ^ 62 ->
  doubleCapped (wait_of i) (sub_BackoffMax s) = wait_of (S i).
Proof.
  intros Hlo Hhi. unfold wait_of.
  rewrite <- !(backoff_closed_form (sub_BackoffMin s) (sub_BackoffMax s)) by done. by rewrite Nat.iter_succ.
Qed.

Lemma subscriber_loop_waits n i ws w res ws' w' :
  0 < sub_BackoffMin s <= sub_BackoffMax s -> sub_BackoffMax s < 2 ^ 62 ->
  subscriber_loop n (wait_of i) (ws, w) = (res, (ws', w')) ->
  exists k, ws' = ws ++ (wait_of <$> seq i k).
Proof.
  intros Hlo Hhi. revert i ws w. induction n as [|n IH]; intros i ws w; cbn [subscriber_loop].
  { intros [= <- <- <-]. exists 0%nat. by rewrite app_nil_r. }
  unfold bind at 1, on_snd at 1. cbn [fst snd]. destruct (on_chain ctx_Err w) as [[e|] w1].
  { intros [= <- <- <-]. exists 0%nat. by rewrite app_nil_r. }
  unfold bind at 1, on_snd at 1. cbn [fst snd]. pose proof (runOnce_not_nil w1) as Hnil.
  destruct (runOnce w1) as [[[[]|e]|] w2]; [done| |intros [= <- <- <-]; exists 0%nat; by rewrite app_nil_r].
  destruct (errIs e ContextCanceled).
  { intros [= <- <- <-]. exists 0%nat. by rewrite app_nil_r. }
  unfold bind at 1. cbn [fst snd]. unfold bind at 1, on_snd at 1. cbn [fst snd].
  destruct (on_chain (ctx_Wait _) w2) as [[c|] w3].
  { intros [= <- <- <-]. by exists 1%nat. }
  rewrite backoff_next by done. intros (k & ->)%IH. exists (S k). cbn [seq fmap list_fmap].
  by rewrite <- app_assoc.
Qed.

(** The subscriber's backoff is never reset: in every run, whatever the
    chain delivers between two failures, the [i]-th reconnection waits for the
    minimum doubled [i] times and capped, since [runOnce] never returns
    without an error and the reset after it cannot be reached.  After a few
    lost connections in the life of the process every reconnection waits for
    the maximum. *)
Theorem backoff_never_reset n w res ws w' :
  0 < sub_BackoffMin s <= sub_BackoffMax s -> sub_BackoffMax s < 2 ^ 62 ->
  subscriber_Run n ([], w) = (res, (ws, w')) ->
  forall i t, ws !! i = Some t -> t = Z.min (sub_BackoffMax s) (sub_BackoffMin s * 2 ^ Z.of_nat i).
Proof.
  intros Hlo Hhi. unfold subscriber_Run.
  replace (sub_BackoffMin s) with (wait_of 0) at 1 by (unfold wait_of; cbn; lia).
  intros (k & ->)%subscriber_loop_waits; [|done..]. intros i t. cbn [app].
  intros (j & -> & Hj)%list_lookup_fmap_Some. by apply lookup_seq in Hj as [-> _].
Qed.
End Subscribe.
End Workers.
