(* ===== verification/Effects.v ===== *)
(** * The calls a request makes, one at a time

    Between two calls of one request (to a database, to Redis, to Stripe, to
    the chain) any other request may run, so that nothing can be assumed about
    an answer beyond its type.  [queue] is a state on which every port of the
    services is implemented by asking an arbitrary oracle and recording the
    question and the answer.  A service run on queues is therefore the service
    under every interference there can be, and what it recorded is the list of
    its calls.

    [runs] is a small program logic over these runs: every call made must be
    backed by what the request has seen before it. *)

From S2P Require Import Prelude GoStrings Domain TransactionStore StripeTypes Ports ChainEvents OnchainRepo ChainListener.
From S2P Require Import KafkaConsumer Runners.
Local Open Scope Z_scope.

(** ** Calls and answers *)

Inductive op : Type :=
  | TInsert (t : Transaction)
  | TGetTxn (sh : Z) (m x : string)
  | TGetOrder (sh : Z) (m o : string)
  | TUpdateStatus (sh : Z) (m o st pi : string)
  | TUpdateCheckout (sh : Z) (m o sess pi : string)
  | TGetAny (o : string)
  | TGetIntent (pi : string)
  | TPending (before limit : Z)
  | SSession (req : CreateCheckoutRequest) (key : string)
  | SNewIntent (req : CreatePaymentIntentRequest) (key : string)
  | SGetIntent (pi : string)
  | SGetSession (id : string)
  | SRefund (req : CreateRefundRequest) (key : string)
  | SVerify (payload sig secret : string)
  | KNow
  | MByKey (key : string)
  | MByID (id : string)
  | MInsert (m : Merchant)
  | EPublish (ev : PaymentConfirmedEvent)
  | RSetNX (k v : string) (ttl : Z)
  | LAcquire (k : string) (ttl : Z)
  | LRelease (l : Lock)
  | UGet (k : string)
  | UPut (k url : string)
  | BAllow
  | OCreate (t : OnchainTransaction)
  | OGet (hash : string)
  | OUpdate (hash : string) (n : Z) (st : string)
  | OList (chain limit : Z)
  | CGet (chain : Z)
  | CSet (chain n : Z)
  | HBlock
  | HLogs (q : FilterQuery)
  | HReceipt (h : string)
  | HSubscribe (q : FilterQuery)
  | GErr
  | GWait (d : Z).

Definition answer (c : op) : Type :=
  match c with
  | TInsert _ => Transaction * result unit
  | TGetTxn _ _ _ | TGetOrder _ _ _ | TGetAny _ | TGetIntent _ => result Transaction
  | TPending _ _ => result (list Transaction)
  | SSession _ _ | SGetSession _ => result CheckoutSession
  | SNewIntent _ _ | SGetIntent _ => result PaymentIntent
  | SRefund _ _ => result Refund
  | SVerify _ _ _ => result Event
  | KNow => Z
  | MByKey _ | MByID _ => result Merchant
  | MInsert _ => Merchant * result unit
  | RSetNX _ _ _ => result bool
  | LAcquire _ _ => result Lock
  | UGet _ => option string
  | UPut _ _ => unit
  | OGet _ => result OnchainTransaction
  | OList _ _ => result (list OnchainTransaction)
  | CGet _ | HBlock => result Z
  | HLogs _ => result (list Log)
  | HReceipt _ => result (option Receipt)
  | HSubscribe _ => result (list subEvent)
  | GErr | GWait _ => option error
  | TUpdateStatus _ _ _ _ _ | TUpdateCheckout _ _ _ _ _ | EPublish _ | LRelease _ | BAllow
  | OCreate _ | OUpdate _ _ _ | CSet _ _ => result unit
  end%type.

(** The answer of a call that fails: an error where there is one, a miss of
    the cache, the zero time, a context that goes on. *)
Definition failure : error := Text "no answer".
Definition failed (c : op) : answer c :=
  match c with
  | TInsert t => (t, Err failure)
  | MInsert m => (m, Err failure)
  | KNow => 0
  | UGet _ => None
  | GErr | GWait _ => None
  | UPut _ _ => tt
  | TGetTxn _ _ _ | TGetOrder _ _ _ | TGetAny _ | TGetIntent _ | TPending _ _ | SSession _ _ | SGetSession _
  | SNewIntent _ _ | SGetIntent _ | SRefund _ _ | SVerify _ _ _ | MByKey _ | MByID _ | RSetNX _ _ _
  | LAcquire _ _ | OGet _ | OList _ _ | CGet _ | HBlock | HLogs _ | HReceipt _ | HSubscribe _
  | TUpdateStatus _ _ _ _ _ | TUpdateCheckout _ _ _ _ _ | EPublish _ | LRelease _ | BAllow
  | OCreate _ | OUpdate _ _ _ | CSet _ _ => Err failure
  end.

(** A call and what it answered. *)
Record obs : Type := Ob { ob_op : op; ob_answer : answer ob_op }.

(** ** Queues *)

Record queue : Type := { q_seen : list obs; q_oracle : list obs -> forall c, answer c }.

Definition ask (c : op) : ST queue (answer c) := fun q =>
  let a := q_oracle q (q_seen q) c in
  (a, {| q_seen := q_seen q ++ [Ob c a]; q_oracle := q_oracle q |}).

#[export] Instance queue_transactions : TransactionRepository queue := {
  repo_Insert t := ask (TInsert t);
  repo_GetByTransactionID sh m x := ask (TGetTxn sh m x);
  repo_GetByMerchantOrderID sh m o := ask (TGetOrder sh m o);
  repo_UpdateStatus sh m o st pi := ask (TUpdateStatus sh m o st pi);
  repo_UpdateCheckout sh m o sess pi := ask (TUpdateCheckout sh m o sess pi);
  repo_GetByOrderIDAny o := ask (TGetAny o);
  repo_GetByPaymentIntentID pi := ask (TGetIntent pi);
  repo_GetPendingBefore before limit := ask (TPending before limit);
}.

#[export] Instance queue_stripe : Client queue := {
  CreateCheckoutSession req key := ask (SSession req key);
  CreatePaymentIntent req key := ask (SNewIntent req key);
  GetPaymentIntent pi := ask (SGetIntent pi);
  GetCheckoutSession id := ask (SGetSession id);
  CreateRefund req key := ask (SRefund req key);
  VerifyWebhookSignature payload sig secret := ask (SVerify payload sig secret);
}.

#[export] Instance queue_clock : Clock queue := ask KNow.

#[export] Instance queue_merchants : MerchantRepository queue := {
  GetByAPIKey k := ask (MByKey k);
  GetByMerchantID id := ask (MByID id);
  merchants_Insert m := ask (MInsert m);
}.

#[export] Instance queue_publisher : EventPublisher queue := fun ev => ask (EPublish ev).
#[export] Instance queue_redis : RedisSetNX queue := fun k v ttl => ask (RSetNX k v ttl).
#[export] Instance queue_locker : Locker queue := {
  Acquire k ttl := ask (LAcquire k ttl); Release l := ask (LRelease l) }.
#[export] Instance queue_urls : URLCache queue := {
  url_Get k := ask (UGet k); url_Put k url := ask (UPut k url) }.
#[export] Instance queue_bucket : TokenBucket queue := ask BAllow.

#[export] Instance queue_onchain : OnchainTxRepository queue := {
  tx_Create t := ask (OCreate t);
  tx_GetByTxHash h := ask (OGet h);
  tx_UpdateConfirmations h n st := ask (OUpdate h n st);
  tx_ListPendingByChain chain limit := ask (OList chain limit);
}.
#[export] Instance queue_cursor : CursorStore queue := {
  cursor_Get chain := ask (CGet chain); cursor_Set chain n := ask (CSet chain n) }.
#[export] Instance queue_chain : ChainClient queue := {
  BlockNumber := ask HBlock; FilterLogs q := ask (HLogs q); TransactionReceipt h := ask (HReceipt h) }.

#[export] Instance queue_context : GoContext queue := { ctx_Err := ask GErr; ctx_Wait d := ask (GWait d) }.
#[export] Instance queue_stream : LogStream queue := fun q => ask (HSubscribe q).

(** ** What a product of queues has seen *)

(** [honest good w]: the oracles of [w] only give answers with [good]. *)
Class Seen (W : Type) : Type := {
  seen : W -> list obs;
  honest : (obs -> Prop) -> W -> Prop;
}.
#[export] Instance queue_seen : Seen queue := {
  seen := q_seen;
  honest good q := forall before c, good (Ob c (q_oracle q before c));
}.
#[export] Instance pair_seen {W V} `{Seen W} `{Seen V} : Seen (W * V) := {
  seen w := seen w.1 ++ seen w.2;
  honest good w := honest good w.1 /\ honest good w.2;
}.

(** A component that makes no calls: the waits the subscriber has made. *)
#[export] Instance waits_seen : Seen (list Z) := { seen _ := []; honest _ _ := True }.

(** [m] makes exactly one call, [c], and records the answer it returns. *)
Class Asks {W A} `{Seen W} (m : ST W A) (c : op) (ob : A -> obs) : Prop := {
  asks_op a : ob_op (ob a) = c;
  asks_seen w e : e ∈ seen (m w).2 <-> e ∈ seen w \/ e = ob (m w).1;
  asks_honest good w : honest good w -> honest good (m w).2 /\ good (ob (m w).1);
}.

Lemma ask_asks c : Asks (ask c) c (Ob c).
Proof.
  split; [done| |].
  - intros w e. unfold ask. cbn. by rewrite elem_of_app, list_elem_of_singleton.
  - intros good w Hw. unfold ask. cbn in *. eauto.
Qed.

#[export] Instance asks_on_fst {W V A} `{Seen W} `{Seen V} (m : ST W A) c ob :
  Asks m c ob -> Asks (on_fst (V := V) m) c ob.
Proof.
  intros [Hop Hs Hh]. split; [done| |].
  - intros [w v] e. unfold on_fst. cbn [fst snd]. specialize (Hs w e).
    destruct (m w) as [a w']. cbn in *. rewrite !elem_of_app. tauto.
  - intros good [w v] [Hw Hv]. unfold on_fst. cbn in *. destruct (Hh good w Hw). by destruct (m w).
Qed.

#[export] Instance asks_on_snd {W V A} `{Seen W} `{Seen V} (m : ST V A) c ob :
  Asks m c ob -> Asks (on_snd (W := W) m) c ob.
Proof.
  intros [Hop Hs Hh]. split; [done| |].
  - intros [w v] e. unfold on_snd. cbn [fst snd]. specialize (Hs v e).
    destruct (m v) as [a v']. cbn in *. rewrite !elem_of_app. tauto.
  - intros good [w v] [Hw Hv]. unfold on_snd. cbn in *. destruct (Hh good v Hv). by destruct (m v).
Qed.

(** Each method of a port is one call. *)
#[export] Instance asks_Insert t : Asks (repo_Insert t) (TInsert t) (Ob (TInsert t)) := ask_asks (TInsert t).
#[export] Instance asks_GetTxn sh m x : Asks (repo_GetByTransactionID sh m x) (TGetTxn sh m x) (Ob (TGetTxn sh m x)) := ask_asks (TGetTxn sh m x).
#[export] Instance asks_GetOrder sh m o : Asks (repo_GetByMerchantOrderID sh m o) (TGetOrder sh m o) (Ob (TGetOrder sh m o)) := ask_asks (TGetOrder sh m o).
#[export] Instance asks_UpdateStatus sh m o st pi :
  Asks (repo_UpdateStatus sh m o st pi) (TUpdateStatus sh m o st pi) (Ob (TUpdateStatus sh m o st pi)) := ask_asks (TUpdateStatus sh m o st pi).
#[export] Instance asks_UpdateCheckout sh m o sess pi :
  Asks (repo_UpdateCheckout sh m o sess pi) (TUpdateCheckout sh m o sess pi) (Ob (TUpdateCheckout sh m o sess pi)) := ask_asks (TUpdateCheckout sh m o sess pi).
#[export] Instance asks_GetAny o : Asks (repo_GetByOrderIDAny o) (TGetAny o) (Ob (TGetAny o)) := ask_asks (TGetAny o).
#[export] Instance asks_GetByIntent pi : Asks (repo_GetByPaymentIntentID pi) (TGetIntent pi) (Ob (TGetIntent pi)) := ask_asks (TGetIntent pi).
#[export] Instance asks_Pending before limit :
  Asks (repo_GetPendingBefore before limit) (TPending before limit) (Ob (TPending before limit)) := ask_asks (TPending before limit).
#[export] Instance asks_Session req key : Asks (CreateCheckoutSession req key) (SSession req key) (Ob (SSession req key)) := ask_asks (SSession req key).
#[export] Instance asks_Intent pi : Asks (GetPaymentIntent pi) (SGetIntent pi) (Ob (SGetIntent pi)) := ask_asks (SGetIntent pi).
#[export] Instance asks_Refund req key : Asks (CreateRefund req key) (SRefund req key) (Ob (SRefund req key)) := ask_asks (SRefund req key).
#[export] Instance asks_Verify payload sig secret :
  Asks (VerifyWebhookSignature payload sig secret) (SVerify payload sig secret) (Ob (SVerify payload sig secret)) := ask_asks (SVerify payload sig secret).
#[export] Instance asks_Now : Asks time_Now KNow (Ob KNow) := ask_asks KNow.
#[export] Instance asks_Merchant id : Asks (GetByMerchantID id) (MByID id) (Ob (MByID id)) := ask_asks (MByID id).
#[export] Instance asks_Publish ev : Asks (PublishPaymentConfirmed ev) (EPublish ev) (Ob (EPublish ev)) := ask_asks (EPublish ev).
#[export] Instance asks_SetNX k v ttl : Asks (SetNX k v ttl) (RSetNX k v ttl) (Ob (RSetNX k v ttl)) := ask_asks (RSetNX k v ttl).
#[export] Instance asks_Acquire k ttl : Asks (Acquire k ttl) (LAcquire k ttl) (Ob (LAcquire k ttl)) := ask_asks (LAcquire k ttl).
#[export] Instance asks_Release l : Asks (Release l) (LRelease l) (Ob (LRelease l)) := ask_asks (LRelease l).
#[export] Instance asks_UrlGet k : Asks (url_Get k) (UGet k) (Ob (UGet k)) := ask_asks (UGet k).
#[export] Instance asks_UrlPut k url : Asks (url_Put k url) (UPut k url) (Ob (UPut k url)) := ask_asks (UPut k url).
#[export] Instance asks_Allow : Asks bucket_Allow BAllow (Ob BAllow) := ask_asks BAllow.
#[export] Instance asks_TxCreate t : Asks (tx_Create t) (OCreate t) (Ob (OCreate t)) := ask_asks (OCreate t).
#[export] Instance asks_TxGet h : Asks (tx_GetByTxHash h) (OGet h) (Ob (OGet h)) := ask_asks (OGet h).
#[export] Instance asks_TxUpdate h n st : Asks (tx_UpdateConfirmations h n st) (OUpdate h n st) (Ob (OUpdate h n st)) := ask_asks (OUpdate h n st).
#[export] Instance asks_TxList chain limit : Asks (tx_ListPendingByChain chain limit) (OList chain limit) (Ob (OList chain limit)) := ask_asks (OList chain limit).
#[export] Instance asks_CursorGet chain : Asks (cursor_Get chain) (CGet chain) (Ob (CGet chain)) := ask_asks (CGet chain).
#[export] Instance asks_CursorSet chain n : Asks (cursor_Set chain n) (CSet chain n) (Ob (CSet chain n)) := ask_asks (CSet chain n).
#[export] Instance asks_Block : Asks BlockNumber HBlock (Ob HBlock) := ask_asks HBlock.
#[export] Instance asks_Logs q : Asks (FilterLogs q) (HLogs q) (Ob (HLogs q)) := ask_asks (HLogs q).
#[export] Instance asks_Receipt h : Asks (TransactionReceipt h) (HReceipt h) (Ob (HReceipt h)) := ask_asks (HReceipt h).

#[export] Instance asks_Subscribe q : Asks (SubscribeFilterLogs q) (HSubscribe q) (Ob (HSubscribe q)) := ask_asks (HSubscribe q).
#[export] Instance asks_CtxErr : Asks ctx_Err GErr (Ob GErr) := ask_asks GErr.
#[export] Instance asks_CtxWait d : Asks (ctx_Wait d) (GWait d) (Ob (GWait d)) := ask_asks (GWait d).

(** A sequence on one half of a state is the sequence of its parts there. *)
Lemma on_snd_bind {W V A B} (m : ST V A) (k : A -> ST V B) (w : W * V) :
  on_snd (bind m k) w = bind (on_snd m) (fun a => on_snd (k a)) w.
Proof. destruct w as [w v]. unfold on_snd, bind. cbn. by destruct (m v) as [a v']. Qed.

Lemma on_snd_ret {W V A} (a : A) (w : W * V) : on_snd (ret a) w = ret a w.
Proof. by destruct w. Qed.

(** ** Backed runs *)

Section Logic.
Context {W : Type} `{Seen W}.
(** [backed K c]: having seen [K] justifies the call [c]. *)
Variable backed : list obs -> op -> Prop.
Hypothesis backed_mono : forall K K' c, K ⊆ K' -> backed K c -> backed K' c.

(** What the oracles are known to answer. *)
Variable good : obs -> Prop.

Record all_backed (w : W) : Prop := {
  ab_backed e : e ∈ seen w -> backed (seen w) (ob_op e);
  ab_good e : e ∈ seen w -> good e;
  ab_honest : honest good w;
}.

(** From a state whose calls are backed and which has seen at least [K], [m]
    makes backed calls only; it returns [a] having seen some [K'] with [Q]. *)
Definition runs {A} (K : list obs) (m : ST W A) (Q : A -> list obs -> Prop) : Prop :=
  forall w, all_backed w -> K ⊆ seen w ->
    all_backed (m w).2 /\ exists K', K ⊆ K' /\ K' ⊆ seen (m w).2 /\ Q (m w).1 K'.

Lemma runs_ret {A} K (a : A) (Q : A -> list obs -> Prop) : Q a K -> runs K (ret a) Q.
Proof. intros HQ w Hw HK. split; [done|]. by exists K. Qed.

Lemma runs_bind {A B} K (m : ST W A) (k : A -> ST W B) Q R :
  runs K m Q -> (forall a K', K ⊆ K' -> Q a K' -> runs K' (k a) R) -> runs K (bind m k) R.
Proof.
  intros Hm Hk w Hw HK. destruct (Hm w Hw HK) as (Hw1 & K1 & HK1 & Hs1 & HQ). unfold bind.
  destruct (m w) as [a w1]. cbn [fst snd] in *. destruct (Hk a K1 HK1 HQ w1 Hw1 Hs1) as (Hw2 & K2 & HK2 & Hs2 & HR).
  split; [done|]. exists K2. split; [by transitivity K1|done].
Qed.

Lemma runs_call {A} K (m : ST W A) c ob (Q : A -> list obs -> Prop) :
  Asks m c ob -> backed K c -> (forall a, Q a (ob a :: K)) -> runs K m Q.
Proof.
  intros [Hop Hs Hh] Hc HQ w [Hb Hg Ho] HK. destruct (Hh good w Ho) as [Ho1 Hga].
  destruct (m w) as [a w1] eqn:Em. cbn [fst snd] in *.
  assert (Hs1 : forall e, e ∈ seen w1 <-> e ∈ seen w \/ e = ob a) by (intros e; specialize (Hs w e); by rewrite Em in Hs).
  assert (Hsub : seen w ⊆ seen w1) by (intros e He; apply Hs1; by left). split; [split|].
  - intros e He. apply Hs1 in He as [He| ->]; [by eapply backed_mono, Hb|].
    rewrite Hop. eapply backed_mono; [|exact Hc]. by transitivity (seen w).
  - intros e He. apply Hs1 in He as [He| ->]; [by apply Hg|exact Hga].
  - exact Ho1.
  - exists (ob a :: K). split; [by right|]. split; [|done].
    intros e He. apply elem_of_cons in He as [->|He]; apply Hs1; [by right|left; by apply HK].
Qed.

(** A call followed by the rest of the request. *)
Lemma runs_step {A B} K (m : ST W A) (k : A -> ST W B) c ob R :
  Asks m c ob -> backed K c -> (forall a, runs (ob a :: K) (k a) R) -> runs K (bind m k) R.
Proof.
  intros Ha Hc Hk. eapply (runs_bind _ _ _ (fun a K' => K' = ob a :: K)); [by eapply runs_call|].
  intros a K' _ ->. apply Hk.
Qed.

Lemma runs_conseq {A} K (m : ST W A) (Q Q' : A -> list obs -> Prop) :
  runs K m Q -> (forall a K', K ⊆ K' -> Q a K' -> Q' a K') -> runs K m Q'.
Proof.
  intros Hm Himp w Hw HK. destruct (Hm w Hw HK) as (Hw1 & K1 & HK1 & Hs1 & HQ).
  split; [done|]. exists K1. eauto.
Qed.

Lemma runs_ext {A} K (m m' : ST W A) Q : (forall w, m w = m' w) -> runs K m' Q -> runs K m Q.
Proof. intros E Hm w. rewrite E. apply Hm. Qed.

(** From a fresh state, every call of the run is backed by the whole of it,
    and every answer is one of the oracles'. *)
Lemma runs_fresh {A} (m : ST W A) Q (w : W) :
  runs [] m Q -> seen w = [] -> honest good w -> all_backed (m w).2.
Proof.
  intros Hm Hw Ho. apply (Hm w); [|intros e He; by apply not_elem_of_nil in He].
  split; [rewrite Hw; intros e He; by apply not_elem_of_nil in He..|done].
Qed.
End Logic.

(** A run beside a component that makes no calls. *)
Lemma runs_beside {W} `{Seen W} backed good {A} K (m : ST W A) Q :
  runs backed good K m Q -> runs (W := list Z * W) backed good K (on_snd m) Q.
Proof.
  intros Hm [ws w] [Hb Hg Ho] HK. destruct (Hm w) as (Hw & Hpost); [by split; [..|apply Ho]|exact HK|].
  unfold on_snd. cbn [fst snd]. destruct (m w) as [a w1]. cbn [fst snd] in *. split; [|exact Hpost].
  destruct Hw as [Hb1 Hg1 Ho1]. by split.
Qed.

(** A step of such a component alone. *)
Lemma runs_silent {W} `{Seen W} backed good {A} K (f : list Z -> list Z) (a : A) (Q : A -> list obs -> Prop) :
  Q a K -> runs (W := list Z * W) backed good K (fun w => (a, (f w.1, w.2))) Q.
Proof. intros HQ [ws w] [Hb Hg Ho] HK. split; [by split|]. by exists K. Qed.
