(* ===== verification/Causes.v ===== *)
(** * Every effect of a request has a cause

    What each request of the gateway does is justified by what that request
    itself has seen: the row it inserted or read, the event whose signature it
    checked, Stripe's answer, the receipt of the chain.  [caused] says which
    observation each effect needs; the lemmas show it of every handler run on
    queues, that is, whatever other requests do between its calls. *)

From S2P Require Import Prelude GoStrings Domain TransactionStore StripeTypes Signatures Ports ChainEvents OnchainRepo.
From S2P Require Import PaymentService WebhookService CheckoutResolver Reconciliation ChainListener Runners Effects.
Local Open Scope Z_scope.

Create HintDb mono.

(** ** Successful answers *)

(** Every observation of [K] is one of [K'], unless its call failed. *)
Definition answered (K K' : list obs) : Prop :=
  forall e, e ∈ K -> e ∈ K' \/ ob_answer e = failed (ob_op e).

Lemma sub_answered K K' : K ⊆ K' -> answered K K'.
Proof. intros HK e He. left. by apply HK. Qed.

Lemma answered_in K K' e : answered K K' -> e ∈ K -> ob_answer e <> failed (ob_op e) -> e ∈ K'.
Proof. intros HK He Hne. by destruct (HK e He). Qed.

#[export] Hint Resolve sub_answered : mono.
#[export] Hint Extern 1 (Ob _ _ ∈ _) => eapply answered_in; [eassumption|eassumption|discriminate] : mono.

(** What a server is configured with. *)
Record deployment : Type := {
  dep_payments : paymentService;
  dep_resolver : checkoutResolver;
  dep_secret : string;
  dep_reconcile : ReconciliationOptions;
  dep_listener : Listener;
}.

(** ** Causes *)

(** How a request knows a payment [t] under the key [sh], [m], [o]. *)
Inductive payment_of (K : list obs) (sh : Z) (m o : string) (t : Transaction) : Prop :=
  | loaded : Ob (TGetOrder sh m o) (Ok t) ∈ K -> payment_of K sh m o t
  | listed before limit ts : Ob (TPending before limit) (Ok ts) ∈ K -> t ∈ ts ->
      t_ShardIndex t = sh -> t_MerchantID t = m -> t_OrderID t = o -> payment_of K sh m o t
  | searched x : Ob (TGetAny x) (Ok t) ∈ K ->
      t_ShardIndex t = sh -> t_MerchantID t = m -> t_OrderID t = o -> payment_of K sh m o t.

(** A row as [Create] writes it. *)
Record fresh_row (t : Transaction) : Prop := {
  fr_status : t_Status t = TransactionStatusCreated;
  fr_session : t_StripeSessionID t = "";
  fr_intent : t_StripePaymentIntentID t = "";
  fr_amount : int64_range (t_Amount t);
}.

Section Causes.
Context `{Unicode} `{ObjectJSON} `{EthFormat}.
Variable g : deployment.

(** A checkout session asked for on behalf of a payment. *)
Record for_payment (req : CreateCheckoutRequest) (t : Transaction) : Prop := {
  fp_amount : ccr_Amount req = t_Amount t;
  fp_currency : ccr_Currency req = ToLower (t_Currency t);
  fp_metadata : ccr_Metadata req = <["order_id" := t_OrderID t]> (<["merchant_id" := t_MerchantID t]> ∅);
}.

(** Stripe answered for the intent, and the intent has the status [st]. *)
Definition intent_is (K : list obs) (pi st id : string) : Prop :=
  exists p, Ob (SGetIntent pi) (Ok p) ∈ K /\ pi_Status p = st /\ pi_ID p = id.

(** An event whose signature was checked and that was not handled before. *)
Definition fresh_event (K : list obs) (ev : Event) : Prop :=
  exists payload sig, Ob (SVerify payload sig (dep_secret g)) (Ok ev) ∈ K /\
    Ob (RSetNX (dedupKey ev) "1" (24 * hour)) (Ok true) ∈ K.

(** Such an event of one of the types [tys], about the object [o]. *)
Definition event_seen (K : list obs) (tys : list string) (o : stripeObject) : Prop :=
  exists ev, fresh_event K ev /\ ev_Type ev ∈ tys /\ decodeStripeObject (ev_Data ev) = Ok o.

(** The merchant's shard, as the merchants repository answered. *)
Definition shard_is (K : list obs) (m : string) (sh : Z) : Prop :=
  exists mer, Ob (MByID m) (Ok mer) ∈ K /\ m_ShardIndex mer = sh.

(** A transaction of the chain, listed as pending, that succeeded, is buried
    under enough blocks and pays the order's amount, as far as the low 64 bits
    tell ([amountMismatch]). *)
Record chain_paid (K : list obs) (p : OnchainTransaction) (t : Transaction) : Prop := {
  cp_listed : exists chain limit ps, Ob (OList chain limit) (Ok ps) ∈ K /\ p ∈ ps;
  cp_receipt : exists rc, Ob (HReceipt (HexToHash (o_TxHash p))) (Ok (Some rc)) ∈ K /\ rc_Status rc = 1;
  cp_deep : exists latest, Ob HBlock (Ok latest) ∈ K /\ o_BlockNumber p <= latest /\
    o_RequiredConfirm p <= u64 (latest - o_BlockNumber p) /\
    Ob (OUpdate (o_TxHash p) (u64 (latest - o_BlockNumber p)) OnchainTxStatusConfirmed) (Ok tt) ∈ K;
  cp_order : Ob (TGetAny (o_OrderID p)) (Ok t) ∈ K;
  cp_open : t_Status t <> TransactionStatusPaid /\ t_Status t <> TransactionStatusRefunded;
  cp_paid : amountMismatch p t = false;
}.

(** Why a payment may be marked as paid: a verified event names the order, and
    Stripe confirms the intent of the event; or the event has no intent, and its
    body is all there is; or Stripe's answer about the intent of a stuck
    payment; or a transaction of the chain. *)
Inductive paid_cause (K : list obs) (sh : Z) (m o pi : string) : Prop :=
  | paid_by_webhook ob id :
      event_seen K ["payment_intent.succeeded"; "checkout.session.completed"] ob ->
      meta ob "order_id" = o -> meta ob "merchant_id" = m -> o <> "" -> m <> "" -> object_pi ob = pi -> pi <> "" ->
      intent_is K pi "succeeded" id -> shard_is K m sh -> paid_cause K sh m o pi
  | paid_by_body ob :
      event_seen K ["payment_intent.succeeded"; "checkout.session.completed"] ob ->
      meta ob "order_id" = o -> meta ob "merchant_id" = m -> o <> "" -> m <> "" ->
      so_PaymentIntent ob = "" -> (so_Object ob = "payment_intent" -> so_ID ob = "") -> pi = "" ->
      shard_is K m sh -> paid_cause K sh m o pi
  | paid_by_reconciliation t before limit ts :
      Ob (TPending before limit) (Ok ts) ∈ K -> t ∈ ts ->
      t_ShardIndex t = sh -> t_MerchantID t = m -> t_OrderID t = o -> t_StripePaymentIntentID t <> "" ->
      intent_is K (t_StripePaymentIntentID t) "succeeded" pi -> paid_cause K sh m o pi
  | paid_on_chain p t :
      chain_paid K p t -> t_ShardIndex t = sh -> t_MerchantID t = m -> t_OrderID t = o -> pi = "" ->
      paid_cause K sh m o pi.

(** Why a payment may be marked as failed. *)
Inductive failed_cause (K : list obs) (sh : Z) (m o pi : string) : Prop :=
  | failed_by_webhook ob :
      event_seen K ["payment_intent.payment_failed"] ob ->
      meta ob "order_id" = o -> meta ob "merchant_id" = m -> o <> "" -> m <> "" -> object_pi ob = pi ->
      shard_is K m sh -> failed_cause K sh m o pi
  | failed_by_reconciliation t before limit ts st :
      Ob (TPending before limit) (Ok ts) ∈ K -> t ∈ ts ->
      t_ShardIndex t = sh -> t_MerchantID t = m -> t_OrderID t = o ->
      st ∈ ["canceled"; "requires_payment_method"] ->
      intent_is K (t_StripePaymentIntentID t) st pi -> failed_cause K sh m o pi.

(** Why a payment may be marked as refunded: the event names the order, or the
    order was found by the intent the event names. *)
Inductive refunded_cause (K : list obs) (sh : Z) (m o pi : string) : Prop :=
  | refunded_by_name ob :
      event_seen K ["charge.refunded"] ob ->
      meta ob "order_id" = o -> meta ob "merchant_id" = m -> o <> "" -> m <> "" -> shard_is K m sh ->
      refunded_cause K sh m o pi
  | refunded_by_intent ob t :
      event_seen K ["charge.refunded"] ob ->
      pi <> "" -> (so_PaymentIntent ob = pi \/ so_PaymentIntent ob = "" /\ meta ob "payment_intent" = pi) ->
      Ob (TGetIntent pi) (Ok t) ∈ K ->
      t_ShardIndex t = sh -> t_MerchantID t = m -> t_OrderID t = o -> refunded_cause K sh m o pi.

(** The key of the lock of an order. *)
Definition lockOf (m o : string) : string := "checkout:" +:+ cacheKeyOf m o.

(** Why Stripe may be asked for a session: the row of the order was just
    inserted and the server does not create sessions lazily, or the row was
    loaded by the hosted checkout, has no session yet, and the lock of the
    order was acquired. *)
Inductive session_for (K : list obs) (sh : Z) (m o : string) (req : CreateCheckoutRequest) (key : string) : Prop :=
  | eager_session t t' : ps_lazyCheckout (dep_payments g) = false ->
      Ob (TInsert t) (t', Ok tt) ∈ K -> t_ShardIndex t = sh -> t_MerchantID t = m -> t_OrderID t = o ->
      for_payment req t -> key = DeriveTransactionID m o -> session_for K sh m o req key
  | lazy_session t l : Ob (TGetOrder sh m o) (Ok t) ∈ K -> t_StripeSessionID t = "" ->
      Ob (LAcquire (lockOf m o) (10 * second)) (Ok l) ∈ K ->
      req = sessionRequest (dep_resolver g) t -> key = sessionKey t -> session_for K sh m o req key.

(** A session recorded for a payment is one Stripe made for it. *)
Definition session_cause (K : list obs) (sh : Z) (m o sess pi : string) : Prop :=
  exists req key s, Ob (SSession req key) (Ok s) ∈ K /\ cs_ID s = sess /\ cs_PaymentIntentID s = pi /\
    session_for K sh m o req key.

(** An announced status was acknowledged by the repository, for the payment
    that is announced. *)
Definition publish_cause (K : list obs) (ev : PaymentConfirmedEvent) : Prop :=
  exists sh m o pi t, Ob (TUpdateStatus sh m o (pc_Status ev) pi) (Ok tt) ∈ K /\ payment_of K sh m o t /\
    pc_OrderID ev = t_OrderID t /\ pc_MerchantID ev = t_MerchantID t /\
    pc_Amount ev = t_Amount t /\ pc_Currency ev = t_Currency t.

(** The order whose hosted checkout the request visits, if it does. *)
Variable visit : option (string * string).

(** What each effect needs; reads and caches need nothing. *)
Definition caused (K : list obs) (c : op) : Prop :=
  match c with
  | TInsert t => fresh_row t
  | TUpdateStatus sh m o st pi =>
      (st = TransactionStatusPaid /\ paid_cause K sh m o pi) \/
      (st = TransactionStatusFailed /\ failed_cause K sh m o pi) \/
      (st = TransactionStatusRefunded /\ refunded_cause K sh m o pi)
  | TUpdateCheckout sh m o sess pi => session_cause K sh m o sess pi
  | SSession req key => exists sh m o, session_for K sh m o req key
  | SRefund req _ => exists sh m o t, Ob (TGetOrder sh m o) (Ok t) ∈ K /\ t_StripePaymentIntentID t <> "" /\
      rr_PaymentIntentID req = t_StripePaymentIntentID t
  | EPublish ev => publish_cause K ev
  | LAcquire k ttl => exists m o, visit = Some (m, o) /\ k = lockOf m o /\ ttl = 10 * second
  | LRelease l => exists k ttl, Ob (LAcquire k ttl) (Ok l) ∈ K
  | OCreate t => exists order, Ob (TGetAny (o_OrderID t)) (Ok order) ∈ K /\
      o_MerchantID t = t_MerchantID order /\ o_Status t = OnchainTxStatusPending
  | OUpdate hash _ st => st = OnchainTxStatusConfirmed ->
      exists rc, Ob (HReceipt (HexToHash hash)) (Ok (Some rc)) ∈ K /\ rc_Status rc = 1
  | MInsert _ | SNewIntent _ _ => False
  | _ => True
  end.

(** ** More observations, more causes

    A cause rests on successful answers only, so that it can be carried over
    to any record that has all of these. *)

Lemma payment_of_mono K K' sh m o t : answered K K' -> payment_of K sh m o t -> payment_of K' sh m o t.
Proof.
  intros HK [Hl|b l ts Hl|x Hs]; intros; [eapply loaded|eapply listed|eapply searched];
    eauto with mono.
Qed.

Lemma intent_is_mono K K' pi st id : answered K K' -> intent_is K pi st id -> intent_is K' pi st id.
Proof. intros HK (p & Hp & Hst). exists p. eauto with mono. Qed.

Lemma event_seen_mono K K' tys o : answered K K' -> event_seen K tys o -> event_seen K' tys o.
Proof.
  intros HK (ev & (payload & sig & Hv & Hd) & Hr). exists ev. split; [|done]. exists payload, sig. eauto with mono.
Qed.

Lemma shard_is_mono K K' m sh : answered K K' -> shard_is K m sh -> shard_is K' m sh.
Proof. intros HK (mer & Hm & Hsh). exists mer. eauto with mono. Qed.

Lemma chain_paid_mono K K' p t : answered K K' -> chain_paid K p t -> chain_paid K' p t.
Proof.
  intros HK [(c & l & ps & Hl & Hp) (rc & Hrc & Hst) (n & Hn & Hle & Hreq & Hu) Hord Hopen Hpaid].
  split; [exists c, l, ps|exists rc|exists n| | |]; eauto 6 with mono.
Qed.

#[local] Hint Resolve payment_of_mono intent_is_mono event_seen_mono shard_is_mono chain_paid_mono : mono.

Lemma paid_cause_mono K K' sh m o pi : answered K K' -> paid_cause K sh m o pi -> paid_cause K' sh m o pi.
Proof.
  intros HK [ob id Hev ? ? ? ? ? ? Hpi Hsh|ob Hev ? ? ? ? ? ? ? Hsh|t b l ts Hl ? ? ? ? ? Hi|p t Hc].
  - eapply paid_by_webhook; eauto with mono.
  - eapply paid_by_body; eauto with mono.
  - eapply paid_by_reconciliation; eauto with mono.
  - eapply paid_on_chain; eauto with mono.
Qed.

Lemma failed_cause_mono K K' sh m o pi : answered K K' -> failed_cause K sh m o pi -> failed_cause K' sh m o pi.
Proof.
  intros HK [ob Hev|t b l ts st Hl]; [eapply failed_by_webhook|eapply failed_by_reconciliation]; eauto with mono.
Qed.

Lemma refunded_cause_mono K K' sh m o pi : answered K K' -> refunded_cause K sh m o pi -> refunded_cause K' sh m o pi.
Proof.
  intros HK [ob Hev|ob t Hev ? ? Hg]; [eapply refunded_by_name|eapply refunded_by_intent]; eauto with mono.
Qed.

Lemma session_for_mono K K' sh m o req key : answered K K' -> session_for K sh m o req key -> session_for K' sh m o req key.
Proof.
  intros HK [t t' Hl Hi|t l Hg]; intros; [eapply eager_session|eapply lazy_session]; eauto with mono.
Qed.

#[local] Hint Resolve session_for_mono paid_cause_mono failed_cause_mono refunded_cause_mono : mono.

Lemma caused_mono K K' c : answered K K' -> caused K c -> caused K' c.
Proof.
  intros HK. destruct c; cbn [caused]; try done.
  - intros [[? ?]|[[? ?]|[? ?]]]; eauto 6 with mono.
  - intros (rq & k & s & ? & ? & ? & ?). exists rq, k, s. eauto 8 with mono.
  - intros (sh & m & o & ?). exists sh, m, o. eauto with mono.
  - intros (sh & m & o & t & ? & ?). exists sh, m, o, t. eauto with mono.
  - intros (sh & m & o & pi & t & ? & ? & ?). exists sh, m, o, pi, t. eauto with mono.
  - intros (k & ttl & ?). exists k, ttl. eauto with mono.
  - intros (order & ? & ?). exists order. eauto with mono.
  - intros Hc Hst. destruct (Hc Hst) as (rc & ? & ?). exists rc. eauto with mono.
Qed.
End Causes.
