(* ===== verification/CausedRuns.v ===== *)
(** * The requests of the gateway, call by call

    Each handler run on queues makes only calls that are [caused] by what it
    has seen so far, whatever the answers are. *)

From S2P Require Import Prelude GoStrings Domain TransactionStore StripeTypes Signatures Ports ChainEvents OnchainRepo.
From S2P Require Import PaymentService PaymentTheorems WebhookService CheckoutResolver Reconciliation ChainListener.
From S2P Require Import KafkaConsumer Runners Effects Causes.
Local Open Scope Z_scope.

(** The state components of the webhook service and of the chain listener. *)
#[export] Instance asks_on_repo {A} (m : ST queue A) c ob :
  Asks m c ob -> Asks (on_repo (R := queue) (X := queue) m) c ob := asks_on_fst m c ob.
#[export] Instance asks_on_redis {A} (m : ST queue A) c ob :
  Asks m c ob -> Asks (on_redis (D := queue) (X := queue) m) c ob.
Proof. intros Hm. unfold on_redis. apply _. Qed.
#[export] Instance asks_on_world {A} (m : ST queue A) c ob :
  Asks m c ob -> Asks (on_world (D := queue) (R := queue) m) c ob.
Proof. intros Hm. unfold on_world. apply _. Qed.
#[export] Instance asks_on_orders {A} (m : ST queue A) c ob :
  Asks m c ob -> Asks (on_orders (P := queue) (K := queue) (X := queue) m) c ob := asks_on_fst m c ob.
#[export] Instance asks_on_txs {A} (m : ST queue A) c ob :
  Asks m c ob -> Asks (on_txs (D := queue) (K := queue) (X := queue) m) c ob.
Proof. intros Hm. unfold on_txs. apply _. Qed.
#[export] Instance asks_on_cursor {A} (m : ST queue A) c ob :
  Asks m c ob -> Asks (on_cursor (D := queue) (P := queue) (X := queue) m) c ob.
Proof. intros Hm. unfold on_cursor. apply _. Qed.
#[export] Instance asks_on_chain {A} (m : ST queue A) c ob :
  Asks m c ob -> Asks (on_chain (D := queue) (P := queue) (K := queue) m) c ob.
Proof. intros Hm. unfold on_chain. apply _. Qed.

(** ** Automation *)

(** Membership in what has been seen, the last observation first. *)
Ltac known := first [eassumption | apply list_elem_of_here | apply list_elem_of_further; known].

Abbreviation anything := (fun _ _ => True).

Section Runs.
Context `{Unicode} `{ObjectJSON} `{EthFormat}.
Variable g : deployment.
Variable good : obs -> Prop.
Variable v : option (string * string).

Lemma caused_sub K K' c : K ⊆ K' -> caused g v K c -> caused g v K' c.
Proof. intros HK. by apply caused_mono, sub_answered. Qed.

(** The next call of a request, its last call, its end. *)
Ltac step := eapply runs_step; [apply caused_sub|typeclasses eauto|try exact I|].
Ltac last := eapply runs_call; [apply caused_sub|typeclasses eauto|try exact I|try done].
Ltac stop := apply runs_ret; try done.

(** ** Create *)

Lemma lazyCheckoutURL_runs s K m o :
  runs (W := queue * queue) (caused g v) good K (on_snd (lazyCheckoutURL s m o)) anything.
Proof.
  unfold lazyCheckoutURL. case_bool_decide.
  - eapply runs_ext; [intros w; apply on_snd_ret|]. stop.
  - eapply runs_ext; [intros w; apply on_snd_bind|]. step. intros now.
    eapply runs_ext; [intros w; apply on_snd_ret|]. stop.
Qed.

Lemma reconstructResult_runs s K m t :
  runs (W := queue * queue) (caused g v) good K (on_snd (reconstructResult s m t)) anything.
Proof.
  unfold reconstructResult. destruct (is_crypto _); [eapply runs_ext; [intros w; apply on_snd_ret|]; stop|].
  case_bool_decide; cbn [negb]; [|eapply runs_ext; [intros w; apply on_snd_ret|]; stop].
  eapply runs_ext; [intros w; apply on_snd_bind|]. eapply runs_bind; [apply lazyCheckoutURL_runs|].
  intros url K' _ _. eapply runs_ext; [intros w; apply on_snd_ret|]. stop.
Qed.

Lemma flow_runs m input t' K :
  let s := dep_payments g in let t := newRow m input (currency_of s input) in
  Ob (TInsert t) (t', Ok tt) ∈ K ->
  runs (W := queue * queue) (caused g v) good K (flow s m input (currency_of s input)) anything.
Proof.
  intros s t Hin. unfold flow. destruct (EqualFold _ _); [stop|]. destruct (ps_lazyCheckout s) eqn:Elz.
  { eapply runs_bind; [apply lazyCheckoutURL_runs|]. intros url K' _ _. stop. }
  assert (Hfor : for_payment (checkoutRequest s m input (currency_of s input)) t) by (by split).
  assert (Hs : session_for g K (m_ShardIndex m) (m_MerchantID m) (in_OrderID input)
    (checkoutRequest s m input (currency_of s input)) (DeriveTransactionID (m_MerchantID m) (in_OrderID input)))
    by (by eapply eager_session).
  step; [by eexists _, _, _|]. intros [sess|e]; [|stop]. step; [|intros u; stop].
  eexists _, _, sess. split_and!; [known|done|done|].
  eapply session_for_mono; [|exact Hs]. apply sub_answered. by right.
Qed.

Lemma Create_runs input K :
  int64_range (in_Amount input) ->
  runs (W := queue * queue) (caused g v) good K (Create (dep_payments g) input) anything.
Proof.
  intros Ha. unfold Create. destruct (in_Merchant input) as [m|]; [|stop].
  destruct (ValidateOrderID _); [|stop]. destruct (in_Amount input <=? 0); [stop|].
  step; [by split|]. intros [t' [[]|e]]; cbn [snd].
  - apply (flow_runs m input t'). known.
  - destruct (negb _); [stop|]. unfold duplicate. step. intros [t|e']; [|stop].
    destruct (negb _); [stop|]. eapply runs_bind; [apply reconstructResult_runs|]. intros res K' _ _. stop.
Qed.

(** ** Stripe callbacks and refunds *)

Abbreviation wruns := (runs (W := queue * (queue * queue)) (caused g v) good).

Lemma resolveShard_runs K m :
  wruns K (resolveShard m) (fun r K' => match r with Ok sh => shard_is K' m sh | Err _ => True end).
Proof.
  unfold resolveShard. step. intros [mer|e]; stop. exists mer. split; [known|done].
Qed.

Lemma transition_runs K sh m o st pi ctx :
  caused g v K (TUpdateStatus sh m o st pi) ->
  wruns K (transition sh m o st pi ctx) (fun r K' => match r with
    | Ok _ => Ob (TUpdateStatus sh m o st pi) (Ok tt) ∈ K' | Err _ => True end).
Proof.
  intros Hc. unfold transition. step; [exact Hc|]. intros [[]|e]; stop; [known|]. by destruct (errIs _ _).
Qed.

Lemma publish_runs K sh m o st pi :
  Ob (TUpdateStatus sh m o st pi) (Ok tt) ∈ K -> wruns K (publish sh m o st) anything.
Proof.
  intros Hu. unfold publish. step. intros [t|e]; [|stop]. step. intros now. last.
  exists sh, m, o, pi, t. split; [cbn; known|]. split; [eapply loaded; known|done].
Qed.

(** A caused transition, then the announcement of the new status. *)
Lemma announce_runs K sh m o st pi ctx :
  caused g v K (TUpdateStatus sh m o st pi) ->
  wruns K (let! u := transition sh m o st pi ctx in
           match u with Err err => ret (Err err) | Ok _ => publish sh m o st end)%easypay anything.
Proof.
  intros Hc. eapply runs_bind; [by apply transition_runs|]. intros [[]|e] K' _ Hu; [by eapply publish_runs|stop].
Qed.

Lemma crossCheck_runs K pi :
  wruns K (crossCheck pi) (fun r K' => match r with
    | Ok _ => pi <> "" -> exists id, intent_is K' pi "succeeded" id | Err _ => True end).
Proof.
  unfold crossCheck. case_bool_decide as Hpi; [by stop|]. step. intros [p|e]; [|stop].
  case_bool_decide as Hs; stop. intros _. exists (pi_ID p), p. split; [known|done].
Qed.

Lemma object_pi_none o :
  object_pi o = "" -> so_PaymentIntent o = "" /\ (so_Object o = "payment_intent" -> so_ID o = "").
Proof.
  unfold object_pi. repeat case_bool_decide; cbn [andb]; intros E; by split.
Qed.

Lemma handleSucceeded_runs K ev :
  fresh_event g K ev -> ev_Type ev ∈ ["payment_intent.succeeded"; "checkout.session.completed"] ->
  wruns K (handleSucceeded ev) anything.
Proof.
  intros Hev Hty. unfold handleSucceeded. destruct (decodeStripeObject (ev_Data ev)) as [o|] eqn:Ed; [|stop].
  assert (Hseen : event_seen g K ["payment_intent.succeeded"; "checkout.session.completed"] o) by (exists ev; eauto).
  case_bool_decide as Ho; [stop|]. case_bool_decide as Hm; [stop|]. cbn [orb].
  eapply runs_bind; [apply crossCheck_runs|]. intros [[]|e] K1 HK1 Hpi; [|stop].
  eapply runs_bind; [apply resolveShard_runs|]. intros [sh|e] K2 HK2 Hsh; [|stop].
  apply announce_runs. left. split; [done|].
  apply (event_seen_mono g K K2) in Hseen; [|apply sub_answered; by transitivity K1].
  destruct (decide (object_pi o = "")) as [Hnone|Hne].
  - destruct (object_pi_none o Hnone). by eapply paid_by_body.
  - destruct (Hpi Hne) as [id Hid]. eapply paid_by_webhook; try done.
    eapply intent_is_mono; [by apply sub_answered|done].
Qed.

Lemma handleFailed_runs K ev :
  fresh_event g K ev -> ev_Type ev = "payment_intent.payment_failed" -> wruns K (handleFailed ev) anything.
Proof.
  intros Hev Hty. unfold handleFailed. destruct (decodeStripeObject (ev_Data ev)) as [o|] eqn:Ed; [|stop].
  assert (Hseen : event_seen g K ["payment_intent.payment_failed"] o).
  { exists ev. split_and!; [done| |done]. rewrite Hty. left. }
  case_bool_decide as Ho; [stop|]. case_bool_decide as Hm; [stop|]. cbn [orb].
  eapply runs_bind; [apply resolveShard_runs|]. intros [sh|e] K1 HK1 Hsh; [|stop].
  eapply runs_conseq; [apply transition_runs|done]. right. left. split; [done|].
  eapply failed_by_webhook; try done. eapply event_seen_mono; [by apply sub_answered|done].
Qed.

(** The order a refund is about: named by the event, or found by its intent. *)
Definition refund_target (K : list obs) (o : stripeObject) (pi orderID merchantID : string) (known : option Z) : Prop :=
  match known with
  | None => meta o "order_id" = orderID /\ meta o "merchant_id" = merchantID
  | Some sh => pi <> "" /\ exists t, Ob (TGetIntent pi) (Ok t) ∈ K /\
      t_ShardIndex t = sh /\ t_MerchantID t = merchantID /\ t_OrderID t = orderID
  end.

Lemma refund_target_cause K K' ev o pi orderID merchantID known sh :
  K ⊆ K' -> fresh_event g K ev -> ev_Type ev = "charge.refunded" -> decodeStripeObject (ev_Data ev) = Ok o ->
  pi = (if bool_decide (so_PaymentIntent o = "") then meta o "payment_intent" else so_PaymentIntent o) ->
  refund_target K' o pi orderID merchantID known -> orderID <> "" -> merchantID <> "" ->
  match known with Some i => sh = i | None => shard_is K' merchantID sh end ->
  refunded_cause g K' sh merchantID orderID pi.
Proof.
  intros HK Hev Hty Ed Hpi Ht Ho Hm Hsh.
  assert (Hseen : event_seen g K' ["charge.refunded"] o).
  { eapply event_seen_mono; [apply sub_answered, HK|]. exists ev. split_and!; [done| |done]. rewrite Hty. left. }
  destruct known as [i|]; cbn in Ht.
  - destruct Ht as (Hne & t & Hg & E1 & E2 & E3). subst i. eapply refunded_by_intent; try done.
    case_bool_decide; [right|left]; done.
  - destruct Ht as [E1 E2]. by eapply refunded_by_name.
Qed.

Lemma handleRefunded_runs K ev :
  fresh_event g K ev -> ev_Type ev = "charge.refunded" -> wruns K (handleRefunded ev) anything.
Proof.
  intros Hev Hty. unfold handleRefunded. destruct (decodeStripeObject (ev_Data ev)) as [o|] eqn:Ed; [|stop].
  set (pi := if bool_decide (so_PaymentIntent o = "") then meta o "payment_intent" else so_PaymentIntent o).
  eapply (runs_bind _ _ _ _ _ (fun r K' => refund_target K' o pi r.1.1 r.1.2 r.2)).
  { destruct (_ && _) eqn:Eg; [|by stop]. step. intros [t|e]; [|by stop]. stop.
    apply andb_true_iff in Eg as [_ Hne]. apply negb_true_iff, bool_decide_eq_false in Hne.
    split; [done|]. exists t. split; [known|done]. }
  intros [[orderID merchantID] kn] K1 HK1 Ht. cbn [fst snd] in Ht.
  case_bool_decide as Ho; [stop|]. case_bool_decide as Hm; [stop|]. cbn [orb].
  eapply (runs_bind _ _ _ _ _ (fun r K' => match r with
    | Ok sh => match kn with Some i => sh = i | None => shard_is K' merchantID sh end | Err _ => True end)).
  { destruct kn as [i|]; [by stop|]. apply resolveShard_runs. }
  intros [sh|e] K2 HK2 Hsh; [|stop]. apply announce_runs. right. right. split; [done|].
  assert (HK : K ⊆ K2) by (by transitivity K1).
  eapply (refund_target_cause K K2 ev o pi orderID merchantID kn sh); try done.
  destruct kn as [i|]; [|done]. destruct Ht as (? & t & Hg & ?). split; [done|]. exists t. split; [by apply HK2|done].
Qed.

Lemma Process_runs K payload sig : wruns K (Process (dep_secret g) payload sig) anything.
Proof.
  unfold Process. step. intros [ev|e]; [|stop]. step. intros [[]|e]; [|stop|stop].
  unfold dispatch. set (K' := _ :: _ :: K).
  assert (Hev : fresh_event g K' ev) by (exists payload, sig; split; known).
  repeat case_bool_decide; cbn [orb];
    first [apply handleFailed_runs; done|apply handleRefunded_runs; done|stop|idtac];
    apply handleSucceeded_runs; try done; set_solver.
Qed.

Lemma CreateRefund_runs K input : wruns K (service_CreateRefund input) anything.
Proof.
  unfold service_CreateRefund. destruct (ri_Merchant input) as [m|]; [|stop]. case_bool_decide; [stop|].
  step. intros [t|e]; [|stop]. case_bool_decide as Hpi; [stop|]. step; [|intros r; stop].
  exists (m_ShardIndex m), (m_MerchantID m), (ri_OrderID input), t. split; [known|done].
Qed.

(** ** The hosted checkout *)

Abbreviation druns := (runs (W := queue * queue) (caused g v) good).

Lemma cacheURL_runs r K key url : druns K (cacheURL r key url) anything.
Proof. unfold cacheURL. destruct (cr_hasCache r); [last|stop]. Qed.

(** A known URL goes through the cache. *)
Lemma cached_runs r K key url {A} (a : A) :
  druns K (let! _u := cacheURL r key url in ret a)%easypay anything.
Proof. eapply runs_bind; [apply cacheURL_runs|]. intros u K' _ _. stop. Qed.

Lemma allowed_runs r K : druns K (allowed r) anything.
Proof. unfold allowed. destruct (cr_hasBucket r); [|stop]. step. intros a. stop. Qed.

Lemma underLock_runs K sh m o key t l :
  Ob (TGetOrder sh m o) (Ok t) ∈ K -> t_StripeSessionID t = "" ->
  Ob (LAcquire (lockOf m o) (10 * second)) (Ok l) ∈ K ->
  druns K (underLock (dep_resolver g) sh m o key t) anything.
Proof.
  intros Ht Hnone Hl. unfold underLock. step. intros again. set (session := match again with Ok _ => _ | Err _ => _ end).
  case_bool_decide; cbn [negb]; [|apply cached_runs].
  eapply runs_bind; [apply allowed_runs|]. intros go K1 HK1 _. destruct go; cbn [negb]; [|stop].
  assert (Hs : session_for g K1 sh m o (sessionRequest (dep_resolver g) t) (sessionKey t)).
  { eapply lazy_session; [apply HK1; known|done|apply HK1; known|done..]. }
  unfold createSession. step; [by eexists _, _, _|]. intros [sess|e]; [|stop]. step; [|intros u; apply cached_runs].
  eexists _, _, sess. split_and!; [known|done|done|].
  eapply session_for_mono; [|exact Hs]. apply sub_answered. by right.
Qed.

Lemma Resolve_runs K m o : v = Some (m, o) -> druns K (Resolve (dep_resolver g) m o) anything.
Proof.
  intros Hv. unfold Resolve. eapply runs_bind with (Q := anything).
  { destruct (cr_hasCache _); [last|stop]. }
  intros [url|] K0 _ _; [stop|]. step. intros [mer|e]; [|stop]. unfold resolveRow.
  step. intros [t|e]; [|stop]. case_bool_decide; cbn [negb]; [|apply cached_runs].
  step; [by exists m, o|]. intros [lock|e].
  - eapply runs_bind; [eapply underLock_runs; [known|done|known]|]. intros res K1 HK1 _.
    step; [|intros u; stop]. eexists _, _. apply HK1. known.
  - unfold resolveAfterLock. step. intros [t'|e']; [|stop]. case_bool_decide; [stop|apply cached_runs].
Qed.

(** ** Reconciliation *)

Lemma reconcileOne_runs K o before limit ts :
  Ob (TPending before limit) (Ok ts) ∈ K -> o ∈ ts -> druns K (reconcileOne o) anything.
Proof.
  intros Hts Ho. unfold reconcileOne. case_bool_decide as Hpi; [stop|]. step. intros [p|e]; [|stop].
  case_bool_decide as Hs.
  - step.
    { left. split; [done|]. eapply paid_by_reconciliation; [known|exact Ho|done..|]. exists p. split; [known|done]. }
    intros [[]|e]; [|stop]. step. intros now. step; [|intros u; stop].
    eexists _, _, _, (pi_ID p), o. split; [cbn; known|]. split; [|done]. eapply listed; [known|exact Ho|done..].
  - destruct (bool_decide (pi_Status p = "canceled") || _) eqn:Eor; [|stop]. step; [|intros u; stop].
    right. left. split; [done|].
    apply orb_true_iff in Eor. rewrite !bool_decide_eq_true in Eor.
    eapply (failed_by_reconciliation _ _ _ _ _ _ o before limit ts (pi_Status p)); [known|exact Ho|done..| |].
    + rewrite !elem_of_cons. tauto.
    + exists p. split; [known|done].
Qed.

Lemma reconcileAll_runs K before limit ts rest :
  Ob (TPending before limit) (Ok ts) ∈ K -> rest ⊆ ts -> druns K (reconcileAll rest) anything.
Proof.
  revert K. induction rest as [|o rest IH]; intros K Hts Hsub; cbn [reconcileAll]; [stop|].
  eapply runs_bind; [eapply reconcileOne_runs; [done|apply Hsub; left]|]. intros u K' HK' _.
  apply IH; [by apply HK'|]. intros x Hx. apply Hsub. by right.
Qed.

Lemma tick_runs K r : druns K (Reconciliation.tick r) anything.
Proof.
  unfold tick. step. intros now. step. intros [ts|e]; [|stop].
  eapply runs_bind; [eapply reconcileAll_runs; [known|done]|]. intros u K' _ _. stop.
Qed.

(** ** The chain *)

Abbreviation cruns := (runs (W := queue * (queue * (queue * queue))) (caused g v) good).

Lemma handleLog_runs cfg K lg : cruns K (handleLog cfg lg) anything.
Proof.
  unfold handleLog. step. intros [t|e]; [stop|]. destruct (negb _); [stop|].
  destruct (ParsePaymentEvent lg) as [parsed|]; [|stop]. step. intros [order|e']; [|stop].
  step; [exists order; split; [known|done]|]. intros [u|e']; [|stop]. step. intros c. stop.
Qed.

Lemma persistAll_runs cfg K logs : cruns K (persistAll cfg logs) anything.
Proof.
  revert K. induction logs as [|lg logs IH]; intros K; cbn [persistAll]; [stop|].
  eapply runs_bind with (Q := anything); [|intros u K' _ _; apply IH]. unfold persist.
  step. intros [t|e]; [stop|]. destruct (ParsePaymentEvent lg) as [parsed|]; [|stop].
  step. intros [order|e']; [|stop]. step; [exists order; split; [known|done]|]. intros c. stop.
Qed.

Lemma backfillLoop_runs cfg K rounds batch from head : cruns K (backfillLoop cfg rounds batch from head) anything.
Proof.
  revert K from. induction rounds as [|rounds IH]; intros K from; cbn [backfillLoop]; [stop|].
  destruct (head <=? from); [stop|]. step. intros [logs|e]; [|stop].
  eapply runs_bind; [apply persistAll_runs|]. intros u K1 _ _. step. intros c. apply IH.
Qed.

Lemma backfill_tick_runs cfg K rounds batch : cruns K (backfill_tick cfg rounds batch) anything.
Proof.
  unfold backfill_tick. step. intros [cur|e]; [|stop]. step. intros [head|e]; [|stop].
  destruct (head <=? _); [stop|]. apply backfillLoop_runs.
Qed.

(** A transaction seen to have succeeded under enough blocks. *)
Record deep (K : list obs) (p : OnchainTransaction) (latest : Z) : Prop := {
  dp_listed : exists chain limit ps, Ob (OList chain limit) (Ok ps) ∈ K /\ p ∈ ps;
  dp_receipt : exists rc, Ob (HReceipt (HexToHash (o_TxHash p))) (Ok (Some rc)) ∈ K /\ rc_Status rc = 1;
  dp_block : Ob HBlock (Ok latest) ∈ K;
  dp_depth : o_BlockNumber p <= latest /\ o_RequiredConfirm p <= u64 (latest - o_BlockNumber p);
}.

Lemma deep_mono K K' p latest : K ⊆ K' -> deep K p latest -> deep K' p latest.
Proof.
  intros HK [(c & l & ps & Hl & Hp) (rc & Hrc & Hst) Hb Hd]. split; [exists c, l, ps|exists rc| |]; eauto.
Qed.

Lemma settle_runs K p latest :
  deep K p latest -> cruns K (settle p (u64 (latest - o_BlockNumber p))) anything.
Proof.
  intros Hd. unfold settle. step. intros [t|e]; [|stop]. set (K1 := _ :: K).
  assert (Hd1 : deep K1 p latest) by (eapply deep_mono; [|exact Hd]; by right).
  destruct (dp_receipt _ _ _ Hd1) as (rc & Hrc & Hst).
  case_bool_decide as Hp; [cbn [orb]; step; [intros _; by exists rc|intros u; stop]|].
  case_bool_decide as Href; cbn [orb]; [step; [intros _; by exists rc|intros u; stop]|].
  destruct (amountMismatch p t) eqn:Ea; [step; [discriminate|intros u; stop]|].
  step; [intros _; by exists rc|]. intros [[]|e]; [|stop]. set (K2 := _ :: K1).
  assert (Hd2 : deep K2 p latest) by (eapply deep_mono; [|exact Hd1]; by right).
  step.
  { left. split; [done|]. eapply (paid_on_chain _ _ _ _ _ _ p t); try done.
    destruct Hd2 as [Hl2 Hr2 Hb2 [Hle Hreq]]. split; [done|done| |unfold K2, K1; known|done|done].
    exists latest. split_and!; [done|done|done|unfold K2; known]. }
  intros [[]|e]; [|stop]. step. intros now. step; [|intros u; stop].
  eexists _, _, _, "", t. split; [cbn; known|]. split; [|done]. eapply searched; [unfold K2, K1; known|done..].
Qed.

Lemma processAll_runs K ps latest rest chain limit :
  Ob (OList chain limit) (Ok ps) ∈ K -> Ob HBlock (Ok latest) ∈ K -> rest ⊆ ps ->
  cruns K (processAll rest latest) anything.
Proof.
  revert K. induction rest as [|p rest IH]; intros K Hl Hb Hsub; cbn [processAll]; [stop|].
  eapply runs_bind with (Q := anything).
  2: { intros u K' HK' _. apply IH; [by apply HK'|by apply HK'|]. intros x Hx. apply Hsub. by right. }
  unfold processOne. step. intros [[rc|]|e]; [|step; [discriminate|intros u; stop]..].
  destruct (Z.eqb_spec (rc_Status rc) 1) as [Hst|]; cbn [negb]; [|step; [discriminate|intros u; stop]].
  destruct (Z.ltb_spec latest (o_BlockNumber p)); [stop|].
  destruct (Z.ltb_spec (u64 (latest - o_BlockNumber p)) (o_RequiredConfirm p)); [step; [discriminate|intros u; stop]|].
  apply settle_runs. split; [|exists rc; split; [known|done]|known|done].
  exists chain, limit, ps. split; [known|apply Hsub; left].
Qed.

Lemma confirmation_tick_runs cfg K limit : cruns K (confirmation_tick cfg limit) anything.
Proof.
  unfold confirmation_tick. step. intros [latest|e]; [|stop]. step. intros [ps|e]; [|stop].
  eapply runs_bind; [eapply (processAll_runs _ ps); [known|known|done]|]. intros u K' _ _. stop.
Qed.

Lemma reconciler_tick_runs cfg K limit : cruns K (reconciler_tick cfg limit) anything.
Proof.
  unfold reconciler_tick. step. intros [ps|e]; [|stop]. step. intros now.
  eapply runs_bind with (Q := anything); [|intros u K' _ _; stop].
  generalize (Ob KNow now :: Ob (OList (cc_ChainID cfg) limit) (Ok ps) :: K).
  induction ps as [|p ps IH]; intros K'; cbn [recheckAll]; [stop|].
  eapply runs_bind with (Q := anything); [|intros u K1 _ _; apply IH]. unfold recheckOne.
  step. intros [[rc|]|e]; [|step; [discriminate|intros u; stop]..].
  destruct (negb _); [step; [discriminate|intros u; stop]|stop].
Qed.

(** ** Loops *)

Lemma returning_runs {W A} `{Seen W} backed K (tick : ST W A) :
  runs backed good K tick anything -> runs backed good K (returning tick) anything.
Proof. intros Ht. eapply runs_bind; [exact Ht|]. intros a K' _ _. stop. Qed.

Lemma tickerLoop_runs {W} `{Seen W} backed K (tick : ST W (option (result unit))) wakes :
  (forall K', runs backed good K' tick anything) -> runs backed good K (tickerLoop tick wakes) anything.
Proof.
  intros Ht. revert K. induction wakes as [|[e|] wakes IH]; intros K; cbn [tickerLoop]; [stop|stop|].
  eapply runs_bind; [apply Ht|]. intros [u|] K' _ _; [apply IH|stop].
Qed.

Lemma pump_runs s K evs : cruns K (pump s evs) anything.
Proof.
  revert K. induction evs as [|[e|[e|]|lg] evs IH]; intros K; cbn [pump]; [stop|stop|stop|stop|].
  eapply runs_bind; [apply handleLog_runs|]. intros u K' _ _. apply IH.
Qed.

Lemma runOnce_runs s K : cruns K (runOnce s) anything.
Proof. unfold runOnce. step. intros [evs|e]; [apply pump_runs|stop]. Qed.

Lemma subscriber_Run_runs s K n :
  runs (W := list Z * (queue * (queue * (queue * queue)))) (caused g v) good K (subscriber_Run s n) anything.
Proof.
  unfold subscriber_Run. generalize (sub_BackoffMin s). revert K.
  induction n as [|n IH]; intros K backoff; cbn [subscriber_loop]; [stop|].
  step. intros [e|]; [stop|]. eapply runs_bind; [apply runs_beside, runOnce_runs|].
  intros [[u|e]|] K1 _ _; [apply IH| |stop]. destruct (errIs e ContextCanceled); [stop|].
  eapply runs_bind; [by apply (runs_silent _ _ K1 (fun ws => ws ++ [backoff]) tt anything)|]. intros u K2 _ _.
  step. intros [c|]; [stop|apply IH].
Qed.
End Runs.
