(* ===== verification/System.v ===== *)
(** * The gateway as a system of concurrent requests

    Any number of requests, callbacks and background passes run at the same
    time over one repository.  A history lists their calls in the order in
    which they took place; [reachable] extends a history by the next call of
    any of them: a call to the transactions repository is executed on the
    shared state, any other call is answered arbitrarily.  What a request does
    next is found by running its handler on the answers it has had so far.
    (Where the handler would then have to wait for two components, the history
    may go on with either: a call that never answers counts as failed.)

    The theorems hold of every history: each effect has a cause among the
    earlier observations of the same request, a paid payment has been paid, a
    recorded checkout session was made by Stripe for that order, and what is
    announced on Kafka was stored. *)

From S2P Require Import Prelude GoStrings Domain TransactionStore StripeTypes Ports ChainEvents OnchainRepo.
From S2P Require Import PaymentService WebhookService CheckoutResolver Reconciliation ReconcileLive ChainListener.
From S2P Require Import KafkaConsumer Runners Effects Causes CausedRuns.
Local Open Scope Z_scope.

(** ** Replaying answers *)

#[global] Instance CreateCheckoutRequest_eq_dec : EqDecision CreateCheckoutRequest.
Proof. solve_decision. Defined.
#[global] Instance CreatePaymentIntentRequest_eq_dec : EqDecision CreatePaymentIntentRequest.
Proof. solve_decision. Defined.
#[global] Instance CreateRefundRequest_eq_dec : EqDecision CreateRefundRequest.
Proof. solve_decision. Defined.
#[global] Instance PaymentConfirmedEvent_eq_dec : EqDecision PaymentConfirmedEvent.
Proof. solve_decision. Defined.
#[global] Instance Lock_eq_dec : EqDecision Lock.
Proof. solve_decision. Defined.
#[global] Instance FilterQuery_eq_dec : EqDecision FilterQuery.
Proof. solve_decision. Defined.
#[global] Instance op_eq_dec : EqDecision op.
Proof. solve_decision. Defined.

(** The type of an answer depends on the kind of the call only. *)
Definition cast_answer (c' c : op) : answer c' -> answer c :=
  match c' return answer c' -> answer c with
  | TInsert _ => match c return Transaction * result unit -> answer c with TInsert _ => fun a => a | c => fun _ => failed c end
  | TGetTxn _ _ _ | TGetOrder _ _ _ | TGetAny _ | TGetIntent _ =>
      match c return result Transaction -> answer c with
      | TGetTxn _ _ _ | TGetOrder _ _ _ | TGetAny _ | TGetIntent _ => fun a => a | c => fun _ => failed c end
  | TPending _ _ => match c return result (list Transaction) -> answer c with TPending _ _ => fun a => a | c => fun _ => failed c end
  | SSession _ _ | SGetSession _ =>
      match c return result CheckoutSession -> answer c with
      | SSession _ _ | SGetSession _ => fun a => a | c => fun _ => failed c end
  | SNewIntent _ _ | SGetIntent _ =>
      match c return result PaymentIntent -> answer c with
      | SNewIntent _ _ | SGetIntent _ => fun a => a | c => fun _ => failed c end
  | SRefund _ _ => match c return result Refund -> answer c with SRefund _ _ => fun a => a | c => fun _ => failed c end
  | SVerify _ _ _ => match c return result Event -> answer c with SVerify _ _ _ => fun a => a | c => fun _ => failed c end
  | KNow => match c return Z -> answer c with KNow => fun a => a | c => fun _ => failed c end
  | MByKey _ | MByID _ =>
      match c return result Merchant -> answer c with MByKey _ | MByID _ => fun a => a | c => fun _ => failed c end
  | MInsert _ => match c return Merchant * result unit -> answer c with MInsert _ => fun a => a | c => fun _ => failed c end
  | RSetNX _ _ _ => match c return result bool -> answer c with RSetNX _ _ _ => fun a => a | c => fun _ => failed c end
  | LAcquire _ _ => match c return result Lock -> answer c with LAcquire _ _ => fun a => a | c => fun _ => failed c end
  | UGet _ => match c return option string -> answer c with UGet _ => fun a => a | c => fun _ => failed c end
  | UPut _ _ => match c return unit -> answer c with UPut _ _ => fun a => a | c => fun _ => failed c end
  | OGet _ => match c return result OnchainTransaction -> answer c with OGet _ => fun a => a | c => fun _ => failed c end
  | OList _ _ => match c return result (list OnchainTransaction) -> answer c with OList _ _ => fun a => a | c => fun _ => failed c end
  | CGet _ | HBlock => match c return result Z -> answer c with CGet _ | HBlock => fun a => a | c => fun _ => failed c end
  | HLogs _ => match c return result (list Log) -> answer c with HLogs _ => fun a => a | c => fun _ => failed c end
  | HSubscribe _ => match c return result (list subEvent) -> answer c with HSubscribe _ => fun a => a | c => fun _ => failed c end
  | GErr | GWait _ => match c return option error -> answer c with GErr | GWait _ => fun a => a | c => fun _ => failed c end
  | HReceipt _ => match c return result (option Receipt) -> answer c with HReceipt _ => fun a => a | c => fun _ => failed c end
  | TUpdateStatus _ _ _ _ _ | TUpdateCheckout _ _ _ _ _ | EPublish _ | LRelease _ | BAllow
  | OCreate _ | OUpdate _ _ _ | CSet _ _ =>
      match c return result unit -> answer c with
      | TUpdateStatus _ _ _ _ _ | TUpdateCheckout _ _ _ _ _ | EPublish _ | LRelease _ | BAllow
      | OCreate _ | OUpdate _ _ _ | CSet _ _ => fun a => a
      | c => fun _ => failed c end
  end.

Lemma cast_answer_same c a : cast_answer c c a = a.
Proof. by destruct c. Qed.

(** The n-th call gets the n-th answer; beyond the record calls fail. *)
Definition replay (K : list obs) (before : list obs) (c : op) : answer c :=
  match K !! length before with
  | Some e => if bool_decide (ob_op e = c) then cast_answer (ob_op e) c (ob_answer e) else failed c
  | None => failed c
  end.

Lemma replay_recorded K before c : Ob c (replay K before c) ∈ K \/ replay K before c = failed c.
Proof.
  unfold replay. destruct (K !! length before) as [[c' a]|] eqn:E; [|by right]. cbn [ob_op ob_answer].
  case_bool_decide as Hc; [|by right]. subst c'. left. rewrite cast_answer_same. by eapply list_elem_of_lookup_2.
Qed.

(** ** Requests *)

(** What can be running: the entry points of the services and the loops of the
    server's goroutines, each with what wakes it ([Listener.Run] starts the last
    four). *)
Inductive program : Type :=
  | PCreate (input : CreatePaymentInput)
  | PResolve (merchantID orderID : string)
  | PProcess (payload sig : string)
  | PRefund (input : RefundInput)
  | PReconcile (wakes : list wake)
  | PSubscriber (rounds : nat)
  | PBackfill (rounds : nat) (wakes : list wake)
  | PConfirmation (wakes : list wake)
  | PReconciler (wakes : list wake).

(** Go's amounts are int64. *)
Definition program_ok (p : program) : Prop :=
  match p with PCreate input => int64_range (in_Amount input) | _ => True end.

(** The order a request visits the hosted checkout of. *)
Definition visiting (p : program) : option (string * string) :=
  match p with PResolve m o => Some (m, o) | _ => None end.

(** The components a request talks to. *)
Inductive part : Type := Repo | Redis | Txs | Cursor | World.
#[global] Instance part_eq_dec : EqDecision part.
Proof. solve_decision. Defined.

(** What a run recorded, per component. *)
Definition on_two (w : queue * queue) (pt : part) : list obs :=
  match pt with Repo => q_seen w.1 | World => q_seen w.2 | _ => [] end.
Definition on_three (w : queue * (queue * queue)) (pt : part) : list obs :=
  match pt with Repo => q_seen w.1 | Redis => q_seen w.2.1 | World => q_seen w.2.2 | _ => [] end.
Definition on_four (w : queue * (queue * (queue * queue))) (pt : part) : list obs :=
  match pt with
  | Repo => q_seen w.1 | Txs => q_seen w.2.1 | Cursor => q_seen w.2.2.1 | World => q_seen w.2.2.2 | Redis => []
  end.

Definition on_waits (w : list Z * (queue * (queue * (queue * queue)))) (pt : part) : list obs := on_four w.2 pt.

Section Programs.
Context `{Unicode} `{ObjectJSON} `{EthFormat}.
Variable g : deployment.

(** The calls of a request, given where its answers come from. *)
Definition run_program (p : program) (q : part -> queue) : part -> list obs :=
  let two := (q Repo, q World) in
  let three := (q Repo, (q Redis, q World)) in
  let four := (q Repo, (q Txs, (q Cursor, q World))) in
  match p with
  | PCreate input => on_two (Create (dep_payments g) input two).2
  | PResolve m o => on_two (Resolve (dep_resolver g) m o two).2
  | PProcess payload sig => on_three (Process (dep_secret g) payload sig three).2
  | PRefund input => on_three (service_CreateRefund input three).2
  | PReconcile wakes => on_two (orderReconciliation_Run (dep_reconcile g) wakes two).2
  | PSubscriber n => on_waits (subscriber_Run (li_Subscriber (dep_listener g)) n ([], four)).2
  | PBackfill n wakes => on_four (backfill_Run (li_Backfill (dep_listener g)) n wakes four).2
  | PConfirmation wakes => on_four (confirmation_Run (li_Confirmation (dep_listener g)) wakes four).2
  | PReconciler wakes => on_four (reconciler_Run (li_Reconciler (dep_listener g)) wakes four).2
  end.

(** One observation of the run: it is an answer of its oracle and its call is
    caused by observations of the run. *)
Definition sound_run (v : option (string * string)) (good : obs -> Prop) (log : part -> list obs) : Prop :=
  exists K, (forall e, e ∈ K -> good e) /\ forall pt e, e ∈ log pt -> caused g v K (ob_op e).

Lemma two_sound {A} (m : ST (queue * queue) A) v good q1 q2 :
  runs (caused g v) good [] m anything -> q_seen q1 = [] -> q_seen q2 = [] ->
  honest good q1 -> honest good q2 -> sound_run v good (on_two (m (q1, q2)).2).
Proof.
  intros Hm E1 E2 H1' H2'. destruct (runs_fresh (caused g v) _ m _ (q1, q2) Hm) as [Hb Hg _]; [cbn; by rewrite E1, E2|by split|].
  exists (seen (m (q1, q2)).2). split; [exact Hg|]. intros pt e He. apply Hb. cbn. rewrite elem_of_app.
  destruct pt; cbn in He; first [by apply not_elem_of_nil in He|tauto].
Qed.

Lemma three_sound {A} (m : ST (queue * (queue * queue)) A) v good q1 q2 q3 :
  runs (caused g v) good [] m anything -> q_seen q1 = [] -> q_seen q2 = [] -> q_seen q3 = [] ->
  honest good q1 -> honest good q2 -> honest good q3 -> sound_run v good (on_three (m (q1, (q2, q3))).2).
Proof.
  intros Hm E1 E2 E3 H1' H2' H3'.
  destruct (runs_fresh (caused g v) _ m _ (q1, (q2, q3)) Hm) as [Hb Hg _]; [cbn; by rewrite E1, E2, E3|by repeat split|].
  exists (seen (m (q1, (q2, q3))).2). split; [exact Hg|]. intros pt e He. apply Hb. cbn. rewrite !elem_of_app.
  destruct pt; cbn in He; first [by apply not_elem_of_nil in He|tauto].
Qed.

Lemma four_sound {A} (m : ST (queue * (queue * (queue * queue))) A) v good q1 q2 q3 q4 :
  runs (caused g v) good [] m anything ->
  q_seen q1 = [] -> q_seen q2 = [] -> q_seen q3 = [] -> q_seen q4 = [] ->
  honest good q1 -> honest good q2 -> honest good q3 -> honest good q4 ->
  sound_run v good (on_four (m (q1, (q2, (q3, q4)))).2).
Proof.
  intros Hm E1 E2 E3 E4 H1' H2' H3' H4'.
  destruct (runs_fresh (caused g v) _ m _ (q1, (q2, (q3, q4))) Hm) as [Hb Hg _]; [cbn; by rewrite E1, E2, E3, E4|by repeat split|].
  exists (seen (m (q1, (q2, (q3, q4)))).2). split; [exact Hg|]. intros pt e He. apply Hb. cbn. rewrite !elem_of_app.
  destruct pt; cbn in He; first [by apply not_elem_of_nil in He|tauto].
Qed.

Lemma waits_sound {A} (m : ST (list Z * (queue * (queue * (queue * queue)))) A) v good ws q1 q2 q3 q4 :
  runs (caused g v) good [] m anything ->
  q_seen q1 = [] -> q_seen q2 = [] -> q_seen q3 = [] -> q_seen q4 = [] ->
  honest good q1 -> honest good q2 -> honest good q3 -> honest good q4 ->
  sound_run v good (on_waits (m (ws, (q1, (q2, (q3, q4))))).2).
Proof.
  intros Hm E1 E2 E3 E4 H1' H2' H3' H4'.
  destruct (runs_fresh (caused g v) _ m _ (ws, (q1, (q2, (q3, q4)))) Hm) as [Hb Hg _]; [cbn; by rewrite E1, E2, E3, E4|by repeat split|].
  exists (seen (m (ws, (q1, (q2, (q3, q4))))).2). split; [exact Hg|]. intros pt e He. apply Hb. cbn. rewrite !elem_of_app.
  unfold on_waits in He. destruct pt; cbn in He; first [by apply not_elem_of_nil in He|tauto].
Qed.

Lemma run_program_sound p good q :
  program_ok p -> (forall pt, q_seen (q pt) = [] /\ honest good (q pt)) -> sound_run (visiting p) good (run_program p q).
Proof.
  intros Hp Hq. destruct (Hq Repo), (Hq Redis), (Hq Txs), (Hq Cursor), (Hq World).
  destruct p; cbn [run_program].
  - apply two_sound; [by apply Create_runs|done..].
  - apply two_sound; [by apply Resolve_runs|done..].
  - apply three_sound; [apply Process_runs|done..].
  - apply three_sound; [apply CreateRefund_runs|done..].
  - apply two_sound; [apply tickerLoop_runs; intros; apply returning_runs, tick_runs|done..].
  - apply waits_sound; [apply subscriber_Run_runs|done..].
  - apply four_sound; [apply tickerLoop_runs; intros; apply backfill_tick_runs|done..].
  - apply four_sound; [apply tickerLoop_runs; intros; apply returning_runs, confirmation_tick_runs|done..].
  - apply four_sound; [apply tickerLoop_runs; intros; apply returning_runs, reconciler_tick_runs|done..].
Qed.
End Programs.

(** ** Histories *)

(** A call of the request number [ca_agent], and what it answered. *)
Record called : Type := Called { ca_agent : nat; ca_part : part; ca_obs : obs }.

(** The observations of one request, all of them or those of one component. *)
Definition seen_by (i : nat) (h : list called) : list obs :=
  omap (fun x => if bool_decide (ca_agent x = i) then Some (ca_obs x) else None) h.
Definition answers_to (i : nat) (pt : part) (h : list called) : list obs :=
  omap (fun x => if bool_decide (ca_agent x = i) && bool_decide (ca_part x = pt) then Some (ca_obs x) else None) h.

Lemma answers_seen i pt h : answers_to i pt h ⊆ seen_by i h.
Proof.
  intros e He. unfold answers_to, seen_by in *. apply list_elem_of_omap in He as (x & Hx & He).
  apply list_elem_of_omap. exists x. split; [done|]. by destruct (bool_decide (ca_agent x = i)), (bool_decide (ca_part x = pt)).
Qed.

Lemma seen_by_elem i h e : e ∈ seen_by i h <-> exists pt, Called i pt e ∈ h.
Proof.
  unfold seen_by. rewrite list_elem_of_omap. split.
  - intros (x & Hx & He). case_bool_decide as Hi; [|done]. injection He as <-. exists (ca_part x). subst i. by destruct x.
  - intros (pt & Hx). exists (Called i pt e). split; [done|]. cbn. by rewrite bool_decide_true.
Qed.

(** Where the payments of a shard come from, also of the shards that share a
    pool with the one written to ([StatusFrames] says it of status updates). *)
Class StoreOrigins (D : Type) `{TransactionStore D} : Prop := {
  insert_frame d t r d' s :
    store_inv d -> int64_range (t_Amount t) -> repo_Insert t d = (r, d') ->
    content d' s = content d s \/
    exists t', content d' s = content d s ++ [t'] /\ t_Status t' = t_Status t /\
      t_StripeSessionID t' = t_StripeSessionID t /\ t_StripePaymentIntentID t' = t_StripePaymentIntentID t;
  update_checkout_frame d sh m o sess pi res d' s :
    store_inv d -> repo_UpdateCheckout sh m o sess pi d = (res, d') ->
    content d' s = content d s \/
    exists u, content d' s = (fun t => if by_key key_eq m o t then put_checkout sess pi u t else t) <$> content d s;
}.

Section System.
Context `{Unicode} `{ObjectJSON} `{EthFormat}.
Context {D : Type} `{HS : TransactionStore D} `{!StatusFrames D} `{!StoreOrigins D}.
Variable g : deployment.
Variable prog : nat -> program.
Hypothesis progs_ok : forall i, program_ok (prog i).
Variable d0 : D.
Hypothesis d0_ok : store_inv d0.

(** The answers a request has had so far, per component. *)
Definition queues_of (i : nat) (h : list called) (pt : part) : queue :=
  {| q_seen := []; q_oracle := replay (answers_to i pt h) |}.

(** Its next call to a component. *)
Definition next (i : nat) (pt : part) (h : list called) : option op :=
  ob_op <$> run_program g (prog i) (queues_of i h) pt !! length (answers_to i pt h).

(** The calls that run on the shared repository. *)
Definition exec_op (c : op) : option (ST D (answer c)) :=
  match c return option (ST D (answer c)) with
  | TInsert t => Some (repo_Insert t)
  | TGetTxn sh m x => Some (repo_GetByTransactionID sh m x)
  | TGetOrder sh m o => Some (repo_GetByMerchantOrderID sh m o)
  | TUpdateStatus sh m o st pi => Some (repo_UpdateStatus sh m o st pi)
  | TUpdateCheckout sh m o sess pi => Some (repo_UpdateCheckout sh m o sess pi)
  | TGetAny o => Some (repo_GetByOrderIDAny o)
  | TGetIntent pi => Some (repo_GetByPaymentIntentID pi)
  | TPending before limit => Some (repo_GetPendingBefore before limit)
  | _ => None
  end.

Inductive reachable : list called -> D -> Prop :=
  | reach_start : reachable [] d0
  | reach_repo h d i pt c m a d' :
      reachable h d -> next i pt h = Some c -> exec_op c = Some m -> m d = (a, d') ->
      reachable (h ++ [Called i pt (Ob c a)]) d'
  | reach_other h d i pt c a :
      reachable h d -> next i pt h = Some c -> exec_op c = None ->
      reachable (h ++ [Called i pt (Ob c a)]) d.

(** The same as a program: the requests make their calls in the order of a
    schedule, and [world] answers the calls that are not the repository's. *)
Definition play_one (world : forall c, answer c) (hd : list called * D) (next_up : nat * part) : option (list called * D) :=
  let '(h, d) := hd in
  let '(i, pt) := next_up in
  match next i pt h with
  | None => None
  | Some c =>
      match exec_op c with
      | Some m => let '(a, d') := m d in Some (h ++ [Called i pt (Ob c a)], d')
      | None => Some (h ++ [Called i pt (Ob c (world c))], d)
      end
  end.

Fixpoint play (world : forall c, answer c) (schedule : list (nat * part)) (hd : list called * D) : option (list called * D) :=
  match schedule with
  | [] => Some hd
  | x :: rest => match play_one world hd x with Some hd' => play world rest hd' | None => None end
  end.

Lemma play_reachable world schedule h d h' d' :
  reachable h d -> play world schedule (h, d) = Some (h', d') -> reachable h' d'.
Proof.
  revert h d. induction schedule as [|[i pt] rest IH]; intros h d Hr; cbn [play]; [by intros [= <- <-]|].
  destruct (play_one world (h, d) (i, pt)) as [[h1 d1]|] eqn:E; [|done]. apply IH. cbn in E.
  destruct (next i pt h) as [c|] eqn:En; [|done]. destruct (exec_op c) as [m|] eqn:Em.
  - destruct (m d) as [a d2] eqn:Ed. injection E as <- <-. by eapply reach_repo.
  - injection E as <- <-. by eapply reach_other.
Qed.

(** ** Causes in a history *)

Lemma next_caused i pt h c : next i pt h = Some c -> caused g (visiting (prog i)) (seen_by i h) c.
Proof.
  intros Hn. unfold next in Hn. apply fmap_Some in Hn as (e & He & ->). apply list_elem_of_lookup_2 in He.
  pose (good := fun e => e ∈ seen_by i h \/ ob_answer e = failed (ob_op e)).
  destruct (run_program_sound g (prog i) good (queues_of i h)) as (K & HK & Hc).
  - apply progs_ok.
  - intros pt'. split; [done|]. intros before c'. unfold good. cbn.
    destruct (replay_recorded (answers_to i pt' h) before c') as [Hr|Hr]; [left|by right].
    by eapply answers_seen.
  - eapply caused_mono; [exact HK|]. by eapply Hc.
Qed.

(** Before a call took place, it was the next call of its request. *)
Lemma reachable_before h d : reachable h d -> forall h1 x h2, h = h1 ++ x :: h2 ->
  exists d1, reachable h1 d1 /\ next (ca_agent x) (ca_part x) h1 = Some (ob_op (ca_obs x)).
Proof.
  induction 1 as [|h d i pt c m a d' Hr IH Hn Hm Hd|h d i pt c a Hr IH Hn Hno]; intros h1 x h2 E.
  - by destruct h1.
  - destruct h2 as [|y h2 _] using rev_ind.
    + apply app_inj_tail in E as [<- <-]. by exists d.
    + rewrite app_comm_cons, app_assoc in E. apply app_inj_tail in E as [-> _]. by eapply IH.
  - destruct h2 as [|y h2 _] using rev_ind.
    + apply app_inj_tail in E as [<- <-]. by exists d.
    + rewrite app_comm_cons, app_assoc in E. apply app_inj_tail in E as [-> _]. by eapply IH.
Qed.

Lemma history_caused h d h1 x h2 :
  reachable h d -> h = h1 ++ x :: h2 -> caused g (visiting (prog (ca_agent x))) (seen_by (ca_agent x) h1) (ob_op (ca_obs x)).
Proof. intros Hr E. destruct (reachable_before h d Hr h1 x h2 E) as (d1 & _ & Hn). by eapply next_caused. Qed.

(** ** Payments in a history *)

(** How a payment of a shard got there by the call [c] on the payments [l]. *)
Inductive origin (c : op) (l : list Transaction) (t' : Transaction) : Prop :=
  | o_same : t' ∈ l -> origin c l t'
  | o_status sh m o st pi u t : c = TUpdateStatus sh m o st pi -> t ∈ l -> by_key key_eq m o t = true ->
      t' = put_status st pi u t -> origin c l t'
  | o_checkout sh m o sess pi u t : c = TUpdateCheckout sh m o sess pi -> t ∈ l -> by_key key_eq m o t = true ->
      t' = put_checkout sess pi u t -> origin c l t'
  | o_insert t : c = TInsert t -> t_Status t' = t_Status t -> t_StripeSessionID t' = t_StripeSessionID t ->
      t_StripePaymentIntentID t' = t_StripePaymentIntentID t -> origin c l t'.

Lemma framed_elem (p : Transaction -> bool) f (l l' : list Transaction) t' :
  l' = l \/ (exists u : Z, l' = (fun t => if p t then f u t else t) <$> l) -> t' ∈ l' ->
  t' ∈ l \/ exists u t, t ∈ l /\ p t = true /\ t' = f u t.
Proof.
  intros [->|[u ->]] Ht; [by left|]. apply list_elem_of_fmap in Ht as (t & -> & Ht).
  destruct (p t) eqn:Ep; [right; eauto|by left].
Qed.

Lemma exec_op_origin c m d a d' v K :
  store_inv d -> caused g v K c -> exec_op c = Some m -> m d = (a, d') ->
  store_inv d' /\ forall s t', t' ∈ content d' s -> origin c (content d s) t'.
Proof.
  intros Hd Hc Hm Hex. destruct c; try discriminate Hm; injection Hm as <-.
  - destruct a as [t1 res]. destruct (insert_law d t t1 res d' Hd (fr_amount _ Hc) Hex) as [Hd' _]. split; [done|].
    intros s t' Ht'. destruct (insert_frame d t _ d' s Hd (fr_amount _ Hc) Hex) as [E|(t2 & E & ? & ? & ?)];
      rewrite E in Ht'; [by apply o_same|]. apply elem_of_app in Ht' as [?| ->%list_elem_of_singleton];
      [by apply o_same|by eapply o_insert].
  - destruct (get_txn_law _ _ _ _ _ _ Hd Hex) as (Hd' & Hsame & _). split; [done|].
    intros s t' Ht'. rewrite Hsame in Ht'. by apply o_same.
  - destruct (get_order_law _ _ _ _ _ _ Hd Hex) as (Hd' & Hsame & _). split; [done|].
    intros s t' Ht'. rewrite Hsame in Ht'. by apply o_same.
  - destruct (update_status_law _ _ _ _ _ _ _ _ Hd Hex) as (Hd' & _). split; [done|]. intros s t' Ht'.
    destruct (framed_elem _ _ _ _ _ (update_status_frame _ _ _ _ _ _ _ _ s Hd Hex) Ht') as [?|(u & t & ? & ? & ?)];
      [by apply o_same|by eapply o_status].
  - destruct (update_checkout_law _ _ _ _ _ _ _ _ Hd Hex) as (Hd' & _). split; [done|]. intros s t' Ht'.
    destruct (framed_elem _ _ _ _ _ (update_checkout_frame _ _ _ _ _ _ _ _ s Hd Hex) Ht') as [?|(u & t & ? & ? & ?)];
      [by apply o_same|by eapply o_checkout].
  - destruct (get_any_law _ _ _ _ Hd Hex) as (Hd' & Hsame & _). split; [done|].
    intros s t' Ht'. rewrite Hsame in Ht'. by apply o_same.
  - destruct (get_pi_law _ _ _ _ Hd Hex) as (Hd' & Hsame & _). split; [done|].
    intros s t' Ht'. rewrite Hsame in Ht'. by apply o_same.
  - destruct (pending_law _ _ _ _ _ Hd Hex) as (Hd' & Hsame). split; [done|].
    intros s t' Ht'. rewrite Hsame in Ht'. by apply o_same.
Qed.

Lemma reachable_inv h d : reachable h d -> store_inv d.
Proof.
  induction 1 as [|h d i pt c m a d' Hr IH Hn Hm Hd|]; [done| |done].
  by eapply exec_op_origin; [|eapply next_caused| |].
Qed.

(** What a stored payment is about; no call changes it. *)
Definition core (t : Transaction) : string * string * string * Z * string :=
  (t_MerchantID t, t_TransactionID t, t_OrderID t, t_Amount t, t_Currency t).

(** Payments are neither lost nor reordered. *)
Definition grows (d d' : D) : Prop := forall s, core <$> content d s `prefix_of` core <$> content d' s.

Lemma payments_grow_trans d1 d2 d3 : grows d1 d2 -> grows d2 d3 -> grows d1 d3.
Proof. intros H12 H23 s. by transitivity (core <$> content d2 s). Qed.

Lemma same_grows d d' : (forall s, content d' s = content d s) -> grows d d'.
Proof. intros E s. by rewrite E. Qed.

Lemma framed_core (p : Transaction -> bool) f (l l' : list Transaction) :
  (forall u t, core (f u t) = core t) ->
  l' = l \/ (exists u : Z, l' = (fun t => if p t then f u t else t) <$> l) -> core <$> l `prefix_of` core <$> l'.
Proof.
  intros Hf [->|[u ->]]; [done|]. rewrite <- list_fmap_compose. apply reflexive_eq, list_fmap_ext.
  intros n t _. cbn. by destruct (p t).
Qed.

Lemma exec_op_grows c m d a d' v K :
  store_inv d -> caused g v K c -> exec_op c = Some m -> m d = (a, d') -> grows d d'.
Proof.
  intros Hd Hc Hm Hex. destruct c; try discriminate Hm; injection Hm as <-.
  - intros s. destruct (insert_frame d t _ d' s Hd (fr_amount _ Hc) Hex) as [->|(t2 & -> & _)]; [done|].
    rewrite fmap_app. by apply prefix_app_r.
  - by apply same_grows, (get_txn_law _ _ _ _ _ _ Hd Hex).
  - by apply same_grows, (get_order_law _ _ _ _ _ _ Hd Hex).
  - intros s. by eapply framed_core, update_status_frame.
  - intros s. by eapply framed_core, update_checkout_frame.
  - by apply same_grows, (get_any_law _ _ _ _ Hd Hex).
  - by apply same_grows, (get_pi_law _ _ _ _ Hd Hex).
  - by apply same_grows, (pending_law _ _ _ _ _ Hd Hex).
Qed.

Definition same_key (t t' : Transaction) : Prop := t_MerchantID t = t_MerchantID t' /\ t_OrderID t = t_OrderID t'.

(** A property of payments that fresh rows lack is due to some call [x] of
    the history with [E], or was there from the start. *)
Lemma content_traced (P : Transaction -> Prop) (E : op -> Transaction -> Prop) :
  (forall c t t', same_key t t' -> E c t -> E c t') ->
  (forall v K c l t', caused g v K c -> origin c l t' -> P t' ->
     (exists t, t ∈ l /\ same_key t t' /\ P t) \/ E c t') ->
  forall h d, reachable h d -> forall s t, t ∈ content d s -> P t ->
  (exists t0, t0 ∈ content d0 s /\ same_key t0 t /\ P t0) \/
  exists h1 x h2, h = h1 ++ x :: h2 /\ E (ob_op (ca_obs x)) t.
Proof.
  intros HE Hstep h d Hr. induction Hr as [|h d i pt c m a d' Hr IH Hn Hm Hd|h d i pt c a Hr IH Hn Hno]; intros s t Ht HP.
  - left. by exists t.
  - pose proof (next_caused _ _ _ _ Hn) as Hc.
    destruct (exec_op_origin _ _ _ _ _ _ _ (reachable_inv _ _ Hr) Hc Hm Hd) as [_ Ho].
    destruct (Hstep _ _ _ _ _ Hc (Ho s t Ht) HP) as [(t1 & Ht1 & [E1 E2] & HP1)|HEc].
    + destruct (IH s t1 Ht1 HP1) as [(t0 & Ht0 & [F1 F2] & HP0)|(h1 & x & h2 & -> & Hx)].
      * left. exists t0. split; [done|]. split; [|done]. split; congruence.
      * right. exists h1, x, (h2 ++ [Called i pt (Ob c a)]). split; [by rewrite <- app_assoc|].
        eapply HE; [|exact Hx]. done.
    + right. by exists h, (Called i pt (Ob c a)), [].
  - destruct (IH s t Ht HP) as [?|(h1 & x & h2 & -> & Hx)]; [by left|]. right.
    exists h1, x, (h2 ++ [Called i pt (Ob c a)]). split; [by rewrite <- app_assoc|done].
Qed.

Lemma by_key_same m o t t' : same_key t t' -> by_key key_eq m o t = by_key key_eq m o t'.
Proof. intros [E1 E2]. unfold by_key. by rewrite E1, E2. Qed.

(** ** Theorems *)

(** C2. However the requests, callbacks and background passes of the gateway
    interleave, every one of their calls is justified by what the same request
    has seen before: rows are inserted as "created" only; a status is written
    for a verified, fresh Stripe event, for Stripe's own answer about the
    intent of a stuck payment, or for a deep enough transaction of the chain
    whose amount has the low 64 bits of the order's; the lock of an order is
    asked for by its visitors only, and released by who acquired it; a
    checkout session is recorded only if Stripe made it for that payment; a refund is asked for on the intent of the loaded
    order; an announced status was acknowledged by the repository before. *)
Theorem effects_have_causes h d h1 x h2 :
  reachable h d -> h = h1 ++ x :: h2 -> caused g (visiting (prog (ca_agent x))) (seen_by (ca_agent x) h1) (ob_op (ca_obs x)).
Proof. apply history_caused. Qed.

(** C1. Every paid payment has been paid: if no payment was paid at the start
    and one is after any history, then a request marked it as paid, and this
    request had seen before a verified, fresh "succeeded" event that names the
    order, with Stripe's confirmation of the event's intent unless the event has
    no intent (then its signed body is all that is checked), or Stripe's answer
    that the intent of a stuck payment succeeded, or a final, successful
    transaction of the chain whose amount agrees with the order's in its low 64
    bits. *)
Theorem paid_has_cause h d s t :
  (forall s' t', t' ∈ content d0 s' -> t_Status t' <> TransactionStatusPaid) ->
  reachable h d -> t ∈ content d s -> t_Status t = TransactionStatusPaid ->
  exists h1 h2 i pt sh m o pi a,
    h = h1 ++ Called i pt (Ob (TUpdateStatus sh m o TransactionStatusPaid pi) a) :: h2 /\
    by_key key_eq m o t = true /\ paid_cause g (seen_by i h1) sh m o pi.
Proof.
  intros H0' Hr Ht Hp.
  destruct (content_traced (fun t => t_Status t = TransactionStatusPaid)
    (fun c t => exists sh m o pi, c = TUpdateStatus sh m o TransactionStatusPaid pi /\ by_key key_eq m o t = true))
    with (h := h) (d := d) (s := s) (t := t) as [(t0 & Ht0 & _ & Hp0)|(h1 & [i pt [c a]] & h2 & E & Hx)]; try done.
  - intros c t1 t2 Hk (sh & m & o & pi & -> & Hb). exists sh, m, o, pi. by rewrite <- (by_key_same m o _ _ Hk).
  - intros v K c l t' Hc [Hin|sh m o st pi u t1 -> Hin Hb ->|sh m o sess pi u t1 -> Hin Hb ->|t1 -> Est _ _] Hp'.
    + left. by exists t'.
    + right. cbn in Hp'. subst st. by exists sh, m, o, pi.
    + left. exists t1. done.
    + exfalso. rewrite Est, (fr_status _ Hc) in Hp'. discriminate Hp'.
  - by destruct (H0' s t0 Ht0).
  - cbn in Hx. destruct Hx as (sh & m & o & pi & -> & Hb). exists h1, h2, i, pt, sh, m, o, pi, a. split_and!; [done|done|].
    pose proof (history_caused _ _ _ _ _ Hr E) as Hc. cbn in Hc. by destruct Hc as [[_ Hc]|[[Hx _]|[Hx _]]].
Qed.

(** C12. Every checkout session on a payment is Stripe's, made for that order:
    if no payment had a session at the start, then a session on a payment was
    recorded by a request which had asked Stripe for a session over the amount
    and with the order id and merchant id of a payment it knew under this key,
    and which Stripe had answered with that session. *)
Theorem session_has_source h d s t :
  (forall s' t', t' ∈ content d0 s' -> t_StripeSessionID t' = "") ->
  reachable h d -> t ∈ content d s -> t_StripeSessionID t <> "" ->
  exists h1 h2 i pt sh m o pi a,
    h = h1 ++ Called i pt (Ob (TUpdateCheckout sh m o (t_StripeSessionID t) pi) a) :: h2 /\
    by_key key_eq m o t = true /\ session_cause g (seen_by i h1) sh m o (t_StripeSessionID t) pi.
Proof.
  intros H0' Hr Ht Hp. remember (t_StripeSessionID t) as sess eqn:Es.
  destruct (content_traced (fun t => t_StripeSessionID t = sess)
    (fun c t => exists sh m o pi, c = TUpdateCheckout sh m o sess pi /\ by_key key_eq m o t = true))
    with (h := h) (d := d) (s := s) (t := t) as [(t0 & Ht0 & _ & Hp0)|(h1 & [i pt [c a]] & h2 & E & Hx)]; try done.
  - intros c t1 t2 Hk (sh & m & o & pi & -> & Hb). exists sh, m, o, pi. by rewrite <- (by_key_same m o _ _ Hk).
  - intros v K c l t' Hc [Hin|sh m o st pi u t1 -> Hin Hb ->|sh m o sess' pi u t1 -> Hin Hb ->|t1 -> _ Ese _] Hp'.
    + left. by exists t'.
    + left. exists t1. done.
    + cbn in Hp'. unfold keep in Hp'. case_bool_decide; [left; by exists t1|]. subst sess'. right. by exists sh, m, o, pi.
    + exfalso. rewrite Ese, (fr_session _ Hc) in Hp'. congruence.
  - rewrite (H0' s t0 Ht0) in Hp0. congruence.
  - cbn in Hx. destruct Hx as (sh & m & o & pi & -> & Hb). exists h1, h2, i, pt, sh, m, o, pi, a. split_and!; [done|done|].
    exact (history_caused _ _ _ _ _ Hr E).
Qed.

(** An answer of the repository, and the states around it. *)
Lemma repo_answered h d : reachable h d -> forall x m, x ∈ h -> exec_op (ob_op (ca_obs x)) = Some m ->
  exists h0 d1 d2, h0 ++ [x] `prefix_of` h /\ reachable h0 d1 /\ m d1 = (ob_answer (ca_obs x), d2) /\
    reachable (h0 ++ [x]) d2 /\ grows d2 d.
Proof.
  induction 1 as [|h d i pt c m a d' Hr IH Hn Hm Hd|h d i pt c a Hr IH Hn Hno]; intros x mx Hx Hmx.
  - by apply not_elem_of_nil in Hx.
  - apply elem_of_app in Hx as [Hx|Hx].
    + destruct (IH x mx Hx Hmx) as (h0 & d1 & d2 & Hp & Hr1 & Hex & Hr2 & Hg). exists h0, d1, d2.
      split_and!; [by apply prefix_app_r|done..|]. eapply payments_grow_trans; [exact Hg|].
      by eapply exec_op_grows; [eapply reachable_inv|eapply next_caused| |].
    + apply list_elem_of_singleton in Hx as ->. cbn in Hmx. rewrite Hm in Hmx. injection Hmx as <-.
      exists h, d, d'. split_and!; [done|done|done|by eapply reach_repo|by apply same_grows].
  - apply elem_of_app in Hx as [Hx|Hx].
    + destruct (IH x mx Hx Hmx) as (h0 & d1 & d2 & Hp & Hrest). exists h0, d1, d2. split; [|done].
      by apply prefix_app_r.
    + apply list_elem_of_singleton in Hx as ->. cbn in Hmx. by rewrite Hno in Hmx.
Qed.

(** The first payment with a key stays the first with that key. *)
Lemma find_core (p : Transaction -> bool) l l' t :
  (forall a b, core a = core b -> p a = p b) -> core <$> l `prefix_of` core <$> l' -> List.find p l = Some t ->
  exists t', List.find p l' = Some t' /\ core t' = core t.
Proof.
  intros Hp. revert l'. induction l as [|x l IH]; intros l' Hpre Hf; [done|]. destruct l' as [|y l']; cbn in Hpre.
  { by apply prefix_nil_not in Hpre. }
  pose proof (prefix_cons_inv_1 _ _ _ _ Hpre) as E. apply prefix_cons_inv_2 in Hpre. cbn in Hf |- *.
  rewrite <- (Hp x y E). destruct (p x) eqn:Ex; [|by apply IH].
  injection Hf as <-. exists y. by split.
Qed.

Lemma by_key_core m o a b : core a = core b -> by_key key_eq m o a = by_key key_eq m o b.
Proof. intros [= E1 _ E2 _ _]. by apply by_key_same. Qed.

(** A payment loaded at some time, seen from the end of the history. *)
Lemma loaded_core h d i sh m o t :
  reachable h d -> Ob (TGetOrder sh m o) (Ok t) ∈ seen_by i h ->
  by_key key_eq m o t = true /\ exists t', List.find (by_key key_eq m o) (content d sh) = Some t' /\ core t' = core t.
Proof.
  intros Hr (pt & Hx)%seen_by_elem.
  destruct (repo_answered h d Hr (Called i pt (Ob (TGetOrder sh m o) (Ok t))) (repo_GetByMerchantOrderID sh m o) Hx eq_refl)
    as (h0 & d1 & d2 & _ & Hr1 & Hg & _ & Hgr).
  destruct (get_order_law _ _ _ _ _ _ (reachable_inv _ _ Hr1) Hg) as (_ & Hsame & Hf). cbn in Hf. split.
  - by apply List.find_some in Hf as [_ Hk].
  - eapply find_core; [apply by_key_core|apply Hgr|]. by rewrite Hsame.
Qed.

(** A payment known under a key has that key. *)
Lemma payment_of_key i h d sh m o t :
  reachable h d -> payment_of (seen_by i h) sh m o t ->
  key_eq (t_MerchantID t) m = true /\ key_eq (t_OrderID t) o = true.
Proof.
  intros Hr [Hl|b l ts _ _ _ <- <-|x _ _ <- <-]; [|by rewrite !key_eq_refl..].
  destruct (loaded_core _ _ _ _ _ _ _ Hr Hl) as [Hk _]. unfold by_key in Hk. by apply andb_true_iff in Hk.
Qed.

(** C13. What is announced on Kafka was stored: before a request publishes an
    event, the repository has held, in some earlier state of the same history,
    a payment with the announced status under the key of the announced
    order. *)
Theorem announced_was_stored h d h1 h2 i pt ev a :
  reachable h d -> h = h1 ++ Called i pt (Ob (EPublish ev) a) :: h2 ->
  exists h0 d1 sh m o t, h0 `prefix_of` h1 /\ reachable h0 d1 /\ t ∈ content d1 sh /\
    by_key key_eq m o t = true /\ t_Status t = pc_Status ev /\
    key_eq (pc_MerchantID ev) m = true /\ key_eq (pc_OrderID ev) o = true.
Proof.
  intros Hr E. pose proof (history_caused _ _ _ _ _ Hr E) as (sh & m & o & pi & p & Hu & Hp & Eo & Em & _). cbn in Hu, Hp.
  destruct (reachable_before _ _ Hr _ _ _ E) as (d1 & Hr1 & _).
  destruct (payment_of_key _ _ _ _ _ _ _ Hr1 Hp) as [Km Ko].
  apply seen_by_elem in Hu as (pt' & Hx).
  destruct (repo_answered h1 d1 Hr1 (Called i pt' (Ob (TUpdateStatus sh m o (pc_Status ev) pi) (Ok tt)))
    (repo_UpdateStatus sh m o (pc_Status ev) pi) Hx eq_refl)
    as (h0 & dm & d2 & Hpre & Hr0 & Hex & Hr2 & _).
  destruct (update_status_law _ _ _ _ _ _ _ _ (reachable_inv _ _ Hr0) Hex) as (_ & Hupd). cbn in Hupd.
  destruct Hupd as [[u Hc] (t & Ht & Hk)].
  eexists _, d2, sh, m, o, (put_status (pc_Status ev) pi u t). split; [exact Hpre|]. split; [exact Hr2|].
  split. { rewrite Hc. apply list_elem_of_fmap. exists t. by rewrite Hk. }
  split; [exact Hk|]. split; [done|]. by rewrite Eo, Em.
Qed.

(** Stripe's idempotency keys: one session per key and request. *)
Definition stripe_idempotent (h : list called) : Prop := forall i j pt pt' req key s1 s2,
  Called i pt (Ob (SSession req key) (Ok s1)) ∈ h -> Called j pt' (Ob (SSession req key) (Ok s2)) ∈ h -> s1 = s2.

Lemma seen_by_app i h h' : seen_by i h ⊆ seen_by i (h ++ h').
Proof. intros e He. unfold seen_by. rewrite omap_app. apply elem_of_app. by left. Qed.

(** The session a request of a lazy server records is the one Stripe made for
    the payment it loaded. *)
Lemma lazy_recorded h d i pt sh m o sess pi a :
  ps_lazyCheckout (dep_payments g) = true -> reachable h d ->
  Called i pt (Ob (TUpdateCheckout sh m o sess pi) a) ∈ h ->
  exists s t pt', Called i pt' (Ob (SSession (sessionRequest (dep_resolver g) t) (sessionKey t)) (Ok s)) ∈ h /\
    cs_ID s = sess /\ cs_PaymentIntentID s = pi /\
    exists t', List.find (by_key key_eq m o) (content d sh) = Some t' /\ core t' = core t.
Proof.
  intros Hlz Hr Hx. apply list_elem_of_split in Hx as (h1 & h2 & E).
  pose proof (history_caused _ _ _ _ _ Hr E) as (req & key & s & Hs & E1 & E2 & Hfor). cbn in Hs, Hfor.
  destruct Hfor as [t t' Hno|t l Hl _ _ -> ->]; [congruence|].
  assert (Hsub : seen_by i h1 ⊆ seen_by i h) by (rewrite E; apply seen_by_app).
  apply Hsub, seen_by_elem in Hs as (pt' & Hs). exists s, t, pt'. split_and!; [done..|].
  eapply loaded_core; [exact Hr|]. by apply Hsub.
Qed.

(** C7. On a server that creates Stripe sessions on first visit, all visitors
    of an order end up with one session, whatever the interleaving and even if
    the lock in Redis expires or never answers: given Stripe's idempotency
    keys, any two requests that record a session under the same key record the
    same session and the same intent. *)
Theorem visitors_share_session h d i j pt pt' sh m o sess1 pi1 sess2 pi2 a1 a2 :
  ps_lazyCheckout (dep_payments g) = true -> stripe_idempotent h -> reachable h d ->
  Called i pt (Ob (TUpdateCheckout sh m o sess1 pi1) a1) ∈ h ->
  Called j pt' (Ob (TUpdateCheckout sh m o sess2 pi2) a2) ∈ h -> sess1 = sess2 /\ pi1 = pi2.
Proof.
  intros Hlz Hid Hr Hx1 Hx2.
  destruct (lazy_recorded _ _ _ _ _ _ _ _ _ _ Hlz Hr Hx1) as (s1 & t1 & q1 & Hs1 & <- & <- & t1' & Hf1 & Ec1).
  destruct (lazy_recorded _ _ _ _ _ _ _ _ _ _ Hlz Hr Hx2) as (s2 & t2 & q2 & Hs2 & <- & <- & t2' & Hf2 & Ec2).
  assert (Ec : core t1 = core t2) by congruence. injection Ec as Em _ Eo Ea Ecu.
  assert (Er : sessionRequest (dep_resolver g) t1 = sessionRequest (dep_resolver g) t2)
    by (unfold sessionRequest; by rewrite Em, Eo, Ea, Ecu).
  assert (Ek : sessionKey t1 = sessionKey t2) by (unfold sessionKey; by rewrite Em, Eo).
  rewrite Er, Ek in Hs1. by rewrite (Hid _ _ _ _ _ _ _ _ Hs1 Hs2).
Qed.
End System.
