(* ===== verification/SqlOrigins.v ===== *)
(** * Where the rows of the SQL repository come from

    [StoreOrigins] of System holds of the SQL repository: an insert appends at
    most the given payment to a shard, also to one that shares the pool, and
    recording a session changes only the payments with its key.  With
    [sql_status_frames] the theorems of System hold of the repository the
    server runs on; [sql_store_answers] does it for Lifecycle. *)

From S2P Require Import Prelude GoStrings Domain Codec ShardRouter TransactionRepo TransactionTables.
From S2P Require Import TransactionStore TransactionRefines Concurrency ReconcileLive SqlFrames Lifecycle System.
Local Open Scope Z_scope.

Section Origins.
Context `{Unicode} `{HM : MySQL} `{!MySQLLaws}.
Variable r : multiShardRouter.
Hypothesis Hr : router_ok r.

(** A new row, seen from any shard. *)
Lemma encodeRow_any_view s t txn cur st :
  encodeChecks t = Ok (txn, cur, st) ->
  exists t', rowView s (encodeRow t txn cur st (encodeMethod (t_PaymentMethod t))) = Some t' /\
    t_Status t' = t_Status t /\ t_StripeSessionID t' = t_StripeSessionID t /\
    t_StripePaymentIntentID t' = t_StripePaymentIntentID t.
Proof.
  intros Hv%encodeRow_view. unfold rowView in *. destruct (scanTransaction _) as [t0|]; [|done].
  injection Hv. intros. by exists (with_shard s t0).
Qed.

Lemma sql_insert_frame d t r0 d' s :
  Insert r t d = (r0, d') ->
  sql_content r d' s = sql_content r d s \/
  exists t', sql_content r d' s = sql_content r d s ++ [t'] /\ t_Status t' = t_Status t /\
    t_StripeSessionID t' = t_StripeSessionID t /\ t_StripePaymentIntentID t' = t_StripePaymentIntentID t.
Proof.
  unfold Insert. destruct (encodeChecks t) as [[[txn cur] st]|e] eqn:Ec; [|intros [= _ <-]; by left].
  unfold bind, ret. destruct (Now d) as [now d1] eqn:En.
  assert (Ht1 : tables d1 = tables d) by (pose proof (Now_tables d) as Hn; by rewrite En in Hn).
  set (t1 := with_times _ now t). destruct (route r (t_ShardIndex t1)) as [h|e].
  2: { intros [= _ <-]. left. unfold sql_content, shard_rows. by rewrite Ht1. }
  destruct (encodeRow_any_view s t1 txn cur st Ec) as (t' & Hv & Hf).
  change (t_PaymentMethod t1) with (t_PaymentMethod t) in Hv.
  destruct (exec h _ d1) as [ans d2] eqn:Ex. intros [= _ <-]. unfold sql_content, shard_rows.
  apply exec_spec in Ex as [[-> _]|(rows & Hrows & -> & _)]; [left; by rewrite Ht1|]. rewrite Ht1 in *.
  destruct (route r s) as [h'|]; [|by left]. destruct (decide (h' = h)) as [->|Hne].
  2: { left. by rewrite list_lookup_insert_ne. }
  rewrite Hrows, list_lookup_insert_eq by (by eapply lookup_lt_Some). cbn [default]. unfold id, sql_insert.
  destruct (negb _); [by left|]. destruct (List.existsb _ rows); [by left|]. right. exists t'. split; [|exact Hf].
  cbn [snd]. rewrite omap_app. f_equal. cbn. by rewrite Hv.
Qed.

Lemma sql_store_origins : @StoreOrigins Db (sql_repo r) (sql_store r Hr).
Proof.
  split.
  - intros d t r0 d' s _ _ Hi. exact (sql_insert_frame d t r0 d' s Hi).
  - intros d sh m o sess pi res d' s Hd Hu. cbn in Hu. unfold UpdateCheckout in Hu.
    destruct (ValidateOrderID o); [|injection Hu as <- <-; by left].
    destruct (route r sh) as [h|]; [|injection Hu as <- <-; by left].
    unfold bind in Hu. destruct (Now d) as [now d1] eqn:En.
    destruct (exec h _ d1) as [ans d2] eqn:Ee. injection Hu as <- <-.
    assert (Ht : tables d1 = tables d) by (pose proof (Now_tables d) as Hx; by rewrite En in Hx).
    assert (Hc : sql_content r d1 s = sql_content r d s) by (unfold sql_content, shard_rows; by rewrite Ht).
    assert (Hd1 : sql_inv d1) by (unfold sql_inv; rewrite Ht; exact Hd).
    destruct (update_frame_sql r s h (by_order m o) (by_key coll_eq m o) (set_checkout sess pi now)
      (put_checkout sess pi (ts_store now)) d1 ans d2 Hd1) as [E|E].
    + intros x t. apply by_order_view.
    + intros x t. apply set_checkout_view.
    + exact Ee.
    + left. cbn. by rewrite E, Hc.
    + right. exists (ts_store now). cbn. by rewrite E, Hc.
Qed.

(** While no fault is scheduled, the repository answers for stored payments. *)
Lemma sql_store_answers : @StoreAnswers Db (sql_repo r) (sql_store r Hr) no_fault_scheduled.
Proof.
  split.
  - intros d sh pi t res d' Hd Hf Ht Hl Hu. split.
    + exact (paid_no_fault r _ _ _ _ _ _ Hd Hf Ht Hl Hu).
    + exact (status_no_fault r _ _ _ _ _ _ _ _ Hf Hu).
  - intros d sh t res d' Hd Hf Ht Hg. exact (get_no_fault r _ _ _ _ _ Hd Hf Ht Hg).
Qed.
End Origins.
