(* ===== verification/Callbacks.v ===== *)
(** * Concurrent deliveries of one Stripe event

    Stripe delivers an event more than once, and deliveries may be handled at
    the same time.  Here the histories of System are those in which Redis
    answered the deduplication marks: [redis_runs] runs the SET NX calls of a
    history, in order, on one Redis whose marks last for the time the history
    takes (they are set for a day). *)

From S2P Require Import Prelude GoStrings Domain TransactionStore StripeTypes Ports.
From S2P Require Import WebhookService ReconcileLive ChainListener Effects Causes System.
Local Open Scope Z_scope.

Definition is_setnx (c : op) : bool := match c with RSetNX _ _ _ => true | _ => false end.

Section Redis.
Context {R : Type} `{RedisSetNXLaws R}.

(** No key is lost. *)
Definition lasting (r r' : R) : Prop := forall k, is_Some (live r k) -> is_Some (live r' k).

Inductive redis_runs (r0 : R) : list called -> R -> Prop :=
  | rr_start : redis_runs r0 [] r0
  | rr_setnx h r i pt k v ttl a r' :
      redis_runs r0 h r -> SetNX k v ttl r = (a, r') -> lasting r r' ->
      redis_runs r0 (h ++ [Called i pt (Ob (RSetNX k v ttl) a)]) r'
  | rr_other h r x r' :
      redis_runs r0 h r -> is_setnx (ob_op (ca_obs x)) = false -> lasting r r' ->
      redis_runs r0 (h ++ [x]) r'.

(** The key a call of a history has claimed, and for which request. *)
Definition claim_of (x : called) : option (nat * string) :=
  match ca_obs x with Ob (RSetNX k _ _) (Ok true) => Some (ca_agent x, k) | _ => None end.

Lemma claim_setnx x i k : claim_of x = Some (i, k) -> is_setnx (ob_op (ca_obs x)) = true.
Proof. destruct x as [j pt [c a]]. by destruct c. Qed.

(** The last call of a history claims a key that was free, and then is not. *)
Lemma claim_last r i pt k v ttl a r' j key :
  SetNX k v ttl r = (a, r') -> claim_of (Called i pt (Ob (RSetNX k v ttl) a)) = Some (j, key) ->
  j = i /\ live r key = None /\ is_Some (live r' key).
Proof.
  intros Hs Hc. destruct a as [[|]|e]; try discriminate Hc. cbn in Hc. injection Hc as <- <-.
  destruct (setnx_law _ _ _ _ _ _ Hs) as (_ & Hf & Hl). by rewrite Hl.
Qed.

(** A key that was claimed is there. *)
Lemma claimed_live r0 h r x i k : redis_runs r0 h r -> x ∈ h -> claim_of x = Some (i, k) -> is_Some (live r k).
Proof.
  induction 1 as [|h r j pt k' v ttl a r' Hr IH Hs Hl|h r y r' Hr IH Hy Hl]; intros Hin Hc.
  - by apply not_elem_of_nil in Hin.
  - apply elem_of_app in Hin as [Hin| ->%list_elem_of_singleton]; [by apply Hl, IH|].
    by destruct (claim_last _ _ _ _ _ _ _ _ _ _ Hs Hc) as (_ & _ & ?).
  - apply elem_of_app in Hin as [Hin| ->%list_elem_of_singleton]; [by apply Hl, IH|].
    apply claim_setnx in Hc. congruence.
Qed.

(** A key is claimed by one request only. *)
Lemma claimed_once r0 h r x y i j k :
  redis_runs r0 h r -> x ∈ h -> y ∈ h -> claim_of x = Some (i, k) -> claim_of y = Some (j, k) -> i = j.
Proof.
  induction 1 as [|h r n pt k' v ttl a r' Hr IH Hs Hl|h r z r' Hr IH Hz Hl]; intros Hx Hy Ex Ey.
  - by apply not_elem_of_nil in Hx.
  - assert (Hfree : forall w u, w ∈ h -> claim_of w = Some (u, k) -> live r k = None -> False).
    { intros w u Hw Ew Hn. destruct (claimed_live _ _ _ _ _ _ Hr Hw Ew). congruence. }
    apply elem_of_app in Hx as [Hx| ->%list_elem_of_singleton];
      [|destruct (claim_last _ _ _ _ _ _ _ _ _ _ Hs Ex) as (-> & Hn & _)];
      (apply elem_of_app in Hy as [Hy| ->%list_elem_of_singleton];
      [|destruct (claim_last _ _ _ _ _ _ _ _ _ _ Hs Ey) as (-> & Hn' & _)]); first [by apply IH|done|exfalso; eauto].
  - apply elem_of_app in Hx as [Hx| ->%list_elem_of_singleton]; [|apply claim_setnx in Ex; congruence].
    apply elem_of_app in Hy as [Hy| ->%list_elem_of_singleton]; [|apply claim_setnx in Ey; congruence].
    by apply IH.
Qed.
End Redis.

(** ** Callbacks *)

Section Callbacks.
Context `{Unicode} `{ObjectJSON} `{EthFormat}.
Context {D : Type} `{HS : TransactionStore D}.
Context {R : Type} `{HR : RedisSetNXLaws R}.
Variable g : deployment.
Variable prog : nat -> program.
Hypothesis progs_ok : forall i, program_ok (prog i).
Variable d0 : D.
Variable r0 : R.

(** The event [ev] is handled by request [i] alone. *)
Definition handles_alone (h : list called) (i : nat) (ev : Event) : Prop :=
  forall j ev', fresh_event g (seen_by j h) ev' -> ev_ID ev' = ev_ID ev -> j = i.

(** A pass over the pending payments or over the pending chain transactions. *)
Definition is_pass (K : list obs) : Prop :=
  (exists before limit ts, Ob (TPending before limit) (Ok ts) ∈ K) \/
  (exists chain limit ps, Ob (OList chain limit) (Ok ps) ∈ K).

Lemma fresh_event_claims h i ev :
  fresh_event g (seen_by i h) ev -> exists x, x ∈ h /\ claim_of x = Some (i, dedupKey ev).
Proof. intros (payload & sig & _ & (pt & Hx)%seen_by_elem). by eexists. Qed.

Lemma fresh_event_alone h r i ev : redis_runs r0 h r -> fresh_event g (seen_by i h) ev -> handles_alone h i ev.
Proof.
  intros Hr (x & Hx & Ex)%fresh_event_claims j ev' (y & Hy & Ey)%fresh_event_claims Eid.
  assert (E : dedupKey ev' = dedupKey ev) by (unfold dedupKey; by rewrite Eid). rewrite E in Ey.
  exact (claimed_once _ _ _ _ _ _ _ _ Hr Hy Hx Ey Ex).
Qed.

(** Why a status is written: a fresh event, or what a pass listed. *)
Lemma status_cause v K sh m o st pi :
  caused g v K (TUpdateStatus sh m o st pi) -> (exists ev, fresh_event g K ev) \/ is_pass K.
Proof.
  intros [[_ [ob id (ev & Hev & _)|ob (ev & Hev & _)|t b l ts Hl|p t [(c & l & ps & Hl & _) _ _ _ _ _]]]
    |[[_ [ob (ev & Hev & _)|t b l ts st' Hl]]|[_ [ob (ev & Hev & _)|ob t (ev & Hev & _)]]]];
    first [left; by exists ev|right; left; by eexists _, _, _|right; right; by eexists _, _, _].
Qed.

(** C10. Stripe may deliver an event any number of times and the deliveries may
    interleave with each other in any way: as long as the marks in Redis last,
    a request that writes the status of a payment is either a background pass
    or has, before it writes, verified an event and set its mark, and no other
    request of the whole history gets past the mark of that event. *)
Theorem event_applied_by_one h d r h1 h2 i pt sh m o st pi a :
  reachable g prog d0 h d -> redis_runs r0 h r ->
  h = h1 ++ Called i pt (Ob (TUpdateStatus sh m o st pi) a) :: h2 ->
  (exists ev, fresh_event g (seen_by i h1) ev /\ handles_alone h i ev) \/ is_pass (seen_by i h1).
Proof.
  intros Hr Hrun E. destruct (status_cause _ _ _ _ _ _ _ (history_caused g prog progs_ok d0 _ _ _ _ _ Hr E)) as [[ev Hev]|Hp]; [left|by right].
  exists ev. split; [exact Hev|]. eapply fresh_event_alone; [exact Hrun|]. rewrite E.
  destruct Hev as (payload & sig & Hv & Hm). exists payload, sig. by split; apply seen_by_app.
Qed.
End Callbacks.
