(* ===== verification/Visitors.v ===== *)
(** * The checkout lock across requests

    Here the histories of System are those in which one Redis answered the
    calls of the lock (internal/cache/lock.go): [lock_runs] runs [redis_Acquire]
    and [redis_Release] of a history, in order, on its state.  Tokens are unique,
    as UUIDs are meant to be, and no lock expires during the history: a lock is
    set for ten seconds. *)

From S2P Require Import Prelude GoStrings Domain TransactionStore StripeTypes Ports Cache.
From S2P Require Import PaymentService CheckoutResolver ChainListener WebhookService Effects Causes System.
Local Open Scope Z_scope.

(** The locks acquired in a history, with the request and the key. *)
Definition acquired (x : called) : option (nat * string * Lock) :=
  match ca_obs x with Ob (LAcquire k _) (Ok l) => Some (ca_agent x, k, l) | _ => None end.

Definition is_lock_call (c : op) : bool := match c with LAcquire _ _ | LRelease _ => true | _ => false end.

Section Locks.
Context {R U : Type} `{HL : RedisScriptLaws R} `{UUID U}.

(** Every key but [k] keeps its value. *)
Definition keeps_but (k : string) (r r' : R) : Prop := forall k' v, k' <> k -> live r k' = Some v -> live r' k' = Some v.
Definition keeps_all (r r' : R) : Prop := forall k v, live r k = Some v -> live r' k = Some v.

Inductive lock_runs (r0 : R) : list called -> R -> Prop :=
  | lr_start : lock_runs r0 [] r0
  | lr_acquire h r i pt k ttl (u : U) a r' u' :
      lock_runs r0 h r -> redis_Acquire k ttl (r, u) = (a, (r', u')) -> keeps_but ("lock:" +:+ k) r r' ->
      (forall l x j k' l', a = Ok l -> x ∈ h -> acquired x = Some (j, k', l') -> lk_token l' <> lk_token l) ->
      lock_runs r0 (h ++ [Called i pt (Ob (LAcquire k ttl) a)]) r'
  | lr_release h r i pt l (u : U) a r' u' :
      lock_runs r0 h r -> redis_Release l (r, u) = (a, (r', u')) -> keeps_but (lk_key l) r r' ->
      lock_runs r0 (h ++ [Called i pt (Ob (LRelease l) a)]) r'
  | lr_other h r x r' :
      lock_runs r0 h r -> is_lock_call (ob_op (ca_obs x)) = false -> keeps_all r r' -> lock_runs r0 (h ++ [x]) r'.

(** What one call of the lock does to its key. *)
Lemma Acquire_run k ttl (r : R) (u : U) a r' u' :
  redis_Acquire k ttl (r, u) = (a, (r', u')) ->
  match a with
  | Ok l => live r ("lock:" +:+ k) = None /\ live r' ("lock:" +:+ k) = Some (lk_token l) /\ lk_key l = "lock:" +:+ k
  | Err _ => forall v, live r ("lock:" +:+ k) = Some v -> live r' ("lock:" +:+ k) = Some v
  end.
Proof.
  unfold redis_Acquire, bind, on_snd, on_fst, ret. cbn [fst snd]. destruct (uuid_NewString u) as [token u0].
  cbn [fst snd]. destruct (SetNX _ token ttl r) as [res r1] eqn:Es. intros [= <- <- <-].
  apply setnx_law in Es as [_ Hs]. destruct res as [[]|e].
  - by destruct Hs.
  - destruct Hs as [_ Hs]. intros v Hv. congruence.
  - intros v Hv. destruct Hs as [Hs|[Hn _]]; congruence.
Qed.

Lemma Release_run l (r : R) (u : U) a r' u' v :
  redis_Release l (r, u) = (a, (r', u')) -> live r (lk_key l) = Some v -> v <> lk_token l -> live r' (lk_key l) = Some v.
Proof.
  unfold redis_Release, bind, on_fst, ret. cbn [fst snd]. destruct (Eval_script _ _ r) as [b r1] eqn:Ev.
  intros [= _ <- _] Hv Hne. apply eval_runs in Ev. assert (Hd : bool_decide (live r (lk_key l) = Some (lk_token l)) = false).
  { apply bool_decide_eq_false. congruence. }
  destruct b as [n|e].
  - apply releaseScript_run in Ev as [_ Hk]. rewrite Hd in Hk. congruence.
  - destruct Ev as [Hs|[n Ev]]; [by rewrite Hs|]. apply releaseScript_run in Ev as [_ Hk]. rewrite Hd in Hk. congruence.
Qed.

(** The locks of a history: keys and tokens fit, and a token names one. *)
Lemma acquired_key r0 h r x i k l : lock_runs r0 h r -> x ∈ h -> acquired x = Some (i, k, l) -> lk_key l = "lock:" +:+ k.
Proof.
  induction 1 as [|h r j pt k' ttl u a r' u' Hr IH Ha Hk Hf|h r j pt l' u a r' u' Hr IH Ha Hk|h r y r' Hr IH Hy Hk]; intros Hx E.
  - by apply not_elem_of_nil in Hx.
  - apply elem_of_app in Hx as [Hx| ->%list_elem_of_singleton]; [by apply IH|]. cbn in E. destruct a as [l'|e]; [|done].
    injection E as <- <- <-. by destruct (Acquire_run _ _ _ _ _ _ _ Ha) as (_ & _ & ?).
  - apply elem_of_app in Hx as [Hx| ->%list_elem_of_singleton]; [by apply IH|done].
  - apply elem_of_app in Hx as [Hx| ->%list_elem_of_singleton]; [by apply IH|]. destruct y as [n q [c b]]. by destruct c.
Qed.

Lemma acquired_once r0 h r x y i j k k' l l' :
  lock_runs r0 h r -> x ∈ h -> y ∈ h -> acquired x = Some (i, k, l) -> acquired y = Some (j, k', l') ->
  lk_token l = lk_token l' -> i = j.
Proof.
  induction 1 as [|h r n pt k1 ttl u a r' u' Hr IH Ha Hk Hf|h r n pt l1 u a r' u' Hr IH Ha Hk|h r z r' Hr IH Hz Hk]; intros Hx Hy Ex Ey Et.
  - by apply not_elem_of_nil in Hx.
  - apply elem_of_app in Hx as [Hx| ->%list_elem_of_singleton]; apply elem_of_app in Hy as [Hy| ->%list_elem_of_singleton].
    + by apply IH.
    + cbn in Ey. destruct a as [b|e]; [|done]. injection Ey as <- <- <-. by destruct (Hf b x i k l eq_refl Hx Ex).
    + cbn in Ex. destruct a as [b|e]; [|done]. injection Ex as <- <- <-. by destruct (Hf b y j k' l' eq_refl Hy Ey).
    + cbn in Ex, Ey. destruct a as [b|e]; [|done]. congruence.
  - apply elem_of_app in Hx as [Hx| ->%list_elem_of_singleton]; [|done].
    apply elem_of_app in Hy as [Hy| ->%list_elem_of_singleton]; [by apply IH|done].
  - assert (Hno : acquired z = None) by (destruct z as [n q [c b]]; by destruct c).
    apply elem_of_app in Hx as [Hx| ->%list_elem_of_singleton]; [|congruence].
    apply elem_of_app in Hy as [Hy| ->%list_elem_of_singleton]; [by apply IH|congruence].
Qed.

(** The release of the lock with a token. *)
Definition releases (tok : string) (x : called) : bool :=
  match ca_obs x with Ob (LRelease l) _ => bool_decide (lk_token l = tok) | _ => false end.

(** As long as nobody releases a lock, its key holds its token, so that nobody
    else gets it. *)
Lemma held_until_released r0 h1 i pt k ttl l h2 r :
  lock_runs r0 (h1 ++ Called i pt (Ob (LAcquire k ttl) (Ok l)) :: h2) r ->
  (forall x, x ∈ h2 -> releases (lk_token l) x = false) ->
  live r ("lock:" +:+ k) = Some (lk_token l) /\ forall x j l', x ∈ h2 -> acquired x <> Some (j, k, l').
Proof.
  set (x0 := Called i pt _). remember (h1 ++ x0 :: h2) as h eqn:Eh. intros Hr. revert h2 Eh.
  induction Hr as [|h r n q k1 ttl1 u a r' u' Hr IH Ha Hk Hf|h r n q l1 u a r' u' Hr IH Ha Hk|h r z r' Hr IH Hz Hk];
    intros h2 Eh Hno; [by destruct h1|..].
  all: destruct h2 as [|y h2 _] using rev_ind;
    [|rewrite app_comm_cons, app_assoc in Eh; apply app_inj_tail in Eh as [Eh <-];
      destruct (IH h2 Eh ltac:(intros x Hx; apply Hno, elem_of_app; by left)) as [Hlive Hnone]; clear IH].
  - apply app_inj_tail in Eh as [_ E]. split; [|intros x j l' Hx; by apply not_elem_of_nil in Hx].
    unfold x0 in E. pose proof (Acquire_run _ _ _ _ _ _ _ Ha) as Hrun.
    assert (Eacq : acquired (Called n q (Ob (LAcquire k1 ttl1) a)) = Some (i, k, l)) by (by rewrite E).
    cbn in Eacq. destruct a as [b|e]; [|done]. injection Eacq as -> -> ->. by destruct Hrun as (_ & ? & _).
  - pose proof (Acquire_run _ _ _ _ _ _ _ Ha) as Hrun. split.
    + destruct (decide (k1 = k)) as [->|Hne].
      * destruct a as [b|e]; [destruct Hrun as [Hn _]; congruence|by apply Hrun].
      * apply Hk; [|done]. intros E. apply Hne. by apply (inj (String.append "lock:")) in E.
    + intros x j l' [Hx| ->%list_elem_of_singleton]%elem_of_app; [by apply Hnone|].
      cbn. destruct a as [b|e]; [|done]. intros [= _ -> _]. destruct Hrun as [Hn _]. congruence.
  - apply app_inj_tail in Eh as [_ E]. discriminate E.
  - split.
    + destruct (decide (lk_key l1 = "lock:" +:+ k)) as [Ek|Hne]; [|by apply Hk].
      rewrite <- Ek in *. eapply Release_run; [exact Ha|done|]. intros Et.
      specialize (Hno (Called n q (Ob (LRelease l1) a)) ltac:(apply elem_of_app; right; by left)). cbn in Hno.
      by apply bool_decide_eq_false in Hno.
    + intros x j l' [Hx| ->%list_elem_of_singleton]%elem_of_app; [by apply Hnone|done].
  - apply app_inj_tail in Eh as [_ ->]. discriminate Hz.
  - split; [by apply Hk|]. intros x j l' [Hx| ->%list_elem_of_singleton]%elem_of_app; [by apply Hnone|].
    destruct z as [n q [c b]]. by destruct c.
Qed.

Lemma lock_runs_prefix r0 h h' r : lock_runs r0 (h ++ h') r -> exists r1, lock_runs r0 h r1.
Proof.
  revert r. induction h' as [|x h' IH] using rev_ind; intros r; [rewrite app_nil_r; by exists r|]. rewrite app_assoc.
  remember ((h ++ h') ++ [x]) as hx eqn:E. destruct 1; [by destruct (h ++ h')|..];
    apply app_inj_tail in E as [-> _]; by eapply IH.
Qed.
End Locks.

(** ** The calls of one visit *)

(** Answers are never taken back. *)
Lemma replay_persists K K' before before' c a :
  K `prefix_of` K' -> length before = length before' -> a <> failed c -> replay K before c = a -> replay K' before' c = a.
Proof.
  intros [K2 ->] El Hne. unfold replay. rewrite <- El. destruct (K !! length before) as [e|] eqn:E.
  - by rewrite (lookup_app_l_Some _ _ _ _ E).
  - intros <-. done.
Qed.

Definition at_stripe (e : obs) : bool := match ob_op e with SSession _ _ => true | _ => false end.
Definition at_release (e : obs) : bool := match ob_op e with LRelease _ => true | _ => false end.
Definition quiet (e : obs) : Prop := at_stripe e = false /\ at_release e = false.

Section Visit.
Context `{Unicode}.
Variable r : checkoutResolver.
Variables m o : string.

(** What a visit did after it got the lock: it read a session, or it went to
    Stripe, after the token bucket if there is one. *)
Inductive holding (session : string) : list obs -> Prop :=
  | h_reread tail : session <> "" -> Forall (fun e => at_stripe e = false) tail -> holding session tail
  | h_create ask tail : session = "" -> length ask = (if cr_hasBucket r then 1 else 0)%nat -> Forall quiet ask ->
      Forall (fun e => at_stripe e = false) (drop 1 tail) -> holding session (ask ++ tail).

Definition session_read (again : result Transaction) : string :=
  match again with Ok t => t_StripeSessionID t | Err _ => "" end.

(** The calls of a visit other than those to the repository, in order. *)
Inductive visit_log (repo world : list obs -> forall c, answer c) : list obs -> Prop :=
  | v_quiet log : Forall quiet log -> visit_log repo world log
  | v_locked pre mer t l tail :
      length pre = (if cr_hasCache r then 1 else 0)%nat -> Forall quiet pre ->
      world pre (MByID m) = Ok mer -> repo [] (TGetOrder (m_ShardIndex mer) m o) = Ok t ->
      holding (session_read (repo [Ob (TGetOrder (m_ShardIndex mer) m o) (Ok t)] (TGetOrder (m_ShardIndex mer) m o))) tail ->
      visit_log repo world
        (pre ++ [Ob (MByID m) (Ok mer); Ob (LAcquire (lockOf m o) (10 * second)) (Ok l)] ++ tail).

Ltac made := rewrite <- ?app_assoc; cbn [app]; eexists _, _; split; [reflexivity|]; split; [by repeat constructor|].

Lemma underLock_log sh key t q1 q2 : exists reads tail,
  (underLock r sh m o key t (q1, q2)).2 =
    ({| q_seen := q_seen q1 ++ reads; q_oracle := q_oracle q1 |}, {| q_seen := q_seen q2 ++ tail; q_oracle := q_oracle q2 |}) /\
  Forall quiet reads /\
  forall e, at_stripe e = false -> holding (session_read (q_oracle q1 (q_seen q1) (TGetOrder sh m o))) (tail ++ [e]).
Proof.
  unfold underLock, cacheURL, allowed, createSession, bind, on_fst, on_snd, ret. cbn [fst snd].
  cbn [repo_GetByMerchantOrderID queue_transactions]. unfold ask at 1. cbn [fst snd q_oracle q_seen].
  set (again := q_oracle q1 (q_seen q1) (TGetOrder sh m o)).
  change (match again with Ok c => t_StripeSessionID c | Err _ => "" end) with (session_read again).
  case_bool_decide as Hs; cbn [negb].
  - destruct (cr_hasBucket r) eqn:Eb; cbn.
    + destruct (match q_oracle q2 (q_seen q2) BAllow with Ok _ => true | Err e => negb (errIs e ErrRateLimited) end); cbn.
      * destruct (q_oracle q2 (q_seen q2 ++ _) (SSession _ _)) as [sess|e] eqn:Ec; [destruct (cr_hasCache r)|]; cbn;
          rewrite ?Ec; made; intros e' He; apply (h_create _ [_] (_ :: _)); rewrite ?Eb; by repeat constructor.
      * made. intros e He. apply (h_create _ [_] [_]); rewrite ?Eb; by repeat constructor.
    + destruct (q_oracle q2 (q_seen q2) (SSession _ _)) as [sess|e] eqn:Ec; [destruct (cr_hasCache r)|]; cbn;
        rewrite ?Ec; made; intros e' He; apply (h_create _ [] (_ :: _)); rewrite ?Eb; by repeat constructor.
  - destruct (cr_hasCache r); cbn.
    + made. intros e He. apply h_reread; [done|]. by repeat constructor.
    + eexists [_], []. rewrite (app_nil_r (q_seen q2)). destruct q2. split; [reflexivity|]. split; [by repeat constructor|].
      intros e He. apply h_reread; [done|]. by repeat constructor.
Qed.

(** A visit that is done once it has a URL, or knows that there is none. *)
Lemma cacheURL_log (q1 q2 : queue) key url : exists log, (cacheURL r key url (q1, q2)).2 =
  (q1, {| q_seen := q_seen q2 ++ log; q_oracle := q_oracle q2 |}) /\ Forall quiet log.
Proof.
  unfold cacheURL. destruct (cr_hasCache r).
  - eexists. split; [reflexivity|]. by repeat constructor.
  - exists []. rewrite app_nil_r. by destruct q2.
Qed.

Definition visited (repo world : list obs -> forall c, answer c) (x : result string * (queue * queue)) : Prop :=
  Forall quiet (q_seen x.2.1) /\ visit_log repo world (q_seen x.2.2).

Lemma Resolve_log (q1 q2 : queue) : q_seen q1 = [] -> q_seen q2 = [] ->
  visited (q_oracle q1) (q_oracle q2) (Resolve r m o (q1, q2)).
Proof.
  intros E1 E2. unfold Resolve.
  assert (Hpre : exists pre hit, (if cr_hasCache r then on_snd (url_Get (cacheKeyOf m o)) else ret None) (q1, q2) =
      (hit, (q1, {| q_seen := pre; q_oracle := q_oracle q2 |})) /\
      length pre = (if cr_hasCache r then 1 else 0)%nat /\ Forall quiet pre).
  { destruct (cr_hasCache r).
    - eexists _, _. split; [unfold on_snd; cbn; rewrite E2; reflexivity|]. split; [done|by repeat constructor].
    - exists [], None. unfold ret. destruct q2. cbn in E2. by subst. }
  destruct Hpre as (pre & hit & Eh & Hlen & Hq). unfold bind at 1. rewrite Eh. destruct hit as [url|].
  { unfold visited. cbn. rewrite E1. split; [apply Forall_nil_2|by apply v_quiet]. }
  unfold bind at 1, on_snd at 1. cbn [fst snd]. cbn [GetByMerchantID queue_merchants]. unfold ask at 1. cbn [q_oracle q_seen].
  destruct (q_oracle q2 pre (MByID m)) as [mer|e] eqn:Em.
  2: { unfold visited. destruct (errIs e ErrMerchantNotFound); cbn; rewrite E1; (split; [apply Forall_nil_2|]); apply v_quiet, Forall_app; by repeat constructor. }
  unfold resolveRow. unfold bind at 1, on_fst at 1. cbn [fst snd]. cbn [repo_GetByMerchantOrderID queue_transactions].
  unfold ask at 1. cbn [q_oracle q_seen]. rewrite E1. cbn [app].
  destruct (q_oracle q1 [] _) as [t|e] eqn:Et.
  2: { unfold visited. destruct (errIs e ErrNotFound); cbn; (split; [by repeat constructor|]); apply v_quiet, Forall_app; by repeat constructor. }
  set (q1' := {| q_seen := _; q_oracle := q_oracle q1 |}). set (q2' := {| q_seen := pre ++ _; q_oracle := _ |}).
  assert (Hq1 : Forall quiet (q_seen q1')) by (by repeat constructor).
  assert (Hq2 : Forall quiet (q_seen q2')) by (apply Forall_app; by repeat constructor).
  case_bool_decide as Hs; cbn [negb].
  2: { destruct (cacheURL_log q1' q2' (cacheKeyOf m o) (stripeCheckoutURL (t_StripeSessionID t))) as (log & Ec & Hl).
       unfold bind. destruct (cacheURL _ _ _ _) as [u w]. cbn in Ec. subst w. cbn. split; [done|]. by apply v_quiet, Forall_app. }
  unfold bind at 1, on_snd at 1. cbn [fst snd]. cbn [Acquire queue_locker]. unfold ask at 1. cbn [q_oracle q_seen].
  destruct (q_oracle q2' (q_seen q2') _) as [l|e] eqn:El.
  - set (q3 := {| q_seen := q_seen q2' ++ _; q_oracle := _ |}). unfold bind at 1.
    destruct (underLock_log (m_ShardIndex mer) (cacheKeyOf m o) t q1' q3) as (reads & tail & Eu & Hr & Hh).
    destruct (underLock _ _ _ _ _ _ _) as [res w]. cbn in Eu. subst w. split; [by apply (Forall_app_2 _ [_])|].
    cbn. rewrite <- !app_assoc. cbn [app]. by eapply (v_locked _ _ pre mer t l (tail ++ [_])), Hh.
  - assert (Hq3 : Forall quiet (q_seen q2' ++ [Ob (LAcquire ("checkout:" +:+ cacheKeyOf m o) (10 * second)) (Err e)]))
      by (apply Forall_app; by repeat constructor).
    unfold resolveAfterLock. unfold bind at 1, on_fst at 1. cbn [fst snd]. cbn [repo_GetByMerchantOrderID queue_transactions].
    unfold ask at 1. cbn [q_oracle q_seen]. set (q4 := {| q_seen := q_seen q1' ++ _; q_oracle := _ |}).
    assert (Hq4 : Forall quiet (q_seen q4)) by (apply Forall_app; by repeat constructor).
    destruct (q_oracle q1' (q_seen q1') _) as [t'|e']; [|split; [exact Hq4|by apply v_quiet]].
    case_bool_decide; [split; [exact Hq4|by apply v_quiet]|].
    set (q3 := {| q_seen := q_seen q2' ++ _; q_oracle := _ |}).
    destruct (cacheURL_log q4 q3 (cacheKeyOf m o) (stripeCheckoutURL (t_StripeSessionID t'))) as (log & Ec & Hl).
    unfold bind. destruct (cacheURL _ _ _ _) as [u w]. cbn in Ec. subst w. cbn. split; [exact Hq4|]. by apply v_quiet, Forall_app.
Qed.
(** Where a locked visit releases and where it goes to Stripe. *)
Lemma quiet_lookup (l : list obs) n e : Forall quiet l -> l !! n = Some e -> quiet e.
Proof. intros Hl He. by eapply Forall_lookup_1. Qed.

Lemma locked_tail (pre tail : list obs) a b n e :
  Forall quiet pre -> quiet a -> quiet b -> (pre ++ [a; b] ++ tail) !! n = Some e -> ~ quiet e ->
  exists j, n = (length pre + 2 + j)%nat /\ tail !! j = Some e.
Proof.
  intros Hp Ha Hb He Hn. rewrite lookup_app_Some in He. destruct He as [He|[Hle He]].
  { by destruct Hn; eapply quiet_lookup. }
  destruct (n - length pre)%nat as [|[|j]] eqn:Ej; cbn in He.
  - injection He as ->. done.
  - injection He as ->. done.
  - exists j. split; [lia|done].
Qed.

Lemma at_stripe_loud e : at_stripe e = true -> ~ quiet e.
Proof. intros E [Hn _]. congruence. Qed.

Lemma at_release_loud e : at_release e = true -> ~ quiet e.
Proof. intros E [_ Hn]. congruence. Qed.

Lemma holding_stripe session tail j e :
  holding session tail -> tail !! j = Some e -> at_stripe e = true ->
  session = "" /\ j = (if cr_hasBucket r then 1 else 0)%nat.
Proof.
  intros [tail' _ Hall|ask rest Hs Hlen Hq Hrest] He Hst.
  - pose proof (Forall_lookup_1 _ _ _ _ Hall He) as E. cbn in E. congruence.
  - split; [done|]. rewrite <- Hlen. apply lookup_app_Some in He as [He|[Hle He]].
    + by destruct (at_stripe_loud e Hst); eapply quiet_lookup.
    + destruct (j - length ask)%nat as [|i] eqn:Ej; [lia|]. exfalso. destruct rest as [|e0 rest]; [done|]. cbn in He, Hrest.
      pose proof (Forall_lookup_1 _ _ _ _ Hrest He) as E. cbn in E. congruence.
Qed.

Lemma holding_release session tail j e :
  holding session tail -> tail !! j = Some e -> at_release e = true ->
  session <> "" \/ ((if cr_hasBucket r then 1 else 0) <= j)%nat.
Proof.
  intros [tail' Hs _|ask rest _ Hlen Hq _] He Hr; [by left|]. right. rewrite <- Hlen.
  apply lookup_app_Some in He as [He|[Hle _]]; [|done]. by destruct (at_release_loud e Hr); eapply quiet_lookup.
Qed.

Lemma release_not_before_stripe R1 R2 W1 W2 log log' k n e e' :
  R1 `prefix_of` R2 -> W1 `prefix_of` W2 ->
  visit_log (replay R1) (replay W1) log -> visit_log (replay R2) (replay W2) log' ->
  log !! k = Some e -> at_release e = true -> log' !! n = Some e' -> at_stripe e' = true -> (n <= k)%nat.
Proof.
  intros HR HW Hl Hl' He Er He' Es.
  destruct Hl as [log Hq|pre mer t l tail Hlen Hpre Em Et Hh]; [by destruct (at_release_loud e Er); eapply quiet_lookup|].
  destruct Hl' as [log' Hq|pre' mer' t' l' tail' Hlen' Hpre' Em' Et' Hh']; [by destruct (at_stripe_loud e' Es); eapply quiet_lookup|].
  apply locked_tail in He as (j & -> & He); [|done|done|done|by apply at_release_loud].
  apply locked_tail in He' as (j' & -> & He'); [|done|done|done|by apply at_stripe_loud].
  destruct (holding_stripe _ _ _ _ Hh' He' Es) as [Hnone ->]. rewrite Hlen, Hlen'.
  destruct (holding_release _ _ _ _ Hh He Er) as [Hsome|Hle]; [exfalso|lia].
  apply (replay_persists W1 W2 pre pre') in Em; [|done|congruence|done]. rewrite Em in Em'. injection Em' as <-.
  apply (replay_persists R1 R2 [] []) in Et; [|done|done|done]. rewrite Et in Et'. injection Et' as <-.
  destruct (replay R1 [_] _) as [t2|e2] eqn:E2; [|by cbn in Hsome].
  apply (replay_persists R1 R2 _ [Ob (TGetOrder (m_ShardIndex mer) m o) (Ok t)]) in E2; [|done|done|done].
  rewrite E2 in Hnone. done.
Qed.
End Visit.

(** ** Visitors *)

Section Visitors.
Context `{Unicode} `{ObjectJSON} `{EthFormat}.
Context {D : Type} `{HS : TransactionStore D}.
Context {R U : Type} `{HL : RedisScriptLaws R} `{HU : UUID U}.
Variable g : deployment.
Variable prog : nat -> program.
Hypothesis progs_ok : forall i, program_ok (prog i).
Variable d0 : D.
Variable r0 : R.

Lemma acquired_elem x i k l : acquired x = Some (i, k, l) -> exists pt ttl, x = Called i pt (Ob (LAcquire k ttl) (Ok l)).
Proof. destruct x as [n q [c a]]. destruct c; try done. destruct a as [b|e]; [|done]. intros [= <- <- <-]. eauto. Qed.

(** Who releases a lock has acquired it. *)
Lemma released_by_holder h d r x i k l y :
  reachable g prog d0 h d -> lock_runs (U := U) r0 h r -> x ∈ h -> acquired x = Some (i, k, l) ->
  y ∈ h -> releases (lk_token l) y = true -> exists q l' a, y = Called i q (Ob (LRelease l') a) /\ lk_token l' = lk_token l.
Proof.
  intros Hr Hl Hx Ex Hy Ey. destruct y as [j q [c a]]. destruct c as []; try discriminate Ey.
  cbn in Ey. apply bool_decide_eq_true in Ey. apply list_elem_of_split in Hy as (h1 & h2 & E).
  pose proof (history_caused g prog progs_ok d0 _ _ _ _ _ Hr E) as (k' & ttl & Hk). cbn in Hk.
  apply seen_by_elem in Hk as (q' & Hk).
  assert (Hin : Called j q' (Ob (LAcquire k' ttl) (Ok l0)) ∈ h) by (rewrite E; apply elem_of_app; by left).
  assert (i = j) as <-; [|by eexists _, _, _].
  eapply (acquired_once r0 h r x _ i j k k' l l0 Hl Hx Hin Ex); [done|]. by rewrite Ey.
Qed.

(** Between two acquisitions of a lock its first holder has released it. *)
Lemma released_between h d r ha x i k l hb y j l' hc :
  reachable g prog d0 h d -> lock_runs (U := U) r0 h r -> h = ha ++ x :: hb ++ y :: hc ->
  acquired x = Some (i, k, l) -> acquired y = Some (j, k, l') ->
  exists q l2 a, Called i q (Ob (LRelease l2) a) ∈ hb /\ lk_token l2 = lk_token l.
Proof.
  intros Hr Hl E Ex Ey. destruct (List.existsb (releases (lk_token l)) hb) eqn:Eb.
  - apply List.existsb_exists in Eb as (z & Hz%list_elem_of_In & Hrel).
    assert (Hx : x ∈ h) by (rewrite E; apply elem_of_app; right; by left).
    assert (Hzh : z ∈ h) by (rewrite E; apply elem_of_app; right; right; apply elem_of_app; by left).
    destruct (released_by_holder h d r x i k l z Hr Hl Hx Ex Hzh Hrel) as (q & l2 & a & -> & Ht). by exists q, l2, a.
  - exfalso. rewrite E in Hl. replace (ha ++ x :: hb ++ y :: hc) with ((ha ++ x :: hb ++ [y]) ++ hc) in Hl.
    2: { rewrite <- !app_assoc. cbn. by rewrite <- app_assoc. }
    destruct (lock_runs_prefix _ _ _ _ Hl) as [r1 Hl1].
    apply acquired_elem in Ex as (pt & ttl & ->).
    destruct (held_until_released (U := U) _ _ _ _ _ _ _ _ _ Hl1) as [_ Hnone].
    + intros z [Hz| ->%list_elem_of_singleton]%elem_of_app.
      * apply not_true_iff_false. intros Hz'. apply not_true_iff_false in Eb. apply Eb, List.existsb_exists.
        exists z. by rewrite <- list_elem_of_In.
      * by apply acquired_elem in Ey as (q & ttl' & ->).
    + apply (Hnone y j l'); [|exact Ey]. apply elem_of_app. right. by left.
Qed.

Lemma answers_to_app i pt h h' : answers_to i pt (h ++ h') = answers_to i pt h ++ answers_to i pt h'.
Proof. apply omap_app. Qed.

(** A visitor does not release the lock before it has gone to Stripe. *)
Lemma stripe_before_release h d h1 i pt req key a h2 m o q l b :
  reachable g prog d0 h d -> prog i = PResolve m o -> h = h1 ++ Called i pt (Ob (SSession req key) a) :: h2 ->
  Called i q (Ob (LRelease l) b) ∉ h1.
Proof.
  intros Hr Hp E Hin. apply list_elem_of_split in Hin as (h3 & h4 & Eh).
  destruct (reachable_before _ _ _ _ _ Hr _ _ _ E) as (d1 & _ & Hn).
  assert (E3 : h = h3 ++ Called i q (Ob (LRelease l) b) :: (h4 ++ Called i pt (Ob (SSession req key) a) :: h2))
    by (rewrite E, Eh, <- app_assoc; done).
  destruct (reachable_before _ _ _ _ _ Hr _ _ _ E3) as (d3 & _ & Hn3). cbn in Hn, Hn3. unfold next in Hn, Hn3.
  rewrite Hp in Hn, Hn3. cbn [run_program] in Hn, Hn3.
  destruct (Resolve_log (dep_resolver g) m o (queues_of i h1 Repo) (queues_of i h1 World) eq_refl eq_refl) as [Hq Hv].
  destruct (Resolve_log (dep_resolver g) m o (queues_of i h3 Repo) (queues_of i h3 World) eq_refl eq_refl) as [Hq3 Hv3].
  apply fmap_Some in Hn as (e & He & Ee). apply fmap_Some in Hn3 as (e3 & He3 & Ee3).
  assert (Hs : at_stripe e = true) by (unfold at_stripe; by rewrite <- Ee).
  assert (Hl : at_release e3 = true) by (unfold at_release; by rewrite <- Ee3).
  destruct pt; try discriminate He; [destruct (at_stripe_loud e Hs); exact (quiet_lookup _ _ _ Hq He)|]. 
  destruct q; try discriminate He3; [destruct (at_release_loud e3 Hl); exact (quiet_lookup _ _ _ Hq3 He3)|]. cbn [on_two] in He, He3.
  assert (Hpre : forall part, answers_to i part h3 `prefix_of` answers_to i part h1)
    by (intros part; rewrite Eh, answers_to_app; by apply prefix_app_r).
  pose proof (release_not_before_stripe _ _ _ _ _ _ _ _ _ _ _ _ _ (Hpre Repo) (Hpre World) Hv3 Hv He3 Hl He Hs) as Hle.
  rewrite Eh, answers_to_app, length_app in Hle. unfold answers_to in Hle at 2. cbn in Hle.
  rewrite !bool_decide_true in Hle by done. cbn in Hle. lia.
Qed.

(** C9. On a server that creates Stripe sessions on first visit, visitors of an
    order go to Stripe one at a time: whenever a request asks Stripe for a
    session, it is a visitor that has found the order without a session and
    has acquired the lock of the order, nobody has released this lock since, so
    that its key in Redis holds the token of this request; and before any
    request acquires the lock after that, this request has released it.  All
    this so long as no lock expires during the history. *)
Theorem visitors_take_turns h d r h1 i pt req key a h2 :
  ps_lazyCheckout (dep_payments g) = true -> reachable g prog d0 h d -> lock_runs (U := U) r0 h r ->
  h = h1 ++ Called i pt (Ob (SSession req key) a) :: h2 ->
  exists sh m o t q l ha hb r1,
    Ob (TGetOrder sh m o) (Ok t) ∈ seen_by i h1 /\ t_StripeSessionID t = "" /\ key = sessionKey t /\
    h1 = ha ++ Called i q (Ob (LAcquire (lockOf m o) (10 * second)) (Ok l)) :: hb /\
    Forall (fun x => releases (lk_token l) x = false) hb /\
    lock_runs (U := U) r0 h1 r1 /\ live r1 ("lock:" +:+ lockOf m o) = Some (lk_token l) /\
    forall hc y j l' hd, h2 = hc ++ y :: hd -> acquired y = Some (j, lockOf m o, l') ->
      exists q2 l2 b, Called i q2 (Ob (LRelease l2) b) ∈ hc /\ lk_token l2 = lk_token l.
Proof.
  intros Hlz Hr Hl E. pose proof (history_caused g prog progs_ok d0 _ _ _ _ _ Hr E) as (sh & m & o & Hfor). cbn in Hfor.
  destruct Hfor as [t t' Hno|t l Ht Hnone Hlk _ ->]; [congruence|]. apply seen_by_elem in Hlk as (q & Hlk).
  apply list_elem_of_split in Hlk as (ha & hb & E1).
  assert (Eall : h = ha ++ Called i q (Ob (LAcquire (lockOf m o) (10 * second)) (Ok l)) ::
      (hb ++ Called i pt (Ob (SSession req (sessionKey t)) a) :: h2)) by (rewrite E, E1, <- app_assoc; done).
  pose proof (history_caused g prog progs_ok d0 _ _ _ _ _ Hr Eall) as (mv & ov & Hv & _). cbn in Hv.
  assert (Hp : prog i = PResolve mv ov) by (destruct (prog i); by simplify_eq/=).
  assert (Hx : Called i q (Ob (LAcquire (lockOf m o) (10 * second)) (Ok l)) ∈ h) by (rewrite Eall; apply elem_of_app; right; by left).
  assert (Hkept : Forall (fun x => releases (lk_token l) x = false) hb).
  { apply Forall_forall. intros x Hxb. apply not_true_iff_false. intros Hrel.
    destruct (released_by_holder h d r _ i (lockOf m o) l x Hr Hl Hx eq_refl) as (q' & l' & b & -> & _); [|done|].
    - rewrite Eall. apply elem_of_app. right. right. apply elem_of_app. by left.
    - apply (stripe_before_release h d h1 i pt req _ a h2 mv ov q' l' b Hr Hp E). rewrite E1. apply elem_of_app. right. by right. }
  pose proof Hl as Hl'. rewrite E in Hl'. apply lock_runs_prefix in Hl' as [r1 Hl1]. pose proof Hl1 as Hl2. rewrite E1 in Hl2.
  destruct (held_until_released (U := U) _ _ _ _ _ _ _ _ _ Hl2) as [Hlive _]; [by apply Forall_forall|].
  exists sh, m, o, t, q, l, ha, hb, r1. split_and!; try done. intros hc y j l' hd Eh2 Ey.
  assert (Eh : h = ha ++ Called i q (Ob (LAcquire (lockOf m o) (10 * second)) (Ok l)) ::
      (hb ++ Called i pt (Ob (SSession req (sessionKey t)) a) :: hc) ++ y :: hd) by (rewrite Eall, Eh2, <- app_assoc; done).
  destruct (released_between h d r ha _ i (lockOf m o) l _ y j l' hd Hr Hl Eh eq_refl Ey) as (q2 & l2 & b & Hin & Et).
  exists q2, l2, b. split; [|done]. apply elem_of_app in Hin as [Hin|[?|Hin]%elem_of_cons]; [|done|done].
  rewrite Forall_forall in Hkept. specialize (Hkept _ Hin). cbn in Hkept. by apply bool_decide_eq_false in Hkept.
Qed.
End Visitors.
