(* ===== verification/Server.v ===== *)
(** * The server process (cmd/server/main.go)

    How the components are put together: the options each gets from the
    configuration, the callback lookup handed to the settlement consumer, and
    the order in which resources are acquired and released.  The theorems here
    are about the composition: a hosted checkout link the payment service hands
    out is accepted by the checkout handler of the same server. *)

From Stdlib Require Import QArith.
From S2P Require Import Prelude GoStrings Sha256 Domain Config TransactionStore StripeTypes Signatures Ports.
From S2P Require Import PaymentService PaymentTheorems CheckoutResolver ChainListener KafkaConsumer Merchants Api TokenBucket.
Local Open Scope Z_scope.

(** ** Wiring *)

Definition server_paymentOptions (cfg : Config) : PaymentServiceOptions := {|
  opt_DefaultCurrency := st_DefaultCurrency (Stripe cfg);
  opt_CryptoContract := bc_ContractAddress (Blockchain cfg);
  opt_CryptoChainID := bc_ChainID (Blockchain cfg);
  opt_LazyCheckout := app_LazyCheckout (App cfg);
  opt_PublicBaseURL := app_PublicBaseURL (App cfg);
  opt_CheckoutSecret := app_CheckoutTokenSecret (App cfg);
  opt_CheckoutTokenTTL := app_CheckoutTokenTTL (App cfg);
  opt_DefaultSuccessURL := app_CheckoutDefaultSuccessURL (App cfg);
  opt_DefaultCancelURL := app_CheckoutDefaultCancelURL (App cfg) |}.

Definition paySvc (cfg : Config) : paymentService := NewPaymentService (server_paymentOptions cfg).

Definition server_checkoutResolver (cfg : Config) : checkoutResolver := NewCheckoutResolver {|
  cro_URLCache := true; cro_Bucket := true;
  cro_DefaultSuccessURL := app_CheckoutDefaultSuccessURL (App cfg);
  cro_DefaultCancelURL := app_CheckoutDefaultCancelURL (App cfg) |}.

(** The bucket in front of the creation of Stripe sessions: one second's worth
    of calls, refilled at the same rate. *)
Definition server_stripeBucket (fl : Q -> Q) {X : Type} `{Clock X} `{RedisServer X} (cfg : Config)
    : ST (option bucket * X) (result unit) :=
  bucket_Allow fl (NewTokenBucket "stripe:create_session" (app_StripeRateLimit (App cfg))
    (fl (inject_Z (app_StripeRateLimit (App cfg))))).

(** The topic is never set: the listener takes every log of the contract. *)
Definition server_chainConfig (HexToAddress : string -> string) (cfg : Config) : ChainConfig := {|
  cc_ChainID := bc_ChainID (Blockchain cfg);
  cc_ContractAddress := HexToAddress (bc_ContractAddress (Blockchain cfg));
  cc_RequiredConfirmations := bc_RequiredConfirmations (Blockchain cfg);
  cc_StartBlock := bc_StartBlock (Blockchain cfg);
  cc_EventTopic := zeroHash |}.

Definition listenerEnabled (cfg : Config) : bool :=
  negb (bool_decide (bc_ContractAddress (Blockchain cfg) = "")) &&
  negb (bool_decide (bc_RPCWebsocket (Blockchain cfg) = "")).

(** ** The callback lookup of the settlement consumer *)

Class HttpClient (Y : Type) : Type := http_post : string -> string -> string -> string -> ST Y (result Z).

Section Settlement.
Context {M Y : Type} `{MerchantRepository M} `{HttpClient Y} `{Clock Y} `{GoContext Y}.
Variables (unmarshal : string -> result PaymentConfirmedEvent) (marshal : PaymentConfirmedEvent -> result string).

Definition merchantLookup (merchantID : string) : ST M MerchantCallback :=
  (let! m := GetByMerchantID merchantID in
   ret (match m with
        | Err _ => {| cb_URL := ""; cb_Secret := "" |}
        | Ok m => {| cb_URL := m_CallbackURL m; cb_Secret := m_SecretKey m |}
        end))%easypay.

#[local] Instance server_settlement : Settlement (M * Y) := {|
  lookup_callback id := on_fst (merchantLookup id);
  http_Post url ts sig body := on_snd (http_post url ts sig body);
  unmarshalConfirmed := unmarshal;
  marshalConfirmed := marshal |}.
#[local] Instance server_clock : Clock (M * Y) := on_snd time_Now.
#[local] Instance server_context : GoContext (M * Y) := {|
  ctx_Err := on_snd ctx_Err; ctx_Wait d := on_snd (ctx_Wait d) |}.

Definition settle_message (maxAttempts : Z) (m : Message) : ST (M * Y) (result unit) :=
  settlement_HandleOne maxAttempts m.

(** A merchant that cannot be looked up loses its callback silently: when
    the lookup fails, for whatever reason, a passing database error included,
    the settlement of the event counts as handled and nothing is posted, as
    for a merchant without a callback. *)
Theorem lookup_failure_drops_callback maxAttempts msg ev (w w' : M) (y : Y) e :
  unmarshal (msg_Value msg) = Ok ev -> GetByMerchantID (pc_MerchantID ev) w = (Err e, w') ->
  settle_message maxAttempts msg (w, y) = (Ok tt, (w', y)) /\
  settlement_Handle maxAttempts [msg] (w, y) = (Ok tt, (w', y)).
Proof.
  intros Hu Hg. assert (E : settle_message maxAttempts msg (w, y) = (Ok tt, (w', y))).
  { unfold settle_message, settlement_HandleOne. cbn [unmarshalConfirmed server_settlement lookup_callback].
    rewrite Hu. unfold bind, on_fst, merchantLookup, bind, ret. cbn [fst snd]. rewrite Hg. done. }
  split; [exact E|]. cbn [settlement_Handle]. unfold bind. unfold settle_message in E. by rewrite E.
Qed.

(** An event that was published and is consumed again reaches the merchant's
    server as it was, signed with the merchant's own key, if the first POST is
    accepted. *)
Theorem published_event_posted maxAttempts topic part off ev payload m (w w' : M) (y : Y) now y1 code y2 :
  1 <= maxAttempts -> marshal ev = Ok payload -> unmarshal payload = Ok ev ->
  GetByMerchantID (pc_MerchantID ev) w = (Ok m, w') -> m_CallbackURL m <> "" -> m_SecretKey m <> "" ->
  time_Now y = (now, y1) ->
  http_post (m_CallbackURL m) (FormatInt (Unix now)) (Hmac.Sign (m_SecretKey m) (FormatInt (Unix now) +:+ "." +:+ payload))
    payload y1 = (Ok code, y2) -> 200 <= code < 300 ->
  settle_message maxAttempts {| msg_Topic := topic; msg_Partition := part; msg_Offset := off;
                                msg_Key := pc_OrderID ev; msg_Value := payload |} (w, y) = (Ok tt, (w', y2)).
Proof.
  intros Hmax Hm Hu Hg Hurl Hsec Hnow Hpost Hcode. unfold settle_message, settlement_HandleOne.
  cbn [unmarshalConfirmed marshalConfirmed server_settlement lookup_callback msg_Value]. rewrite Hu, Hm.
  unfold bind at 1, on_fst at 1, merchantLookup. unfold bind at 1. cbn [fst snd]. rewrite Hg. unfold ret at 1.
  cbn [cb_URL cb_Secret]. rewrite !bool_decide_false by done.
  destruct (Z.to_nat maxAttempts) as [|n] eqn:En; [lia|]. cbn [attempts]. unfold bind at 1, sendOnce.
  unfold bind at 1, time_Now at 1, server_clock, on_snd at 1. cbn [fst snd]. rewrite Hnow.
  unfold bind at 1. cbn [http_Post server_settlement]. unfold on_snd at 1. cbn [fst snd]. rewrite Hpost. unfold ret.
  destruct (Z.ltb_spec code 200); [lia|]. destruct (Z.leb_spec 300 code); [lia|]. done.
Qed.
End Settlement.

(** ** Hosted checkout links *)

Lemma digit_order_char c : between 48 57 c = true -> order_char c = true.
Proof. destruct c as [[] [] [] [] [] [] [] []]; intros H; vm_compute in H; try discriminate H; reflexivity. Qed.

Lemma FormatInt_order_chars z : all_chars order_char (FormatInt z) = true.
Proof.
  assert (Hd : forall n, 0 <= n -> all_chars order_char (GoStrings.digits 20 n "") = true).
  { intros n Hn. eapply all_chars_impl; [apply digit_order_char|]. by apply digits_all. }
  unfold FormatInt. destruct (Z.ltb_spec z 0); [|by apply Hd]. cbn [all_chars]. rewrite Hd by lia. done.
Qed.

Lemma hex_order_chars b : all_chars order_char (hexEncode b) = true.
Proof.
  induction b as [|c b IH]; [done|]. cbn [hexEncode all_chars]. rewrite IH.
  assert (E : order_char (hexdigit (Z.shiftr (code c) 4)) = true /\ order_char (hexdigit (Z.land (code c) 15)) = true)
    by (all_bytes c; done). by destruct E as [-> ->].
Qed.

Lemma token_order_chars secret m o expiry : all_chars order_char (CheckoutToken.signWithExpiry secret m o expiry) = true.
Proof.
  unfold CheckoutToken.signWithExpiry. rewrite !all_chars_app, FormatInt_order_chars, hex_order_chars. done.
Qed.

Section HostedLink.
Context `{Unicode}.
Context {D X : Type} `{HS : TransactionStore D} `{Client X} `{Clock X} `{MerchantRepository X} `{Locker X}
  `{URLCache X} `{TokenBucket X}.
Variable cfg : Config.

(** A path segment that comes through as it is: it needs no escaping, and it
    is not one of the dot segments, which clients resolve before they send the
    request (RFC 3986, 5.2.4). *)
Record plain_segment (s : string) : Prop := {
  ps_nonempty : s <> "";
  ps_chars : all_chars order_char s = true;
  ps_not_dots : s <> "." /\ s <> "..";
}.

(** The customer's browser and fiber's router: what the handler sees of a GET
    of a URL.  The public base URL leads to this server, whose route is
    "/pay/:merchant_id/:order_id". *)
Variable browse : string -> Request.
Definition serves_pay_route : Prop := forall m o t,
  plain_segment m -> plain_segment o -> all_chars order_char t = true ->
  let c := browse (app_PublicBaseURL (App cfg) +:+ "/pay/" +:+ m +:+ "/" +:+ o +:+ "?t=" +:+ t) in
  rq_Params c "merchant_id" = m /\ rq_Params c "order_id" = o /\ rq_Query c "t" = t.

(** In lazy mode the answer to a card payment without a session carries the
    hosted link of its order. *)
Lemma Create_lazy_url s input d x res d' x' :
  ps_lazyCheckout s = true -> EqualFold (in_Method input) "crypto" = false -> is_crypto (primaryMethod input) = false ->
Create s input (d, x) = (Ok res, (d', x')) -> res_StripeSessionID res = "" ->
  store_inv d -> int64_range (in_Amount input) ->
  exists m, in_Merchant input = Some m /\ ValidateOrderID (in_OrderID input) = Ok tt /\
    res_CheckoutURL res = (lazyCheckoutURL s (m_MerchantID m) (res_OrderID res) x).1.
Proof.
  intros Hl Hcr Hpm Hc Hsess Hd Ha. destruct (Create_Ok _ _ _ _ _ _ _ Hc) as (m & Hm & Hv & Hpos & t' & ins & d1 & Hins & Hk).
  exists m. split; [done|]. split; [done|]. destruct ins as [u|e].
  - unfold flow in Hk. rewrite Hcr, Hl in Hk. unfold bind, on_snd, ret in Hk. cbn [fst snd] in Hk.
    destruct (lazyCheckoutURL _ _ _ x) as [url x1] eqn:El. injection Hk as <- <- <-. cbn. by rewrite El.
  - destruct (insert_law d (newRow m input (currency_of s input)) t' (Err e) d1 Hd Ha Hins) as (Hd1 & _).
    destruct (duplicate_Ok _ _ _ _ _ _ _ _ Hd1 Hpos Hk) as (_ & _ & _ & t & _ & Hsm & Hr).
    apply sameMaterial_spec in Hsm as (_ & _ & Hmat). rewrite Hpm in Hmat.
    unfold reconstructResult in Hr. rewrite Hmat in Hr. destruct (negb _) eqn:En.
    + injection Hr as <- _. cbn in Hsess. rewrite bool_decide_true in En by done. discriminate.
    + unfold bind, ret in Hr. destruct (lazyCheckoutURL _ _ _ x) as [url x1] eqn:El. injection Hr as <- _.
      cbn. by rewrite El.
Qed.

(** C24. A hosted checkout link works until it expires: the link that the
    payment service of a server hands out, opened in a browser while its
    token is valid, passes the token check of the same server's checkout
    handler and is answered by [Resolve] for exactly this merchant and order.
    The merchant id is to consist of characters of order ids, and neither id is
    a dot segment, "." or "..", which are valid order ids. *)
Theorem hosted_link_accepted input d x res d' x' m expiry resolver (w : D * X) :
  serves_pay_route -> app_LazyCheckout (App cfg) = true -> app_CheckoutTokenSecret (App cfg) <> "" ->
  EqualFold (in_Method input) "crypto" = false -> is_crypto (primaryMethod input) = false ->
  store_inv d -> int64_range (in_Amount input) -> in_Merchant input = Some m ->
  plain_segment (m_MerchantID m) -> in_OrderID input <> "." -> in_OrderID input <> ".." ->
Create (paySvc cfg) input (d, x) = (Ok res, (d', x')) -> res_StripeSessionID res = "" ->
  res_OrderID res = in_OrderID input ->
  expiry = Unix ((time_Now x).1 + ps_checkoutTokenTTL (paySvc cfg)) -> int64_range expiry ->
  Unix (time_Now w.2).1 <= expiry ->
  CheckoutHandler_Redirect (app_CheckoutTokenSecret (App cfg)) resolver (browse (res_CheckoutURL res)) None w =
  (let! url := Resolve resolver (m_MerchantID m) (in_OrderID input) in ret (redirectAnswer url))%easypay
    (w.1, (time_Now w.2).2).
Proof.
  intros Hroute Hlazy Hsec Hcr Hpm Hd Ha Hm Hseg Hdot Hdots Hc Hsess Hord -> Hr Hexp.
  destruct (Create_lazy_url (paySvc cfg) input d x res d' x' Hlazy Hcr Hpm Hc Hsess Hd Ha) as (m' & Hm' & Hv & Hurl).
  rewrite Hm in Hm'. injection Hm' as <-. rewrite Hord in Hurl.
  set (tok := CheckoutToken.signWithExpiry (app_CheckoutTokenSecret (App cfg)) (m_MerchantID m) (in_OrderID input)
                (Unix ((time_Now x).1 + ps_checkoutTokenTTL (paySvc cfg)))).
  assert (Htok : tok <> "").
  { unfold tok, CheckoutToken.signWithExpiry. intros E%(f_equal len). rewrite !len_app in E.
    pose proof (len_nonneg (FormatInt (Unix ((time_Now x).1 + ps_checkoutTokenTTL (paySvc cfg))))).
    match type of E with context [len (hexEncode ?b)] => pose proof (len_nonneg (hexEncode b)) end.
    change (len ".") with 1 in E. change (len "") with 0 in E. lia. }
  assert (Hlink : res_CheckoutURL res = app_PublicBaseURL (App cfg) +:+ "/pay/" +:+ m_MerchantID m +:+ "/" +:+ in_OrderID input +:+ "?t=" +:+ tok).
  { rewrite Hurl. unfold lazyCheckoutURL. change (ps_checkoutSecret (paySvc cfg)) with (app_CheckoutTokenSecret (App cfg)).
    rewrite bool_decide_false by done. unfold bind, ret. destruct (time_Now x) as [t0 x1]. cbn [fst] in *.
    unfold CheckoutToken.Sign. fold tok. rewrite bool_decide_false by done. by rewrite !str_app_assoc. }
  apply ValidateOrderID_Ok in Hv as [Hl Hoc].
  assert (Ho : in_OrderID input <> "") by (intros E; rewrite E in Hl; change (len "") with 0 in Hl; lia).
  destruct (Hroute (m_MerchantID m) (in_OrderID input) tok) as (Hp1 & Hp2 & Hq);
    [done|by split|apply token_order_chars|].
  rewrite <- Hlink in Hp1, Hp2, Hq. unfold CheckoutHandler_Redirect. rewrite Hp1, Hp2, Hq.
  destruct Hseg as [Hne _ _]. rewrite !bool_decide_false by done. cbn [orb]. unfold bind at 1, on_snd at 1.
  destruct (time_Now w.2) as [now y]. cbn [fst snd] in *. unfold tok. by rewrite Verify_signed.
Qed.
End HostedLink.

(** ** The life of the process *)

Inductive resource : Type := RRouter | RRedis | RPublisher | RWorkers | RChainClient.
Inductive action : Type :=
  | Opened (r : resource)
  | Closed (r : resource)
  | StartedSettlement | StartedReconciler | StartedListener
  | Listening | ShutdownApp.

#[global] Instance resource_eq_dec : EqDecision resource.
Proof. solve_decision. Defined.
#[global] Instance action_eq_dec : EqDecision action.
Proof. solve_decision. Defined.

(** How the calls of [run] end: opening the shards, pinging Redis, dialing the
    chain, what ends the wait, and the shutdown of the HTTP server. *)
Inductive wait_end : Type := Signalled | ListenFailed (e : error).
Record outcomes : Type := {
  oc_load : result Config;
  oc_shards : result unit;
  oc_redis : result unit;
  oc_chain : result unit;
  oc_wait : wait_end;
  oc_shutdown : result unit;
}.

(** The deferred calls that are pending once everything is up, last first. *)
Definition deferred : list action := [Closed RWorkers; Closed RPublisher; Closed RRedis; Closed RRouter].

(** [run]: what the process does, in order, and what it returns. *)
Definition run (o : outcomes) : list action * result unit :=
  match oc_load o with
  | Err e => ([], Err (Wrap "load config" e))
  | Ok cfg =>
      match oc_shards o with
      | Err e => ([], Err (Wrap "mysql shards" e))
      | Ok _ =>
          match oc_redis o with
          | Err e => ([Opened RRouter; Closed RRouter], Err (Wrap "redis" e))
          | Ok _ =>
              let up := [Opened RRouter; Opened RRedis; Opened RPublisher; Opened RWorkers; StartedSettlement; StartedReconciler] in
              let chain := if listenerEnabled cfg
                           then match oc_chain o with Ok _ => [Opened RChainClient; StartedListener] | Err _ => [] end
                           else [] in
              match oc_wait o with
              | ListenFailed e => (up ++ chain ++ [Listening] ++ deferred, Err (Wrap "server" e))
              | Signalled =>
                  match oc_shutdown o with
                  | Err e => (up ++ chain ++ [Listening; ShutdownApp] ++ deferred, Err (Wrap "graceful shutdown" e))
                  | Ok _ => (up ++ chain ++ [Listening; ShutdownApp; Closed RWorkers] ++ deferred, Ok tt)
                  end
              end
          end
      end
  end.

(** Position of the first occurrence. *)
Fixpoint first_at (a : action) (l : list action) : option nat :=
  match l with
  | [] => None
  | b :: l' => if decide (b = a) then Some 0%nat else S <$> first_at a l'
  end.

(** On every way out, what was opened is closed again after it, except the
    client of the chain, which is never closed; the workers are told to stop
    before the publisher, Redis and the database pools they use are closed. *)
Lemma run_releases o r i : first_at (Opened r) (run o).1 = Some i ->
  if decide (r = RChainClient) then first_at (Closed r) (run o).1 = None
  else exists j, first_at (Closed r) (run o).1 = Some j /\ (i < j)%nat /\
    forall k, first_at (Closed RWorkers) (run o).1 = Some k -> (k <= j)%nat.
Proof.
  unfold run. destruct (oc_load o) as [cfg|]; [|done]. destruct (oc_shards o); [|done].
  destruct (oc_redis o); [|].
  - destruct (listenerEnabled cfg), (oc_chain o), (oc_wait o), (oc_shutdown o), r; cbn; try discriminate;
      intros [= <-]; try reflexivity; eexists; (split; [reflexivity|]); (split; [lia|]); intros k [= <-]; lia.
  - destruct r; cbn; try discriminate. intros [= <-]. eexists. split; [reflexivity|]. split; [lia|done].
Qed.
