(* ===== verification/Observability.v ===== *)
(** * Health checks, request ids and logs
    (handler/health.go, middleware/requestid.go, middleware/metrics.go,
    pkg/logger, repository/mysql.go, cache/redis.go)

    The probes of the process, the request id that travels with a request, the
    count of a request and the attributes of a log line. *)

From S2P Require Import Prelude GoStrings ShardRouter Api.
Local Open Scope Z_scope.

(** ** Pingers *)

Section Pingers.
Context {X : Type}.
(** [db.PingContext] *)
Variable ping_pool : handle -> ST X (result unit).

Definition MySQLPinger_Ping (db : handle) : ST X (result unit) := ping_pool db.

(** [ShardRouterPinger.Ping]: every pool in turn, stopping at the first error. *)
Fixpoint pingAll (i : Z) (dbs : list handle) : ST X (result unit) :=
  match dbs with
  | [] => ret (Ok tt)
  | db :: rest =>
      (let! r := ping_pool db in
       match r with
       | Err e => ret (Err (Wrap ("shard " +:+ FormatInt i) e))
       | Ok _ => pingAll (i + 1) rest
       end)%easypay
  end.

Definition ShardRouterPinger_Ping (router : multiShardRouter) : ST X (result unit) := pingAll 0 (All router).
End Pingers.

(** ** Readiness *)

(** The three dependencies; a nil pinger is left out of the report. *)
Record HealthHandler (X : Type) : Type := {
  hh_DB : option (ST X (result unit));
  hh_Redis : option (ST X (result unit));
  hh_Kafka : option (ST X (result unit));
}.
Arguments hh_DB {X} _.
Arguments hh_Redis {X} _.
Arguments hh_Kafka {X} _.

Abbreviation checks_map := (gmap string string).

Definition check {X} (name : string) (p : option (ST X (result unit))) (acc : checks_map * bool)
    : ST X (checks_map * bool) :=
  match p with
  | None => ret acc
  | Some ping =>
      (let! r := ping in
       ret (match r with
            | Err e => (<[name := "down: " +:+ errText e]> acc.1, false)
            | Ok _ => (<[name := "ok"]> acc.1, acc.2)
            end))%easypay
  end.

(** The status code, the word of the report and the checks. *)
Definition Readiness {X} (h : HealthHandler X) : ST X (Z * string * checks_map) :=
  (let! a := check "db" (hh_DB h) (∅, true) in
   let! a := check "redis" (hh_Redis h) a in
   let! a := check "kafka" (hh_Kafka h) a in
   ret (if a.2 then (200, "ready", a.1) else (503, "not_ready", a.1)))%easypay.

Definition Liveness : Z * string := (200, "alive").

(** ** Request ids and the logger's context *)

(** Values of a [context.Context] under the logger's keys. *)
Record logContext : Type := { lc_request : option string; lc_merchant : option string; lc_order : option string }.

Definition WithRequestID (ctx : logContext) (id : string) : logContext :=
  {| lc_request := Some id; lc_merchant := lc_merchant ctx; lc_order := lc_order ctx |}.
Definition WithMerchantID (ctx : logContext) (id : string) : logContext :=
  {| lc_request := lc_request ctx; lc_merchant := Some id; lc_order := lc_order ctx |}.
Definition WithOrderID (ctx : logContext) (id : string) : logContext :=
  {| lc_request := lc_request ctx; lc_merchant := lc_merchant ctx; lc_order := Some id |}.
Definition logger_RequestID (ctx : logContext) : string := default "" (lc_request ctx).

(** [logger.With]: the attributes added to every line. *)
Definition log_attr (name : string) (v : option string) : list (string * string) :=
  match v with Some v => if bool_decide (v = "") then [] else [(name, v)] | None => [] end.
Definition logger_With (ctx : logContext) : list (string * string) :=
  log_attr "request_id" (lc_request ctx) ++ log_attr "merchant_id" (lc_merchant ctx) ++ log_attr "order_id" (lc_order ctx).

(** [logger.Init]: the level a name selects. *)
Inductive level : Type := LevelDebug | LevelInfo | LevelWarn | LevelError.
Definition logger_Init `{Unicode} (name : string) : level :=
  let l := ToLower name in
  if bool_decide (l = "debug") then LevelDebug
  else if bool_decide (l = "warn") then LevelWarn
  else if bool_decide (l = "error") then LevelError
  else LevelInfo.

(** [logger.L]: the logger that was set up, or one at the level "info". *)
Definition logger_L `{Unicode} (defaultLogger : option level) : level * option level :=
  match defaultLogger with
  | Some l => (l, defaultLogger)
  | None => let l := logger_Init "info" in (l, Some l)
  end.

Definition HeaderRequestID : string := "X-Request-ID".

(** The middleware: the id of the header, or a new one; it is echoed in the
    response header and put into the context of the rest of the chain. *)
Definition RequestID_middleware {X A} (newUUID : ST X string) (next : logContext -> ST X A)
    (c : Request) (ctx : logContext) : ST X (string * A) :=
  let id := rq_Get c HeaderRequestID in
  (let! id := if bool_decide (id = "") then newUUID else ret id in
   let! a := next (WithRequestID ctx id) in
   ret (id, a))%easypay.

(** [PrometheusMiddleware]: one count per request under its route, method and
    status; the chain's answer is passed on. *)
Definition metric_labels (routePath path method : string) (status : Z) : string * string * string :=
  (if bool_decide (routePath = "") then path else routePath, method, FormatInt status).
Definition PrometheusMiddleware {X A} (routePath path method : string) (next : ST X (Response A))
    : ST (list (string * string * string) * X) (Response A) :=
  (let! r := on_snd next in
   let! _u := (fun w => (tt, (w.1 ++ [metric_labels routePath path method (rs_Status r)], w.2))) in
   ret r)%easypay.

(** ** Lemmas *)

Lemma pingAll_spec {X} (ping_pool : handle -> ST X (result unit)) dbs i x res x' :
  pingAll ping_pool i dbs x = (res, x') ->
  (res = Ok tt -> forall db, db ∈ dbs -> exists y y', ping_pool db y = (Ok tt, y')) /\
  (forall e, res = Err e -> exists db y y' e', db ∈ dbs /\ ping_pool db y = (Err e', y')).
Proof.
  revert i x. induction dbs as [|db dbs IH]; intros i x; cbn [pingAll].
  { intros [= <- <-]. split; [|done]. intros _ db Hdb. by apply not_elem_of_nil in Hdb. }
  unfold bind. destruct (ping_pool db x) as [[[]|e] x1] eqn:Ep.
  - intros [Hok Herr]%IH. split.
    + intros Hr db' [->|Hin]%elem_of_cons; [by exists x, x1|by apply Hok].
    + intros e (db' & y & y' & e' & Hin & Hp)%Herr. exists db', y, y', e'. split; [by right|done].
  - intros [= <- <-]. split; [done|]. intros e' _. exists db, x, x1, e. split; [by left|done].
Qed.

(** What one check adds. *)
Definition checked {X} (p : option (ST X (result unit))) (x : X) : option (result unit) :=
  match p with Some ping => Some (ping x).1 | None => None end.
Definition report (o : option (result unit)) : option string :=
  match o with
  | Some (Ok _) => Some "ok"
  | Some (Err e) => Some ("down: " +:+ errText e)
  | None => None
  end.
Definition up (o : option (result unit)) : bool := match o with Some (Err _) => false | _ => true end.

Lemma check_spec {X} name (p : option (ST X (result unit))) acc x acc' x' :
  acc.1 !! name = None -> check name p acc x = (acc', x') ->
  acc'.2 = acc.2 && up (checked p x) /\ acc'.1 !! name = report (checked p x) /\
  forall n, n <> name -> acc'.1 !! n = acc.1 !! n.
Proof.
  unfold check, checked. intros Hn. destruct p as [ping|].
  - unfold bind, ret. destruct (ping x) as [[u|e] x1]; intros [= <- <-]; cbn [fst snd].
    + rewrite andb_true_r, lookup_insert, decide_True by done. split_and!; [done..|].
      intros n Hne. by rewrite lookup_insert_ne.
    + rewrite andb_false_r, lookup_insert, decide_True by done. split_and!; [done..|].
      intros n Hne. by rewrite lookup_insert_ne.
  - intros [= <- <-]. by rewrite andb_true_r, Hn.
Qed.

(** The readiness report is exact: it says 200 if and only if every
    configured dependency answered its ping, and names each of them with its
    own state; nothing else is in the report. *)
Theorem Readiness_exact {X} (h : HealthHandler X) x status word checks x' :
  Readiness h x = (status, word, checks, x') ->
  exists x1 x2, let db := checked (hh_DB h) x in let redis := checked (hh_Redis h) x1 in
    let kafka := checked (hh_Kafka h) x2 in
    (status = 200 <-> up db && up redis && up kafka = true) /\ (status = 200 \/ status = 503) /\
    (status = 200 <-> word = "ready") /\
    checks !! "db" = report db /\ checks !! "redis" = report redis /\ checks !! "kafka" = report kafka /\
    (forall n, is_Some (checks !! n) -> n = "db" \/ n = "redis" \/ n = "kafka").
Proof.
  unfold Readiness. unfold bind at 1. destruct (check "db" _ _ x) as [a1 x1] eqn:E1.
  unfold bind at 1. destruct (check "redis" _ a1 x1) as [a2 x2] eqn:E2.
  unfold bind at 1. destruct (check "kafka" _ a2 x2) as [a3 x3] eqn:E3. unfold ret.
  apply check_spec in E1 as (U1 & R1 & F1); [|apply lookup_empty].
  apply check_spec in E2 as (U2 & R2 & F2); [|rewrite F1 by done; apply lookup_empty].
  apply check_spec in E3 as (U3 & R3 & F3); [|rewrite F2, F1 by done; apply lookup_empty].
  intros Hres. exists x1, x2. cbn zeta. cbn [fst snd andb] in *. rewrite U2, U1 in U3.
  assert (Hst : status = (if a3.2 then 200 else 503) /\ word = (if a3.2 then "ready" else "not_ready") /\ checks = a3.1)
    by (destruct a3.2; by injection Hres as <- <- <- <-).
  destruct Hst as (-> & -> & ->). rewrite U3.
  clear U1 U2 U3 Hres. split; [|split; [|split; [|split; [|split; [|split]]]]].
  1-3: destruct (up (checked (hh_DB h) x)), (up (checked (hh_Redis h) x1)), (up (checked (hh_Kafka h) x2));
    cbn; auto; split; (done || discriminate).
  - by rewrite F3, F2.
  - by rewrite F3.
  - done.
  - intros n Hn. destruct (decide (n = "db")); [by left|]. destruct (decide (n = "redis")); [by right; left|].
    destruct (decide (n = "kafka")); [by right; right|]. rewrite F3, F2, F1 in Hn by done.
    destruct Hn as [v Hv]. by rewrite lookup_empty in Hv.
Qed.
