(* ===== verification/CheckoutPages.v ===== *)
(** * The pages of the hosted checkout (internal/api/handler/checkout_page.go, checkout.go)

    The six pages as they stand in the source, and the handlers that send them
    with their status and headers.  Three of the pages are templates of
    [fmt.Sprintf]; [pages_well_formed] shows that they hold exactly one verb,
    so that the argument ends up in one place and nothing else of the text is
    taken for a verb.  The page that is sent as it is may contain a per-cent
    sign, and does. *)

From S2P Require Import Prelude GoStrings Domain Signatures Ports Merchants Api Observability.
Local Open Scope Z_scope.

(** Go's raw strings hold no backquote, so it stands for the double quote in
    the texts below. *)
Definition html (s : string) : string :=
  smap (fun c => if Ascii.eqb c "096" then "034"%char else c) s.

Definition checkoutNotReadyHTML : string := html "<!doctype html>
<html lang=`en`>
<head>
<meta charset=`utf-8`>
<meta http-equiv=`refresh` content=`2`>
<title>Preparing checkout…</title>
<style>
  body{font-family:-apple-system,BlinkMacSystemFont,Segoe UI,Roboto,sans-serif;background:#fafafa;display:flex;align-items:center;justify-content:center;height:100vh;margin:0;color:#1a1a1a}
  .card{background:#fff;border-radius:12px;padding:32px 40px;box-shadow:0 1px 3px rgba(0,0,0,0.08);text-align:center;max-width:420px}
  .spinner{width:36px;height:36px;border:3px solid #eee;border-top-color:#635bff;border-radius:50%;margin:0 auto 16px;animation:s 0.8s linear infinite}
  @keyframes s{to{transform:rotate(360deg)}}
  h1{font-size:18px;font-weight:600;margin:0 0 8px}
  p{font-size:14px;color:#666;margin:0}
</style>
</head>
<body>
  <div class=`card`>
    <div class=`spinner`></div>
    <h1>Preparing your secure checkout…</h1>
    <p>This usually takes a second or two. The page will refresh automatically.</p>
  </div>
</body>
</html>".

Definition checkoutErrorHTML : string := html "<!doctype html>
<html lang=`en`>
<head>
<meta charset=`utf-8`>
<title>Checkout temporarily unavailable</title>
<style>
  body{font-family:-apple-system,BlinkMacSystemFont,Segoe UI,Roboto,sans-serif;background:#fafafa;display:flex;align-items:center;justify-content:center;height:100vh;margin:0;color:#1a1a1a}
  .card{background:#fff;border-radius:12px;padding:32px 40px;box-shadow:0 1px 3px rgba(0,0,0,0.08);text-align:center;max-width:480px}
  .icon{font-size:36px;margin-bottom:8px}
  h1{font-size:18px;font-weight:600;margin:0 0 8px}
  p{font-size:14px;color:#666;margin:0 0 16px;line-height:1.5}
  button{background:#635bff;color:#fff;border:0;border-radius:8px;padding:10px 20px;font-size:14px;font-weight:500;cursor:pointer}
  button:hover{background:#4f46e5}
  .ref{margin-top:16px;font-size:11px;color:#aaa;font-family:monospace}
</style>
</head>
<body>
  <div class=`card`>
    <div class=`icon`>⏳</div>
    <h1>Checkout temporarily unavailable</h1>
    <p>We couldn't reach our payment processor right now. Please try again in a moment, or contact the merchant if this persists.</p>
    <button onclick=`location.reload()`>Try again</button>
    <div class=`ref`>ref: %s</div>
  </div>
</body>
</html>".

Definition checkoutSuccessHTML : string := html "<!doctype html>
<html lang=`en`>
<head>
<meta charset=`utf-8`>
<title>Payment successful</title>
<style>
  body{font-family:-apple-system,BlinkMacSystemFont,Segoe UI,Roboto,sans-serif;background:#fafafa;display:flex;align-items:center;justify-content:center;height:100vh;margin:0;color:#1a1a1a}
  .card{background:#fff;border-radius:12px;padding:32px 40px;box-shadow:0 1px 3px rgba(0,0,0,0.08);text-align:center;max-width:420px}
  .icon{font-size:48px;margin-bottom:8px}
  h1{font-size:20px;font-weight:600;margin:0 0 8px;color:#0a8754}
  p{font-size:14px;color:#666;margin:0;line-height:1.5}
  .ref{margin-top:16px;font-size:11px;color:#aaa;font-family:monospace}
</style>
</head>
<body>
  <div class=`card`>
    <div class=`icon`>✅</div>
    <h1>Payment successful</h1>
    <p>Thanks — we've received your payment. The merchant will follow up shortly.</p>
    <div class=`ref`>order: %s</div>
  </div>
</body>
</html>".

Definition checkoutCancelHTML : string := html "<!doctype html>
<html lang=`en`>
<head>
<meta charset=`utf-8`>
<title>Checkout cancelled</title>
<style>
  body{font-family:-apple-system,BlinkMacSystemFont,Segoe UI,Roboto,sans-serif;background:#fafafa;display:flex;align-items:center;justify-content:center;height:100vh;margin:0;color:#1a1a1a}
  .card{background:#fff;border-radius:12px;padding:32px 40px;box-shadow:0 1px 3px rgba(0,0,0,0.08);text-align:center;max-width:420px}
  .icon{font-size:48px;margin-bottom:8px}
  h1{font-size:20px;font-weight:600;margin:0 0 8px}
  p{font-size:14px;color:#666;margin:0;line-height:1.5}
  .ref{margin-top:16px;font-size:11px;color:#aaa;font-family:monospace}
</style>
</head>
<body>
  <div class=`card`>
    <div class=`icon`>↩️</div>
    <h1>Checkout cancelled</h1>
    <p>No charges were made. You can return to the merchant to retry.</p>
    <div class=`ref`>order: %s</div>
  </div>
</body>
</html>".

Definition checkoutNotFoundHTML : string := html "<!doctype html>
<html lang=`en`>
<head>
<meta charset=`utf-8`>
<title>Order not found</title>
<style>
  body{font-family:-apple-system,BlinkMacSystemFont,Segoe UI,Roboto,sans-serif;background:#fafafa;display:flex;align-items:center;justify-content:center;height:100vh;margin:0;color:#1a1a1a}
  .card{background:#fff;border-radius:12px;padding:32px 40px;box-shadow:0 1px 3px rgba(0,0,0,0.08);text-align:center;max-width:420px}
  .icon{font-size:36px;margin-bottom:8px}
  h1{font-size:18px;font-weight:600;margin:0 0 8px}
  p{font-size:14px;color:#666;margin:0;line-height:1.5}
</style>
</head>
<body>
  <div class=`card`>
    <div class=`icon`>🔍</div>
    <h1>Order not found</h1>
    <p>We couldn't find this order. The link may be incorrect — please return to the merchant to start a new checkout.</p>
  </div>
</body>
</html>".

Definition checkoutInvalidHTML : string := html "<!doctype html>
<html lang=`en`>
<head>
<meta charset=`utf-8`>
<title>Invalid checkout link</title>
<style>
  body{font-family:-apple-system,BlinkMacSystemFont,Segoe UI,Roboto,sans-serif;background:#fafafa;display:flex;align-items:center;justify-content:center;height:100vh;margin:0;color:#1a1a1a}
  .card{background:#fff;border-radius:12px;padding:32px 40px;box-shadow:0 1px 3px rgba(0,0,0,0.08);text-align:center;max-width:420px}
  .icon{font-size:36px;margin-bottom:8px}
  h1{font-size:18px;font-weight:600;margin:0 0 8px}
  p{font-size:14px;color:#666;margin:0;line-height:1.5}
</style>
</head>
<body>
  <div class=`card`>
    <div class=`icon`>🔗</div>
    <h1>This checkout link is no longer valid</h1>
    <p>It may have expired or been used. Please return to the merchant to start a new checkout.</p>
  </div>
</body>
</html>".

(** ** Templates *)

(** [fmt.Sprintf] on a template with one "%s". *)
Fixpoint Sprintf_s (template arg : string) : string :=
  match template with
  | String "%" (String "s" rest) => arg +:+ rest
  | String c rest => String c (Sprintf_s rest arg)
  | EmptyString => ""
  end.

(** ** Answers *)

Record Page : Type := { pg_Status : Z; pg_Headers : list (string * string); pg_Body : string }.

Definition contentType : string * string := ("Content-Type", "text/html; charset=utf-8").
Definition noStore : string * string := ("Cache-Control", "no-store").

Definition page_NotReady : Page := {|
  pg_Status := 503; pg_Headers := [contentType; noStore; ("Retry-After", "2")]; pg_Body := checkoutNotReadyHTML |}.
Definition page_NotFound : Page := {|
  pg_Status := 404; pg_Headers := [contentType; noStore]; pg_Body := checkoutNotFoundHTML |}.
Definition page_Unavailable (ctx : logContext) : Page := {|
  pg_Status := 503; pg_Headers := [contentType; noStore; ("Retry-After", "30")];
  pg_Body := Sprintf_s checkoutErrorHTML (logger_RequestID ctx) |}.
Definition page_Invalid : Page := {|
  pg_Status := 410; pg_Headers := [contentType; noStore]; pg_Body := checkoutInvalidHTML |}.

(** [Redirect] after [Resolve]: a 302 that is not to be cached, or a page. *)
Definition page_Redirect (ctx : logContext) (res : result string) : Page :=
  match res with
  | Ok url => {| pg_Status := 302;
      pg_Headers := [("Cache-Control", "no-store, no-cache, must-revalidate, private"); ("Pragma", "no-cache"); ("Location", url)];
      pg_Body := "" |}
  | Err e =>
      if errIs e ErrOrderNotFound then page_NotFound
      else if errIs e ErrOrderNotReady then page_NotReady
      else page_Unavailable ctx
  end.

Definition CheckoutHandler_Success (c : Request) : Page := {|
  pg_Status := 200; pg_Headers := [contentType; noStore]; pg_Body := Sprintf_s checkoutSuccessHTML (rq_Query c "order_id") |}.
Definition CheckoutHandler_Cancel (c : Request) : Page := {|
  pg_Status := 200; pg_Headers := [contentType; noStore]; pg_Body := Sprintf_s checkoutCancelHTML (rq_Query c "order_id") |}.

(** ** Theorems *)

(** The text before and after the first verb. *)
Fixpoint cut_verb (template : string) : option (string * string) :=
  match template with
  | String "%" (String "s" rest) => Some ("", rest)
  | String c rest => match cut_verb rest with Some (pre, post) => Some (String c pre, post) | None => None end
  | EmptyString => None
  end.

Definition verb_free (s : string) : bool := negb (Contains s "%").

Lemma cut_verb_spec template pre post arg : cut_verb template = Some (pre, post) ->
  template = pre +:+ "%s" +:+ post /\ Sprintf_s template arg = pre +:+ arg +:+ post.
Proof.
  revert pre. induction template as [|c rest IH]; intros pre; [done|].
  assert (Hcase : (exists r, String c rest = String "%" (String "s" r)) \/
    (cut_verb (String c rest) = match cut_verb rest with Some (p, q) => Some (String c p, q) | None => None end /\
     Sprintf_s (String c rest) arg = String c (Sprintf_s rest arg))).
  { destruct c as [[] [] [] [] [] [] [] []]; try (right; split; reflexivity).
    destruct rest as [|d rest]; [right; split; reflexivity|].
    destruct d as [[] [] [] [] [] [] [] []]; try (right; split; reflexivity). left. by exists rest. }
  destruct Hcase as [[r E]|[-> ->]].
  - rewrite E. cbn. intros [= <- <-]. done.
  - destruct (cut_verb rest) as [[p q]|] eqn:Er; [|done]. intros [= <- <-]. destruct (IH p eq_refl) as [-> ->]. done.
Qed.

(** The templates of the checkout pages have exactly one verb: each is a text
    without per-cent signs, "%s", and another such text, and what is sent is
    the first text, the argument and the second text. *)
Theorem pages_well_formed template arg :
  template ∈ [checkoutErrorHTML; checkoutSuccessHTML; checkoutCancelHTML] ->
  exists pre post, template = pre +:+ "%s" +:+ post /\ verb_free pre = true /\ verb_free post = true /\
    Sprintf_s template arg = pre +:+ arg +:+ post.
Proof.
  intros Ht. assert (Hcut : exists pre post, cut_verb template = Some (pre, post) /\ verb_free pre = true /\ verb_free post = true).
  { rewrite !elem_of_cons in Ht. destruct Ht as [->|[->|[->|Ht]]]; [eexists _, _; split_and!; vm_compute; reflexivity..|].
    by apply not_elem_of_nil in Ht. }
  destruct Hcut as (pre & post & Hcut & Hpre & Hpost). exists pre, post.
  destruct (cut_verb_spec _ _ _ arg Hcut) as [-> ->]. done.
Qed.

(** The page sent with 503 while the order is not there yet asks the browser to
    come back after the time the header says, and is the only one that does. *)
Lemma only_not_ready_refreshes :
  (fun p => Contains p (html "http-equiv=`refresh` content=`2`")) <$>
    [checkoutNotReadyHTML; checkoutErrorHTML; checkoutSuccessHTML; checkoutCancelHTML; checkoutNotFoundHTML; checkoutInvalidHTML]
  = [true; false; false; false; false; false].
Proof. vm_compute. reflexivity. Qed.

(** The status of the page is the one the handler's answer has. *)
Lemma page_Redirect_status ctx res : pg_Status (page_Redirect ctx res) = rs_Status (redirectAnswer res).
Proof. destruct res as [url|e]; cbn; [done|]. destruct (errIs e _); [done|]. by destruct (errIs e _). Qed.

Lemma Contains_here s t : Contains (s +:+ t) s = true.
Proof.
  assert (E : forall u, HasPrefix u s = true -> Contains u s = true) by (intros [|c u] Hu; cbn [Contains]; by rewrite Hu).
  apply E, HasPrefix_app.
Qed.

Lemma Contains_cons c s t : Contains s t = true -> Contains (String c s) t = true.
Proof. intros Hs. cbn [Contains]. by rewrite Hs, orb_true_r. Qed.

(** The argument of a template goes into it byte for byte: nothing is escaped. *)
Lemma Sprintf_s_verbatim template arg : Contains template "%s" = true -> Contains (Sprintf_s template arg) arg = true.
Proof.
  induction template as [|c rest IH]; [done|]. intros Hc.
  assert (Hcase : (exists r, String c rest = String "%" (String "s" r)) \/
    (Contains rest "%s" = true /\ Sprintf_s (String c rest) arg = String c (Sprintf_s rest arg))).
  { destruct (HasPrefix (String c rest) "%s") eqn:Ep.
    - left. apply HasPrefix_spec in Ep as [t Et]. exists t. exact Et.
    - right. cbn [Contains] in Hc. rewrite Ep in Hc. split; [exact Hc|].
      clear - Ep. destruct c as [[] [] [] [] [] [] [] []]; try reflexivity.
      destruct rest as [|d rest]; [reflexivity|]. destruct d as [[] [] [] [] [] [] [] []]; try reflexivity.
      by destruct rest. }
  destruct Hcase as [[r ->]|[Hr ->]]; [apply Contains_here|]. by apply Contains_cons, IH.
Qed.

(** The checkout pages reflect what the client sends without escaping it:
    the order id of the query string appears byte for byte in the success and
    cancel pages, and a request id sent in the X-Request-ID header appears in
    the error page. *)
Theorem checkout_pages_reflect c {X} (newUUID : ST X string) ctx x :
  rq_Get c HeaderRequestID <> "" ->
  Contains (pg_Body (CheckoutHandler_Success c)) (rq_Query c "order_id") = true /\
  Contains (pg_Body (CheckoutHandler_Cancel c)) (rq_Query c "order_id") = true /\
  Contains (pg_Body (RequestID_middleware newUUID (fun ctx => ret (page_Unavailable ctx)) c ctx x).1.2)
    (rq_Get c HeaderRequestID) = true.
Proof.
  intros Hid. unfold RequestID_middleware. rewrite bool_decide_false by done. unfold bind, ret.
  split_and!; apply Sprintf_s_verbatim; vm_compute; reflexivity.
Qed.
