(* ===== verification/Metrics.v ===== *)
(** * The metrics of the gateway (internal/api/middleware/metrics.go) and of the
    hosted checkout (internal/service/checkout_resolver.go)

    The collectors the process registers, and [Resolve] with the counters it
    increments.  [ResolveM_erases] shows that the metered run is the run
    CheckoutResolver models.  [samples_of] says which samples the calls of a
    visit and their answers amount to; [resolve_metrics] shows that these are
    the ones recorded. *)

From S2P Require Import Prelude GoStrings Domain TransactionStore StripeTypes Ports CheckoutResolver Effects.
Local Open Scope Z_scope.

(** ** Collectors *)

Inductive kind : Type := Counter | Gauge | Histogram.

Record collector : Type := { co_Name : string; co_Kind : kind; co_Labels : list string }.

Definition HTTPRequestsTotal : collector :=
  {| co_Name := "http_requests_total"; co_Kind := Counter; co_Labels := ["route"; "method"; "status"] |}.
Definition HTTPRequestDurationSeconds : collector :=
  {| co_Name := "http_request_duration_seconds"; co_Kind := Histogram; co_Labels := ["route"; "method"] |}.
Definition StripeAPIErrorsTotal : collector :=
  {| co_Name := "stripe_api_errors_total"; co_Kind := Counter; co_Labels := ["op"; "category"] |}.
Definition KafkaConsumerLag : collector :=
  {| co_Name := "kafka_consumer_lag"; co_Kind := Gauge; co_Labels := ["topic"] |}.
Definition StuckOrdersTotal : collector :=
  {| co_Name := "stuck_orders_total"; co_Kind := Gauge; co_Labels := [] |}.
Definition OnChainConfirmationLag : collector :=
  {| co_Name := "blockchain_confirmation_lag_blocks"; co_Kind := Gauge; co_Labels := [] |}.
Definition CheckoutResolveDuration : collector :=
  {| co_Name := "checkout_resolve_duration_seconds"; co_Kind := Histogram; co_Labels := ["stage"] |}.
Definition CheckoutResolveResult : collector :=
  {| co_Name := "checkout_resolve_result_total"; co_Kind := Counter; co_Labels := ["result"] |}.
Definition StripeRateLimited : collector :=
  {| co_Name := "stripe_rate_limited_total"; co_Kind := Counter; co_Labels := [] |}.
Definition StripeBreakerState : collector :=
  {| co_Name := "stripe_breaker_state"; co_Kind := Gauge; co_Labels := [] |}.

Definition registered : list collector :=
  [HTTPRequestsTotal; HTTPRequestDurationSeconds; StripeAPIErrorsTotal; KafkaConsumerLag; StuckOrdersTotal;
   OnChainConfirmationLag; CheckoutResolveDuration; CheckoutResolveResult; StripeRateLimited; StripeBreakerState].

(** A sample: a collector and the values of its labels. *)
Definition sample : Type := collector * list string.

(** [WithLabelValues] panics unless there is one value per label. *)
Definition well_labelled (s : sample) : bool := bool_decide (length s.2 = length (co_Labels s.1)).

(** ** The checkout resolver with its metrics *)

Section Metered.
Context `{Unicode}.
Context {D X : Type} `{TransactionRepository D} `{Client X} `{MerchantRepository X} `{Locker X}
  `{URLCache X} `{TokenBucket X}.
Variable r : checkoutResolver.

Abbreviation MW := (list sample * (D * X))%type.

Definition observe (c : collector) (values : list string) : ST MW unit :=
  fun w => (tt, (w.1 ++ [(c, values)], w.2)).
Definition count (l : string) : ST MW unit := observe CheckoutResolveResult [l].
Definition stage_done (l : string) : ST MW unit := observe CheckoutResolveDuration [l].
Definition quiet {A} (m : ST (D * X) A) : ST MW A := on_snd m.

(** From the token bucket on, the lock being held. *)
Definition createM (shardIdx : Z) (merchantID orderID cacheKey : string) (order : Transaction)
    : ST MW (result string) :=
  (let! go := quiet (allowed r) in
   if negb go then
     let! _a := observe StripeRateLimited [] in
     let! _b := count "rate_limited" in
     ret (Err (Sentinel ErrUnavailable))
   else
     let! created := quiet (on_snd (createSession r order)) in
     let! _c := stage_done "stripe_create" in
     match created with
     | Err e =>
         if errIs e ErrCircuitOpen
         then let! _d := count "breaker_open" in ret (Err (Sentinel ErrUnavailable))
         else let! _d := count "failed" in ret (Err e)
     | Ok session =>
         let! _u := quiet (on_fst (repo_UpdateCheckout shardIdx merchantID orderID (cs_ID session)
                                     (cs_PaymentIntentID session))) in
         let! _v := quiet (cacheURL r cacheKey (cs_URL session)) in
         let! _d := count "created" in
         ret (Ok (cs_URL session))
     end)%easypay.

Definition underLockM (shardIdx : Z) (merchantID orderID cacheKey : string) (order : Transaction)
    : ST MW (result string) :=
  (let! again := quiet (on_fst (repo_GetByMerchantOrderID shardIdx merchantID orderID)) in
   let session := match again with Ok c => t_StripeSessionID c | Err _ => "" end in
   if negb (bool_decide (session = "")) then
     let url := stripeCheckoutURL session in
     let! _u := quiet (cacheURL r cacheKey url) in
     ret (Ok url)
   else createM shardIdx merchantID orderID cacheKey order)%easypay.

Definition resolveRowM (shardIdx : Z) (merchantID orderID cacheKey : string) : ST MW (result string) :=
  (let! order := quiet (on_fst (repo_GetByMerchantOrderID shardIdx merchantID orderID)) in
   let! _a := stage_done "db_lookup" in
   match order with
   | Err e =>
       if errIs e ErrNotFound
       then let! _b := count "not_found" in ret (Err (Sentinel ErrOrderNotFound))
       else let! _b := count "failed" in ret (Err (Wrap "load order" e))
   | Ok order =>
       if negb (bool_decide (t_StripeSessionID order = "")) then
         let url := stripeCheckoutURL (t_StripeSessionID order) in
         let! _u := quiet (cacheURL r cacheKey url) in
         let! _b := count "cached_db" in
         ret (Ok url)
       else
         let! lock := quiet (on_snd (Acquire ("checkout:" +:+ cacheKey) (10 * second))) in
         let! _b := stage_done "lock_acquire" in
         match lock with
         | Err _ => quiet (resolveAfterLock r shardIdx merchantID orderID cacheKey)
         | Ok lock =>
             let! res := underLockM shardIdx merchantID orderID cacheKey order in
             let! _u := quiet (on_snd (Release lock)) in
             ret res
         end
   end)%easypay.

Definition ResolveM (merchantID orderID : string) : ST MW (result string) :=
  let cacheKey := cacheKeyOf merchantID orderID in
  (let! hit := quiet (if cr_hasCache r then on_snd (url_Get cacheKey) else ret None) in
   match hit with
   | Some url => let! _a := count "cached_local" in ret (Ok url)
   | None =>
       let! merchant := quiet (on_snd (GetByMerchantID merchantID)) in
       match merchant with
       | Err e =>
           if errIs e ErrMerchantNotFound
           then let! _a := count "not_found" in ret (Err (Sentinel ErrOrderNotFound))
           else let! _a := count "failed" in ret (Err (Wrap "load merchant" e))
       | Ok m => resolveRowM (m_ShardIndex m) merchantID orderID cacheKey
       end
   end)%easypay.

(** ** What a metered run does *)

(** [m] does what [m0] does, and adds well-labelled samples. *)
Definition meters {A} (m : ST MW A) (m0 : ST (D * X) A) : Prop :=
  forall ss w, exists ss', m (ss, w) = ((m0 w).1, (ss ++ ss', (m0 w).2)) /\ forallb well_labelled ss' = true.

Lemma meters_quiet {A} (m : ST (D * X) A) : meters (quiet m) m.
Proof. intros ss w. exists []. unfold quiet, on_snd. cbn. rewrite app_nil_r. by destruct (m w). Qed.

Lemma meters_ret {A} (a : A) : meters (ret a) (ret a).
Proof. intros ss w. exists []. by rewrite app_nil_r. Qed.

Lemma meters_bind {A B} (m : ST MW A) m0 (k : A -> ST MW B) k0 :
  meters m m0 -> (forall a, meters (k a) (k0 a)) -> meters (bind m k) (bind m0 k0).
Proof.
  intros Hm Hk ss w. destruct (Hm ss w) as (s1 & E1 & W1). unfold bind.
  destruct (m0 w) as [a w1]. cbn [fst snd] in *. rewrite E1.
  destruct (Hk a (ss ++ s1) w1) as (s2 & E2 & W2). exists (s1 ++ s2). split.
  - by rewrite E2, app_assoc.
  - by rewrite forallb_app, W1, W2.
Qed.

(** A sample before the rest of a run. *)
Lemma meters_observe {B} c values (k : unit -> ST MW B) (k0 : ST (D * X) B) :
  well_labelled (c, values) = true -> meters (k tt) k0 -> meters (bind (observe c values) k) k0.
Proof.
  intros Hw Hk ss w. destruct (Hk (ss ++ [(c, values)]) w) as (s2 & E2 & W2).
  exists ((c, values) :: s2). unfold bind, observe. cbn [fst snd]. split.
  - rewrite E2, <- app_assoc. done.
  - cbn [forallb]. by rewrite Hw, W2.
Qed.

Ltac on := eapply meters_bind; [apply meters_quiet|intros ?].
Ltac seen_off := apply meters_observe; [reflexivity|].
Ltac ends := apply meters_ret.
Ltac counts := seen_off; ends.

Lemma createM_meters sh m o key t :
  meters (createM sh m o key t)
    (let! go := allowed r in
     if negb go then ret (Err (Sentinel ErrUnavailable))
     else
       let! created := on_snd (createSession r t) in
       match created with
       | Err e => ret (if errIs e ErrCircuitOpen then Err (Sentinel ErrUnavailable) else Err e)
       | Ok session =>
           let! _u := on_fst (repo_UpdateCheckout sh m o (cs_ID session) (cs_PaymentIntentID session)) in
           let! _v := cacheURL r key (cs_URL session) in
           ret (Ok (cs_URL session))
       end)%easypay.
Proof.
  unfold createM. on. destruct a; cbn [negb]; [|seen_off; counts].
  on. seen_off. destruct a as [session|e]; [on; on; counts|]. destruct (errIs e ErrCircuitOpen); counts.
Qed.

Lemma underLockM_meters sh m o key t : meters (underLockM sh m o key t) (underLock r sh m o key t).
Proof.
  unfold underLockM, underLock. on. set (session := match a with Ok _ => _ | Err _ => _ end).
  case_bool_decide; cbn [negb]; [apply createM_meters|on; ends].
Qed.

Lemma resolveRowM_meters sh m o key : meters (resolveRowM sh m o key) (resolveRow r sh m o key).
Proof.
  unfold resolveRowM, resolveRow. on. seen_off. destruct a as [t|e]; [|destruct (errIs e ErrNotFound); counts].
  case_bool_decide; cbn [negb]; [|on; counts].
  on. seen_off. destruct a as [lock|e]; [|apply meters_quiet].
  eapply meters_bind; [apply underLockM_meters|]. intros res. on. ends.
Qed.

(** The metrics do not change what the hosted checkout does, and every sample
    has a value for each label of its collector, so that recording it cannot
    panic. *)
Lemma ResolveM_erases m o : meters (ResolveM m o) (Resolve r m o).
Proof.
  unfold ResolveM, Resolve. on. destruct a as [url|]; [counts|]. on.
  destruct a as [mer|e]; [apply resolveRowM_meters|]. destruct (errIs e ErrMerchantNotFound); counts.
Qed.
End Metered.

(** ** What the samples say *)

(** Answers among the calls of a visit. *)
Definition first_of {A} (f : obs -> option A) (calls : list obs) : option A := head (omap f calls).

Definition url_hit (e : obs) : option string := match e with Ob (UGet _) (Some url) => Some url | _ => None end.
Definition merchant_answer (e : obs) : option (result Merchant) := match e with Ob (MByID _) a => Some a | _ => None end.
Definition row_answer (e : obs) : option (result Transaction) := match e with Ob (TGetOrder _ _ _) a => Some a | _ => None end.
Definition lock_answer (e : obs) : option (result Lock) := match e with Ob (LAcquire _ _) a => Some a | _ => None end.
Definition bucket_empty (e : obs) : option error :=
  match e with Ob BAllow (Err e) => if errIs e ErrRateLimited then Some e else None | _ => None end.
Definition stripe_answer (e : obs) : option (result CheckoutSession) := match e with Ob (SSession _ _) a => Some a | _ => None end.

Definition missing_or_failed (e : error) (missing : sentinel) : string := if errIs e missing then "not_found" else "failed".

(** How a visit ended, given its calls to the repository and its other calls:
    [None] is an end that is not counted. *)
Definition label_of (reads calls : list obs) : option string :=
  match first_of url_hit calls, first_of merchant_answer calls, first_of row_answer reads with
  | Some _, _, _ => Some "cached_local"
  | None, Some (Err e), _ => Some (missing_or_failed e ErrMerchantNotFound)
  | None, _, Some (Err e) => Some (missing_or_failed e ErrNotFound)
  | None, _, Some (Ok t) =>
      if negb (bool_decide (t_StripeSessionID t = "")) then Some "cached_db"
      else match first_of bucket_empty calls, first_of stripe_answer calls with
           | Some _, _ => Some "rate_limited"
           | None, Some (Ok _) => Some "created"
           | None, Some (Err e) => Some (if errIs e ErrCircuitOpen then "breaker_open" else "failed")
           | None, None => None
           end
  | None, _, None => None
  end.

(** The samples of a visit: one duration for the lookup, the lock and the call
    of Stripe if there was one, and the counters. *)
Definition taken {A} (o : option A) (s : sample) : list sample := match o with Some _ => [s] | None => [] end.

Definition samples_of (reads calls : list obs) : list sample :=
  taken (first_of row_answer reads) (CheckoutResolveDuration, ["db_lookup"]) ++
  taken (first_of lock_answer calls) (CheckoutResolveDuration, ["lock_acquire"]) ++
  taken (first_of bucket_empty calls) (StripeRateLimited, []) ++
  taken (first_of stripe_answer calls) (CheckoutResolveDuration, ["stripe_create"]) ++
  match label_of reads calls with Some l => [(CheckoutResolveResult, [l])] | None => [] end.

(** What a counted end is answered with; an end is not counted when the
    session of another visitor was found after the lock was asked for, or the
    order is not ready. *)
Inductive fits : option string -> result string -> Prop :=
  | f_url l url : l ∈ ["cached_local"; "cached_db"; "created"] -> fits (Some l) (Ok url)
  | f_unavailable l : l ∈ ["rate_limited"; "breaker_open"] -> fits (Some l) (Err (Sentinel ErrUnavailable))
  | f_not_found : fits (Some "not_found") (Err (Sentinel ErrOrderNotFound))
  | f_failed e : fits (Some "failed") (Err e)
  | f_other s : s <> "" -> fits None (Ok (stripeCheckoutURL s))
  | f_not_ready : fits None (Err (Sentinel ErrOrderNotReady)).

Section Visits.
Context `{Unicode}.
Variable r : checkoutResolver.

Abbreviation QW := (list sample * (queue * queue))%type.

Definition more (q : queue) (l : list obs) : queue := {| q_seen := q_seen q ++ l; q_oracle := q_oracle q |}.

(** [m] records samples, calls to the repository and other calls with [Q],
    whatever the calls are answered. *)
Definition records {A} (m : ST QW A) (Q : A -> list sample -> list obs -> list obs -> Prop) : Prop :=
  forall ss q1 q2, exists ss' l1 l2,
    (m (ss, (q1, q2))).2 = (ss ++ ss', (more q1 l1, more q2 l2)) /\ Q (m (ss, (q1, q2))).1 ss' l1 l2.

Lemma more_nil q : more q [] = q.
Proof. destruct q. unfold more. cbn. by rewrite app_nil_r. Qed.
Lemma more_more q l l' : more (more q l) l' = more q (l ++ l').
Proof. unfold more. cbn. by rewrite app_assoc. Qed.

Lemma rec_ret {A} (a : A) (Q : A -> list sample -> list obs -> list obs -> Prop) : Q a [] [] [] -> records (ret a) Q.
Proof. intros HQ ss q1 q2. exists [], [], []. by rewrite !more_nil, app_nil_r. Qed.

Lemma rec_ext {A} (m m' : ST QW A) Q : (forall w, m w = m' w) -> records m' Q -> records m Q.
Proof. intros E Hm ss q1 q2. rewrite E. apply Hm. Qed.

Lemma rec_bind {A B} (m : ST QW A) (k : A -> ST QW B) Q R :
  records m Q ->
  (forall a ss l1 l2, Q a ss l1 l2 -> records (k a) (fun b ss' l1' l2' => R b (ss ++ ss') (l1 ++ l1') (l2 ++ l2'))) ->
  records (bind m k) R.
Proof.
  intros Hm Hk ss q1 q2. destruct (Hm ss q1 q2) as (s1 & a1 & b1 & E1 & H1). unfold bind.
  destruct (m (ss, (q1, q2))) as [a w]. cbn [fst snd] in *. subst w.
  destruct (Hk a _ _ _ H1 (ss ++ s1) (more q1 a1) (more q2 b1)) as (s2 & a2 & b2 & E2 & H2).
  exists (s1 ++ s2), (a1 ++ a2), (b1 ++ b2). by rewrite E2, !more_more, app_assoc.
Qed.

Lemma rec_observe {B} c values (k : unit -> ST QW B) R :
  records (k tt) (fun b ss l1 l2 => R b ((c, values) :: ss) l1 l2) -> records (bind (observe c values) k) R.
Proof.
  intros Hk. eapply (rec_bind _ _ (fun _ ss l1 l2 => ss = [(c, values)] /\ l1 = [] /\ l2 = [])).
  - intros ss q1 q2. exists [(c, values)], [], []. by rewrite !more_nil.
  - intros [] ss l1 l2 (-> & -> & ->). exact Hk.
Qed.

(** A call to the repository, and any other call. *)
Lemma rec_repo {B} c (k : answer c -> ST QW B) R :
  (forall a, records (k a) (fun b ss l1 l2 => R b ss (Ob c a :: l1) l2)) -> records (bind (quiet (on_fst (ask c))) k) R.
Proof.
  intros Hk. eapply (rec_bind _ _ (fun a ss l1 l2 => ss = [] /\ l1 = [Ob c a] /\ l2 = [])).
  - intros ss q1 q2. eexists [], [_], []. rewrite more_nil, app_nil_r. by split; [reflexivity|].
  - intros a ss l1 l2 (-> & -> & ->). apply Hk.
Qed.

Lemma rec_world {B} c (k : answer c -> ST QW B) R :
  (forall a, records (k a) (fun b ss l1 l2 => R b ss l1 (Ob c a :: l2))) -> records (bind (quiet (on_snd (ask c))) k) R.
Proof.
  intros Hk. eapply (rec_bind _ _ (fun a ss l1 l2 => ss = [] /\ l1 = [] /\ l2 = [Ob c a])).
  - intros ss q1 q2. eexists [], [], [_]. rewrite more_nil, app_nil_r. by split; [reflexivity|].
  - intros a ss l1 l2 (-> & -> & ->). apply Hk.
Qed.

Lemma rec_cache {B} key url (k : unit -> ST QW B) R :
  (forall l, l = [] \/ l = [Ob (UPut key url) tt] -> records (k tt) (fun b ss l1 l2 => R b ss l1 (l ++ l2))) ->
  records (bind (quiet (cacheURL r key url)) k) R.
Proof.
  intros Hk. unfold cacheURL. destruct (cr_hasCache r).
  - apply (rec_world (UPut key url)). intros []. apply (Hk [_]). by right.
  - eapply rec_ext; [intros [ss q]; reflexivity|]. apply (Hk []). by left.
Qed.

Definition faithful (res : result string) (ss : list sample) (l1 l2 : list obs) : Prop :=
  ss = samples_of l1 l2 /\ fits (label_of l1 l2) res.

(** What a visit has recorded when it holds the lock, and will have when it
    has released it. *)
Definition locked (sh : Z) (m o key : string) (t : Transaction) (mer : Merchant) (l : Lock) (pre : list obs)
    (res : result string) (ss : list sample) (l1 l2 : list obs) : Prop := forall rel,
  faithful res ((CheckoutResolveDuration, ["db_lookup"]) :: (CheckoutResolveDuration, ["lock_acquire"]) :: ss)
    (Ob (TGetOrder sh m o) (Ok t) :: l1)
    (pre ++ Ob (MByID m) (Ok mer) :: Ob (LAcquire ("checkout:" +:+ key) (10 * second)) (Ok l) :: l2 ++ [Ob (LRelease l) rel]).

(** The end of a visit: evaluate what its calls amount to. *)
Ltac amounts := unfold locked, faithful, samples_of, label_of, first_of, missing_or_failed; cbn.
Ltac counted := split; [reflexivity|]; constructor; set_solver.

(** What asking the token bucket records. *)
Definition asked_bucket (go : bool) (l2 : list obs) : Prop :=
  go = true /\ omap bucket_empty l2 = [] /\ (l2 = [] \/ exists a, l2 = [Ob BAllow a]) \/
  go = false /\ exists e, l2 = [Ob BAllow (Err e)] /\ errIs e ErrRateLimited = true.

Lemma allowed_records : records (quiet (allowed r)) (fun go ss l1 l2 => ss = [] /\ l1 = [] /\ asked_bucket go l2).
Proof.
  unfold allowed. destruct (cr_hasBucket r).
  - eapply rec_ext; [intros w; apply on_snd_bind|]. apply (rec_world BAllow). intros a.
    eapply rec_ext; [intros w; apply on_snd_ret|]. apply rec_ret. split_and!; [done|done|].
    destruct a as [[]|e]; [left; eauto 6|]. destruct (errIs e ErrRateLimited) eqn:Er; [right; eauto|left]. cbn. rewrite Er. eauto 6.
  - eapply rec_ext; [intros w; apply on_snd_ret|]. apply rec_ret. split_and!; [done|done|]. left. eauto.
Qed.

Lemma createM_records sh m o key t mer l again pre :
  t_StripeSessionID t = "" -> pre = [] \/ pre = [Ob (UGet key) None] ->
  records (createM r sh m o key t)
    (fun res ss l1 l2 => locked sh m o key t mer l pre res ss (Ob (TGetOrder sh m o) again :: l1) l2).
Proof.
  intros Ht Hpre. unfold createM. eapply rec_bind; [apply allowed_records|].
  intros go ss l1 l2 (-> & -> & [(-> & Hb & Hl2)|(-> & e & -> & Er)]); cbn [negb].
  2: { apply rec_observe, rec_observe, rec_ret. intros rel.
       destruct Hpre as [->| ->]; amounts; rewrite Er; cbn; rewrite bool_decide_true by done; cbn; counted. }
  apply (rec_world (SSession (sessionRequest r t) (sessionKey t))). intros created. apply rec_observe.
  destruct created as [sess|e].
  - apply (rec_repo (TUpdateCheckout sh m o (cs_ID sess) (cs_PaymentIntentID sess))). intros u. apply rec_cache. intros c Hc.
    apply rec_observe, rec_ret. intros rel.
    destruct Hl2 as [->|[a ->]], Hpre as [->| ->], Hc as [->| ->]; cbn in Hb; amounts; rewrite ?Hb; cbn;
      rewrite bool_decide_true by done; cbn; counted.
  - destruct (errIs e ErrCircuitOpen) eqn:Ec; apply rec_observe, rec_ret; intros rel;
      (destruct Hl2 as [->|[a ->]], Hpre as [->| ->]; cbn in Hb; amounts; rewrite ?Hb, ?Ec; cbn;
        rewrite bool_decide_true by done; cbn; rewrite ?Ec; counted).
Qed.

Lemma underLockM_records sh m o key t mer l pre :
  t_StripeSessionID t = "" -> pre = [] \/ pre = [Ob (UGet key) None] ->
  records (underLockM r sh m o key t) (locked sh m o key t mer l pre).
Proof.
  intros Ht Hpre. unfold underLockM. apply (rec_repo (TGetOrder sh m o)). intros again.
  set (session := match again with Ok _ => _ | Err _ => _ end).
  case_bool_decide as Hs; cbn [negb]; [by apply createM_records|]. apply rec_cache. intros c Hc. apply rec_ret. intros rel.
  destruct Hpre as [->| ->], Hc as [->| ->]; amounts; rewrite bool_decide_true by done; cbn; (split; [reflexivity|]); by constructor.
Qed.

(** The read after the lock was not acquired. *)
Lemma afterLock_records sh m o key t mer e pre :
  t_StripeSessionID t = "" -> pre = [] \/ pre = [Ob (UGet key) None] ->
  records (quiet (resolveAfterLock r sh m o key)) (fun res ss l1 l2 =>
    faithful res ((CheckoutResolveDuration, ["db_lookup"]) :: (CheckoutResolveDuration, ["lock_acquire"]) :: ss)
      (Ob (TGetOrder sh m o) (Ok t) :: l1)
      (pre ++ Ob (MByID m) (Ok mer) :: Ob (LAcquire ("checkout:" +:+ key) (10 * second)) (Err e) :: l2)).
Proof.
  intros Ht Hpre. unfold resolveAfterLock. eapply rec_ext; [intros w; apply on_snd_bind|].
  apply (rec_repo (TGetOrder sh m o)). intros [t'|e'].
  - case_bool_decide as Hs.
    + eapply rec_ext; [intros w; apply on_snd_ret|]. apply rec_ret.
      destruct Hpre as [->| ->]; amounts; rewrite bool_decide_true by done; cbn; (split; [reflexivity|]); by constructor.
    + eapply rec_ext; [intros w; apply on_snd_bind|]. apply rec_cache. intros c Hc.
      eapply rec_ext; [intros w; apply on_snd_ret|]. apply rec_ret.
      destruct Hpre as [->| ->], Hc as [->| ->]; amounts; rewrite bool_decide_true by done; cbn; (split; [reflexivity|]); by constructor.
  - eapply rec_ext; [intros w; apply on_snd_ret|]. apply rec_ret.
    destruct Hpre as [->| ->]; amounts; rewrite bool_decide_true by done; cbn; (split; [reflexivity|]); by constructor.
Qed.

Lemma resolveRowM_records sh m o key mer pre :
  pre = [] \/ pre = [Ob (UGet key) None] ->
  records (resolveRowM r sh m o key) (fun res ss l1 l2 => faithful res ss l1 (pre ++ Ob (MByID m) (Ok mer) :: l2)).
Proof.
  intros Hpre. unfold resolveRowM. apply (rec_repo (TGetOrder sh m o)). intros [t|e]; apply rec_observe.
  2: { destruct (errIs e ErrNotFound) eqn:Ee; apply rec_observe, rec_ret; destruct Hpre as [->| ->]; amounts; rewrite Ee; counted. }
  case_bool_decide as Hs; cbn [negb].
  2: { apply rec_cache. intros c Hc. apply rec_observe, rec_ret.
       destruct Hpre as [->| ->], Hc as [->| ->]; amounts; rewrite bool_decide_false by done; cbn; counted. }
  apply (rec_world (LAcquire ("checkout:" +:+ key) (10 * second))). intros [l|e]; apply rec_observe; [|by apply afterLock_records].
  eapply rec_bind; [by apply (underLockM_records sh m o key t mer l pre)|]. intros res ss l1 l2 Hl.
  apply (rec_world (LRelease l)). intros rel. apply rec_ret. rewrite !app_nil_r. apply Hl.
Qed.

Lemma ResolveM_records m o : records (ResolveM r m o) faithful.
Proof.
  unfold ResolveM. set (key := cacheKeyOf m o).
  eapply (rec_bind _ _ (fun hit ss l1 l2 => ss = [] /\ l1 = [] /\
    match hit with Some url => l2 = [Ob (UGet key) (Some url)] | None => l2 = [] \/ l2 = [Ob (UGet key) None] end)).
  { destruct (cr_hasCache r).
    - intros ss q1 q2. eexists [], [], [_]. rewrite more_nil, app_nil_r. split; [reflexivity|]. split_and!; [done|done|].
      cbn. destruct (q_oracle q2 _ _); [done|by right].
    - apply rec_ret. split_and!; [done|done|by left]. }
  intros [url|] ss l1 l2 (-> & -> & Hl2); [subst l2; apply rec_observe, rec_ret; amounts; counted|].
  apply (rec_world (MByID m)). intros [mer|e]; [by apply resolveRowM_records|].
  destruct (errIs e ErrMerchantNotFound) eqn:Ee; apply rec_observe, rec_ret; destruct Hl2 as [->| ->]; amounts; rewrite Ee; counted.
Qed.

(** C26. The metrics of the hosted checkout are right and change nothing: whatever
    the calls of a visit are answered, the metered run answers and acts as
    [Resolve], and what it records is what its calls amount to, neither more nor
    less: the durations of the lookup, the lock and the call of Stripe, if there
    was one; the counter of the token bucket, if it was empty; and one result,
    the one that fits the answers of the calls and the answer of the visit.
    Nothing is counted only when the session of another visitor was found after
    the lock was asked for, or the order is not ready.  Every sample has a value
    for each label of its collector. *)
Theorem resolve_metrics m o ss q1 q2 :
  q_seen q1 = [] -> q_seen q2 = [] ->
  let '(res, (q1', q2')) := Resolve r m o (q1, q2) in
  ResolveM r m o (ss, (q1, q2)) = (res, (ss ++ samples_of (q_seen q1') (q_seen q2'), (q1', q2'))) /\
  fits (label_of (q_seen q1') (q_seen q2')) res /\
  forallb well_labelled (samples_of (q_seen q1') (q_seen q2')) = true.
Proof.
  intros E1 E2. destruct (ResolveM_erases r m o ss (q1, q2)) as (s1 & Em & Hw).
  destruct (ResolveM_records m o ss q1 q2) as (s2 & l1 & l2 & Er & Hs & Hf). rewrite Em in Er, Hf. cbn [fst snd] in Er, Hf.
  destruct (Resolve r m o (q1, q2)) as [res [q1' q2']]. cbn [fst snd] in *.
  injection Er as Es -> ->. apply app_inv_head in Es as ->. unfold more in *. cbn. rewrite E1, E2 in *. cbn.
  subst s2. done.
Qed.
End Visits.

(** The collectors have different names, so that registering them cannot
    panic. *)
Lemma registered_distinct : NoDup (co_Name <$> registered).
Proof. apply (bool_decide_unpack _). vm_compute. exact I. Qed.
