(* ===== verification/Router.v ===== *)
(** * The routes of the HTTP API (internal/api/router.go)

    [NewRouter] is the list of what it registers, in order.  How Fiber matches
    a path and how it walks through the registered entries are parameters, with
    laws: a request goes through the middlewares registered before the first
    handler that matches it, as far as their prefix matches. *)

From S2P Require Import Prelude GoStrings.
Local Open Scope Z_scope.

Inductive middleware : Type :=
  | mw_RequestID
  | mw_Prometheus
  | mw_HMACAuth (skew : Z)
  | mw_RateLimit
  | mw_AdminAuth (key : string).

Inductive endpoint : Type :=
  | Health_Liveness
  | Health_Readiness
  | Metrics_Handler
  | Webhook_Stripe
  | Checkout_Redirect
  | Checkout_Success
  | Checkout_Cancel
  | Payment_Create
  | PaymentStatus_Get
  | Refund_Create
  | Merchant_Create.

(** [Use] with a prefix, or a handler for a method and a path. *)
Inductive entry : Type :=
  | Use (prefix : string) (mw : middleware)
  | On (method path : string) (ep : endpoint).

(** Which of the dependencies are set; a nil one registers nothing. *)
Record Deps : Type := {
  dp_Webhook : bool;
  dp_Checkout : bool;
  dp_Merchants : bool;
  dp_RateLimiter : bool;
  dp_Payment : bool;
  dp_PaymentStatus : bool;
  dp_Refund : bool;
  dp_Merchant : bool;
  dp_HMACSkew : Z;
  dp_AdminAPIKey : string;
}.

Definition mounted (b : bool) (es : list entry) : list entry := if b then es else [].

(** Fiber's [Get] and [Post]; a handler of GET is one of HEAD, too. *)
Definition Get (path : string) (ep : endpoint) : list entry := [On "HEAD" path ep; On "GET" path ep].
Definition Post (path : string) (ep : endpoint) : list entry := [On "POST" path ep].

Definition publicRoutes (deps : Deps) : list entry :=
  Get "/healthz" Health_Liveness ++ Get "/readyz" Health_Readiness ++ Get "/metrics" Metrics_Handler ++
  mounted (dp_Webhook deps) (Post "/webhook/stripe" Webhook_Stripe) ++
  mounted (dp_Checkout deps)
    (Get "/pay/:merchant_id/:order_id" Checkout_Redirect ++ Get "/checkout/success" Checkout_Success ++
     Get "/checkout/cancel" Checkout_Cancel).

Definition merchantAPI (deps : Deps) : list entry :=
  mounted (dp_Merchants deps) [Use "/api" (mw_HMACAuth (dp_HMACSkew deps))] ++
  mounted (dp_RateLimiter deps) [Use "/api" mw_RateLimit] ++
  mounted (dp_Payment deps) (Post "/api/payments" Payment_Create) ++
  mounted (dp_PaymentStatus deps) (Get "/api/payments/:id" PaymentStatus_Get) ++
  mounted (dp_Refund deps) (Post "/api/payments/:id/refund" Refund_Create).

Definition adminAPI (deps : Deps) : list entry :=
  mounted (negb (bool_decide (dp_AdminAPIKey deps = "")) && dp_Merchant deps)
    (Use "/admin" (mw_AdminAuth (dp_AdminAPIKey deps)) :: Post "/admin/merchants" Merchant_Create).

Definition NewRouter (deps : Deps) : list entry :=
  [Use "" mw_RequestID; Use "" mw_Prometheus] ++ publicRoutes deps ++ merchantAPI deps ++ adminAPI deps.

(** ** Dispatch *)

(** Fiber's matching of a prefix and of a route's path, and what it makes of a
    request: the middlewares the request goes through as long as each calls
    [Next], and the handler it reaches. *)
Class Fiber : Type := {
  match_prefix : string -> string -> bool;
  match_path : string -> string -> bool;
  dispatched : list entry -> string -> string -> list middleware * option endpoint;
}.

(** Documented: no prefix matches everything; a path that matches a route
    matches the prefix the route was registered under; entries are tried in
    the order of their registration, a middleware for every method and every
    path under its prefix, a handler for its own method and path, and the
    first handler ends the walk. *)
Class FiberLaws `{Fiber} : Prop := {
  match_root path : match_prefix "" path = true;
  match_group prefix rest path : match_path (prefix +:+ rest) path = true -> match_prefix prefix path = true;
  dispatched_none method path : dispatched [] method path = ([], None);
  dispatched_Use prefix mw es method path :
    dispatched (Use prefix mw :: es) method path =
    (if match_prefix prefix path then mw :: (dispatched es method path).1 else (dispatched es method path).1,
     (dispatched es method path).2);
  dispatched_On m pattern ep es method path :
    dispatched (On m pattern ep :: es) method path =
    if bool_decide (m = method) && match_path pattern path then ([], Some ep) else dispatched es method path;
}.

Ltac walk := rewrite ?dispatched_Use, ?dispatched_On, ?dispatched_none.

(** ** Theorems *)

Definition merchant_endpoint (ep : endpoint) : bool :=
  match ep with Payment_Create | PaymentStatus_Get | Refund_Create => true | _ => false end.

(** The prefix a handler is registered under. *)
Definition home (ep : endpoint) : string :=
  match ep with
  | Payment_Create | PaymentStatus_Get | Refund_Create => "/api"
  | Merchant_Create => "/admin"
  | _ => ""
  end.

(** Every handler is registered under its home. *)
Definition at_home (e : entry) : Prop :=
  match e with On _ pattern ep => exists rest, pattern = home ep +:+ rest | Use _ _ => True end.

Lemma mounted_Forall (P : entry -> Prop) b es : Forall P es -> Forall P (mounted b es).
Proof. intros Hes. destruct b; [done|constructor]. Qed.

Lemma NewRouter_at_home deps : Forall at_home (NewRouter deps).
Proof.
  unfold NewRouter, publicRoutes, merchantAPI, adminAPI.
  repeat (apply Forall_app; split); try apply mounted_Forall; repeat constructor; cbn; eexists; reflexivity.
Qed.

Section Guards.
Context `{FiberLaws}.

Lemma dispatched_home es method path mws ep :
  Forall at_home es -> dispatched es method path = (mws, Some ep) ->
  home ep = "" \/ match_prefix (home ep) path = true.
Proof.
  intros Hes. revert mws. induction Hes as [|[prefix mw|m pattern ep'] es He _ IH]; intros mws; walk; [done| |].
  - intros [= _ Hep]. apply (IH (dispatched es method path).1). rewrite <- Hep. by destruct (dispatched es method path).
  - destruct (bool_decide (m = method) && match_path pattern path) eqn:E; [|apply IH].
    intros [= _ <-]. right. destruct He as [rest ->]. apply andb_true_iff in E as [_ E]. by eapply match_group.
Qed.

Lemma dispatched_app es es' method path :
  dispatched (es ++ es') method path =
  match dispatched es method path with
  | (mws, Some ep) => (mws, Some ep)
  | (mws, None) => let '(mws', ep) := dispatched es' method path in (mws ++ mws', ep)
  end.
Proof.
  induction es as [|[prefix mw|m pattern ep] es IH]; cbn [app]; walk.
  - by destruct (dispatched es' method path).
  - rewrite IH. destruct (dispatched es method path) as [mws [ep|]]; [done|].
    destruct (dispatched es' method path) as [mws' ep']. by destruct (match_prefix prefix path).
  - by destruct (bool_decide (m = method) && match_path pattern path).
Qed.

(** Handlers registered in a list. *)
Definition handlers (es : list entry) : list endpoint :=
  omap (fun e => match e with On _ _ ep => Some ep | Use _ _ => None end) es.

Lemma dispatched_handler es method path mws ep : dispatched es method path = (mws, Some ep) -> ep ∈ handlers es.
Proof.
  revert mws. induction es as [|[prefix mw|m pattern ep'] es IH]; intros mws; walk; cbn [handlers]; [done| |].
  - intros [= _ Hep]. apply (IH (dispatched es method path).1). rewrite <- Hep. by destruct (dispatched es method path).
  - destruct (bool_decide (m = method) && match_path pattern path); [intros [= _ <-]; by left|].
    intros Hd. right. by eapply IH.
Qed.

Definition is_handler (e : entry) : Prop := match e with On _ _ _ => True | Use _ _ => False end.

Lemma handlers_plain es method path : Forall is_handler es -> (dispatched es method path).1 = [].
Proof.
  induction 1 as [|[prefix mw|m pattern ep] es He _ IH]; walk; [done|done|].
  by destruct (bool_decide (m = method) && match_path pattern path).
Qed.

(** No middleware is registered among the public routes. *)
Lemma public_plain deps method path :
  exists ep, dispatched (publicRoutes deps) method path = ([], ep) /\
    match ep with Some ep => home ep = "" | None => True end.
Proof.
  assert (Hn : (dispatched (publicRoutes deps) method path).1 = []).
  { apply handlers_plain. unfold publicRoutes. repeat (apply Forall_app; split); try apply mounted_Forall; repeat constructor. }
  destruct (dispatched (publicRoutes deps) method path) as [mws ep] eqn:Ed. cbn in Hn. subst mws. exists ep. split; [done|].
  destruct ep as [ep|]; [|done]. apply dispatched_handler in Ed. unfold publicRoutes, handlers in Ed.
  destruct (dp_Webhook deps), (dp_Checkout deps); cbn in Ed; rewrite !elem_of_cons, elem_of_nil in Ed;
    repeat destruct Ed as [->|Ed]; done.
Qed.

(** The guards of the merchant API that are registered. *)
Definition merchant_guards (deps : Deps) : list middleware :=
  (if dp_Merchants deps then [mw_HMACAuth (dp_HMACSkew deps)] else []) ++ (if dp_RateLimiter deps then [mw_RateLimit] else []).

Lemma merchantAPI_guards deps method path mws ep :
  dispatched (merchantAPI deps) method path = (mws, Some ep) ->
  merchant_endpoint ep = true /\ mws = merchant_guards deps.
Proof.
  intros Hd.
  assert (Hep : merchant_endpoint ep = true).
  { apply dispatched_handler in Hd. unfold merchantAPI, handlers in Hd.
    destruct (dp_Merchants deps), (dp_RateLimiter deps), (dp_Payment deps), (dp_PaymentStatus deps), (dp_Refund deps);
      cbn in Hd; rewrite ?elem_of_cons, elem_of_nil in Hd; repeat destruct Hd as [->|Hd]; done. }
  split; [done|].
  assert (Hp : match_prefix "/api" path = true).
  { assert (Hhome : Forall at_home (merchantAPI deps)).
    { pose proof (NewRouter_at_home deps) as Hall. unfold NewRouter in Hall. rewrite !Forall_app in Hall. tauto. }
    destruct (dispatched_home _ _ _ _ _ Hhome Hd) as [Hh|Hh]; destruct ep; try discriminate Hep; try discriminate Hh; exact Hh. }
  unfold merchantAPI, merchant_guards in *. rewrite !dispatched_app in Hd. revert Hd.
  assert (Hon : forall b es, Forall is_handler es -> (dispatched (mounted b es) method path).1 = []).
  { intros b es Hes. by apply handlers_plain, mounted_Forall. }
  assert (Huse : forall b mw, dispatched (mounted b [Use "/api" mw]) method path = (if b then [mw] else [], None)).
  { intros [] mw; cbn [mounted]; walk; [by rewrite Hp|done]. }
  rewrite !Huse. pose proof (Hon (dp_Payment deps) (Post "/api/payments" Payment_Create) ltac:(repeat constructor)) as H1.
  pose proof (Hon (dp_PaymentStatus deps) (Get "/api/payments/:id" PaymentStatus_Get) ltac:(repeat constructor)) as H2.
  pose proof (Hon (dp_Refund deps) (Post "/api/payments/:id/refund" Refund_Create) ltac:(repeat constructor)) as H3.
  destruct (dispatched (mounted (dp_Payment deps) _) method path) as [m1 [e1|]],
    (dispatched (mounted (dp_PaymentStatus deps) _) method path) as [m2 [e2|]],
    (dispatched (mounted (dp_Refund deps) _) method path) as [m3 e3]; cbn in H1, H2, H3; subst;
    intros [= <- _]; by rewrite ?app_nil_r.
Qed.

(** What stands in front of each handler of the API: every request gets a
    request id and is counted; a merchant's handler is reached only through
    authentication and then the rate limiter; merchants can be created only
    with the admin key, and only where one is configured; the health,
    metrics, webhook and checkout handlers have no other guard. *)
Lemma router_guards deps method path mws ep :
  dispatched (NewRouter deps) method path = (mws, Some ep) ->
  exists rest, mws = [mw_RequestID; mw_Prometheus] ++ rest /\
    (merchant_endpoint ep = true -> rest = merchant_guards deps) /\
    (ep = Merchant_Create -> mw_AdminAuth (dp_AdminAPIKey deps) ∈ rest /\ dp_AdminAPIKey deps <> "") /\
    (home ep = "" -> rest = []).
Proof.
  unfold NewRouter. rewrite !dispatched_app. walk. rewrite match_root. cbn [fst snd].
  destruct (public_plain deps method path) as (pe & -> & Hpe). destruct pe as [pe|].
  { intros [= <- <-]. exists []. split; [done|]. split; [|split; [|done]].
    - destruct pe; try discriminate Hpe; discriminate.
    - intros ->. discriminate Hpe. }
  destruct (dispatched (merchantAPI deps) method path) as [m1 [e1|]] eqn:E1.
  { intros [= <- <-]. apply merchantAPI_guards in E1 as [Hep ->]. exists (merchant_guards deps). split; [done|].
    split; [done|]. split; [intros ->; discriminate Hep|]. intros Hh. by destruct e1. }
  destruct (dispatched (adminAPI deps) method path) as [m2 e2] eqn:E2. intros [= <- ->].
  assert (Hadm : ep = Merchant_Create /\ mw_AdminAuth (dp_AdminAPIKey deps) ∈ m2 /\ dp_AdminAPIKey deps <> "").
  { unfold adminAPI in E2. destruct (negb _ && dp_Merchant deps) eqn:Eg; unfold mounted, Post in E2; revert E2; walk; [|done].
    intros E2. apply andb_true_iff in Eg as [Eg _]. apply negb_true_iff, bool_decide_eq_false in Eg.
    destruct (bool_decide ("POST" = method) && match_path "/admin/merchants" path) eqn:Em; cbn in E2; [|discriminate E2].
    apply andb_true_iff in Em as [_ Em]. rewrite (match_group "/admin" "/merchants" path Em) in E2.
    injection E2 as <- <-. split_and!; [done|left|done]. }
  destruct Hadm as (-> & Hin & Hne). exists (m1 ++ m2). split; [done|]. split; [discriminate|].
  split; [|discriminate]. intros _. split; [|done]. apply elem_of_app. by right.
Qed.
End Guards.
