(* ===== verification/Wiring.v ===== *)
(** * The whole server (cmd/server/main.go, run)

    Which parts a server is made of, from its configuration: the routes it
    serves, the Stripe client it talks to, the consumer of confirmed payments,
    the goroutines that run beside the requests, and the [deployment] the
    theorems of System are about. *)

From S2P Require Import Prelude GoStrings Domain Config ShardRouter Ports PaymentService CheckoutResolver.
From S2P Require Import Merchants Reconciliation ChainListener KafkaConsumer Runners Producer Effects Causes System Server Router.
Local Open Scope Z_scope.

Definition millisecond : Z := 1000000.

(** ** HTTP *)

(** Every dependency is set; only the admin key may be empty. *)
Definition server_deps (cfg : Config) : Deps := {|
  dp_Webhook := true; dp_Checkout := true; dp_Merchants := true; dp_RateLimiter := true; dp_Payment := true;
  dp_PaymentStatus := true; dp_Refund := true; dp_Merchant := true;
  dp_HMACSkew := sec_HMACTimestampSkew (Security cfg); dp_AdminAPIKey := sec_AdminAPIKey (Security cfg) |}.

(** ** Stripe *)

Inductive stripe_impl : Type :=
  | FakeClient
  | RealClient (apiKey webhookSecret apiVersion : string)
  | BreakerClient (inner : stripe_impl) (name : string).

Definition server_stripeClient (cfg : Config) : stripe_impl :=
  let inner := if bool_decide (st_Mode (Config.Stripe cfg) = "fake") then FakeClient
               else RealClient (st_SecretKey (Config.Stripe cfg)) (st_WebhookSecret (Config.Stripe cfg))
                      (st_APIVersion (Config.Stripe cfg)) in
  BreakerClient inner "stripe".

(** ** Redis *)

Section NewRedis.
Context {X C : Type}.
Variables (redis_NewClient : string -> string -> Z -> ST X C) (redis_Ping : C -> ST X (result unit)).

(** The client is handed out only after it answered a ping; after a failed
    ping it is not closed. *)
Definition NewRedis (cfg : RedisConfig) : ST X (result C) :=
  (let! rc := redis_NewClient (rd_Addr cfg) (rd_Password cfg) (rd_DB cfg) in
   let! p := redis_Ping rc in
   ret (match p with
        | Err e => Err (Wrap "ping redis" e)
        | Ok _ => Ok rc
        end))%easypay.
End NewRedis.

(** ** Kafka *)

Record ReaderConfig : Type := {
  rcf_Brokers : list string;
  rcf_Topic : string;
  rcf_GroupID : string;
  rcf_MinBytes : Z;
  rcf_MaxBytes : Z;
  rcf_CommitInterval : Z;
  rcf_MaxWait : Z;
}.

Record BatchConsumer : Type := {
  bcs_Reader : ReaderConfig;
  bcs_Brokers : list string;
  bcs_DLQTopic : string;
  bcs_BatchSize : Z;
  bcs_BatchWait : Z;
}.

Definition NewBatchConsumer (cfg : KafkaConfig) (topic : string) : BatchConsumer := {|
  bcs_Reader := {| rcf_Brokers := kf_Brokers cfg; rcf_Topic := topic; rcf_GroupID := kf_ConsumerGroup cfg;
    rcf_MinBytes := 1; rcf_MaxBytes := Z.shiftl 10 20; rcf_CommitInterval := 0; rcf_MaxWait := 500 * millisecond |};
  bcs_Brokers := kf_Brokers cfg; bcs_DLQTopic := kf_TopicDLQ cfg;
  bcs_BatchSize := 500; bcs_BatchWait := 200 * millisecond |}.

(** The settlement consumer's own limits. *)
Definition NewBatch (cfg : KafkaConfig) : BatchConsumer :=
  let c := NewBatchConsumer cfg (kf_TopicConfirmed cfg) in
  {| bcs_Reader := bcs_Reader c; bcs_Brokers := bcs_Brokers c; bcs_DLQTopic := bcs_DLQTopic c;
     bcs_BatchSize := 50; bcs_BatchWait := 100 * millisecond |}.

Record SettlementConsumer : Type := { sc_Timeout : Z; sc_maxAttempts : Z }.
Definition NewSettlementConsumer : SettlementConsumer := {| sc_Timeout := 10 * second; sc_maxAttempts := 3 |}.

(** ** The merchants repository *)

Record merchantRepo : Type := { mr_db : option handle; mr_cache : lruCache; mr_logicalShardCount : Z }.

(** At least one logical shard. *)
Definition NewMerchantRepository (router : multiShardRouter) (logicalShardCount : Z) : merchantRepo := {|
  mr_db := Control router; mr_cache := newLRUCache 1024 (5 * minute);
  mr_logicalShardCount := if logicalShardCount =? 0 then 1 else logicalShardCount |}.

(** ** The parts that run *)

Definition server_deployment (HexToAddress : string -> string) (cfg : Config) : deployment := {|
  dep_payments := paySvc cfg; dep_resolver := server_checkoutResolver cfg;
  dep_secret := st_WebhookSecret (Config.Stripe cfg); dep_reconcile := NewOrderReconciliation;
  dep_listener := NewListener (server_chainConfig HexToAddress cfg) |}.

(** What wakes the goroutines of [Listener.Run], and how far the loops of the
    subscriber and of a backfill pass are followed. *)
Record listener_wakes : Type := {
  lw_rounds : nat;
  lw_scan : nat;
  lw_backfill : list wake;
  lw_confirmation : list wake;
  lw_reconciler : list wake;
}.

(** [Listener.Run]: one goroutine per worker, all on the same state. *)
Definition Listener_Run (lw : listener_wakes) : list program :=
  [PSubscriber (lw_rounds lw); PBackfill (lw_scan lw) (lw_backfill lw); PConfirmation (lw_confirmation lw);
   PReconciler (lw_reconciler lw)].

(** The goroutines of the server beside the requests and the settlement
    consumer; the chain is only watched where it is configured and its client
    could be opened. *)
Definition background (cfg : Config) (chainClient : bool) (reconcile : list wake) (lw : listener_wakes) : list program :=
  PReconcile reconcile :: (if listenerEnabled cfg && chainClient then Listener_Run lw else []).

(** ** Theorems *)

(** C18. What a request to the server has passed when it reaches a handler,
    whatever its method and its path and however it is spelled: a request id and the request
    counter; for the merchant API, authentication with the configured clock
    skew and then the rate limiter; for the creation of merchants, the admin
    key, which is then not empty; nothing else for the health, metrics, webhook
    and checkout handlers. *)
Theorem server_api_guarded `{FiberLaws} cfg method path mws ep :
  dispatched (NewRouter (server_deps cfg)) method path = (mws, Some ep) ->
  exists rest, mws = [mw_RequestID; mw_Prometheus] ++ rest /\
    (merchant_endpoint ep = true -> rest = [mw_HMACAuth (sec_HMACTimestampSkew (Security cfg)); mw_RateLimit]) /\
    (ep = Merchant_Create -> mw_AdminAuth (sec_AdminAPIKey (Security cfg)) ∈ rest /\ sec_AdminAPIKey (Security cfg) <> "") /\
    (home ep = "" -> rest = []).
Proof. intros Hd. destruct (router_guards _ _ _ _ _ Hd) as (rest & Hm & Hg & Ha & Hp). by exists rest. Qed.

(** The requests to a server's programs carry int64 amounts; its goroutines
    need nothing. *)
Lemma background_ok cfg cc wakes lw p : p ∈ background cfg cc wakes lw -> program_ok p.
Proof.
  unfold background. intros [->|Hp]%elem_of_cons; [exact I|]. destruct (listenerEnabled cfg && cc).
  - unfold Listener_Run in Hp. rewrite !elem_of_cons, elem_of_nil in Hp. by repeat destruct Hp as [->|Hp].
  - by apply not_elem_of_nil in Hp.
Qed.
