(* ===== verification/Bench.v ===== *)
(** * The load generator (cmd/bench/main.go)

    Settings, the merchants it seeds, the signed requests it sends, the shared
    request counter of its workers and the report.  Random numbers, uuids, the
    HTTP exchange and encoding/json are parameters. *)

From Stdlib Require Import QArith Qround Lqa.
From S2P Require Import Prelude GoStrings Sha256 Sorting Domain Config ShardRouter TransactionRepo Signatures.
From S2P Require Import Ports.
From S2P Require Import Merchants Api TokenBucket.
Local Open Scope Z_scope.

(** ** Settings *)

Record config : Type := {
  b_url : string; b_dbDSN : string; b_configPath : string; b_concurrency : Z; b_total : Z; b_duration : Z;
  b_merchantID : string; b_apiKey : string; b_secretKey : string; b_method : string; b_pollStatus : bool;
  b_timeout : Z; b_merchants : Z; b_logicalShardCount : Z;
}.

(** The values before [flag.Parse]; the flags then change fields ([flags]), and
    the number of merchants is at least one. *)
Definition flagDefaults (dbDSN : string) : config := {|
  b_url := "http://localhost:8080"; b_dbDSN := dbDSN; b_configPath := ""; b_concurrency := 50; b_total := 1000;
  b_duration := 0; b_merchantID := "BENCH_M1"; b_apiKey := "bench-api-key";
  b_secretKey := "bench-secret-key-32-bytes-minimum-len"; b_method := "card"; b_pollStatus := false;
  b_timeout := 10 * second; b_merchants := 1; b_logicalShardCount := 0 |}.

Definition parseFlags (dbDSN : string) (flags : config -> config) : config :=
  let cfg := flags (flagDefaults dbDSN) in
  if b_merchants cfg <? 1 then {|
    b_url := b_url cfg; b_dbDSN := b_dbDSN cfg; b_configPath := b_configPath cfg; b_concurrency := b_concurrency cfg;
    b_total := b_total cfg; b_duration := b_duration cfg; b_merchantID := b_merchantID cfg; b_apiKey := b_apiKey cfg;
    b_secretKey := b_secretKey cfg; b_method := b_method cfg; b_pollStatus := b_pollStatus cfg;
    b_timeout := b_timeout cfg; b_merchants := 1; b_logicalShardCount := b_logicalShardCount cfg |}
  else cfg.

Definition defaultLogicalShardCount : Z := 16.

Definition clampShardCount (v : Z) : Z := if v <? 1 then 1 else if 255 <? v then 255 else u8 v.

Record seedSettings : Type := { ss_dsn : string; ss_logicalShardCount : Z }.

(** [loadConfig] is [appconfig.Load] on a path. *)
Definition resolveSeedSettings (loadConfig : string -> result Config) (cfg : config) : result seedSettings :=
  let logicalCount := if 0 <? b_logicalShardCount cfg then clampShardCount (b_logicalShardCount cfg)
                      else defaultLogicalShardCount in
  if bool_decide (b_configPath cfg = "") then
    if bool_decide (b_dbDSN cfg = "") then Err (Text "DB_DSN not set; pass --config, --db-dsn, or set DB_DSN env")
    else Ok {| ss_dsn := b_dbDSN cfg; ss_logicalShardCount := logicalCount |}
  else
    match loadConfig (b_configPath cfg) with
    | Err e => Err (Wrap ("load config " +:+ b_configPath cfg) e)
    | Ok app =>
        let count := if (b_logicalShardCount cfg =? 0) && (0 <? app_LogicalShardCount (App app))
                     then app_LogicalShardCount (App app) else logicalCount in
        match db_Shards (DB app) with
        | sh :: _ => Ok {| ss_dsn := sh_DSN sh; ss_logicalShardCount := count |}
        | [] => if bool_decide (db_DSN (DB app) = "") then Err (Text ("config " +:+ b_configPath cfg +:+ " has neither db.shards nor db.dsn"))
                else Ok {| ss_dsn := db_DSN (DB app); ss_logicalShardCount := count |}
        end
    end.

(** ** Merchants *)

Record benchMerchant : Type := { bm_id : string; bm_apiKey : string; bm_secretKey : string; bm_shardIndex : Z }.

Definition mintBenchMerchant (cfg : config) (i : Z) : benchMerchant :=
  if b_merchants cfg =? 1
  then {| bm_id := b_merchantID cfg; bm_apiKey := b_apiKey cfg; bm_secretKey := b_secretKey cfg; bm_shardIndex := 0 |}
  else {| bm_id := b_merchantID cfg +:+ "_" +:+ FormatInt i;
          bm_apiKey := b_apiKey cfg +:+ "-" +:+ FormatInt i;
          bm_secretKey := b_secretKey cfg +:+ "-" +:+ FormatInt i; bm_shardIndex := 0 |}.

Definition with_shardIndex (s : Z) (bm : benchMerchant) : benchMerchant :=
  {| bm_id := bm_id bm; bm_apiKey := bm_apiKey bm; bm_secretKey := bm_secretKey bm; bm_shardIndex := s |}.

(** The row [seedMerchants] inserts for a new merchant. *)
Definition newBenchRow (bm : benchMerchant) : Merchant := {|
  m_ID := 0; m_MerchantID := bm_id bm; m_Name := "Bench Merchant " +:+ bm_id bm; m_APIKey := bm_apiKey bm;
  m_SecretKey := bm_secretKey bm; m_CallbackURL := ""; m_RateLimit := 1000000; m_Status := MerchantStatusActive;
  m_ShardIndex := 0; m_CreatedAt := zero_time |}.

Section Seed.
Context {M : Type} `{MerchantRepository M}.
(** The UPDATE of a merchant's credentials, by merchant id. *)
Variable refresh : string -> string -> Z -> string -> ST M (result unit).

Definition seedOne (bm : benchMerchant) : ST M (result benchMerchant) :=
  (let! existing := GetByMerchantID (bm_id bm) in
   match existing with
   | Ok row =>
       let! u := refresh (bm_apiKey bm) (bm_secretKey bm) 1000000 (bm_id bm) in
       ret (match u with
            | Err e => Err (Wrap ("refresh merchant " +:+ bm_id bm) e)
            | Ok _ => Ok (with_shardIndex (m_ShardIndex row) bm)
            end)
   | Err e =>
       if errIs e ErrMerchantNotFound then
         let! ins := merchants_Insert (newBenchRow bm) in
         ret (match ins.2 with
              | Err e => Err (Wrap ("insert merchant " +:+ bm_id bm) e)
              | Ok _ => Ok (with_shardIndex (m_ShardIndex ins.1) bm)
              end)
       else ret (Err (Wrap ("lookup merchant " +:+ bm_id bm) e))
   end)%easypay.

Fixpoint seedLoop (cfg : config) (n : nat) (i : Z) : ST M (result (list benchMerchant)) :=
  match n with
  | O => ret (Ok [])
  | S n' =>
      (let! r := seedOne (mintBenchMerchant cfg i) in
       match r with
       | Err e => ret (Err e)
       | Ok bm =>
           let! rest := seedLoop cfg n' (i + 1) in
           ret (match rest with Err e => Err e | Ok l => Ok (bm :: l) end)
       end)%easypay
  end.

Definition seedMerchants (cfg : config) : ST M (result (list benchMerchant)) :=
  seedLoop cfg (Z.to_nat (b_merchants cfg)) 0.
End Seed.

(** The UPDATE of an existing merchant, on the table: no other merchant may hold
    the api key, and the values must fit the columns. *)
Definition refreshed (apiKey secretKey : string) (rateLimit : Z) (m : Merchant) : Merchant := {|
  m_ID := m_ID m; m_MerchantID := m_MerchantID m; m_Name := m_Name m; m_APIKey := apiKey;
  m_SecretKey := secretKey; m_CallbackURL := m_CallbackURL m; m_RateLimit := rateLimit;
  m_Status := MerchantStatusActive; m_ShardIndex := m_ShardIndex m; m_CreatedAt := m_CreatedAt m |}.

Definition sql_refresh `{MySQL} (fitsColumns : Merchant -> bool) (apiKey secretKey : string) (rateLimit : Z) (id : string)
    : ST MerchantDb (result unit) :=
  mt_exec (fun rows =>
    let hit := fun y => coll_eq (m_MerchantID y) id in
    if List.existsb (fun y => hit y && negb (fitsColumns (refreshed apiKey secretKey rateLimit y))) rows
    then (Err errTooLong, rows)
    else if List.existsb (fun y => negb (hit y) && coll_eq (m_APIKey y) apiKey) rows && List.existsb hit rows
    then (Err errDupMerchant, rows)
    else (Ok tt, (fun y => if hit y then refreshed apiKey secretKey rateLimit y else y) <$> rows)).

(** [printSeedReport]: the number of merchants of each shard, and the lines. *)
Definition perShard (merchants : list benchMerchant) : gmap Z Z :=
  fold_left (fun acc m => <[bm_shardIndex m := default 0 (acc !! bm_shardIndex m) + 1]> acc) merchants ∅.

(** [%3d] *)
Definition pad3 (s : string) : string := String.concat "" (replicate (3 - String.length s) " ") +:+ s.

Definition printSeedReport (merchants : list benchMerchant) (logicalCount : Z) : list string :=
  let per := perShard merchants in
  let shards := insertion_sort Z.leb (map_to_list per).*1 in
  ("seeded " +:+ FormatInt (Z.of_nat (length merchants)) +:+ " merchant(s) across " +:+ FormatInt (Z.of_nat (size per)) +:+ "/"
     +:+ FormatInt logicalCount +:+ " logical shard(s):") ::
  ((fun s => "  shard " +:+ pad3 (FormatInt s) +:+ ": " +:+ FormatInt (default 0 (per !! s)) +:+ " merchant(s)") <$> shards).

(** ** Requests *)

(** [time.Now], [rng.Intn] and [uuid.NewString]. *)
Class BenchRandom (X : Type) : Type := { rng_Intn : Z -> ST X Z; bench_UUID : ST X string }.

Record benchBody : Type := { bb_order_id : string; bb_amount : Z; bb_customer_email : string }.

(** A signed request to the API: headers, query and body. *)
Definition signedRequest (bm : benchMerchant) (ts payload query params : string) : Request := {|
  rq_Get := fun h =>
    if bool_decide (h = HeaderAPIKey) then bm_apiKey bm
    else if bool_decide (h = HeaderTimestamp) then ts
    else if bool_decide (h = HeaderSignature) then Hmac.Sign (bm_secretKey bm) (ts +:+ "." +:+ payload)
    else if bool_decide (h = "Content-Type") then "application/json"
    else "";
  rq_Query := fun q => if bool_decide (q = "method") then query else "";
  rq_Params := fun p => if bool_decide (p = "id") then params else "";
  rq_Body := payload;
  rq_RequestID := "" |}.

Definition truncate (s : string) (n : Z) : string :=
  if len s <=? n then s else String.substring 0 (Z.to_nat n) s +:+ "...".

Section Requests.
Context {X : Type} `{Clock X} `{BenchRandom X}.
(** [json.Marshal] on the body, the exchange with the server (status and body),
    and the order id of a decoded answer *)
Variable marshalBody : benchBody -> string.
Variable httpDo : Request -> ST X (result (Z * string)).
Variable decodeOrder : string -> option string.

Definition doCreate (cfg : config) (bm : benchMerchant) : ST X (string * Z * option error) :=
  (let! now := time_Now in
   let! uuid := bench_UUID in
   let! amount := rng_Intn 99900 in
   let! user := rng_Intn 10000 in
   let body := {| bb_order_id := "BENCH-" +:+ FormatInt now +:+ "-" +:+ String.substring 0 8 uuid;
                  bb_amount := 100 + amount;
                  bb_customer_email := "user" +:+ FormatInt user +:+ "@bench.local" |} in
   let payload := marshalBody body in
   let! now2 := time_Now in
   let ts := FormatInt (Unix now2) in
   let! resp := httpDo (signedRequest bm ts payload (if bool_decide (b_method cfg = "crypto") then "crypto" else "") "") in
   ret (match resp with
        | Err e => ("", 0, Some e)
        | Ok (status, rb) =>
            if (200 <=? status) && (status <? 300) then (default "" (decodeOrder rb), status, None)
            else ("", status, Some (Text ("status " +:+ FormatInt status +:+ ": " +:+ truncate rb 200)))
        end))%easypay.

Definition doGet (bm : benchMerchant) (orderID : string) : ST X (Z * option error) :=
  (let! now := time_Now in
   let ts := FormatInt (Unix now) in
   let! resp := httpDo (signedRequest bm ts "" "" orderID) in
   ret (match resp with
        | Err e => (0, Some e)
        | Ok (status, _) =>
            if 400 <=? status then (status, Some (Text ("status " +:+ FormatInt status))) else (status, None)
        end))%easypay.
End Requests.

(** ** Statistics *)

Record bresult : Type := { br_status : Z; br_latency : Z; br_err : option error; br_shardIndex : Z }.

Record stats : Type := mkStats {
  st_latencies : list Z; st_statusCnt : gmap Z Z; st_shardCnt : gmap Z Z; st_errCnt : Z; st_okCnt : Z;
}.

Definition newStats : stats := mkStats [] ∅ ∅ 0 0.

Definition bump (k : Z) (m : gmap Z Z) : gmap Z Z := <[k := default 0 (m !! k) + 1]> m.

Definition stats_add (r : bresult) (s : stats) : stats :=
  let failed := match br_err r with Some _ => true | None => false end in
  mkStats (st_latencies s ++ [br_latency r]) (bump (br_status r) (st_statusCnt s)) (bump (br_shardIndex r) (st_shardCnt s))
    (if failed then st_errCnt s + 1 else st_errCnt s) (if failed then st_okCnt s else st_okCnt s + 1).

Record snapshot : Type := { sn_total : Z; sn_ok : Z; sn_err : Z }.

Definition stats_snapshot (s : stats) : snapshot :=
  {| sn_total := Z.of_nat (length (st_latencies s)); sn_ok := st_okCnt s; sn_err := st_errCnt s |}.

(** ** The report *)

Record benchReport : Type := {
  rp_requests : Z; rp_ok : Z; rp_err : Z; rp_throughput : option Q;
  rp_statuses : list (Z * Z);
  rp_min : Z; rp_p50 : Z; rp_p90 : Z; rp_p95 : Z; rp_p99 : Z; rp_max : Z;
  rp_shards : list (Z * Z * Q);
}.

Section Report.
Variable fl : Q -> Q.

(** [int(float64(n-1) * q)], the literal [q] being rounded too *)
Definition percentileIndex (n : Z) (q : Q) : Z := Qfloor (fl (inject_Z (n - 1) * fl q)).

(** [s.latencies[idx]]; [None] is the panic of an index out of range. *)
Definition percentile (latencies : list Z) (q : Q) : option Z :=
  let idx := percentileIndex (Z.of_nat (length latencies)) q in
  if idx <? 0 then None else latencies !! Z.to_nat idx.

(** [elapsed.Seconds()] *)
Definition elapsedSeconds (elapsed : Z) : Q :=
  fl (inject_Z (Z.quot elapsed second) + fl (inject_Z (Z.rem elapsed second) / 1000000000)).

(** [None] is division by a zero duration: Go prints an infinity. *)
Definition throughput (n elapsed : Z) : option Q :=
  if Qeq_bool (elapsedSeconds elapsed) 0 then None else Some (fl (inject_Z n / elapsedSeconds elapsed)).

Definition sharePercent (count n : Z) : Q := fl (fl (100 * inject_Z count) / inject_Z n).

Definition sorted_keys (m : gmap Z Z) : list Z := insertion_sort Z.leb (map_to_list m).*1.

(** [report]: [Ok None] prints "no requests sent". *)
Definition stats_report (elapsed : Z) (s : stats) : result (option benchReport) :=
  let n := Z.of_nat (length (st_latencies s)) in
  if n =? 0 then Ok None
  else
    let lat := insertion_sort Z.leb (st_latencies s) in
    match percentile lat (1 # 2), percentile lat (9 # 10), percentile lat (19 # 20), percentile lat (99 # 100),
          head lat, last lat with
    | Some p50, Some p90, Some p95, Some p99, Some lo, Some hi =>
        Ok (Some {|
          rp_requests := n; rp_ok := st_okCnt s; rp_err := st_errCnt s; rp_throughput := throughput n elapsed;
          rp_statuses := (fun k => (k, default 0 (st_statusCnt s !! k))) <$> sorted_keys (st_statusCnt s);
          rp_min := lo; rp_p50 := p50; rp_p90 := p90; rp_p95 := p95; rp_p99 := p99; rp_max := hi;
          rp_shards := (fun k => (k, default 0 (st_shardCnt s !! k), sharePercent (default 0 (st_shardCnt s !! k)) n)) <$>
                       sorted_keys (st_shardCnt s) |})
    | _, _, _, _, _, _ => Err (Text "panic: index out of range")
    end.
End Report.

(** ** The workers *)

(** Where a worker stands: about to load the counter, about to test [stop],
    about to increment the counter, in its POST, in its GET, gone. *)
Inductive workerAt : Type := AtTop | AtStop | AtAdd | InCreate | InGet | Returned.

Record bench : Type := mkBench {
  bn_sent : Z; bn_workers : list workerAt; bn_results : list bresult; bn_stats : stats;
  bn_stop : bool; bn_done : bool;
}.

(** A step of worker [i] (with the answer of the exchange that ends there, and
    whether it carried an order id), of the collector, or of the timer of
    [runCtx]. *)
Inductive benchEvent : Type :=
  | Worker (i : nat) (r : bresult) (hasOrder : bool)
  | Collect
  | SeeDone
  | Expire.

Definition set_worker (i : nat) (a : workerAt) (b : bench) : bench :=
  mkBench (bn_sent b) (<[i := a]> (bn_workers b)) (bn_results b) (bn_stats b) (bn_stop b) (bn_done b).
Definition push_result (r : bresult) (b : bench) : bench :=
  mkBench (bn_sent b) (bn_workers b) (bn_results b ++ [r]) (bn_stats b) (bn_stop b) (bn_done b).

(** [None]: the step is not enabled (a send on a full channel blocks). *)
Definition benchStep (cfg : config) (ev : benchEvent) (b : bench) : option bench :=
  let full := b_concurrency cfg * 2 <=? Z.of_nat (length (bn_results b)) in
  match ev with
  | Worker i r hasOrder =>
      match bn_workers b !! i with
      | Some AtTop =>
          Some (set_worker i (if (b_duration cfg =? 0) && (b_total cfg <=? bn_sent b) then Returned else AtStop) b)
      | Some AtStop => Some (set_worker i (if bn_stop b || bn_done b then Returned else AtAdd) b)
      | Some AtAdd =>
          Some (mkBench (bn_sent b + 1) (<[i := InCreate]> (bn_workers b)) (bn_results b) (bn_stats b) (bn_stop b) (bn_done b))
      | Some InCreate =>
          if full then None
          else
            let poll := b_pollStatus cfg && (match br_err r with None => true | Some _ => false end) && hasOrder in
            Some (set_worker i (if poll then InGet else AtTop) (push_result r b))
      | Some InGet => if full then None else Some (set_worker i AtTop (push_result r b))
      | Some Returned | None => None
      end
  | Collect =>
      match bn_results b with
      | [] => None
      | r :: rest => Some (mkBench (bn_sent b) (bn_workers b) rest (stats_add r (bn_stats b)) (bn_stop b) (bn_done b))
      end
  | SeeDone => if bn_done b then Some (mkBench (bn_sent b) (bn_workers b) (bn_results b) (bn_stats b) true true) else None
  | Expire =>
      if 0 <? b_duration cfg then Some (mkBench (bn_sent b) (bn_workers b) (bn_results b) (bn_stats b) (bn_stop b) true) else None
  end.

Definition benchStart (cfg : config) : bench :=
  mkBench 0 (replicate (Z.to_nat (b_concurrency cfg)) AtTop) [] newStats false false.

Fixpoint benchRun (cfg : config) (evs : list benchEvent) (b : bench) : option bench :=
  match evs with
  | [] => Some b
  | ev :: rest => match benchStep cfg ev b with Some b' => benchRun cfg rest b' | None => None end
  end.

(** The collector leaves its loop when every worker has returned and the closed
    channel is empty. *)
Definition finished (b : bench) : bool :=
  forallb (fun a => match a with Returned => true | _ => false end) (bn_workers b) &&
  bool_decide (bn_results b = []).

(** ** [run] *)

Section Main.
Variable fl : Q -> Q.
Variable loadConfig : string -> result Config.
Context {M : Type} `{MerchantRepository M}.
(** The UPDATE of [seedMerchants], and connecting to the database it seeds. *)
Variable refresh : string -> string -> Z -> string -> ST M (result unit).
Variable openDB : string -> Z -> ST M (result unit).

(** The whole run under the schedule [evs]; [None] while it has not ended. *)
Definition bench_run (cfg : config) (evs : list benchEvent) (elapsed : Z) : ST M (option (result (option benchReport))) :=
  match resolveSeedSettings loadConfig cfg with
  | Err e => ret (Some (Err e))
  | Ok set =>
      (let! opened := openDB (ss_dsn set) (ss_logicalShardCount set) in
       match opened with
       | Err e => ret (Some (Err (Wrap "seed merchants" e)))
       | Ok _ =>
           let! merchants := seedMerchants refresh cfg in
           match merchants with
           | Err e => ret (Some (Err (Wrap "seed merchants" e)))
           | Ok _ =>
               ret (match benchRun cfg evs (benchStart cfg) with
                    | Some b => if finished b then Some (stats_report fl elapsed (bn_stats b)) else None
                    | None => None
                    end)
           end
       end)%easypay
  end.
End Main.
