(* ===== verification/BenchTheorems.v ===== *)
(** * The load generator: theorems

    The requests it signs pass the server's authentication, the merchants it
    seeds exist with the credentials it uses, its run ends and sends a bounded
    number of requests, and its report is well defined. *)

From Stdlib Require Import QArith Qround Lqa.
From S2P Require Import Prelude GoStrings Sha256 Sorting Domain Config ShardRouter TransactionRepo Signatures.
From S2P Require Import Ports Merchants MerchantTheorems Api TokenBucket Bench.
Local Open Scope Z_scope.

(** ** The run *)

(** The sum of a weight over the workers. *)
Fixpoint wsum (g : workerAt -> Z) (ws : list workerAt) : Z :=
  match ws with [] => 0 | a :: rest => g a + wsum g rest end.

Lemma wsum_insert g ws i a a' : ws !! i = Some a -> wsum g (<[i := a']> ws) = wsum g ws - g a + g a'.
Proof.
  revert i. induction ws as [|x ws IH]; intros [|i]; cbn; [done..|intros [= ->]; lia|].
  intros Hi. change (g x + wsum g (<[i := a']> ws) = g x + wsum g ws - g a + g a'). rewrite (IH i Hi). lia.
Qed.

Lemma wsum_nonneg g ws : (forall a, 0 <= g a) -> 0 <= wsum g ws.
Proof. intros Hg. induction ws as [|x ws IH]; cbn; [done|]. pose proof (Hg x). lia. Qed.

Lemma wsum_le g k ws : (forall a, g a <= k) -> wsum g ws <= k * Z.of_nat (length ws).
Proof. intros Hg. induction ws as [|x ws IH]; cbn [wsum length]; [lia|]. pose proof (Hg x). lia. Qed.

Lemma wsum_replicate g n a : wsum g (replicate n a) = g a * Z.of_nat n.
Proof. induction n as [|n IH]; cbn [replicate wsum]; lia. Qed.

Lemma wsum_pos g ws i a : (forall a, 0 <= g a) -> ws !! i = Some a -> 0 < g a -> 0 < wsum g ws.
Proof.
  intros Hg. revert i. induction ws as [|x ws IH]; intros [|i]; cbn; [done..|intros [= ->]|intros Hi]; intros Ha;
    [pose proof (wsum_nonneg g ws Hg); lia|pose proof (IH i Hi Ha); pose proof (Hg x); lia].
Qed.

(** Past the test of the counter; in a POST; in a GET; gone; and how many
    steps a worker may still take in this round. *)
Definition passed (a : workerAt) : Z := match a with AtStop | AtAdd => 1 | _ => 0 end.
Definition creating (a : workerAt) : Z := match a with InCreate => 1 | _ => 0 end.
Definition polling (a : workerAt) : Z := match a with InGet => 1 | _ => 0 end.
Definition gone (a : workerAt) : Z := match a with Returned => 1 | _ => 0 end.
Definition rank (a : workerAt) : Z :=
  match a with Returned => 0 | AtTop => 3 | AtStop => 2 | AtAdd => 1 | InGet => 5 | InCreate => 7 end.

(** Results produced so far. *)
Definition produced (b : bench) : Z := Z.of_nat (length (bn_results b)) + Z.of_nat (length (st_latencies (bn_stats b))).

Section Run.
Variable cfg : config.
Hypothesis no_duration : b_duration cfg = 0.
Hypothesis some_total : 1 <= b_total cfg.
Hypothesis some_worker : 1 <= b_concurrency cfg.

Definition most : Z := b_total cfg + b_concurrency cfg - 1.

Record bench_ok (b : bench) : Prop := {
  ok_workers : Z.of_nat (length (bn_workers b)) = b_concurrency cfg;
  ok_running : bn_stop b = false /\ bn_done b = false;
  ok_sent : 0 <= bn_sent b /\ bn_sent b + wsum passed (bn_workers b) <= most;
  ok_gone : 0 < wsum gone (bn_workers b) -> b_total cfg <= bn_sent b;
  ok_least : bn_sent b - wsum creating (bn_workers b) <= produced b;
  ok_most : produced b + 2 * wsum creating (bn_workers b) + wsum polling (bn_workers b) <= 2 * bn_sent b;
  ok_exact : b_pollStatus cfg = false ->
    produced b + wsum creating (bn_workers b) = bn_sent b /\ wsum polling (bn_workers b) = 0;
  ok_counts : st_okCnt (bn_stats b) + st_errCnt (bn_stats b) = Z.of_nat (length (st_latencies (bn_stats b)));
}.

Definition measure (b : bench) : Z :=
  7 * (most - bn_sent b) + wsum rank (bn_workers b) + Z.of_nat (length (bn_results b)).

Lemma bench_start_ok : bench_ok (benchStart cfg) /\ measure (benchStart cfg) = 7 * most + 3 * b_concurrency cfg.
Proof.
  unfold benchStart, measure, most. split; [split|]; cbn; rewrite ?wsum_replicate, ?length_replicate; cbn; try done; unfold produced, most; cbn; lia.
Qed.

Lemma weights a : 0 <= passed a <= 1 /\ 0 <= creating a <= 1 /\ 0 <= polling a <= 1 /\ 0 <= gone a <= 1 /\ 0 <= rank a.
Proof. destruct a; cbn; lia. Qed.

Ltac weigh := let x := fresh in intros x; pose proof (weights x); lia.

Lemma stats_add_counts r s :
  st_okCnt (stats_add r s) + st_errCnt (stats_add r s) = st_okCnt s + st_errCnt s + 1 /\
  Z.of_nat (length (st_latencies (stats_add r s))) = Z.of_nat (length (st_latencies s)) + 1.
Proof. unfold stats_add. cbn. rewrite length_app. cbn. destruct (br_err r); lia. Qed.

Lemma produced_push r b : produced (push_result r b) = produced b + 1.
Proof. unfold produced, push_result. cbn. rewrite length_app. cbn. lia. Qed.

(** One worker has moved: rewrite every weight, then arithmetic. *)
Ltac bsolve Hi :=
  unfold measure; split; [split|]; unfold most in *; rewrite ?produced_push in *; unfold push_result, set_worker, produced in *;
  cbn [bn_workers bn_stop bn_done bn_sent bn_results bn_stats] in *;
  rewrite ?length_insert, ?length_app; try (erewrite !(wsum_insert _ _ _ _ _ Hi));
  cbn [passed creating polling gone rank length] in *; try done; try lia; intros; repeat match goal with H : ?P -> _, H1 : ?P |- _ => specialize (H H1) end; try lia;
  try match goal with Hp : b_pollStatus _ = false, Hc : _ = true |- _ => by rewrite Hp in Hc end.

(** Every step keeps the invariant and uses up some of the measure. *)
Lemma bench_step_ok ev b b' : bench_ok b -> benchStep cfg ev b = Some b' -> bench_ok b' /\ measure b' < measure b.
Proof.
  intros [Hw [Hst Hdn] [H0 Hs] Hg Hl Hm He Hc] Hstep. unfold benchStep in Hstep.
  destruct ev as [i r hasOrder| | |].
  - destruct (bn_workers b !! i) as [a|] eqn:Hi; [|done].
    pose proof (wsum_le passed 1 (<[i := AtStop]> (bn_workers b)) ltac:(weigh)) as Hpass.
    rewrite length_insert, (wsum_insert passed _ i a AtStop Hi) in Hpass.
    pose proof (wsum_pos polling (bn_workers b) i a ltac:(weigh) Hi) as Hpos.
    rewrite Hst, Hdn in Hstep. cbn [orb] in Hstep.
    destruct a; try done.
    all: repeat case_match; try done; injection Hstep as <-; bsolve Hi.
  - destruct (bn_results b) as [|r rest] eqn:Er; [done|]. injection Hstep as <-.
    destruct (stats_add_counts r (bn_stats b)) as [H1 H2].
    unfold measure, produced in *. rewrite Er in *. cbn [length] in *.
    split; [split|]; unfold produced; cbn [bn_workers bn_stop bn_done bn_sent bn_results bn_stats]; try done; try lia.
    all: try (intros Hp; specialize (He Hp); lia).
  - by rewrite Hdn in Hstep.
  - by rewrite no_duration in Hstep.
Qed.

Lemma benchRun_ok evs b b' : bench_ok b -> benchRun cfg evs b = Some b' ->
  bench_ok b' /\ Z.of_nat (length evs) + measure b' <= measure b.
Proof.
  revert b. induction evs as [|ev evs IH]; cbn [benchRun length]; intros b Hb Hr; [injection Hr as <-; split; [done|lia]|].
  destruct (benchStep cfg ev b) as [b1|] eqn:Hs; [|done].
  destruct (bench_step_ok _ _ _ Hb Hs) as [Hb1 Hm]. destruct (IH b1 Hb1 Hr) as [Hb' Hm']. split; [done|lia].
Qed.

Lemma forallb_false {A} (f : A -> bool) l : forallb f l = false -> exists i x, l !! i = Some x /\ f x = false.
Proof.
  induction l as [|x l IH]; cbn; [done|]. destruct (f x) eqn:Ef; cbn; [intros Hl|intros _; by exists 0%nat, x].
  destruct (IH Hl) as (i & y & Hi & Hy). by exists (S i), y.
Qed.

(** A run that is not over can go on: a worker that is not blocked moves, or
    the collector makes room in the channel. *)
Lemma bench_progress b : finished b = false -> exists ev, is_Some (benchStep cfg ev b).
Proof.
  intros Hf. destruct (bn_results b) as [|r rest] eqn:Er.
  - unfold finished in Hf. rewrite bool_decide_eq_true_2, andb_true_r in Hf by done.
    apply forallb_false in Hf as (i & a & Hi & Ha).
    exists (Worker i {| br_status := 0; br_latency := 0; br_err := None; br_shardIndex := 0 |} false).
    unfold benchStep. rewrite Hi, Er. destruct a; try done; cbn [length]; rewrite ?(proj2 (Z.leb_gt _ _)) by (cbn; lia); eauto.
  - exists Collect. unfold benchStep. rewrite Er. eauto.
Qed.

Lemma finished_sums b : finished b = true ->
  bn_results b = [] /\ wsum creating (bn_workers b) = 0 /\ wsum gone (bn_workers b) = Z.of_nat (length (bn_workers b)).
Proof.
  unfold finished. intros Hf. apply andb_true_iff in Hf as [Hf Hr]. apply bool_decide_eq_true in Hr. split; [done|].
  clear Hr. induction (bn_workers b) as [|a ws IH]; [done|]. cbn [forallb] in Hf. apply andb_true_iff in Hf as [Ha Hf].
  destruct (IH Hf) as [IH1 IH2]. cbn [wsum length]. rewrite IH1, IH2. destruct a; try done. cbn [creating gone]. lia.
Qed.

End Run.

(** A negative --duration is neither a time limit nor "use --total": no worker
    ever returns. *)
Lemma negative_duration_never_ends cfg evs b :
  b_duration cfg < 0 -> 1 <= b_concurrency cfg -> benchRun cfg evs (benchStart cfg) = Some b -> finished b = false.
Proof.
  intros Hd Hc Hr.
  assert (Hinv : bn_stop b = false /\ bn_done b = false /\ Forall (fun a => a <> Returned) (bn_workers b) /\ bn_workers b <> []).
  { assert (H0 : bn_stop (benchStart cfg) = false /\ bn_done (benchStart cfg) = false /\
      Forall (fun a => a <> Returned) (bn_workers (benchStart cfg)) /\ bn_workers (benchStart cfg) <> []).
    { split_and!; [done|done|by apply Forall_replicate|]. unfold benchStart. cbn.
      destruct (Z.to_nat (b_concurrency cfg)) eqn:E; [lia|done]. }
    revert H0 Hr. generalize (benchStart cfg) as b0. induction evs as [|ev evs IH]; cbn [benchRun]; intros b0 (Hst & Hdn & Hws & Hne) Hr.
    { by injection Hr as <-. }
    destruct (benchStep cfg ev b0) as [b1|] eqn:Hs; [|done]. apply (IH b1); [|done]. clear IH Hr.
    unfold benchStep in Hs. rewrite Hst, Hdn in Hs. rewrite (proj2 (Z.eqb_neq _ _)) in Hs by lia. cbn [andb orb] in Hs.
    assert (Hset : forall i a', a' <> Returned -> Forall (fun a => a <> Returned) (<[i := a']> (bn_workers b0)) /\ <[i := a']> (bn_workers b0) <> []).
    { intros i a' Ha. split; [by apply Forall_insert|]. intros E. apply (f_equal length) in E. rewrite length_insert in E. by destruct (bn_workers b0). }
    repeat case_match; try done; injection Hs as <-; cbn; split_and!; try done; try (apply Hset; done); lia. }
  destruct Hinv as (_ & _ & Hws & Hne). unfold finished. destruct (bn_workers b) as [|a ws]; [done|].
  apply Forall_cons in Hws as [Ha _]. by destruct a.
Qed.

(** ** Percentiles *)

Section Percentiles.
Context (fl : Q -> Q) `{Rounding fl}.

Lemma percentileIndex_range n q :
  1 <= n <= 2 ^ 53 -> (0 <= q <= 1)%Q -> 0 <= percentileIndex fl n q <= n - 1.
Proof.
  intros Hn [Hq0 Hq1]. unfold percentileIndex.
  assert (H0 : (fl (inject_Z 0) == inject_Z 0)%Q) by (apply fl_int; lia).
  assert (H1 : (fl (inject_Z 1) == inject_Z 1)%Q) by (apply fl_int; lia).
  assert (Hm : (fl (inject_Z (n - 1)) == inject_Z (n - 1))%Q) by (apply fl_int; lia).
  assert (Hq : (0 <= fl q <= 1)%Q).
  { split; [rewrite <- H0|rewrite <- H1]; by apply fl_mono. }
  assert (Hi : (0 <= inject_Z (n - 1))%Q) by (change 0%Q with (inject_Z 0); rewrite <- Zle_Qle; lia).
  assert (Hx : (inject_Z 0 <= fl (inject_Z (n - 1) * fl q) <= inject_Z (n - 1))%Q).
  { split; [rewrite <- H0 at 1|rewrite <- Hm at 2]; apply fl_mono; change (inject_Z 0) with 0%Q; nra. }
  destruct Hx as [Hx0 Hx1]. apply Qfloor_resp_le in Hx0, Hx1. rewrite !Qfloor_Z in *. lia.
Qed.

Lemma percentileIndex_mono n q q' : 1 <= n -> (q <= q')%Q -> percentileIndex fl n q <= percentileIndex fl n q'.
Proof.
  intros Hn Hq. unfold percentileIndex. apply Qfloor_resp_le, fl_mono.
  assert (Hi : (0 <= inject_Z (n - 1))%Q) by (change 0%Q with (inject_Z 0); rewrite <- Zle_Qle; lia).
  pose proof (fl_mono _ _ Hq). nra.
Qed.

Abbreviation sortedZ := (StronglySorted (fun a b => (a <=? b) = true)).

Lemma sorted_lookup (l : list Z) i j x y : sortedZ l -> (i <= j)%nat -> l !! i = Some x -> l !! j = Some y -> x <= y.
Proof.
  intros Hs. revert i j. induction Hs as [|a l Hs IH Ha]; intros [|i] [|j] Hij Hx Hy; cbn in Hx, Hy; try done; try lia.
  - injection Hx as <-. injection Hy as <-. lia.
  - injection Hx as <-. rewrite Forall_lookup in Ha. apply Z.leb_le, (Ha j y Hy).
  - eapply IH; [|done|done]. lia.
Qed.

Lemma insertion_sortZ (l : list Z) : sortedZ (insertion_sort Z.leb l).
Proof. apply insertion_sort_sorted; intros *; rewrite !Z.leb_le; lia. Qed.

Lemma percentile_spec l q : l <> [] -> Z.of_nat (length l) <= 2 ^ 53 -> (0 <= q <= 1)%Q ->
  exists i x, percentile fl l q = Some x /\ l !! i = Some x /\
    Z.of_nat i = percentileIndex fl (Z.of_nat (length l)) q.
Proof.
  intros Hne Hlen Hq. assert (1 <= Z.of_nat (length l)) by (destruct l; [done|cbn; lia]).
  pose proof (percentileIndex_range (Z.of_nat (length l)) q ltac:(lia) Hq) as Hr. unfold percentile.
  destruct (Z.ltb_spec (percentileIndex fl (Z.of_nat (length l)) q) 0); [lia|].
  destruct (lookup_lt_is_Some_2 l (Z.to_nat (percentileIndex fl (Z.of_nat (length l)) q))) as [x Hx]; [lia|].
  exists (Z.to_nat (percentileIndex fl (Z.of_nat (length l)) q)), x. split_and!; [done|done|lia].
Qed.

(** The report of a run never indexes out of range: with no sample it says
    so, and otherwise (up to 2^53 samples, whatever the rounding of the float
    index) every quantile it prints is a measured latency and they come in
    order, min <= p50 <= p90 <= p95 <= p99 <= max. *)
Theorem report_quantiles elapsed s :
  Z.of_nat (length (st_latencies s)) <= 2 ^ 53 ->
  match stats_report fl elapsed s with
  | Err _ => False
  | Ok None => st_latencies s = []
  | Ok (Some rp) =>
      rp_requests rp = Z.of_nat (length (st_latencies s)) /\
      Forall (fun x => x ∈ st_latencies s) [rp_min rp; rp_p50 rp; rp_p90 rp; rp_p95 rp; rp_p99 rp; rp_max rp] /\
      rp_min rp <= rp_p50 rp <= rp_p90 rp /\ rp_p90 rp <= rp_p95 rp <= rp_p99 rp /\ rp_p99 rp <= rp_max rp
  end.
Proof.
  intros Hlen. unfold stats_report. destruct (Z.eqb_spec (Z.of_nat (length (st_latencies s))) 0) as [H0|Hn0].
  { apply length_zero_iff_nil. lia. }
  set (lat := insertion_sort Z.leb (st_latencies s)).
  assert (Hperm : lat ≡ₚ st_latencies s) by apply insertion_sort_perm.
  assert (Hl : length lat = length (st_latencies s)) by (by rewrite Hperm).
  assert (Hne : lat <> []) by (intros E; rewrite E in Hl; cbn in Hl; lia).
  assert (Hsort : sortedZ lat) by apply insertion_sortZ.
  assert (Hmono : forall q q', (q <= q')%Q -> percentileIndex fl (Z.of_nat (length lat)) q <= percentileIndex fl (Z.of_nat (length lat)) q').
  { intros. apply percentileIndex_mono; [lia|done]. }
  assert (Hspec := fun q => percentile_spec lat q Hne ltac:(lia)).
  destruct (Hspec (1 # 2)) as (i1 & x1 & -> & Hx1 & E1); [split; done|].
  destruct (Hspec (9 # 10)) as (i2 & x2 & -> & Hx2 & E2); [split; done|].
  destruct (Hspec (19 # 20)) as (i3 & x3 & -> & Hx3 & E3); [split; done|].
  destruct (Hspec (99 # 100)) as (i4 & x4 & -> & Hx4 & E4); [split; done|].
  destruct (head lat) as [lo|] eqn:Hlo; [|by destruct lat]. rewrite head_lookup in Hlo.
  destruct (last lat) as [hi|] eqn:Hhi; [|by apply last_None in Hhi]. rewrite last_lookup in Hhi.
  cbn [rp_requests rp_min rp_p50 rp_p90 rp_p95 rp_p99 rp_max].
  pose proof (lookup_lt_Some _ _ _ Hx4) as Hlt.
  assert (H12 := Hmono (1 # 2) (9 # 10) ltac:(done)). assert (H23 := Hmono (9 # 10) (19 # 20) ltac:(done)).
  assert (H34 := Hmono (19 # 20) (99 # 100) ltac:(done)).
  split; [done|]. split.
  { repeat constructor; rewrite <- Hperm; eapply list_elem_of_lookup_2; eauto. }
  split_and!; eapply (sorted_lookup lat);
    [done| |exact Hlo|exact Hx1|done| |exact Hx1|exact Hx2|done| |exact Hx2|exact Hx3|
     done| |exact Hx3|exact Hx4|done| |exact Hx4|exact Hhi]; lia.
Qed.
End Percentiles.

(** ** Requests *)

Lemma Hmac_roundtrip secret payload : Hmac.Verify secret payload (Hmac.Sign secret payload) = true.
Proof. unfold Hmac.Verify, Hmac.Sign. rewrite hexDecode_encode. by apply bool_decide_eq_true. Qed.

Lemma FormatInt_nonempty z : int64_range z -> FormatInt z <> "".
Proof. intros Hz E. pose proof (ParseInt_FormatInt z Hz) as Hp. by rewrite E in Hp. Qed.

Lemma Sign_nonempty secret payload : Hmac.Sign secret payload <> "".
Proof.
  unfold Hmac.Sign. intros E. pose proof (hexDecode_encode (hmac_sha256 secret payload)) as Hd. rewrite E in Hd.
  injection Hd as Hd. apply (f_equal String.length) in Hd. by rewrite hmac_sha256_length in Hd.
Qed.

(** Client and server agree on what is signed: a request the load generator
    signs (POST or GET, any body) for an active merchant whose row holds its
    credentials passes the server's authentication, and reaches the handler
    with that merchant, whenever the two clocks differ by no more than the
    allowed skew. *)
Theorem bench_request_accepted {W X A} `{MerchantRepository X} `{Clock X} `{RateLimiter X}
    (lift : forall B, ST X B -> ST W B) skew (next : Handler W A) bm sentAt payload query params
    (w w1 w2 : W) now m locals :
  bm_apiKey bm <> "" -> int64_range (Unix sentAt) -> int64_range (Unix now) ->
  0 <= Unix sentAt -> 0 <= Unix now -> Z.abs (Unix now - Unix sentAt) <= Seconds skew ->
  lift Z time_Now w = (now, w1) -> lift (result Merchant) (GetByAPIKey (bm_apiKey bm)) w1 = (Ok m, w2) ->
  m_SecretKey m = bm_secretKey bm -> m_Status m = MerchantStatusActive ->
  let rq := signedRequest bm (FormatInt (Unix sentAt)) payload query params in
  HMACAuth lift skew next rq locals w = next rq (Some m) w2.
Proof.
  intros Hk Hs Hn Hs0 Hn0 Habs Hnow Hget Hsec Hact rq. unfold HMACAuth.
  change (rq_Get rq HeaderAPIKey) with (bm_apiKey bm).
  change (rq_Get rq HeaderTimestamp) with (FormatInt (Unix sentAt)).
  change (rq_Get rq HeaderSignature) with (Hmac.Sign (bm_secretKey bm) (FormatInt (Unix sentAt) +:+ "." +:+ payload)).
  change (rq_Body rq) with payload.
  rewrite !bool_decide_eq_false_2 by first [done|by apply FormatInt_nonempty|apply Sign_nonempty]. cbn [orb].
  rewrite ParseInt_FormatInt by done. unfold bind. rewrite Hnow.
  unfold int64_range in *. rewrite outside_spec by lia. rewrite (proj2 (Z.ltb_ge _ _)) by lia.
  rewrite Hget, Hact, Hsec, Hmac_roundtrip. done.
Qed.

(** ** Seeding *)

(** With --config the bench seeds the database the server uses as its control
    plane, the first one it opens. *)
Lemma seeds_control_plane loadConfig cfg app set :
  b_configPath cfg <> "" -> loadConfig (b_configPath cfg) = Ok app -> resolveSeedSettings loadConfig cfg = Ok set ->
  exists sc rest, shardConfigs (DB app) = sc :: rest /\ sh_DSN sc = ss_dsn set /\
    (b_logicalShardCount cfg = 0 -> 0 < app_LogicalShardCount (App app) ->
       ss_logicalShardCount set = app_LogicalShardCount (App app)).
Proof.
  intros Hp Hl. unfold resolveSeedSettings, shardConfigs. rewrite bool_decide_eq_false_2, Hl by done.
  assert (Hcount : b_logicalShardCount cfg = 0 -> 0 < app_LogicalShardCount (App app) ->
    (b_logicalShardCount cfg =? 0) && (0 <? app_LogicalShardCount (App app)) = true).
  { intros -> H0. by apply Z.ltb_lt in H0 as ->. }
  destruct (db_Shards (DB app)) as [|sh rest].
  - case_bool_decide; [done|]. intros [= <-]. eexists _, _. split_and!; [done|done|]. intros H1 H2. cbn. by rewrite (Hcount H1 H2).
  - intros [= <-]. eexists _, _. split_and!; [done|done|]. intros H1 H2. cbn. by rewrite (Hcount H1 H2).
Qed.

(** The merchants of one run have different ids and different api keys. *)
Lemma minted_distinct cfg i j :
  1 < b_merchants cfg -> int64_range i -> int64_range j ->
  bm_id (mintBenchMerchant cfg i) = bm_id (mintBenchMerchant cfg j) \/
  bm_apiKey (mintBenchMerchant cfg i) = bm_apiKey (mintBenchMerchant cfg j) -> i = j.
Proof.
  intros Hm Hi Hj. unfold mintBenchMerchant. rewrite (proj2 (Z.eqb_neq _ _)) by lia. cbn [bm_id bm_apiKey].
  intros [E|E]; apply FormatInt_inj; try done; by do 2 apply str_app_inj in E.
Qed.

Section SeedRow.
Context `{MySQL} `{!MySQLLaws}.
Variable fitsColumns : Merchant -> bool.
Variable L : Z.
Hypothesis L_pos : 1 <= L.
#[local] Existing Instance merchant_repo.

Abbreviation seed bm := (seedOne (M := MerchantDb) (H := merchant_repo fitsColumns L) (sql_refresh fitsColumns) bm).

(** A merchant that this run has not looked up before (it looks every one up
    once) ends up as a row of the table with the credentials the requests will
    be signed with, active, and in the shard the report counts it in. *)
Lemma seedOne_row bm d bm' d' :
  lru_data (mt_cache d) !! ("mid:" +:+ bm_id bm) = None -> seed bm d = (Ok bm', d') ->
  bm_id bm' = bm_id bm /\
  exists row, row ∈ mt_rows d' /\ coll_eq (m_MerchantID row) (bm_id bm') = true /\
    m_APIKey row = bm_apiKey bm' /\ m_SecretKey row = bm_secretKey bm' /\
    m_Status row = MerchantStatusActive /\ m_ShardIndex row = bm_shardIndex bm'.
Proof.
  intros Hc. unfold seedOne, bind at 1. cbn [GetByMerchantID merchants_Insert merchant_repo].
  destruct (repo_GetByMerchantID (bm_id bm) d) as [existing d1] eqn:Eg.
  destruct (lookup_uncached_run "mid:" m_MerchantID (bm_id bm) d existing d1 Hc Eg) as [Hrows Hok].
  destruct existing as [row|e].
  - destruct (Hok row eq_refl) as [Hin Hcoll]. unfold bind, sql_refresh.
    destruct (mt_exec _ d1) as [u d2] eqn:Ex. unfold ret. destruct u as [[]|e]; intros [= <- <-]. split; [done|].
    destruct (mt_exec_rows _ _ _ _ Ex) as (_ & _ & Hex). destruct (Hex eq_refl) as [Hr ->]. clear Hex Ex.
    rewrite Hrows in *.
    destruct (List.existsb _ _) in *; [done|]. destruct (_ && _) in *; [done|].
    exists (refreshed (bm_apiKey bm) (bm_secretKey bm) 1000000 row). cbn. split_and!; try done.
    apply list_elem_of_fmap. exists row. by rewrite Hcoll.
  - destruct (errIs e ErrMerchantNotFound); [|done]. unfold bind.
    destruct (repo_InsertMerchant fitsColumns L (newBenchRow bm) d1) as [[m' res] d2] eqn:Ei. unfold ret. cbn [fst snd].
    destruct (insert_run fitsColumns L L_pos _ _ _ _ _ Ei) as (_ & Hcase & Hne).
    destruct res as [[]|e']; intros [= <- <-]. split; [done|].
    destruct Hcase as [E|(i & id & now & Happ & _ & _ & _ & Hi)]; [by destruct (Hne eq_refl)|].
    rewrite Happ. exists (with_id id now (prepared (newBenchRow bm) i)). split; [apply elem_of_app; right; by constructor|].
    cbn. split_and!; try done. apply coll_equiv.
Qed.
End SeedRow.
