(* ===== verification/TestEnv.v ===== *)
(** * The environment of the integration tests (integration_test/testenv.go)

    What the harness sets up and tears down, the migrations it runs, and the
    rows it seeds.  [harness_migrates_like_server] shows that its own copy of
    the migration runner does to the database what [RunMigrationsAll] does, so
    that the tests run on the schema the server runs on. *)

From S2P Require Import Prelude GoStrings Domain ShardRouter Migrations TransactionRepo TransactionStore PaymentService Merchants.
Local Open Scope Z_scope.

(** ** Setting up and tearing down *)

Inductive part_of_env : Type := MySQLContainer | MySQLPool | RedisContainer | RedisClient | KafkaContainer.
#[global] Instance part_of_env_eq_dec : EqDecision part_of_env.
Proof. solve_decision. Defined.

Inductive env_action : Type := Acquired (p : part_of_env) | Migrated | Disposed (p : part_of_env).

(** The fields of [TestEnv] that [Cleanup] looks at: which are not nil. *)
Record TestEnv : Type := {
  te_DB : bool;
  te_Redis : bool;
  te_mysqlC : bool;
  te_redisC : bool;
  te_kafkaC : bool;
  te_KafkaBrokers : list string;
}.

(** How each call of [SetupEnv] that can fail ends. *)
Record env_calls : Type := {
  ev_enabled : bool;
  ev_mysql : result unit;
  ev_dsn : result unit;
  ev_open : result unit;
  ev_migrate : result unit;
  ev_redis : result unit;
  ev_redisURL : result unit;
  ev_parseURL : result unit;
  ev_kafka : result unit;
  ev_brokers : result (list string);
}.

Inductive setup_end : Type := Skipped | Fatal (ctx : string) (e : error) | Ready (env : TestEnv).

Definition fatal_if {A} (r : result A) (ctx : string) (done : list env_action) (k : A -> list env_action * setup_end)
    : list env_action * setup_end :=
  match r with
  | Err e => (done, Fatal ctx e)
  | Ok a => let '(more, res) := k a in (done ++ more, res)
  end.

Definition SetupEnv (o : env_calls) : list env_action * setup_end :=
  if negb (ev_enabled o) then ([], Skipped)
  else
    fatal_if (ev_mysql o) "mysql start" [] (fun _ =>
    fatal_if (ev_dsn o) "mysql conn" [Acquired MySQLContainer] (fun _ =>
    fatal_if (ev_open o) "mysql open" [] (fun _ =>
    fatal_if (ev_migrate o) "migrations" [Acquired MySQLPool] (fun _ =>
    fatal_if (ev_redis o) "redis start" [Migrated] (fun _ =>
    fatal_if (ev_redisURL o) "redis conn" [Acquired RedisContainer] (fun _ =>
    fatal_if (ev_parseURL o) "parse redis url" [] (fun _ =>
    fatal_if (ev_kafka o) "kafka start" [Acquired RedisClient] (fun _ =>
    fatal_if (ev_brokers o) "kafka brokers" [Acquired KafkaContainer] (fun brokers =>
    ([], Ready {| te_DB := true; te_Redis := true; te_mysqlC := true; te_redisC := true; te_kafkaC := true;
                  te_KafkaBrokers := brokers |}))))))))))%easypay.

Definition Cleanup (e : TestEnv) : list env_action :=
  (if te_DB e then [Disposed MySQLPool] else []) ++
  (if te_Redis e then [Disposed RedisClient] else []) ++
  (if te_kafkaC e then [Disposed KafkaContainer] else []) ++
  (if te_redisC e then [Disposed RedisContainer] else []) ++
  (if te_mysqlC e then [Disposed MySQLContainer] else []).

(** ** Migrations *)

Section Harness.
Context `{Unicode}.

Definition splitSQL (body : string) : list string :=
  nonEmptyTrimmed (Split semi (sanitize (Split nl body))).

Section Runner.
Context {X : Type}.
Variable glob : string -> result (list string).
Variable readFile : string -> result string.
Variable dbExec : handle -> string -> ST X (result unit).

Abbreviation W := (list (handle * string) * X)%type.

Fixpoint applyStmts (db : handle) (stmts : list string) : ST W (result unit) :=
  match stmts with
  | [] => ret (Ok tt)
  | stmt :: rest =>
      (let! r := on_snd (dbExec db stmt) in
       match r with
       | Err e => ret (Err (Wrap "apply" e))
       | Ok _ => let! _u := acknowledge db stmt in applyStmts db rest
       end)%easypay
  end.

Fixpoint applyFiles (db : handle) (files : list string) : ST W (result unit) :=
  match files with
  | [] => ret (Ok tt)
  | f :: rest =>
      match readFile f with
      | Err e => ret (Err e)
      | Ok b =>
          (let! r := applyStmts db (splitSQL b) in
           match r with
           | Err e => ret (Err e)
           | Ok _ => applyFiles db rest
           end)%easypay
      end
  end.

Definition runMigrations (root : string) (db : handle) : ST W (result unit) :=
  match glob (root +:+ "/migrations/*.up.sql") with
  | Err e => ret (Err e)
  | Ok files => applyFiles db files
  end.
End Runner.
End Harness.

(** [projectRoot]: the working directory by its components, innermost first,
    and whether a directory holds a go.mod. *)
Fixpoint projectRoot (hasMod : list string -> bool) (wd : list string) : list string :=
  if hasMod wd then wd
  else match wd with
       | [] => []
       | _ :: parent => projectRoot hasMod parent
       end.

(** ** Seeding *)

(** The row of [SeedOrder], before its options. *)
Definition seedRow (merchantID orderID : string) (amount : Z) (status : string) : Transaction := {|
  t_MerchantID := merchantID; t_TransactionID := DeriveTransactionID merchantID orderID; t_OrderID := orderID;
  t_Amount := amount; t_Currency := "USD"; t_Status := status; t_PaymentMethod := "card";
  t_StripeSessionID := ""; t_StripePaymentIntentID := ""; t_CreatedAt := zero_time; t_UpdatedAt := zero_time;
  t_ShardIndex := 0 |}.

Definition SeedOrder {D} `{TransactionRepository D} (merchantID orderID : string) (amount : Z) (status : string)
    (opts : list (Transaction -> Transaction)) : ST D (Transaction * result unit) :=
  repo_Insert (fold_left (fun o f => f o) opts (seedRow merchantID orderID amount status)).

(** The UPDATE of [BackdateOrder]; a row it does not find is no error. *)
Definition set_created (created : Z) (x : Row) : Row :=
  mkRow (r_merchant x) (r_txn x) (r_order x) (r_amount x) (r_currency x) (r_status x) (r_method x)
    (r_pi x) (r_session x) created (r_updated x).

Definition BackdateOrder `{MySQL} (db : handle) (merchantID orderID : string) (age : Z) : ST Db (result unit) :=
  (let! now := Now in
   let! r := exec db (sql_update (by_order merchantID orderID) (set_created (ts_store (now - age)))) in
   ret (match r with Err e => Err (Wrap "backdate order" e) | Ok _ => Ok tt end))%easypay.

(** The row of [SeedMerchant], and what its upsert does to a row that is in the
    way: one with the merchant id, else one with the api key. *)
Definition seedMerchantRow (merchantID secretKey callbackURL : string) : Merchant := {|
  m_ID := 0; m_MerchantID := merchantID; m_Name := merchantID; m_APIKey := merchantID +:+ "-api"; m_SecretKey := secretKey;
  m_CallbackURL := callbackURL; m_RateLimit := 1000; m_Status := MerchantStatusActive; m_ShardIndex := 0; m_CreatedAt := 0 |}.

Definition reseeded (secretKey callbackURL : string) (m : Merchant) : Merchant := {|
  m_ID := m_ID m; m_MerchantID := m_MerchantID m; m_Name := m_Name m; m_APIKey := m_APIKey m; m_SecretKey := secretKey;
  m_CallbackURL := callbackURL; m_RateLimit := m_RateLimit m; m_Status := MerchantStatusActive;
  m_ShardIndex := m_ShardIndex m; m_CreatedAt := m_CreatedAt m |}.

Definition sql_upsert_merchant `{MySQL} (fitsColumns : Merchant -> bool) (id now : Z) (m : Merchant) (rows : list Merchant)
    : result unit * list Merchant :=
  let put (y : Merchant) := reseeded (m_SecretKey m) (m_CallbackURL m) y in
  let update (p : Merchant -> bool) := (Ok tt, (fun y => if p y then put y else y) <$> rows) in
  if negb (fitsColumns m) then (Err errTooLong, rows)
  else if List.existsb (fun y => coll_eq (m_MerchantID y) (m_MerchantID m)) rows
  then update (fun y => coll_eq (m_MerchantID y) (m_MerchantID m))
  else if List.existsb (fun y => coll_eq (m_APIKey y) (m_APIKey m)) rows
  then update (fun y => coll_eq (m_APIKey y) (m_APIKey m))
  else (Ok tt, rows ++ [with_id id (ts_store now) m]).

Definition SeedMerchant `{MySQL} (fitsColumns : Merchant -> bool) (merchantID secretKey callbackURL : string)
    : ST MerchantDb (result unit) :=
  (let! id := (fun d => (mt_nextID d, d)) in
   let! now := mt_Now in
   let! r := mt_exec (sql_upsert_merchant fitsColumns id now (seedMerchantRow merchantID secretKey callbackURL)) in
   ret (match r with Err e => Err (Wrap ("seed merchant " +:+ merchantID) e) | Ok _ => Ok tt end))%easypay.

(** ** Theorems *)

(** After seeding, the merchant is in the table with the given secret, unless
    its api key belongs to another one. *)
Lemma seeded_merchant `{MySQLLaws} fitsColumns m s cb id now rows rows' :
  sql_upsert_merchant fitsColumns id now (seedMerchantRow m s cb) rows = (Ok tt, rows') ->
  (forall y, y ∈ rows -> coll_eq (m_APIKey y) (m +:+ "-api") = true -> coll_eq (m_MerchantID y) m = true) ->
  exists y, y ∈ rows' /\ coll_eq (m_MerchantID y) m = true /\ m_SecretKey y = s /\ m_CallbackURL y = cb /\
    m_Status y = MerchantStatusActive.
Proof.
  unfold sql_upsert_merchant. cbn [seedMerchantRow m_MerchantID m_APIKey m_SecretKey m_CallbackURL].
  destruct (negb _); [done|]. destruct (List.existsb (fun y => coll_eq (m_MerchantID y) m) rows) eqn:Em.
  - intros [= <-] _. apply List.existsb_exists in Em as (y & Hy%list_elem_of_In & Hm). exists (reseeded s cb y).
    split; [|done]. apply list_elem_of_fmap. exists y. by rewrite Hm.
  - destruct (List.existsb (fun y => coll_eq (m_APIKey y) (m +:+ "-api")) rows) eqn:Ea; intros [= <-] Hkey.
    + exfalso. apply List.existsb_exists in Ea as (y & Hy & Ha). apply not_true_iff_false in Em. apply Em, List.existsb_exists.
      exists y. split; [done|]. apply Hkey; [by apply list_elem_of_In|done].
    + eexists. split; [apply elem_of_app; right; by left|]. cbn. split; [|done]. apply (@Equivalence_Reflexive _ _ coll_equiv).
Qed.

(** What [Cleanup] disposes of after a complete setup is what was acquired;
    when the setup ends the test early nothing is disposed of. *)
Lemma setup_disposed o tr env : SetupEnv o = (tr, Ready env) ->
  forall p, Acquired p ∈ tr <-> Disposed p ∈ Cleanup env.
Proof.
  unfold SetupEnv, fatal_if. destruct (ev_enabled o); [|done]. cbn [negb].
  destruct (ev_mysql o), (ev_dsn o), (ev_open o), (ev_migrate o), (ev_redis o), (ev_redisURL o), (ev_parseURL o),
    (ev_kafka o), (ev_brokers o); try done.
  intros [= <- <-] p. cbn. rewrite !elem_of_cons, elem_of_nil.
  destruct p; split; intros; repeat (match goal with H : _ \/ _ |- _ => destruct H end); try discriminate; try done; tauto.
Qed.

(** The nearest directory above with a go.mod, or the root. *)
Lemma projectRoot_nearest hasMod wd : exists below,
  wd = below ++ projectRoot hasMod wd /\
  (hasMod (projectRoot hasMod wd) = true \/ projectRoot hasMod wd = []) /\
  forall a b, below = a ++ b -> b <> [] -> hasMod (b ++ projectRoot hasMod wd) = false.
Proof.
  induction wd as [|d wd (below & E & Hm & Hb)]; cbn [projectRoot].
  - exists []. assert (E : (if hasMod [] then [] else []) = @nil string) by (by destruct (hasMod [])). rewrite E.
    split_and!; [done|by right|]. by intros [|] [|].
  - destruct (hasMod (d :: wd)) eqn:Ed.
    { exists []. split_and!; [done|by left|]. by intros [|] [|]. }
    exists (d :: below). split_and!; [by rewrite E at 1|done|].
    intros [|x a] b Ea Hne; cbn in Ea; [|injection Ea as _ Ea; by eapply Hb].
    subst b. cbn. by rewrite <- E.
Qed.

Section Equivalence.
Context `{Unicode} {X : Type}.
Variable glob : string -> result (list string).
Variable readFile : string -> result string.
Variable dbExec : handle -> string -> ST X (result unit).

(** Same effect, and success together. *)
Definition same_run (m m' : ST (list (handle * string) * X) (result unit)) : Prop :=
  forall w, (m w).2 = (m' w).2 /\ is_ok (m w).1 = is_ok (m' w).1.

Lemma applyStmts_same db stmts : same_run (applyStmts dbExec db stmts) (execPools dbExec [db] stmts).
Proof.
  intros w. cbn [execPools]. unfold bind.
  assert (E : applyStmts dbExec db stmts w = execStmts dbExec db stmts w).
  { revert w. induction stmts as [|stmt rest IH]; intros w; [done|]. cbn [applyStmts execStmts]. unfold bind.
    destruct (on_snd (dbExec db stmt) w) as [[u|e] w1]; [|done]. destruct (acknowledge db stmt w1) as [v w2]. apply IH. }
  rewrite E. destruct (execStmts dbExec db stmts w) as [[u|e] w1]; split; reflexivity.
Qed.

Lemma applyFiles_same db files : same_run (applyFiles readFile dbExec db files) (execFiles readFile dbExec [db] files).
Proof.
  induction files as [|f rest IH]; intros w; cbn [applyFiles execFiles]; [done|].
  destruct (readFile f) as [b|e]; [|done].
  destruct (applyStmts_same db (splitSQL b) w) as [Es Eo]. change (splitSQLStatements b) with (splitSQL b). unfold bind.
  destruct (applyStmts dbExec db (splitSQL b) w) as [[[]|e] w1], (execPools dbExec [db] (splitSQL b) w) as [[[]|e'] w1'];
    cbn in Es, Eo; try discriminate Eo; subst w1'; [apply IH|done].
Qed.

(** The harness of the integration tests migrates its database as the
    server does: on every file system and every database, its copy of the
    runner sends the same statements in the same order, leaves the same
    state, and succeeds exactly when [RunMigrationsAll] on the single-pool
    router does. *)
Theorem harness_migrates_like_server root db n :
  same_run (runMigrations glob readFile dbExec root db)
    (RunMigrationsAll glob readFile dbExec (NewSingleShardRouter db n) (root +:+ "/migrations")).
Proof.
  intros w. unfold runMigrations, RunMigrationsAll. rewrite str_app_assoc.
  change ("/migrations" +:+ "/*.up.sql") with "/migrations/*.up.sql".
  destruct (glob (root +:+ "/migrations/*.up.sql")) as [files|e]; [|done]. apply applyFiles_same.
Qed.
End Equivalence.
