(* ===== verification/Samples.v ===== *)
(** * Concrete instances of the parameters

    A small closed system used by the witnesses: ASCII-only Unicode tables, a
    database with a binary collation, one pool behind two logical shards, a
    Stripe that answers with fixed data and a Redis that remembers its keys.
    Each shows that the hypotheses made about a parameter can hold together. *)

From S2P Require Import Prelude GoStrings Sha256 Domain Codec Config ShardRouter TransactionRepo TransactionTables.
From S2P Require Import TransactionStore TransactionRefines StripeTypes Signatures Ports PaymentService Stripe WebhookService ChainEvents.
From S2P Require Import OnchainRepo ChainListener Merchants Api.
Local Open Scope Z_scope.

#[export] Instance ascii_unicode : Unicode := {|
  uni_upper := fun s => s; uni_lower := fun s => s;
  uni_equalfold := fun a b => bool_decide (a = b); uni_trimspace := fun s => s |}.

#[export] Instance binary_mysql : MySQL := {|
  coll_eq := fun a b => bool_decide (a = b); ts_store := fun t => t |}.

#[export] Instance binary_mysql_laws : MySQLLaws.
Proof.
  split; [|reflexivity]. split.
  - intros a. by apply bool_decide_eq_true.
  - intros a b ->%bool_decide_eq_true. by apply bool_decide_eq_true.
  - intros a b c ->%bool_decide_eq_true ->%bool_decide_eq_true. by apply bool_decide_eq_true.
Defined.

(** One pool, two logical shards. *)
Definition router1 : multiShardRouter := NewSingleShardRouter 0%nat 2.

Lemma router1_ok : router_ok router1.
Proof. split; [cbn; lia|discriminate|cbn; apply Z.divide_1_l|reflexivity]. Defined.

Definition db_empty : Db := mkDb [mkPool [] []] [1000] [].

Lemma db_empty_inv : sql_inv db_empty.
Proof. repeat constructor. Defined.

#[export] Instance repo1 : TransactionRepository Db := sql_repo router1.
#[export] Instance store1 : TransactionStore Db := sql_store router1 router1_ok.

Definition shop : Merchant := {|
  m_ID := 1; m_MerchantID := "shop"; m_Name := "Shop"; m_APIKey := "ak"; m_SecretKey := "sk";
  m_CallbackURL := ""; m_RateLimit := 1000; m_Status := MerchantStatusActive; m_ShardIndex := 1;
  m_CreatedAt := 0 |}.

(** A second merchant of the same shard, whose id ends where an order id of
    the first could begin. *)
Definition shop_eu : Merchant := {|
  m_ID := 2; m_MerchantID := "shop:eu"; m_Name := "Shop EU"; m_APIKey := "ak2"; m_SecretKey := "sk2";
  m_CallbackURL := ""; m_RateLimit := 1000; m_Status := MerchantStatusActive; m_ShardIndex := 1;
  m_CreatedAt := 0 |}.

(** The world outside of the repository: nothing to remember. *)
Definition sample_session : CheckoutSession := {|
  cs_ID := "cs_1"; cs_URL := "https://checkout.stripe.com/c/pay/cs_1"; cs_PaymentIntentID := "pi_1";
  cs_ClientSecret := "secret"; cs_Status := "open"; cs_AmountTotal := 1500; cs_Currency := "usd" |}.

Definition sample_intent (id : string) : PaymentIntent := {|
  pi_ID := id; pi_ClientSecret := ""; pi_Amount := 1500; pi_Currency := "usd"; pi_Status := "succeeded";
  pi_ChargeID := ""; pi_Metadata := ∅ |}.

Definition sample_refund : Refund := {|
  rf_ID := "re_1"; rf_Amount := 1500; rf_Currency := "usd"; rf_Status := "succeeded";
  rf_PaymentIntentID := "pi_1"; rf_ChargeID := "" |}.

Definition sample_event : Event := {|
  ev_ID := "evt_1"; ev_Type := "payment_intent.succeeded"; ev_Created := 1000; ev_APIVersion := "";
  ev_Data := "" |}.

#[export] Instance sample_client : Client unit := {|
  CreateCheckoutSession _ _ := ret (Ok sample_session);
  CreatePaymentIntent _ _ := ret (Ok (sample_intent "pi_1"));
  GetPaymentIntent id := ret (Ok (sample_intent id));
  GetCheckoutSession _ := ret (Ok sample_session);
  CreateRefund _ _ := ret (Ok sample_refund);
  VerifyWebhookSignature payload sig secret :=
    ret (if bool_decide (sig = "") then Err (Sentinel ErrSignatureMissing) else Ok sample_event) |}.

#[export] Instance sample_clock : Clock unit := ret (1000 * second).
#[export] Instance sample_publisher : EventPublisher unit := fun _ => ret (Ok tt).
#[export] Instance sample_merchants : MerchantRepository unit := {|
  GetByAPIKey _ := ret (Ok shop);
  GetByMerchantID m := ret (if bool_decide (m = "shop") then Ok shop else Err (Sentinel ErrMerchantNotFound));
  merchants_Insert m := ret (m, Ok tt) |}.
#[export] Instance sample_json : EventJSON := fun _ => Ok sample_event.

(** A decoded object: the payment of order "o1" of the shop. *)
#[export] Instance sample_object : ObjectJSON := fun _ => Ok {|
  so_ID := "pi_1"; so_Object := "payment_intent"; so_Amount := 1500; so_AmountTotal := 0; so_Currency := "usd";
  so_Status := "succeeded"; so_Metadata := <["order_id" := "o1"]> (<["merchant_id" := "shop"]> ∅);
  so_PaymentIntent := ""; so_LatestCharge := ""; so_Charge := ""; so_Refunded := false |}.

(** A Redis whose keys never expire. *)
#[export] Instance sample_redis : RedisSetNX (gmap string string) := fun k v _ r =>
  match r !! k with
  | Some _ => (Ok false, r)
  | None => (Ok true, <[k := v]> r)
  end.

#[export] Instance sample_redis_laws : RedisSetNXLaws (gmap string string).
Proof.
  refine {| live := fun r k => r !! k |}. intros k v ttl r res r'. unfold SetNX, sample_redis.
  destruct (r !! k) as [w|] eqn:E; intros [= <- <-].
  - split; [by left|]. split; [by eexists|done].
  - split; [|split; [done|by rewrite lookup_insert, decide_True]].
    intros k' Hne. left. by rewrite lookup_insert_ne.
Defined.

(** A breaker that lets everything through. *)
#[export] Instance sample_breaker : CircuitBreaker unit unit := fun _ A fn w =>
  let '(a, s) := fn w.1 in (a, (s, w.2)).

#[export] Instance sample_breaker_laws : CircuitBreakerLaws unit unit.
Proof.
  intros st A fn s b res s' b'. unfold Execute, sample_breaker. cbn.
  destruct (fn s) as [a s1]. intros [= <- <- <-]. by right.
Defined.

(** Services and requests. *)
Definition sample_service : paymentService := NewPaymentService {|
  opt_DefaultCurrency := "USD"; opt_CryptoContract := "0xC0"; opt_CryptoChainID := 11155111;
  opt_LazyCheckout := false; opt_PublicBaseURL := "https://pay.example"; opt_CheckoutSecret := "";
  opt_CheckoutTokenTTL := 0; opt_DefaultSuccessURL := "https://shop/ok"; opt_DefaultCancelURL := "" |}.

Definition sample_input (m : Merchant) (order : string) : CreatePaymentInput := {|
  in_Merchant := Some m; in_OrderID := order; in_Amount := 1500; in_Currency := "usd";
  in_PaymentMethodTypes := []; in_CustomerEmail := ""; in_SuccessURL := ""; in_CancelURL := "";
  in_Method := "" |}.

(** The database after the shop's first order. *)
Definition db_paid : Db := (Create sample_service (sample_input shop "o1") (db_empty, tt)).2.1.

#[export] Instance sample_locker : Locker unit := {|
  Acquire key _ := ret (Ok {| lk_key := "lock:" +:+ key; lk_token := "t" |});
  Release _ := ret (Ok tt) |}.
#[export] Instance sample_urlcache : URLCache unit := {| url_Get _ := ret None; url_Put _ _ := ret tt |}.
#[export] Instance sample_bucket : TokenBucket unit := ret (Ok tt).

(** A service that defers the Stripe call, and the database after an order. *)
Definition lazy_service : paymentService := NewPaymentService {|
  opt_DefaultCurrency := "USD"; opt_CryptoContract := "0xC0"; opt_CryptoChainID := 11155111;
  opt_LazyCheckout := true; opt_PublicBaseURL := "https://pay.example"; opt_CheckoutSecret := "";
  opt_CheckoutTokenTTL := 0; opt_DefaultSuccessURL := "https://shop/ok"; opt_DefaultCancelURL := "" |}.

Definition db_lazy : Db := (Create lazy_service (sample_input shop "o1") (db_empty, tt)).2.1.

(** A chain at block 100 with one event in every range; the receipt of the
    transaction "gone" cannot be fetched. *)
#[export] Instance sample_format : EthFormat := {|
  Hash_Hex := fun h => h; HexToHash := fun h => h; Address_Hex := fun _ => "0x0" |}.

Definition sample_log : Log := paymentLog "h1" 7 "sig" "o1" (zeros 20) (zeros 20) 1500 [] "".

#[export] Instance sample_chain : ChainClient unit := {|
  BlockNumber := ret (Ok 100);
  FilterLogs _ := ret (Ok [sample_log]);
  TransactionReceipt h := ret (if bool_decide (h = "gone") then Err (Text "connection reset") else Ok (Some {| rc_Status := 1 |})) |}.

#[export] Instance sample_onchain_repo : OnchainTxRepository OnchainDb := onchain_repo.
#[export] Instance sample_onchain_store : OnchainStore OnchainDb := onchain_store.

Definition sample_cfg : ChainConfig := {|
  cc_ChainID := 11155111; cc_ContractAddress := "0xC0"; cc_RequiredConfirmations := 12; cc_StartBlock := 1;
  cc_EventTopic := zeroHash |}.

Definition sample_tx (hash : string) : OnchainTransaction := {|
  o_ID := 1; o_TxHash := hash; o_BlockNumber := 7; o_MerchantID := "shop"; o_OrderID := "o1"; o_Payer := "0x0";
  o_Token := "0x0"; o_Amount := Some 1500; o_ChainID := 11155111; o_Confirmations := 0; o_RequiredConfirm := 12;
  o_Status := OnchainTxStatusPending; o_CreatedAt := 0 |}.

Definition txs_none : OnchainDb := mkOnchain [] 1 0 [].
Definition txs_two : OnchainDb := mkOnchain [sample_tx "gone"; sample_tx "h1"] 3 0 [].
Definition cursors_none : CursorDb := mkCursors ∅ [].

(** The merchants table, and randomness that never fails. *)
#[export] Instance sample_rand : RandBytes unit := fun n => ret (Ok (String.substring 0 (Z.to_nat n) (sha256 ""))).
Definition merchants_one : MerchantDb := mkMerchants [shop] 2 [0] [] [] (newLRUCache 1024 (5 * minute)).

(** Requests of the shop, signed at second 1000. *)
#[export] Instance sample_limiter : RateLimiter unit := fun _ limit _ => ret (Ok (true, limit - 1)).
#[export] Instance sample_parser : BodyParser := {|
  parsePayment _ := Ok {| cpr_OrderID := "o1"; cpr_Amount := 1500; cpr_Currency := "usd"; cpr_PaymentMethodTypes := [];
    cpr_CustomerEmail := ""; cpr_SuccessURL := ""; cpr_CancelURL := "" |};
  parseRefund _ := Ok {| rfr_Amount := 0; rfr_Reason := "" |};
  parseMerchant _ := Err (Text "bad json") |}.

Definition sample_request : Request := {|
  rq_Get := fun h =>
    if bool_decide (h = HeaderAPIKey) then "ak"
    else if bool_decide (h = HeaderTimestamp) then "1000"
    else if bool_decide (h = HeaderSignature) then Hmac.Sign "sk" "1000.{}"
    else if bool_decide (h = "Stripe-Signature") then "sig"
    else "";
  rq_Query := fun q => if bool_decide (q = "t") then CheckoutToken.Sign (900 * second) "token-secret" "shop" "o1" hour else "";
  rq_Params := fun p => if bool_decide (p = "id") || bool_decide (p = "order_id") then "o1"
                        else if bool_decide (p = "merchant_id") then "shop" else "";
  rq_Body := "{}";
  rq_RequestID := "req-1" |}.
