(* ===== verification/Witnesses.v ===== *)
(** * Witnesses: the theorems applied to a concrete system

    For each property with hypotheses, one instance of Samples at which they
    hold. *)

From S2P Require Import Prelude GoStrings Sha256 Domain Codec Config ShardRouter TransactionRepo TransactionTables.
From S2P Require Import TransactionStore TransactionRefines TransactionTheorems PendingBatch StripeTypes Signatures Ports PaymentService PaymentTheorems.
From S2P Require Import Stripe WebhookService WebhookTheorems CheckoutResolver Reconciliation Samples.
Local Open Scope Z_scope.

(** Close an equation between computed values. *)
Ltac compute_eq := vm_compute; reflexivity.

(** ** Tables and routing *)

Lemma one_insert : rtc (db_step router1) db_empty (run_call router1 (CInsert (newRow shop (sample_input shop "o1") "USD")) db_empty).
Proof. apply rtc_once, step_call. cbn. unfold int64_range. lia. Qed.

Lemma reachable_tables_wf_witness :
  exists rows, rows ∈ tables (run_call router1 (CInsert (newRow shop (sample_input shop "o1") "USD")) db_empty) /\
    length rows = 1%nat /\ NoDup (r_txn <$> rows).
Proof.
  eexists (default [] (head (tables (run_call router1 (CInsert (newRow shop (sample_input shop "o1") "USD")) db_empty)))).
  assert (Hin : default [] (head (tables (run_call router1 (CInsert (newRow shop (sample_input shop "o1") "USD")) db_empty)))
    ∈ tables (run_call router1 (CInsert (newRow shop (sample_input shop "o1") "USD")) db_empty)) by (vm_compute; left).
  split; [exact Hin|]. split; [compute_eq|].
  exact (proj1 (reachable_tables_wf router1 _ _ _ one_insert ltac:(repeat constructor) Hin)).
Defined.

Lemma reachable_tables_evolve_witness :
  Forall2 evolves (tables db_empty) (tables (run_call router1 (CInsert (newRow shop (sample_input shop "o1") "USD")) db_empty)).
Proof. exact (reachable_tables_evolve router1 _ _ one_insert). Defined.

Lemma router_range_partition_witness :
  exists h, For router1 1 = Some (Ok h) /\ pools router1 !! 0%nat = Some h.
Proof.
  destruct (router_range_partition router1 1 router1_ok ltac:(lia)) as [Hin _].
  destruct (Hin ltac:(cbn; lia)) as (h & p & Hf & Hp & _). exists h. split; [exact Hf|].
  cbn in Hf. injection Hf as <-. reflexivity.
Defined.

Lemma physicalToFirstLogical_inverse_witness :
  exists s, physicalToFirstLogical router1 1 !! 0%nat = Some s /\ For router1 s = Some (Ok 0%nat).
Proof.
  destruct (physicalToFirstLogical_inverse router1 0 router1_ok ltac:(cbn; lia)) as (s & Hs & _ & Hf & _).
  exists s. split; [exact Hs|exact Hf].
Defined.

Lemma sql_repository_refines_witness :
  exists S : @TransactionStore Db (sql_repo router1), @store_inv Db (sql_repo router1) S db_empty.
Proof.
  destruct (sql_repository_refines binary_mysql_laws router1 router1_ok) as (S & Hinv & _).
  exists S. apply Hinv. repeat constructor.
Defined.

(** ** Payments *)

Lemma db_paid_inv : sql_inv db_paid.
Proof.
  destruct (Create sample_service (sample_input shop "o1") (db_empty, tt)) as [[res|e] [d' x']] eqn:E.
  - assert (db_paid = d') as -> by (unfold db_paid; by rewrite E).
    refine (proj1 (Create_recorded (HS := store1) sample_service (sample_input shop "o1") db_empty tt res d' x' db_empty_inv _ E)).
    cbn. unfold int64_range. lia.
  - assert (Hok : is_ok (Create sample_service (sample_input shop "o1") (db_empty, tt)).1 = true) by compute_eq.
    rewrite E in Hok. discriminate Hok.
Qed.

Lemma sample_amount m o : int64_range (in_Amount (sample_input m o)).
Proof. cbn. unfold int64_range. lia. Qed.

Definition row1 : Transaction := newRow shop (sample_input shop "o1") "USD".

Lemma insert_then_get_witness :
  exists t, (GetByTransactionID router1 (t_ShardIndex row1) (t_MerchantID row1) (t_TransactionID row1)
    (Insert router1 row1 db_empty).2).1 = Ok t.
Proof.
  destruct (Insert router1 row1 db_empty) as [[t' [[]|e]] d1] eqn:E.
  2: { exfalso. assert (Hok : is_ok (Insert router1 row1 db_empty).1.2 = true) by compute_eq.
       rewrite E in Hok. discriminate Hok. }
  exists (sql_stored t'). cbn [snd].
  apply (insert_then_get router1 db_empty row1 t' d1 d1 0%nat db_empty_inv (sample_amount shop "o1")).
  - compute_eq.
  - exact E.
  - reflexivity.
  - exists (default (mkPool [] []) (d_pools (Insert router1 row1 db_empty).2 !! 0%nat)).
    replace d1 with (Insert router1 row1 db_empty).2 by (rewrite E; reflexivity). split; compute_eq.
Defined.

Lemma Create_durable_witness :
  exists res t, (Create sample_service (sample_input shop "o1") (db_empty, tt)).1 = Ok res /\
    t ∈ sql_content router1 db_paid 1 /\ t_Amount t = 1500.
Proof.
  destruct (Create sample_service (sample_input shop "o1") (db_empty, tt)) as [[res|e] [d' x']] eqn:E.
  - destruct (Create_durable (HS := store1) sample_service (sample_input shop "o1") db_empty tt res d' x' db_empty_inv
      (sample_amount shop "o1") E) as (m & t & [= <-] & Hin & Hrec).
    exists res, t. split; [reflexivity|]. split; [|exact (rec_amount _ _ _ _ _ Hrec)].
    assert (db_paid = d') as -> by (unfold db_paid; by rewrite E). exact Hin.
  - exfalso. assert (Hok : is_ok (Create sample_service (sample_input shop "o1") (db_empty, tt)).1 = true) by compute_eq.
    rewrite E in Hok. discriminate Hok.
Defined.

Lemma db_paid_exists : exists_already shop (sample_input shop "o1") db_paid.
Proof.
  exists (default (sql_stored (newRow shop (sample_input shop "o1") "USD")) (head (sql_content router1 db_paid 1))).
  split; [vm_compute; left|compute_eq].
Qed.

Lemma Create_idempotent_witness :
  content (Create sample_service (sample_input shop "o1") (db_paid, tt)).2.1 1 = content db_paid 1.
Proof.
  destruct (Create sample_service (sample_input shop "o1") (db_paid, tt)) as [res [d' x']] eqn:E.
  exact (proj1 (Create_idempotent (HS := store1) sample_service shop (sample_input shop "o1") db_paid tt res d' x' db_paid_inv
    (sample_amount shop "o1") eq_refl db_paid_exists E)).
Defined.

Lemma Create_retry_same_answer_witness :
  exists res res2, (Create sample_service (sample_input shop "o1") (db_empty, tt)).1 = Ok res /\
    (Create sample_service (sample_input shop "o1") (db_paid, tt)).1 = Ok res2 /\
    res_StripeSessionID res2 = res_StripeSessionID res.
Proof.
  destruct (Create sample_service (sample_input shop "o1") (db_empty, tt)) as [[res|e] [d' x']] eqn:E.
  2: { exfalso. assert (Hok : is_ok (Create sample_service (sample_input shop "o1") (db_empty, tt)).1 = true) by compute_eq.
       rewrite E in Hok. discriminate Hok. }
  assert (Hd : db_paid = d') by (unfold db_paid; by rewrite E). rewrite <- Hd in E.
  destruct (Create sample_service (sample_input shop "o1") (db_paid, tt)) as [[res2|e] [d2 y2]] eqn:E2.
  2: { exfalso. assert (Hok : is_ok (Create sample_service (sample_input shop "o1") (db_paid, tt)).1 = true) by compute_eq.
       rewrite E2 in Hok. discriminate Hok. }
  exists res, res2. split; [reflexivity|]. split; [reflexivity|].
  apply (Create_retry_same_answer (HS := store1) sample_service (sample_input shop "o1") db_empty tt res db_paid x' tt res2 d2 y2
    db_empty_inv (sample_amount shop "o1") E E2).
Defined.

(** The database after merchant "shop:eu" used order "o1". *)
Definition db_eu : Db := (Create sample_service (sample_input shop_eu "o1") (db_empty, tt)).2.1.

Lemma db_eu_inv : sql_inv db_eu.
Proof.
  destruct (Create sample_service (sample_input shop_eu "o1") (db_empty, tt)) as [[res|e] [d' x']] eqn:E.
  - assert (db_eu = d') as -> by (unfold db_eu; by rewrite E).
    exact (proj1 (Create_recorded (HS := store1) sample_service (sample_input shop_eu "o1") db_empty tt res d' x' db_empty_inv (sample_amount _ _) E)).
  - assert (Hok : is_ok (Create sample_service (sample_input shop_eu "o1") (db_empty, tt)).1 = true) by compute_eq.
    rewrite E in Hok. discriminate Hok.
Qed.

Lemma Create_refuses_foreign_id_witness :
  is_ok (Create sample_service (sample_input shop "eu:o1") (db_eu, tt)).1 = false.
Proof.
  destruct (Create sample_service (sample_input shop "eu:o1") (db_eu, tt)) as [res [d' x']] eqn:E.
  apply (Create_refuses_foreign_id (HS := store1) sample_service shop (sample_input shop "eu:o1") db_eu tt res d' x'
    (default (sql_stored (newRow shop_eu (sample_input shop_eu "o1") "USD")) (head (sql_content router1 db_eu 1)))
    db_eu_inv (sample_amount _ _) eq_refl).
  - vm_compute. left.
  - compute_eq.
  - compute_eq.
  - exact E.
Defined.

(** ** Cross-shard reads *)

Lemma scatterFirst_correct_witness :
  exists t, (scatterFirst router1 (fun x => coll_eq (r_order x) "o1") db_paid).1 = Ok t /\
    For router1 (t_ShardIndex t) = Some (Ok 0%nat).
Proof.
  pose proof (scatterFirst_correct router1 router1_ok (fun x => coll_eq (r_order x) "o1") db_paid db_paid_inv) as Hs.
  assert (Hok : is_ok (scatterFirst router1 (fun x => coll_eq (r_order x) "o1") db_paid).1 = true) by compute_eq.
  destruct (scatterFirst _ _ db_paid) as [[t|e] d']; [|discriminate].
  destruct Hs as (h & rows & x & t0 & Hrows & _ & _ & _ & _ & Hf). exists t. split; [reflexivity|].
  cbn [fst] in *. rewrite Hf. destruct h as [|h]; [reflexivity|]. vm_compute in Hrows. destruct h; discriminate.
Defined.

Lemma GetPendingBefore_correct_witness :
  exists ts, (GetPendingBefore router1 2000 10 db_paid).1 = Ok ts.
Proof.
  apply (GetPendingBefore_correct router1 router1_ok 2000 10 db_paid db_paid_inv ltac:(lia)).
  - apply NoDup_singleton.
  - repeat constructor. eexists. split; compute_eq.
Defined.

(** ** Signatures *)

Lemma webhook_signature_sound_witness :
  exists ts sig, ts <> 0 /\ hexDecode sig = Some (hmac_sha256 "whsec" (FormatInt ts +:+ "." +:+ "{}")).
Proof.
  assert (Hv : StripeSignature.verifyWithTolerance "{}" (StripeSignature.SignPayload "{}" "whsec" 1000) "whsec"
    (5 * minute) (1000 * second) = Ok sample_event) by compute_eq.
  destruct (webhook_signature_sound "{}" _ "whsec" (5 * minute) (1000 * second) sample_event
    ltac:(split; [discriminate|reflexivity]) ltac:(discriminate) ltac:(discriminate) Hv)
    as (ts & sig & p & q & v & _ & Hts & _ & _ & _ & _ & _ & Hmac & _).
  exists ts, sig. split; [exact Hts|exact Hmac].
Defined.

Lemma webhook_signature_roundtrip_witness :
  StripeSignature.verifyWithTolerance "{}" (StripeSignature.SignPayload "{}" "whsec" 1000) "whsec"
    (5 * minute) (1301 * second) = Err (Sentinel ErrSignatureExpired).
Proof.
  rewrite (webhook_signature_roundtrip "{}" "whsec" 1000 (5 * minute) (1301 * second) sample_event
    ltac:(discriminate) ltac:(discriminate) ltac:(split; [discriminate|reflexivity]) ltac:(split; reflexivity) eq_refl).
  reflexivity.
Defined.

Lemma breaker_transparent_witness :
  exists res0, @CreateCheckoutSession unit sample_client (checkoutRequest sample_service shop (sample_input shop "o1") "USD") "k" tt
    = (res0, tt).
Proof.
  assert (E : @CreateCheckoutSession _ (breakerClient (B := unit) sample_client)
    (checkoutRequest sample_service shop (sample_input shop "o1") "USD") "k" (tt, tt) = (Ok sample_session, (tt, tt))) by compute_eq.
  destruct (breaker_transparent sample_client _ _ _ _ _ _ _ E) as [[_ Hc]|(res0 & Hr & _)].
  - discriminate.
  - exists res0. exact Hr.
Defined.

(** ** Webhooks and refunds *)

(** Handling the shop's payment event, first on a database that knows the
    order, then on an empty one. *)
Abbreviation process d r := (Process "whsec" "{}" "sig" (d, (r, tt))) (only parsing).
Definition no_keys : gmap string string := ∅.

Lemma webhook_effect_witness :
  exists ev x1 r1 st, @VerifyWebhookSignature unit _ "{}" "sig" "whsec" tt = (Ok ev, x1) /\
    SetNX (dedupKey ev) "1" (24 * hour) no_keys = (Ok true, r1) /\ event_status (ev_Type ev) = Some st /\
    handler_effect (HS := store1) ev st x1 db_paid (process db_paid no_keys).2.1.
Proof.
  destruct (process db_paid no_keys) as [res [d' [r' x']]] eqn:E.
  destruct (webhook_effect (HS := store1) "whsec" "{}" "sig" db_paid no_keys tt res d' r' x' db_paid_inv E) as [Hun|Heff].
  - exfalso. assert (Hsql : sql_content router1 d' 1 = sql_content router1 db_paid 1) by exact (Hun 1).
    assert (Hd : d' = (process db_paid no_keys).2.1) by (rewrite E; reflexivity).
    rewrite Hd in Hsql. apply (f_equal (fun l => t_Status <$> l)) in Hsql. vm_compute in Hsql. discriminate Hsql.
  - exact Heff.
Defined.

Lemma webhook_success_witness :
  published (HS := store1) sample_event TransactionStatusPaid db_paid (process db_paid no_keys).2.1 (Ok tt) tt.
Proof.
  destruct (process db_paid no_keys) as [[[]|e] [d' [r' x']]] eqn:E.
  - destruct (webhook_success (HS := store1) "whsec" "{}" "sig" db_paid no_keys tt d' r' x' db_paid_inv E) as (ev & x1 & Hv & Hp).
    injection Hv as <- <-. destruct x'. apply Hp; [reflexivity|discriminate].
  - exfalso. assert (Hok : is_ok (process db_paid no_keys).1 = true) by compute_eq.
    rewrite E in Hok. discriminate Hok.
Defined.

(** An event that names no intent is not checked with Stripe: it marks its
    order paid even where Stripe denies every intent. *)
Definition denying_client : Client unit := {|
  CreateCheckoutSession _ _ := ret (Ok sample_session);
  CreatePaymentIntent _ _ := ret (Err (Text "denied"));
  GetPaymentIntent _ := ret (Err (Text "denied"));
  GetCheckoutSession _ := ret (Err (Text "denied"));
  CreateRefund _ _ := ret (Err (Text "denied"));
  VerifyWebhookSignature _ _ _ := ret (Ok {|
    ev_ID := "evt_2"; ev_Type := "checkout.session.completed"; ev_Created := 1000; ev_APIVersion := ""; ev_Data := "" |}) |}.

Definition bare_object : ObjectJSON := fun _ => Ok {|
  so_ID := "cs_1"; so_Object := "checkout.session"; so_Amount := 0; so_AmountTotal := 1500; so_Currency := "usd";
  so_Status := "open"; so_Metadata := <["order_id" := "o1"]> (<["merchant_id" := "shop"]> ∅);
  so_PaymentIntent := ""; so_LatestCharge := ""; so_Charge := ""; so_Refunded := false |}.

Lemma bare_event_pays :
  t_Status <$> sql_content router1 db_paid 1 = [TransactionStatusCreated] /\
  t_Status <$> sql_content router1
    (Process (X := unit) (H0 := bare_object) (H3 := denying_client) "whsec" "{}" "sig" (db_paid, (no_keys, tt))).2.1 1
  = [TransactionStatusPaid].
Proof. split; vm_compute; reflexivity. Qed.

Definition one_key : gmap string string := <[dedupKey sample_event := "1"]> ∅.

Lemma webhook_failure_is_final_witness :
  is_ok (process db_empty no_keys).1 = false /\
  is_ok (process (process db_empty no_keys).2.1 (process db_empty no_keys).2.2.1).1 = false.
Proof.
  destruct (process db_empty no_keys) as [[[]|e] [d' [r' x']]] eqn:E.
  { exfalso. assert (Hok : is_ok (process db_empty no_keys).1 = false) by compute_eq. rewrite E in Hok. discriminate Hok. }
  split; [reflexivity|]. cbn [fst snd].
  destruct (process d' r') as [res2 [d2 [r2 y2]]] eqn:E2.
  exact (proj2 (webhook_failure_is_final (HS := store1) "whsec" "{}" "sig" sample_event db_empty no_keys tt tt one_key e d' r' x' tt tt
    res2 d2 r2 y2 eq_refl ltac:(compute_eq) db_empty_inv E eq_refl E2)).
Defined.

Definition sample_refund_input : RefundInput := {|
  ri_Merchant := Some shop; ri_OrderID := "o1"; ri_Amount := 0; ri_Reason := " requested "; ri_IdemKey := "" |}.

Lemma refund_spec_witness :
  exists t ans, List.find (by_key key_eq "shop" "o1") (content db_paid 1) = Some t /\ t_StripePaymentIntentID t <> "" /\
    @CreateRefund unit _ (refundOf sample_refund_input t)
      (if bool_decide (ri_IdemKey sample_refund_input = "") then "refund:" +:+ t_OrderID t else ri_IdemKey sample_refund_input) tt = (ans, tt).
Proof.
  destruct (service_CreateRefund sample_refund_input (db_paid, (no_keys, tt))) as [res [d' [r' []]]] eqn:E.
  assert (Hok : is_ok (service_CreateRefund sample_refund_input (db_paid, (no_keys, tt))).1 = true) by compute_eq.
  rewrite E in Hok. cbn in Hok.
  destruct (refund_spec (HS := store1) sample_refund_input db_paid no_keys tt res d' r' tt db_paid_inv E)
    as (_ & _ & [(Hno & _)|(m & t & ans & [= <-] & _ & Hf & Hpi & Ha & _)]); [rewrite Hok in Hno; discriminate Hno|].
  exists t, ans. split; [exact Hf|]. split; [exact Hpi|exact Ha].
Defined.

(** ** Hosted checkout and reconciliation *)

Definition sample_resolver : checkoutResolver := {|
  cr_hasCache := true; cr_hasBucket := true; cr_defaultSuccessURL := "https://shop/ok";
  cr_defaultCancelURL := "" |}.

Lemma Resolve_accounted_witness :
  exists x1 x2 mer, @GetByMerchantID unit _ "shop" x1 = (Ok mer, x2) /\
    resolve_contract (HS := store1) (X := unit) sample_resolver (m_ShardIndex mer) "shop" "o1" db_paid
      (Resolve sample_resolver "shop" "o1" (db_paid, tt)).2.1
      (Resolve sample_resolver "shop" "o1" (db_paid, tt)).1.
Proof.
  destruct (Resolve sample_resolver "shop" "o1" (db_paid, tt)) as [res [d' x']] eqn:E.
  assert (Hok : is_ok (Resolve sample_resolver "shop" "o1" (db_paid, tt)).1 = true) by compute_eq.
  rewrite E in Hok.
  destruct (Resolve_accounted (HS := store1) sample_resolver "shop" "o1" db_paid tt res d' x' db_paid_inv E)
    as [(url & _ & Hg & _)|[[Hf _]|Hc]].
  - discriminate.
  - cbn in Hok. rewrite Hf in Hok. discriminate Hok.
  - exact Hc.
Defined.

Lemma Resolve_reuses_session_witness :
  same_payments (HS := store1) db_paid (resolveRow sample_resolver 1 "shop" "o1" "shop:o1" (db_paid, tt)).2.1.
Proof.
  destruct (resolveRow sample_resolver 1 "shop" "o1" "shop:o1" (db_paid, tt)) as [res [d' x']] eqn:E.
  exact (proj1 (Resolve_reuses_session (HS := store1) sample_resolver 1 "shop" "o1" "shop:o1"
    (default (sql_stored (newRow shop (sample_input shop "o1") "USD")) (head (sql_content router1 db_paid 1)))
    db_paid tt res d' x' db_paid_inv ltac:(compute_eq) ltac:(vm_compute; discriminate) E)).
Defined.

Definition sample_reconciler : ReconciliationOptions :=
  NewOrderReconciliationWithOptions {| ro_Interval := 0; ro_StuckAfter := 0; ro_BatchSize := 0 |}.

Lemma tick_justified_witness :
  exists now d1 ans, repo_GetPendingBefore (now - ro_StuckAfter sample_reconciler) (ro_BatchSize sample_reconciler) db_paid
      = (ans, d1) /\
    rtc (justified (HS := store1) (X := unit) (match ans with Ok stuck => stuck | Err _ => [] end)) db_paid
      (tick sample_reconciler (db_paid, tt)).2.1.
Proof.
  destruct (tick sample_reconciler (db_paid, tt)) as [res [d' x']] eqn:E.
  exact (tick_justified (HS := store1) sample_reconciler db_paid tt res d' x' db_paid_inv E).
Defined.

(** One order of the deferred flow, never opened by the customer. *)
Lemma tick_starved_witness :
  exists stuck d1, repo_GetPendingBefore (1000 * second - ro_StuckAfter sample_reconciler) (ro_BatchSize sample_reconciler) db_lazy
      = (Ok stuck, d1) /\ length stuck = 1%nat /\ tick sample_reconciler (db_lazy, tt) = (Ok tt, (d1, tt)).
Proof.
  destruct (repo_GetPendingBefore (1000 * second - ro_StuckAfter sample_reconciler) (ro_BatchSize sample_reconciler) db_lazy)
    as [ans d1] eqn:E.
  assert (Hans : exists stuck, ans = Ok stuck /\ length stuck = 1%nat /\ Forall (fun o => t_StripePaymentIntentID o = "") stuck).
  { change ans with (ans, d1).1. rewrite <- E. eexists. split; [vm_compute; reflexivity|]. split; [reflexivity|].
    repeat constructor. }
  destruct Hans as (stuck & -> & Hlen & Hall). exists stuck, d1. split; [reflexivity|]. split; [exact Hlen|].
  exact (tick_starved sample_reconciler db_lazy d1 tt tt (1000 * second) stuck eq_refl E Hall).
Defined.

(** ** Start-up *)

Definition sample_raw : rawConfig := {|
  rApp := {| rapp_Env := ""; rapp_Port := 8080; rapp_LogLevel := ""; rapp_PublicBaseURL := ""; rapp_LazyCheckout := true;
    rapp_CheckoutTokenSecret := ""; rapp_CheckoutTokenTTL := ""; rapp_StripeRateLimit := 0;
    rapp_CheckoutDefaultSuccessURL := ""; rapp_CheckoutDefaultCancelURL := ""; rapp_LogicalShardCount := 16 |};
  rDB := {| rdb_DSN := "user@tcp(db)/easypay"; rdb_MaxOpenConns := 0; rdb_MaxIdleConns := 0; rdb_Shards := [] |};
  rRedis := {| rrd_Addr := ""; rrd_Password := ""; rrd_DB := 0 |};
  rKafka := {| rkf_Brokers := []; rkf_TopicConfirmed := ""; rkf_TopicDLQ := ""; rkf_ConsumerGroup := "" |};
  rStripe := {| rst_SecretKey := ""; rst_PublishableKey := ""; rst_WebhookSecret := ""; rst_APIVersion := "";
    rst_DefaultCurrency := ""; rst_Mode := "fake" |};
  rBlockchain := {| rbc_RPCWebsocket := ""; rbc_RPCHTTP := ""; rbc_ContractAddress := ""; rbc_ChainID := 0;
    rbc_RequiredConfirmations := 0; rbc_StartBlock := 0 |};
  rSecurity := {| rsec_HMACSecret := "0123456789abcdef"; rsec_HMACTimestampSkew := ""; rsec_AdminAPIKey := "" |} |}.

Definition no_duration (s : string) : result Z := Err (Text "time: invalid duration").

Definition sample_load : result Config := Load no_duration "config.yaml" (Ok sample_raw).

Lemma Load_config_ok_witness : exists c, sample_load = Ok c /\ config_ok c.
Proof.
  destruct sample_load as [c|e] eqn:E.
  - exists c. split; [reflexivity|]. exact (Load_config_ok no_duration "config.yaml" (Ok sample_raw) c E).
  - exfalso. assert (Hok : is_ok sample_load = true) by compute_eq. rewrite E in Hok. discriminate Hok.
Defined.

Lemma validate_sample : exists c, sample_load = Ok c /\ config_ok c.
Proof.
  destruct sample_load as [c|e] eqn:E.
  - exists c. split; [reflexivity|]. unfold sample_load, Load in E.
    rewrite bool_decide_false in E by discriminate.
    destruct (toConfig _ sample_raw) as [cfg|] eqn:Et; [|discriminate].
    destruct (validate cfg) as [[]|] eqn:Ev; [|discriminate]. injection E as <-.
    apply validate_ok; [by eapply toConfig_logical|exact Ev].
  - exfalso. assert (Hok : is_ok sample_load = true) by compute_eq. rewrite E in Hok. discriminate Hok.
Qed.

Lemma OpenShards_correct_witness :
  exists c res closed, sample_load = Ok c /\
    OpenShards (fun _ _ _ => Ok 0%nat) (fun _ => Ok tt) (DB c) (app_LogicalShardCount (App c)) = Some (res, closed).
Proof.
  destruct validate_sample as (c & Hl & Hc). exists c.
  destruct (OpenShards_correct (fun _ _ _ => Ok 0%nat) (fun _ => Ok tt) c Hc) as (res & closed & Ho & _).
  exists res, closed. split; [exact Hl|exact Ho].
Defined.
