(* ===== verification/ListenerWitnesses.v ===== *)
(** * Witnesses for the blockchain listener and the merchants

    The theorems of ChainTheorems and MerchantTheorems at the concrete system
    of Samples. *)

From S2P Require Import Prelude GoStrings Sha256 Domain ShardRouter TransactionRepo TransactionTables TransactionStore TransactionRefines.
From S2P Require Import StripeTypes Signatures Ports PaymentService PaymentTheorems ChainEvents OnchainRepo ChainListener ChainTheorems.
From S2P Require Import Merchants MerchantTheorems Samples Witnesses.
Local Open Scope Z_scope.

(** ** The listener *)

Abbreviation world d p := (d, (p, (cursors_none, tt))) (only parsing).

Lemma handleLog_cursor_after_row_witness :
  cursor_Get 11155111 (handleLog sample_cfg sample_log (world db_paid txs_none)).2.2.2.1 =
    (Ok 7, mkCursors (<[11155111 := 7]> ∅) []) /\
  appended sample_cfg "h1" sample_log txs_none (handleLog sample_cfg sample_log (world db_paid txs_none)).2.2.1.
Proof.
  split; [compute_eq|].
  destruct (handleLog sample_cfg sample_log (world db_paid txs_none)) as [res [d' [p' [k' x']]]] eqn:E.
  destruct (handleLog_cursor_after_row (HS := store1) sample_cfg sample_log db_paid txs_none cursors_none tt res d' p' k' x'
    db_paid_inv E) as (_ & _ & [Hk|[Ha _]]).
  - exfalso. assert (Hc : cu_rows (handleLog sample_cfg sample_log (world db_paid txs_none)).2.2.2.1 !! 11155111 = Some 7) by compute_eq.
    rewrite E in Hc. cbn [fst snd] in Hc. rewrite Hk in Hc. discriminate Hc.
  - exact Ha.
Defined.


Lemma processOne_sound_witness :
  paid_by (HS := store1) (sample_tx "h1") 100 tt db_paid (processOne (sample_tx "h1") 100 (world db_paid txs_two)).2.1.
Proof.
  destruct (processOne (sample_tx "h1") 100 (world db_paid txs_two)) as [u [d' [p' [k' x']]]] eqn:E.
  destruct (processOne_sound (HS := store1) (sample_tx "h1") 100 db_paid txs_two cursors_none tt u d' p' k' x' db_paid_inv E)
    as [Hk|Hp]; [|exact Hp].
  exfalso. assert (Hsql : sql_content router1 d' 1 = sql_content router1 db_paid 1) by exact (Hk 1).
  assert (Hd : d' = (processOne (sample_tx "h1") 100 (world db_paid txs_two)).2.1) by (rewrite E; reflexivity).
  rewrite Hd in Hsql. apply (f_equal (fun l => t_Status <$> l)) in Hsql. vm_compute in Hsql. discriminate Hsql.
Defined.

(** After the failed receipt only the other transaction is listed. *)
Lemma rpc_error_drops_payment_witness :
  exists l p'', tx_ListPendingByChain 11155111 10 (processOne (sample_tx "gone") 100 (world db_paid txs_two)).2.2.1 = (Ok l, p'') /\
    length l = 1%nat /\ Forall (fun t => bool_decide (o_TxHash t = "gone") = false) l.
Proof.
  destruct (processOne (sample_tx "gone") 100 (world db_paid txs_two)) as [u [d' [p' [k' x']]]] eqn:E.
  destruct (tx_ListPendingByChain 11155111 10 p') as [ans p''] eqn:El.
  assert (Hp : p' = (processOne (sample_tx "gone") 100 (world db_paid txs_two)).2.2.1) by (rewrite E; reflexivity).
  assert (Hl : exists l, ans = Ok l /\ length l = 1%nat).
  { change ans with (ans, p'').1. rewrite <- El, Hp. eexists. split; vm_compute; reflexivity. }
  destruct Hl as (l & -> & Hlen). exists l, p''. cbn [fst snd]. split; [exact El|]. split; [exact Hlen|].
  apply Forall_forall. intros t Ht.
  destruct (tx_UpdateConfirmations "gone" 0 OnchainTxStatusReorged txs_two) as [[w|e] p1] eqn:Eu.
  - assert (Hr : @TransactionReceipt unit _ (HexToHash (o_TxHash (sample_tx "gone"))) tt = (Err (Text "connection reset"), tt)) by reflexivity.
    exact (rpc_error_drops_payment (sample_tx "gone") 100 db_paid txs_two cursors_none tt (Text "connection reset") tt w p1
      u d' p' k' x' 11155111 10 l p'' t Hr Eu E El Ht).
  - exfalso. assert (Hok : is_ok (tx_UpdateConfirmations "gone" 0 OnchainTxStatusReorged txs_two).1 = true) by compute_eq.
    rewrite Eu in Hok. discriminate Hok.
Defined.

(** A database that goes away after the order was read. *)
Definition db_flaky : Db :=
  mkDb ((fun p => mkPool (p_rows p) [NoFault; FailBefore (DriverError "gone away")]) <$> d_pools db_paid) (d_clock db_paid) [].

Lemma db_flaky_inv : sql_inv db_flaky.
Proof.
  unfold sql_inv, tables, db_flaky. cbn [d_pools]. rewrite <- list_fmap_compose. exact db_paid_inv.
Qed.

Lemma confirmed_before_paid_witness :
  sql_content router1 (settle (sample_tx "h1") 93 (world db_flaky txs_two)).2.1 1 = sql_content router1 db_flaky 1 /\
  forall l p'' t, tx_ListPendingByChain 11155111 10 (settle (sample_tx "h1") 93 (world db_flaky txs_two)).2.2.1 = (Ok l, p'') ->
    t ∈ l -> bool_decide (o_TxHash t = "h1") = false.
Proof.
  split; [compute_eq|]. intros l p'' t.
  destruct (settle (sample_tx "h1") 93 (world db_flaky txs_two)) as [u [d' [p' [k' x']]]] eqn:E.
  destruct (repo_GetByOrderIDAny "o1" db_flaky) as [[order|e] d1] eqn:Eo.
  2: { exfalso. assert (Hok : is_ok (repo_GetByOrderIDAny "o1" db_flaky).1 = true) by compute_eq.
       rewrite Eo in Hok. discriminate Hok. }
  assert (Hord : Ok order = (repo_GetByOrderIDAny "o1" db_flaky).1) by (rewrite Eo; reflexivity).
  assert (Hd1 : d1 = (repo_GetByOrderIDAny "o1" db_flaky).2) by (rewrite Eo; reflexivity).
  vm_compute in Hord. injection Hord as Hord.
  destruct (tx_UpdateConfirmations "h1" 93 OnchainTxStatusConfirmed txs_two) as [[m|e] p1] eqn:Em.
  2: { exfalso. assert (Hok : is_ok (tx_UpdateConfirmations "h1" 93 OnchainTxStatusConfirmed txs_two).1 = true) by compute_eq.
       rewrite Em in Hok. discriminate Hok. }
  destruct (repo_UpdateStatus (t_ShardIndex order) (t_MerchantID order) (t_OrderID order) TransactionStatusPaid "" d1)
    as [[v|e] d2] eqn:Eu.
  { exfalso. assert (Hok : is_ok (repo_UpdateStatus (t_ShardIndex order) (t_MerchantID order) (t_OrderID order) TransactionStatusPaid "" d1).1 = false)
      by (rewrite Hord, Hd1; compute_eq).
    rewrite Eu in Hok. discriminate Hok. }
  exact (proj2 (proj2 (confirmed_before_paid (HS := store1) (sample_tx "h1") 93 db_flaky txs_two cursors_none tt order d1 p1 m e d2
    u d' p' k' x' 11155111 10 l p'' t db_flaky_inv Eo ltac:(rewrite Hord; reflexivity) ltac:(rewrite Hord; reflexivity) Em Eu E))).
Defined.

(** ** Merchants *)

Definition fits_all (m : Merchant) : bool := true.

Lemma lru_bounded_and_fresh_witness :
  (lru_get 5 "k" (lru_put 0 [] "k" shop (newLRUCache 1024 (5 * minute)))).1 = Some shop.
Proof.
  destruct (lru_bounded_and_fresh 0 5 [] "k" shop (newLRUCache 1024 (5 * minute)) ltac:(cbn; lia) ltac:(vm_compute; discriminate)
    ltac:(vm_compute; constructor)) as (_ & Hg & _). rewrite Hg. reflexivity.
Defined.

Lemma insert_least_loaded_witness :
  exists row, mt_rows (repo_InsertMerchant fits_all 4 shop_eu merchants_one).2 = [shop; row] /\ m_ShardIndex row = 0.
Proof.
  destruct (repo_InsertMerchant fits_all 4 shop_eu merchants_one) as [[m' res] d'] eqn:E.
  assert (Hres : res = (repo_InsertMerchant fits_all 4 shop_eu merchants_one).1.2) by (rewrite E; reflexivity).
  assert (Hm : m' = (repo_InsertMerchant fits_all 4 shop_eu merchants_one).1.1) by (rewrite E; reflexivity).
  destruct (insert_least_loaded fits_all 4 ltac:(lia) shop_eu merchants_one m' res d' E ltac:(rewrite Hres; compute_eq))
    as (row & Hrows & _ & Hsh & _). exists row. split; [exact Hrows|]. rewrite Hsh, Hm. compute_eq.
Defined.

(** The shop is looked up and cached, then its row is deleted; a minute later
    the cache still answers. *)
Definition merchants_found : MerchantDb := (lookup_find "api:" m_APIKey "ak" merchants_one).2.
Definition merchants_cached : MerchantDb := (lookup_store "api:ak" shop merchants_found).2.
Definition merchants_deleted : MerchantDb := mkMerchants [] 2 [minute] [] [] (mt_cache merchants_cached).
Definition cached_log : list cacheEvent := [Found "api:ak" shop [shop]; Stored "api:ak" shop 0].

Lemma merchants_deleted_lives : lives cached_log merchants_deleted.
Proof.
  apply (lives_else _ merchants_cached); [|reflexivity].
  apply (lives_store [Found "api:ak" shop [shop]] merchants_found "api:ak" shop [shop] merchants_cached).
  - apply (lives_find [] merchants_one "api:" m_APIKey "ak" (false, Ok shop) merchants_found);
      [by apply lives_new|by apply by_api_key|by vm_compute].
  - by left.
  - by vm_compute.
Qed.

Lemma GetByAPIKey_sound_witness :
  (repo_GetByAPIKey "ak" merchants_deleted).1 = Ok shop /\
  exists table t, filled cached_log "api:ak" shop table t /\ shop ∈ table /\ minute <= t + 5 * minute.
Proof.
  split; [compute_eq|]. destruct (repo_GetByAPIKey "ak" merchants_deleted) as [res d'] eqn:E.
  assert (Hres : res = Ok shop) by (change res with (res, d').1; rewrite <- E; compute_eq).
  destruct (GetByAPIKey_sound cached_log merchants_deleted "ak" res d' merchants_deleted_lives E) as (_ & _ & Hm).
  rewrite Hres in Hm. destruct Hm as [_ [Hin|Hm]]; [by apply elem_of_nil in Hin|exact Hm].
Defined.

Definition sample_merchant_input : CreateMerchantInput := {|
  cm_MerchantID := "a-merchant-with-a-long-id"; cm_Name := "Long"; cm_CallbackURL := ""; cm_RateLimit := 0 |}.

Lemma merchant_Create_spec_witness :
  exists r, (merchant_Create (M := unit) sample_merchant_input (tt, tt)).1 = Ok r /\ 1 <= len "a-merchant-with-a-long-id" <= 64.
Proof.
  destruct (merchant_Create (M := unit) sample_merchant_input (tt, tt)) as [[r|e] [d' x']] eqn:E.
  - exists r. split; [reflexivity|].
    destruct (merchant_Create_spec (M := unit) sample_merchant_input tt tt (Ok r) d' x' E) as (a & b & x1 & m & m' & Hlen & _).
    exact Hlen.
  - exfalso. assert (Hok : is_ok (merchant_Create (M := unit) sample_merchant_input (tt, tt)).1 = true) by compute_eq.
    rewrite E in Hok. discriminate Hok.
Defined.

(** The merchant the admin service has just created. *)
Definition long_merchant : Merchant := {|
  m_ID := 3; m_MerchantID := "a-merchant-with-a-long-id"; m_Name := "Long"; m_APIKey := "ak3"; m_SecretKey := "sk3";
  m_CallbackURL := ""; m_RateLimit := 1000; m_Status := MerchantStatusActive; m_ShardIndex := 1; m_CreatedAt := 0 |}.

Lemma long_merchant_id_never_paid_witness :
  is_ok (Create sample_service (sample_input long_merchant "o1") (db_empty, tt)).1 = false.
Proof.
  destruct (long_merchant_id_never_paid router1 sample_service long_merchant (sample_input long_merchant "o1") db_empty tt
    eq_refl eq_refl) as [e He].
  unfold repo1. unfold repo_of_router in He. rewrite He. reflexivity.
Defined.
