(* ===== verification/ApiWitnesses.v ===== *)
(** * Witnesses for the HTTP layer

    The theorems of ApiTheorems and Lifecycle at a request of the shop of
    Samples. *)

From S2P Require Import Prelude GoStrings Sha256 Domain ShardRouter TransactionRepo TransactionTables TransactionStore TransactionRefines.
From S2P Require Import StripeTypes Signatures Ports PaymentService PaymentTheorems WebhookService WebhookTheorems CheckoutResolver Merchants.
From S2P Require Import Api ApiTheorems SqlFrames Lifecycle SqlOrigins Samples Witnesses.
Local Open Scope Z_scope.

Lemma payments_api_authenticated_witness :
  exists m x1, authenticated (5 * minute) sample_request tt m x1 /\
    exists ans, rs_Envelope (route_CreatePayment (5 * minute) sample_service sample_request None (db_empty, tt)).1 = Data ans.
Proof.
  destruct (route_CreatePayment (5 * minute) sample_service sample_request None (db_empty, tt)) as [resp [d' x']] eqn:E.
  assert (Hst : rs_Status resp = 202).
  { change resp with (resp, (d', x')).1. rewrite <- E. compute_eq. }
  assert (Ha : forall req, parsePayment (rq_Body sample_request) = Ok req -> int64_range (cpr_Amount req)).
  { intros req [= <-]. cbn. unfold int64_range. lia. }
  destruct (payments_api_authenticated (HS := store1) (5 * minute) sample_service sample_request db_empty tt resp d' x'
    db_empty_inv Ha E) as [[_ Hn]|(m & x1 & x2 & req & res & Hau & _ & _ & _ & Hok)]; [exfalso; exact (Hn Hst)|].
  destruct (Hok Hst) as (ans & t & Hans & _). exists m, x1. split; [exact Hau|]. exists ans. exact Hans.
Defined.

Lemma status_api_isolated_witness :
  exists t, t ∈ sql_content router1 db_paid 1 /\
    rs_Envelope (route_GetPayment (5 * minute) sample_request None (db_paid, tt)).1 = Data (statusOf t).
Proof.
  destruct (route_GetPayment (5 * minute) sample_request None (db_paid, tt)) as [resp [d' x']] eqn:E.
  assert (Hst : rs_Status resp = 200).
  { change resp with (resp, (d', x')).1. rewrite <- E. compute_eq. }
  destruct (status_api_isolated (HS := store1) (5 * minute) sample_request db_paid tt resp d' x' db_paid_inv E) as [_ Hok].
  destruct (Hok Hst) as (m & x1 & t & [(now & x0 & _ & Hg & _) _ _] & Hin & _ & _ & Henv). exists t.
  injection Hg as <- _. split; [exact Hin|exact Henv].
Defined.

Lemma checkout_redirect_needs_token_witness :
  CheckoutToken.Verify (1000 * second) "token-secret" "shop" "o1" (rq_Query sample_request "t") = Ok tt.
Proof.
  destruct (CheckoutHandler_Redirect "token-secret" sample_resolver sample_request None (db_paid, tt)) as [resp [d' x']] eqn:E.
  destruct (checkout_redirect_needs_token "token-secret" sample_resolver sample_request db_paid tt resp d' x' ltac:(discriminate) E)
    as [[_ Hst]|(now & x1 & url & Hn & Hv & _)].
  - exfalso. assert (Hst' : rs_Status (CheckoutHandler_Redirect "token-secret" sample_resolver sample_request None (db_paid, tt)).1 = 302)
      by compute_eq. rewrite E in Hst'. cbn [fst] in Hst'. rewrite Hst in Hst'. discriminate Hst'.
  - injection Hn as <- _. exact Hv.
Defined.

(** The event of an order the database does not know. *)
Lemma webhook_retry_acknowledged_witness :
  let w := (WebhookHandler_Stripe "whsec" sample_request None (db_empty, (no_keys, tt))).2 in
  rs_Status (WebhookHandler_Stripe "whsec" sample_request None w).1 = 200.
Proof.
  destruct (Process "whsec" "{}" "sig" (db_empty, (no_keys, tt))) as [[[]|e] [d' [r' x']]] eqn:E.
  { exfalso. assert (Hok : is_ok (process db_empty no_keys).1 = false) by compute_eq. rewrite E in Hok. discriminate Hok. }
  assert (Hw : (WebhookHandler_Stripe "whsec" sample_request None (db_empty, (no_keys, tt))).2 = (d', (r', x'))).
  { unfold WebhookHandler_Stripe, bind, ret. change (rq_Body sample_request) with "{}".
    change (rq_Get sample_request "Stripe-Signature") with "sig". rewrite E. reflexivity. }
  cbn zeta. rewrite Hw. destruct x'.
  destruct (WebhookHandler_Stripe "whsec" sample_request None (d', (r', tt))) as [resp2 [d2 [r2 y2]]] eqn:E2.
  assert (He : errIs e ErrWebhookDuplicate = false).
  { assert (Hc : match (process db_empty no_keys).1 with Err e => errIs e ErrWebhookDuplicate = false | Ok _ => False end) by compute_eq.
    rewrite E in Hc. exact Hc. }
  assert (Hs2 : exists ok r3, SetNX (dedupKey sample_event) "1" (24 * hour) r' = (Ok ok, r3)).
  { unfold SetNX, sample_redis. destruct (r' !! _); eauto. }
  exact (proj1 (proj2 (webhook_retry_acknowledged (HS := store1) "whsec" sample_request sample_event db_empty no_keys tt tt one_key e
    d' r' tt tt tt resp2 d2 r2 y2 eq_refl ltac:(compute_eq) db_empty_inv E He eq_refl Hs2 E2))).
Defined.

(** The callback of the shop's order, and what the shop reads then. *)
#[local] Instance answers1 : StoreAnswers Db no_fault_scheduled := sql_store_answers router1 router1_ok.

Definition open_order : Transaction :=
  default (newRow shop (sample_input shop "o1") "USD") (head (sql_content router1 db_paid 1)).

Lemma sample_reports : reports_paid "whsec" "{}" "sig" no_keys tt open_order "pi_1" one_key.
Proof.
  split; [|vm_compute; discriminate|split; vm_compute; discriminate].
  exists sample_event, tt. eexists. split; [reflexivity|]. split; [by left|]. split; [compute_eq|].
  split; [reflexivity|]. split_and!; vm_compute; reflexivity.
Qed.

Lemma sample_answers : world_answers (X := unit) "pi_1" shop.
Proof.
  split.
  - intros []. right. by exists (sample_intent "pi_1"), tt.
  - intros []. by exists tt.
  - intros ev []. by exists tt.
Qed.

Lemma sample_authenticated : authenticated (5 * minute) sample_request tt shop tt.
Proof.
  split; [|reflexivity|compute_eq]. exists (1000 * second), tt. split; [reflexivity|]. split; [reflexivity|].
  exists 1000. split; [compute_eq|]. compute_eq.
Qed.

Lemma payment_completes_witness :
  exists d' x', process db_paid no_keys = (Ok tt, (d', (one_key, x'))) /\
    exists ans d2, route_GetPayment (5 * minute) sample_request None (d', tt) = (OK ans, (d2, tt)) /\ psr_Status ans = "paid".
Proof.
  destruct (payment_completes (HS := store1) no_fault_scheduled "whsec" (5 * minute) "{}" "sig" no_keys tt open_order "pi_1" one_key
    shop db_paid db_paid_inv) as (d' & x' & E & Hread).
  - vm_compute. repeat constructor.
  - vm_compute. left.
  - vm_compute. reflexivity.
  - exact sample_reports.
  - exact sample_answers.
  - exists d', x'. split; [exact E|]. apply (Hread sample_request tt tt tt).
    + discriminate.
    + vm_compute. reflexivity.
    + exact sample_authenticated.
    + exists (Ok (true, 999)). split; reflexivity.
Defined.

Lemma admin_route_closed_witness :
  exists code msg, route_CreateMerchant (M := unit) (X := unit) "admin" sample_request None (tt, tt) = (Unauthorized code msg, (tt, tt)).
Proof. apply (admin_route_closed (M := unit) "admin" sample_request (tt, tt)). right. discriminate. Defined.
