(* ===== verification/InfraWitnesses.v ===== *)
(** * Witnesses for the lock and the Kafka consumer

    A Redis whose keys never expire and a reader that replays a script. *)

From S2P Require Import Prelude GoStrings Sha256 Domain Signatures Ports Cache KafkaConsumer KafkaTheorems.
From S2P Require Import Samples.
Local Open Scope Z_scope.

(** ** The lock *)

#[export] Instance sample_strings : RedisStrings (gmap string string) := {|
  cmd_GET k := fun r => (r !! k, r);
  cmd_DEL k := fun r => (match r !! k with Some _ => 1 | None => 0 end, delete k r) |}.
#[export] Instance sample_eval : RedisEval (gmap string string) := fun A f r => let '(a, r') := f r in (Ok a, r').
#[export] Instance sample_uuid : UUID unit := ret "token-1".

#[export] Instance sample_script_laws : RedisScriptLaws (gmap string string).
Proof.
  split.
  - intros k r v r' [= <- <-]. done.
  - intros k r n r' [= _ <-]. cbn. split; [by rewrite lookup_delete, decide_True|].
    intros k' Hk. by rewrite lookup_delete_ne.
  - intros A f r a r'. unfold Eval_script, sample_eval. destruct (f r) as [b r1]. by intros [= <- <-].
Defined.

(** The lock expired and someone else took it before it is released. *)
Lemma lock_exclusive_witness :
  live (redis_Release (U := unit) {| lk_key := "lock:o1"; lk_token := "token-1" |} (<["lock:o1" := "token-2"]> ∅, tt)).2.1 "lock:o1"
    = Some "token-2".
Proof.
  destruct (redis_Acquire "o1" second (∅ : gmap string string, tt)) as [[lk|e] [r1 u1]] eqn:Ea.
  2: { exfalso. assert (Hok : is_ok (redis_Acquire "o1" second (∅ : gmap string string, tt)).1 = true) by (vm_compute; reflexivity).
       rewrite Ea in Hok. discriminate Hok. }
  assert (Hlk : lk = {| lk_key := "lock:o1"; lk_token := "token-1" |}).
  { assert (Ho : (redis_Acquire "o1" second (∅ : gmap string string, tt)).1 = Ok {| lk_key := "lock:o1"; lk_token := "token-1" |})
      by (vm_compute; reflexivity).
    rewrite Ea in Ho. by injection Ho. }
  subst lk.
  destruct (redis_Release (U := unit) {| lk_key := "lock:o1"; lk_token := "token-1" |} (<["lock:o1" := "token-2"]> ∅, tt))
    as [res [r3 u3]] eqn:Er.
  destruct (lock_exclusive "o1" second ∅ tt _ r1 u1 (<["lock:o1" := "token-2"]> ∅) r3 tt u3 res Ea Er)
    as (_ & _ & _ & _ & Hkeep & _).
  etransitivity; [apply Hkeep; discriminate|reflexivity].
Defined.

(** ** The consumer *)

Definition sample_message (offset : Z) : Message := {|
  msg_Topic := "payment.confirmed"; msg_Partition := 0; msg_Offset := offset; msg_Key := "o1"; msg_Value := "{}" |}.

(** The answers of the next fetches; an exhausted script is a closed context. *)
#[export] Instance script_reader : MessageReader (list (result Message)) := {|
  FetchMessage _ := fun x => match x with [] => (Err (Sentinel ContextCanceled), []) | a :: rest => (a, rest) end;
  CommitMessages _ := ret (Ok tt) |}.
#[export] Instance script_writer : MessageWriter (list (result Message)) := fun _ => ret (Ok tt).
#[export] Instance script_handler : BatchHandler (list (result Message)) := {|
  Handle ms := ret (if bool_decide (length ms = 1%nat) then Ok tt else Err (Text "batch failed"));
  HandleOne m := ret (if bool_decide (msg_Offset m = 7) then Err (Text "poison") else Ok tt) |}.
#[export] Instance script_context : GoContext (list (result Message)) := {| ctx_Err := ret None; ctx_Wait _ := ret None |}.
#[export] Instance script_json : DLQJSON := fun e => Ok (dl_Value e).

Definition script : list (result Message) :=
  [Ok (sample_message 6); Ok (sample_message 7); Err (Text "connection reset"); Ok (sample_message 8); Ok (sample_message 9)].

(** With batches of two, 7 goes to the dead-letter topic and the batch is
    committed. *)
Lemma commits_only_accounted_witness :
  commits_accounted (Run 2 5 ([], script)).2.1 /\ DeadLettered (sample_message 7) true ∈ (Run 2 5 ([], script)).2.1 /\
  Committed [sample_message 6; sample_message 7] true ∈ (Run 2 5 ([], script)).2.1.
Proof.
  split; [|split].
  - destruct (Run 2 5 ([], script)) as [r [tr x']] eqn:E. exact (commits_only_accounted 2 5 script r tr x' E).
  - vm_compute. do 5 right. left.
  - vm_compute. do 6 right. left.
Defined.

(** Message 7 is dropped when the next fetch of its batch fails. *)
Lemma fetch_error_drops_batch_witness :
  (round 2 ([], drop 1 script)).2.1 = [Fetched (sample_message 7)].
Proof.
  assert (Hc : ctx_Err (drop 1 script) = (None, drop 1 script)) by reflexivity.
  assert (H1 : FetchMessage false (drop 1 script) = (Ok (sample_message 7), drop 2 script)) by reflexivity.
  assert (H2 : FetchMessage true (drop 2 script) = (Err (Text "connection reset"), drop 3 script)) by reflexivity.
  destruct (fetch_error_drops_batch 2 [] (drop 1 script) (drop 1 script) (drop 2 script) (drop 3 script) (sample_message 7)
    (Text "connection reset") ltac:(lia) Hc H1 H2 eq_refl eq_refl) as [Hr _].
  rewrite Hr. reflexivity.
Defined.

(** ** Settlement *)

Definition sample_confirmed : PaymentConfirmedEvent := {|
  pc_OrderID := "o1"; pc_MerchantID := "shop"; pc_Status := "paid"; pc_StripePaymentIntentID := "pi_1"; pc_Amount := 1500;
  pc_Currency := "USD"; pc_ConfirmedAt := 1000 |}.

#[export] Instance sample_settlement : Settlement unit := {|
  lookup_callback _ := ret {| cb_URL := "https://shop/callback"; cb_Secret := "sk" |};
  http_Post _ _ _ _ := ret (Ok 204);
  unmarshalConfirmed _ := Ok sample_confirmed;
  marshalConfirmed _ := Ok "{}" |}.
#[export] Instance unit_context : GoContext unit := {| ctx_Err := ret None; ctx_Wait _ := ret None |}.

Lemma settlement_delivers_witness : delivered (X := unit) "https://shop/callback" "sk" "{}".
Proof.
  assert (E : settlement_HandleOne 3 (sample_message 6) tt = (Ok tt, tt)) by (vm_compute; reflexivity).
  destruct (settlement_delivers 3 (sample_message 6) tt tt E) as (ev & cb & x1 & [= <-] & [= <- <-] & [Hu|(_ & body & [= <-] & Hd)]).
  - discriminate Hu.
  - exact Hd.
Defined.
