(* ===== verification/OpsWitnesses.v ===== *)
(** * Witnesses: concurrency, limits, links, migrations and the load generator

    The theorems of Concurrency, ReconcileLive, TokenBucket, RateLimiter, Server, Migrations,
    Runners, Observability and BenchTheorems at concrete inputs. *)

From Stdlib Require Import QArith Qround Lqa.
From S2P Require Import Prelude GoStrings Sha256 Domain Codec Config ShardRouter Migrations TransactionRepo.
From S2P Require Import TransactionTables TransactionStore TransactionRefines StripeTypes Signatures Ports PaymentService PaymentTheorems.
From S2P Require Import Concurrency CheckoutResolver Reconciliation ReconcileLive SqlFrames KafkaConsumer Merchants Api Cache.
From S2P Require Import TokenBucket RateLimiter Runners Server Observability Bench BenchTheorems Samples Witnesses.
Local Open Scope Z_scope.

(** ** Concurrent calls *)

#[local] Instance store1_keeps : StoreKeeps Db := sql_store_keeps router1 router1_ok.

(** A schedule: the calls that take the next steps, in order. *)
Fixpoint schedule (inputs : list CreatePaymentInput) (order : list nat) (c : list stage * (Db * unit)) : list stage * (Db * unit) :=
  match order with
  | [] => c
  | i :: rest =>
      schedule inputs rest
        (match inputs !! i, c.1 !! i with
         | Some input, Some st =>
             let '(st', w') := thread_step (D := Db) sample_service input st c.2 in (<[i := st']> c.1, w')
         | _, _ => c
         end)
  end.

Lemma schedule_reachable inputs order c :
  rtc (cstep (HS := store1) (X := unit) sample_service inputs) c (schedule inputs order c).
Proof.
  revert c. induction order as [|i order IH]; intros [stages w]; [reflexivity|]. cbn [schedule fst snd].
  destruct (inputs !! i) as [input|] eqn:Ei; [|apply IH]. destruct (stages !! i) as [st|] eqn:Es; [|apply IH].
  destruct (thread_step sample_service input st w) as [st' w'] eqn:E. eapply rtc_l; [|apply IH]. by eapply cstep_thread.
Defined.

(** Two calls for one order, the second one between the steps of the first. *)
Definition two_calls : list CreatePaymentInput := [sample_input shop "o1"; sample_input shop "o1"].
Definition two_done : list stage * (Db * unit) := schedule two_calls [0; 1; 0; 1; 0; 1]%nat ([Start; Start], (db_empty, tt)).

Lemma two_calls_range : Forall (fun a => int64_range (in_Amount a)) two_calls.
Proof. repeat constructor; cbn; unfold int64_range; lia. Defined.

Definition answer_of (i : nat) : CreatePaymentResult :=
  match two_done.1 !! i with
  | Some (Finished _ (Ok r)) => r
  | _ => accepted (sample_input shop "o1") shop "" "" "" "" None
  end.

Lemma concurrent_accepted_stored_witness :
  two_done.1 !! 1%nat = Some (Finished false (Ok (answer_of 1))) /\
  exists t, t ∈ sql_content router1 two_done.2.1 1 /\ t_TransactionID t = res_TransactionID (answer_of 1) /\ t_Amount t = 1500.
Proof.
  assert (Hst : two_done.1 !! 1%nat = Some (Finished false (Ok (answer_of 1)))) by compute_eq.
  split; [exact Hst|].
  destruct (concurrent_accepted_stored (HS := store1) (X := unit) sample_service two_calls two_done.1 db_empty tt
    two_done.2.1 two_done.2.2 1%nat (sample_input shop "o1") false (answer_of 1)) as (m & t & Hm & Hin & Htx & Ha & _).
  - exact two_calls_range.
  - exact db_empty_inv.
  - replace (two_done.1, (two_done.2.1, two_done.2.2)) with two_done by (by destruct two_done as [? [? ?]]).
    apply schedule_reachable.
  - reflexivity.
  - exact Hst.
  - cbn in Hm. injection Hm as <-. exists t. split; [exact Hin|]. split; [exact Htx|exact Ha].
Defined.

(** The first call is the one that won. *)
Lemma concurrent_one_winner_witness :
  exists st, two_done.1 !! 0%nat = Some st /\ won st = true /\ forall j st', two_calls !! j = Some (sample_input shop "o1") ->
    two_done.1 !! j = Some st' -> won st' = true -> j = 0%nat.
Proof.
  exists (Finished true (Ok (answer_of 0))).
  assert (Hst : two_done.1 !! 0%nat = Some (Finished true (Ok (answer_of 0)))) by compute_eq.
  split; [exact Hst|]. split; [reflexivity|]. intros j st' Hj Hst' Hw. symmetry.
  refine (concurrent_one_winner (HS := store1) (X := unit) sample_service two_calls two_done.1 two_done.2 db_empty tt
    0%nat j (sample_input shop "o1") (sample_input shop "o1") _ st' shop two_calls_range db_empty_inv _
    eq_refl Hj Hst Hst' eq_refl eq_refl eq_refl eq_refl Hw).
  replace (two_done.1, two_done.2) with two_done by (by destruct two_done). apply schedule_reachable.
Defined.

(** ** Reconciliation *)

(** A world that remembers the events Kafka took. *)
Definition outbox_world : Type := list PaymentConfirmedEvent.

#[local] Instance outbox_client : Client outbox_world := {|
  CreateCheckoutSession _ _ := ret (Ok sample_session);
  CreatePaymentIntent _ _ := ret (Ok (sample_intent "pi_1"));
  GetPaymentIntent id := ret (Ok (sample_intent id));
  GetCheckoutSession _ := ret (Ok sample_session);
  CreateRefund _ _ := ret (Ok sample_refund);
  VerifyWebhookSignature _ _ _ := ret (Ok sample_event) |}.
#[local] Instance outbox_clock : Clock outbox_world := ret (1000 * second).
#[local] Instance outbox_publisher : EventPublisher outbox_world := fun ev x => (Ok tt, x ++ [ev]).
#[local] Instance store1_frames : StatusFrames Db := sql_status_frames router1 router1_ok.

Lemma outbox_no_faults : no_faults (HS := store1) (X := outbox_world) no_fault_scheduled id.
Proof.
  split.
  - intros d before limit res d' Hd Hg. exact (pending_no_fault router1 _ _ _ _ _ Hd Hg).
  - intros d sh m o st pi res d' _ Hd Hu. exact (status_no_fault router1 _ _ _ _ _ _ _ _ Hd Hu).
  - intros d sh pi t res d' Hi Hd Ht Hl Hu. exact (paid_no_fault router1 _ _ _ _ _ _ Hi Hd Ht Hl Hu).
  - by intros x now x' [= _ <-].
  - by intros pi x res x' [= _ <-].
  - by intros ev x res x' [= _ <-].
Defined.

(** The row as the scan over the pools sees it: in the pool's first shard. *)
Definition stuck1 : Transaction :=
  default (newRow shop (sample_input shop "o1") "USD") (head (sql_content router1 db_paid 0)).

Lemma tick_confirms_stuck_witness :
  exists d' x' t ev, tick sample_reconciler (db_paid, [] : outbox_world) = (Ok tt, (d', x')) /\
    t ∈ sql_content router1 d' 0 /\ t_TransactionID t = t_TransactionID stuck1 /\
    t_Status t = TransactionStatusPaid /\ ev ∈ x' /\ pc_OrderID ev = "o1".
Proof.
  destruct (GetPendingBefore router1 (1000 * second - ro_StuckAfter sample_reconciler) (ro_BatchSize sample_reconciler) db_paid)
    as [ans d1] eqn:E.
  assert (Hans : ans = Ok [stuck1]). { change ans with (ans, d1).1. rewrite <- E. compute_eq. }
  subst ans.
  destruct (tick_confirms_stuck (HS := store1) (X := outbox_world) sample_reconciler no_fault_scheduled id outbox_no_faults
    db_paid [] (1000 * second) [] d1 [] stuck1 []) as (d' & x' & t & ev & Ht & Hin & Htx & Hs & Hev & Han).
  - exact db_paid_inv.
  - vm_compute. repeat constructor.
  - reflexivity.
  - exact E.
  - vm_compute. left.
  - vm_compute. discriminate.
  - intros x. exists (sample_intent (t_StripePaymentIntentID stuck1)), x. split; [reflexivity|]. split; [reflexivity|].
    vm_compute. discriminate.
  - intros o' Ho'. destruct (not_elem_of_nil o' Ho').
  - exists d', x', t, ev. split; [exact Ht|]. split; [exact Hin|]. split; [exact Htx|]. split; [exact Hs|].
    split; [exact Hev|]. exact (proj1 Han).
Defined.

(** ** The token bucket *)

(** Exact arithmetic is a rounding. *)
#[local] Instance exact_rounding : Rounding (fun q => q).
Proof.
  split; [done|done|]. intros x H0 _. assert (0 < ulp)%Q by done. assert (0 < tiny)%Q by done.
  revert H H1. generalize ulp, tiny. intros u t Hu Ht. split; nra.
Qed.

Lemma cap2 : 1 <= 2 <= 2 ^ 53.
Proof. lia. Defined.
Lemma refill1 : (1 <= 1 /\ 1 <= 9007199254740992)%Q.
Proof. split; discriminate. Defined.

(** Capacity two, one token a second: three calls at once, two let through; the
    server's clock is ahead by a second, more or less. *)
Lemma bucket_rate_respected_witness :
  exists k st', granted (fun q => q) 2 1 [(0, 1000); (0, 1300); (0, 900)] None = (k, st') /\ k = 2 /\
    (inject_Z k <= inject_Z 2 + rate 1 * (inject_Z (advance 0 [0; 0]%Z) / 1000) +
       inject_Z (Z.of_nat 3) * (3 * (ulp * inject_Z 2)))%Q.
Proof.
  destruct (granted (fun q => q) 2 1 [(0, 1000); (0, 1300); (0, 900)] None) as [k st'] eqn:E.
  exists k, st'. split; [reflexivity|]. split.
  - change k with (k, st').1. rewrite <- E. compute_eq.
  - refine (bucket_rate_respected (fun q => q) 2 1 cap2 refill1 1000 0 1000 [(0, 1300); (0, 900)] k st' _ _ E);
      [|repeat constructor]; unfold in_step; cbn; lia.
Defined.

(** A Redis with sorted sets only: the clock, and the members and the deadline
    of each key. *)
Record zset : Type := mkZset { z_scores : gmap string Q; z_expire : option Z }.
Record zredis : Type := mkZredis { zr_clock : Z; zr_sets : gmap string zset }.

Definition scores_of (st : option zset) : gmap string Q := match st with Some z => z_scores z | None => ∅ end.
Definition expire_of (st : option zset) : option Z := match st with Some z => z_expire z | None => None end.

(** A key without members does not exist. *)
Definition store_zset (k : string) (z : zset) (r : zredis) : zredis :=
  mkZredis (zr_clock r) (if bool_decide (z_scores z = ∅) then delete k (zr_sets r) else <[k := z]> (zr_sets r)).

#[export] Instance sample_zsets : RedisZSets zredis := {
  cmd_ZREMRANGEBYSCORE k lo hi r :=
    let st := zr_sets r !! k in
    (0, store_zset k (mkZset (filter (fun m => in_range lo hi m.2 = false) (scores_of st)) (expire_of st)) r);
  cmd_ZCARD k r := (Z.of_nat (size (scores_of (zr_sets r !! k))), r);
  cmd_ZADD k score m r :=
    let st := zr_sets r !! k in (1, store_zset k (mkZset (<[m := score]> (scores_of st)) (expire_of st)) r);
  cmd_PEXPIRE k ms r :=
    let st := zr_sets r !! k in
    (1, store_zset k (mkZset (if ms <=? 0 then ∅ else scores_of st) (Some (zr_clock r + ms))) r);
  redis_tick srv r :=
    (tt, mkZredis srv (filter (fun kz => (match z_expire kz.2 with Some t => srv <? t | None => true end) = true) (zr_sets r)));
}.

Lemma store_zset_same k z r :
  scores_of (zr_sets (store_zset k z r) !! k) = z_scores z /\
  (z_scores z <> ∅ -> expire_of (zr_sets (store_zset k z r) !! k) = z_expire z).
Proof.
  unfold store_zset. cbn. case_bool_decide as E; [rewrite lookup_delete_eq|rewrite lookup_insert_eq]; by rewrite ?E.
Qed.

Lemma store_zset_other k z r k' : k' <> k ->
  scores_of (zr_sets (store_zset k z r) !! k') = scores_of (zr_sets r !! k') /\
  expire_of (zr_sets (store_zset k z r) !! k') = expire_of (zr_sets r !! k').
Proof.
  intros Hne. unfold store_zset. cbn. case_bool_decide; [rewrite lookup_delete_ne|rewrite lookup_insert_ne]; done.
Qed.

#[export] Instance sample_zset_laws : RedisZSetLaws zredis.
Proof.
  refine {| members := fun r k => scores_of (zr_sets r !! k); deadline := fun r k => expire_of (zr_sets r !! k);
            RateLimiter.server_clock := zr_clock |}.
  - intros k lo hi r n r' [= _ <-]. destruct (store_zset_same k (mkZset (filter (fun m => in_range lo hi m.2 = false)
      (scores_of (zr_sets r !! k))) (expire_of (zr_sets r !! k))) r) as [E1 E2].
    split; [done|]. split; [exact E1|]. split; [rewrite E1; exact E2|]. intros k' Hne. by apply store_zset_other.
  - by intros k r n r' [= <- <-].
  - intros k score m r n r' [= _ <-]. split; [done|]. split; [apply store_zset_same|]. intros k' Hne. by apply store_zset_other.
  - intros k ms r n r' [= _ <-] Hms. rewrite (proj2 (Z.leb_gt ms 0)) by done.
    destruct (store_zset_same k (mkZset (scores_of (zr_sets r !! k)) (Some (zr_clock r + ms))) r) as [E1 E2].
    split; [exact E1|exact E2].
  - intros k ms r n r' [= _ <-] k' Hne. by apply store_zset_other.
  - intros srv r u r' [= _ <-]. split; [done|]. intros k. cbn. destruct (zr_sets r !! k) as [[sc ex]|] eqn:E.
    + destruct ex as [t|]; [destruct (Z.leb_spec t srv); [right; by exists t|]|]; left;
        (rewrite (map_lookup_filter_Some_2 _ _ _ _ E); [done|]); cbn; [by apply Z.ltb_lt|done].
    + left. rewrite map_lookup_filter_None_2; [done|by left].
Defined.

(** A limit of two a minute for the shop: two calls whose clocks disagree with
    the order of their scripts, a call of another merchant, one refused, one
    whose answer is lost, one after the key has expired. *)
Definition shop_calls : list rl_call := [
  mkCall "shop" 2 2000000 2 NoFault; mkCall "shop" 2 1000000 2 NoFault; mkCall "other" 2 3000000 3 NoFault;
  mkCall "shop" 2 4000000 4 NoFault; mkCall "shop" 2 5000000 5 (FailAfter Canceled);
  mkCall "shop" 2 60003000000 60003 NoFault].

Definition zredis_empty : zredis := mkZredis 0 ∅.


(** Calls of one nanosecond are one member of the set: with a limit of two, a
    third is let through. *)
Lemma same_instant_counted_once :
  length (admitted (fun q => q) minute (replicate 3 (mkCall "shop" 2 1000000 1 NoFault)) zredis_empty) = 3%nat.
Proof. vm_compute. reflexivity. Qed.

(** An empty bucket, idle for ten seconds, on an expired key. *)
Lemma expiry_transparent_witness :
  tbScript (fun q => q) 2 1 10000 10000 (Some (mkBucket 0 0 (Some 7000))) =
  tbScript (fun q => q) 2 1 10000 10000 (Some (mkBucket 0 0 None)).
Proof.
  refine (expiry_transparent (fun q => q) 2 1 cap2 refill1 10000 10000 (mkBucket 0 0 (Some 7000)) _ _ _).
  - discriminate.
  - vm_compute. discriminate.
  - cbn. lia.
Defined.

(** Two instances whose clocks are two seconds apart. *)
Lemma skewed_clocks_unlimited_witness :
  exists st', granted (fun q => q) 2 1 (alternating 0 2 [(0, 0); (0, 0); (0, 0)]) None = (6, st').
Proof.
  refine (skewed_clocks_unlimited (fun q => q) 2 1 cap2 refill1 0 2 _ _ _ [(0, 0); (0, 0); (0, 0)]); [lia|lia|discriminate].
Defined.

(** ** Migrations *)

Definition cursor_table : string :=
  "CREATE TABLE IF NOT EXISTS block_cursors" +:+ String nl "(chain_id BIGINT PRIMARY KEY, last_block BIGINT NOT NULL)".
Definition sample_chunks : list (list string * string) :=
  [(["-- last-seen block per chain; for the listener"], cursor_table); ([], "SELECT 1")].

Lemma split_script_roundtrip_witness :
  splitSQLStatements (render sample_chunks) = [cursor_table; "SELECT 1"].
Proof.
  refine (split_script_roundtrip sample_chunks _).
  constructor; [|constructor; [|constructor]].
  - split; [constructor; [split; compute_eq|constructor]|]. repeat split; compute_eq.
  - split; [constructor|]. repeat split; compute_eq.
Defined.

(** A comment behind a statement is not a comment line: its text is cut at the
    semicolon and sent to the server. *)
Example trailing_comment_is_sent :
  splitSQLStatements "SELECT 1; -- a; b" = ["SELECT 1"; "-- a"; "b"].
Proof. compute_eq. Qed.

(** The second pool refuses every statement. *)
Definition sample_exec (db : handle) (_ : string) : ST unit (result unit) :=
  ret (if (db =? 1)%nat then Err (Text "read-only") else Ok tt).
Definition sample_glob (_ : string) : result (list string) := Ok ["001.up.sql"].
Definition sample_read (_ : string) : result string := Ok (render sample_chunks).

Lemma RunMigrationsAll_spec_witness :
  exists did, (RunMigrationsAll sample_glob sample_read sample_exec router1 "migrations" ([], tt)) = (Ok tt, (did, tt)) /\
    filter (fun p => p.1 = 0%nat) did = [(0%nat, cursor_table); (0%nat, "SELECT 1")].
Proof.
  destruct (RunMigrationsAll sample_glob sample_read sample_exec router1 "migrations" ([], tt)) as [res [did []]] eqn:E.
  assert (Hres : res = Ok tt). { change res with (res, (did, tt)).1. rewrite <- E. compute_eq. }
  subst res. exists did. split; [reflexivity|].
  destruct (RunMigrationsAll_spec sample_glob sample_read sample_exec router1 "migrations" ["001.up.sql"] [] tt (Ok tt) did tt
    eq_refl) as (did' & -> & _ & Hall).
  - vm_compute. repeat constructor. intros Hin. by apply not_elem_of_nil in Hin.
  - exact E.
  - cbn [app] in *. rewrite (Hall eq_refl 0%nat) by (vm_compute; left). compute_eq.
Defined.

(** ** Hosted links *)

Definition server_cfg : Config := {|
  App := {| app_Env := ""; app_Port := 8080; app_LogLevel := ""; app_PublicBaseURL := "https://pay.example";
    app_LazyCheckout := true; app_CheckoutTokenSecret := "token-secret"; app_CheckoutTokenTTL := hour;
    app_StripeRateLimit := 0; app_CheckoutDefaultSuccessURL := "https://shop/ok"; app_CheckoutDefaultCancelURL := "";
    app_LogicalShardCount := 16 |};
  DB := {| db_DSN := "user@tcp(db)/easypay"; db_MaxOpenConns := 0; db_MaxIdleConns := 0; db_Shards := [] |};
  Redis := {| rd_Addr := ""; rd_Password := ""; rd_DB := 0 |};
  Kafka := {| kf_Brokers := []; kf_TopicConfirmed := ""; kf_TopicDLQ := ""; kf_ConsumerGroup := "" |};
  Stripe := {| st_SecretKey := ""; st_PublishableKey := ""; st_WebhookSecret := ""; st_APIVersion := "";
    st_DefaultCurrency := "USD"; st_Mode := "fake" |};
  Blockchain := {| bc_RPCWebsocket := ""; bc_RPCHTTP := ""; bc_ContractAddress := ""; bc_ChainID := 0;
    bc_RequiredConfirmations := 0; bc_StartBlock := 0 |};
  Security := {| sec_HMACSecret := "0123456789abcdef"; sec_HMACTimestampSkew := 5 * minute; sec_AdminAPIKey := "" |} |}.

(** The path without its dot segments. *)
Fixpoint resolve_dots (segments before : list string) : list string :=
  match segments with
  | [] => before
  | x :: rest =>
      if bool_decide (x = ".") then resolve_dots rest before
      else if bool_decide (x = "..") then resolve_dots rest (removelast before)
      else resolve_dots rest (before ++ [x])
  end.

(** The last two segments of the path and the value of the query. *)
Definition sample_browse (url : string) : Request :=
  let parts := Split "?" url in
  let segments := resolve_dots (Split "/" (default "" (head parts))) [] in
  {| rq_Get := fun _ => "";
     rq_Query := fun q => if bool_decide (q = "t") then default "" (last (Split "=" (default "" (last parts)))) else "";
     rq_Params := fun p => if bool_decide (p = "merchant_id") then default "" (last (removelast segments))
                           else if bool_decide (p = "order_id") then default "" (last segments) else "";
     rq_Body := ""; rq_RequestID := "" |}.

Lemma order_char_clear sep s :
  order_char sep = false -> all_chars order_char s = true -> occurs sep s = false.
Proof. apply all_chars_occurs. Qed.

Lemma sample_route : serves_pay_route server_cfg sample_browse.
Proof.
  intros m o t [Hm Hmc [Hm1 Hm2]] [Ho Hoc [Ho1 Ho2]] Htc. unfold sample_browse.
  set (path := "https://pay.example/pay" +:+ String "/" (m +:+ String "/" o)).
  assert (Hurl : Split "?" (app_PublicBaseURL (App server_cfg) +:+ "/pay/" +:+ m +:+ "/" +:+ o +:+ "?t=" +:+ t) = [path; "t=" +:+ t]).
  { replace (app_PublicBaseURL (App server_cfg) +:+ "/pay/" +:+ m +:+ "/" +:+ o +:+ "?t=" +:+ t)
      with (path +:+ String "?" ("t=" +:+ t));
      [|unfold path; rewrite str_app_assoc;
        exact (f_equal (fun s => "https://pay.example/pay/" +:+ s) (str_app_assoc m (String "/" o) (String "?" ("t=" +:+ t))))].
    rewrite Split_app, Split_no_sep; [reflexivity| |].
    - rewrite occurs_app, (order_char_clear _ t) by done. reflexivity.
    - unfold path. rewrite occurs_app. cbn. rewrite occurs_app, (order_char_clear _ m) by done. cbn. by apply order_char_clear. }
  assert (Hseg : resolve_dots (Split "/" path) [] = ["https:"; ""; "pay.example"; "pay"; m; o]).
  { unfold path. rewrite Split_concat, Split_app, (Split_no_sep "/" o) by (by apply order_char_clear).
    cbn -[Split bool_decide]. change (Split "/" "https://pay.example/pay") with ["https:"; ""; "pay.example"; "pay"].
    cbn -[bool_decide]. rewrite ?(bool_decide_eq_false_2 (m = _)), ?(bool_decide_eq_false_2 (o = _)) by done. reflexivity. }
  assert (Ht : Split "=" ("t=" +:+ t) = ["t"; t]).
  { change ("t=" +:+ t) with ("t" +:+ String "=" t). rewrite Split_app, Split_no_sep by first [reflexivity|by apply order_char_clear].
    reflexivity. }
  clearbody path. rewrite Hurl. revert Ht. generalize ("t=" +:+ t). intros query Ht. cbn -[Split resolve_dots]. by rewrite Hseg, Ht.
Qed.

(** The dot segments are valid order ids, and their links do not lead to them. *)
Lemma dot_order_links_dead :
  ValidateOrderID "." = Ok tt /\ ValidateOrderID ".." = Ok tt /\
  rq_Params (sample_browse "https://pay.example/pay/shop/.?t=x") "order_id" = "shop" /\
  rq_Params (sample_browse "https://pay.example/pay/shop/..?t=x") "order_id" = "pay".
Proof. vm_compute. by repeat split. Qed.

(** The link of order "o1", opened half an hour before it expires. *)
Definition link_input : CreatePaymentInput := sample_input shop "o1".
Definition link_answer : result CreatePaymentResult * (Db * unit) := Create (paySvc server_cfg) link_input (db_empty, tt).
Definition link_res : CreatePaymentResult :=
  match link_answer.1 with Ok r => r | Err _ => accepted link_input shop "" "" "" "" None end.

Lemma link_expiry : int64_range (Unix (1000 * second + ps_checkoutTokenTTL (paySvc server_cfg))) /\
  Unix (1000 * second) <= Unix (1000 * second + ps_checkoutTokenTTL (paySvc server_cfg)).
Proof. vm_compute. split; [split; [discriminate|reflexivity]|discriminate]. Qed.

Lemma hosted_link_accepted_witness :
  rq_Params (sample_browse (res_CheckoutURL link_res)) "order_id" = "o1" /\
  CheckoutHandler_Redirect "token-secret" (server_checkoutResolver server_cfg) (sample_browse (res_CheckoutURL link_res)) None
    (link_answer.2.1, tt) =
  (let! url := Resolve (server_checkoutResolver server_cfg) "shop" "o1" in ret (redirectAnswer url))%easypay (link_answer.2.1, tt).
Proof.
  split; [compute_eq|].
  assert (Hans : link_answer = (Ok link_res, (link_answer.2.1, tt))) by compute_eq.
  refine (hosted_link_accepted (HS := store1) (X := unit) server_cfg sample_browse link_input db_empty tt link_res
    link_answer.2.1 tt shop (Unix (1000 * second + ps_checkoutTokenTTL (paySvc server_cfg)))
    (server_checkoutResolver server_cfg) (link_answer.2.1, tt) sample_route _ _ _ _ db_empty_inv _ _ _ _ _ _ _ _ _ _ _).
  - reflexivity.
  - discriminate.
  - compute_eq.
  - compute_eq.
  - cbn. unfold int64_range. lia.
  - reflexivity.
  - split; [discriminate|compute_eq|split; discriminate].
  - discriminate.
  - discriminate.
  - exact Hans.
  - compute_eq.
  - compute_eq.
  - reflexivity.
  - exact (proj1 link_expiry).
  - exact (proj2 link_expiry).
Defined.

(** ** The load generator *)

Definition bench_cfg (total concurrency : Z) : Bench.config := {|
  b_url := "http://localhost:8080"; b_dbDSN := ""; b_configPath := ""; b_concurrency := concurrency; b_total := total;
  b_duration := 0; b_merchantID := "BENCH_M1"; b_apiKey := "ak"; b_secretKey := "sk"; b_method := "card";
  b_pollStatus := false; b_timeout := 10 * second; b_merchants := 1; b_logicalShardCount := 0 |}.

Definition answered : bresult := {| br_status := 201; br_latency := 5; br_err := None; br_shardIndex := 0 |}.
Definition turn (i : nat) : benchEvent := Worker i answered true.

(** Two workers, one request to send: both pass the test of the counter before
    either of them increments it. *)
Definition overshoot : list benchEvent :=
  [turn 0; turn 1; turn 0; turn 1; turn 0; turn 1; turn 0; turn 1; Collect; Collect; turn 0; turn 1].


Lemma bench_request_accepted_witness :
  let bm := {| bm_id := "shop"; bm_apiKey := "ak"; bm_secretKey := "sk"; bm_shardIndex := 1 |} in
  let rq := signedRequest bm (FormatInt (Unix (990 * second))) "{}" "" "" in
  HMACAuth (W := unit) (X := unit) (fun B m => m) (5 * minute) (fun _ locals => ret (OK (m_MerchantID <$> locals))) rq None tt =
  (OK (Some "shop"), tt).
Proof.
  refine (bench_request_accepted (W := unit) (X := unit) (fun B m => m) (5 * minute) (fun _ locals => ret (OK (m_MerchantID <$> locals)))
    {| bm_id := "shop"; bm_apiKey := "ak"; bm_secretKey := "sk"; bm_shardIndex := 1 |} (990 * second) "{}" "" ""
    tt tt tt (1000 * second) shop None _ _ _ _ _ _ _ _ _ _).
  - discriminate.
  - vm_compute. split; [discriminate|reflexivity].
  - vm_compute. split; [discriminate|reflexivity].
  - vm_compute. discriminate.
  - vm_compute. discriminate.
  - vm_compute. discriminate.
  - reflexivity.
  - reflexivity.
  - reflexivity.
  - reflexivity.
Defined.
