(* ===== verification/SystemWitnesses.v ===== *)
(** * Interleavings of the whole system

    Schedules, played on the SQL repository: a callback that overtakes the
    request that created the order, two visitors of the hosted checkout, two
    deliveries of one event, two visitors and the lock, a reconciliation pass
    that overtakes a refund and a payment on the chain. *)

From S2P Require Import Prelude GoStrings Domain Codec Config ShardRouter TransactionRepo TransactionTables.
From S2P Require Import TransactionStore TransactionRefines StripeTypes Ports PaymentService WebhookService CheckoutResolver.
From S2P Require Import Reconciliation ReconcileLive SqlFrames ChainListener Runners Effects Causes System SqlOrigins.
From S2P Require Import Cache Scatter Callbacks Visitors Metrics Router Wiring Samples Witnesses InfraWitnesses OpsWitnesses.
Local Open Scope Z_scope.

#[export] Instance frames1 : StatusFrames Db := sql_status_frames router1 router1_ok.
#[export] Instance origins1 : StoreOrigins Db := sql_store_origins router1 router1_ok.

(** Stripe, Redis, the merchants and the clock, which answer every call. *)
Definition sample_world (c : op) : answer c :=
  match c return answer c with
  | SSession _ _ => Ok sample_session
  | SGetIntent id => Ok (sample_intent id)
  | SVerify _ _ _ => Ok sample_event
  | KNow => 1000 * second
  | MByID _ => Ok shop
  | EPublish _ => Ok tt
  | RSetNX _ _ _ => Ok true
  | LAcquire k _ => Ok {| lk_key := k; lk_token := "t" |}
  | LRelease _ => Ok tt
  | c => failed c
  end.

Definition sample_resolver : checkoutResolver := {|
  cr_hasCache := false; cr_hasBucket := false; cr_defaultSuccessURL := "https://shop/ok"; cr_defaultCancelURL := "" |}.

Definition deployed (s : paymentService) : deployment := {|
  dep_payments := s; dep_resolver := sample_resolver; dep_secret := "whsec";
  dep_reconcile := NewOrderReconciliation; dep_listener := NewListener sample_cfg |}.

(** Request 0 creates the order; the callback for its payment, request 1, is
    handled before request 0 has recorded its session. *)
Definition race (i : nat) : program :=
  match i with O => PCreate (sample_input shop "o1") | _ => PProcess "body" "sig" end.

Lemma race_ok i : program_ok (race i).
Proof. destruct i; [split; [discriminate|reflexivity]|exact I]. Defined.

Definition race_schedule : list (nat * part) :=
  [(0, Repo); (1, World); (1, Redis); (1, World); (0, World); (1, World); (1, Repo); (0, Repo); (1, Repo); (1, World); (1, World)]%nat.

Definition race_end : list called * Db :=
  default ([], db_empty) (play (deployed sample_service) race sample_world race_schedule ([], db_empty)).

Lemma race_played :
  play (deployed sample_service) race sample_world race_schedule ([], db_empty) = Some race_end.
Proof. vm_compute. reflexivity. Qed.

Lemma race_reachable : reachable (deployed sample_service) race db_empty race_end.1 race_end.2.
Proof.
  eapply (play_reachable _ _ _ sample_world race_schedule [] db_empty).
  - apply reach_start.
  - rewrite race_played. by destruct race_end.
Qed.

Lemma db_empty_content s : content db_empty s = [].
Proof. unfold content. cbn. unfold sql_content, shard_rows. destruct (route router1 s) as [[|h]|]; [done| |done]. cbn. by destruct h. Qed.

Lemma no_content s t : t ∈ content db_empty s -> False.
Proof. rewrite db_empty_content. apply not_elem_of_nil. Qed.

(** The payment at the end of the race. *)
Definition race_payment : Transaction := {|
  t_MerchantID := "shop"; t_TransactionID := "537c39a5b8782e6e201e99f28c4f6b2f"; t_OrderID := "o1"; t_Amount := 1500;
  t_Currency := "USD"; t_Status := "paid"; t_PaymentMethod := "card"; t_StripeSessionID := "cs_1";
  t_StripePaymentIntentID := "pi_1"; t_CreatedAt := 1000; t_UpdatedAt := 1000; t_ShardIndex := 1 |}.

Lemma race_stored : race_payment ∈ content race_end.2 1.
Proof. assert (E : content race_end.2 1 = [race_payment]) by (vm_compute; reflexivity). rewrite E. left. Qed.

Lemma paid_has_cause_witness :
  exists h1 h2 i pt sh m o pi a,
    race_end.1 = h1 ++ Called i pt (Ob (TUpdateStatus sh m o TransactionStatusPaid pi) a) :: h2 /\
    by_key key_eq m o race_payment = true /\ paid_cause (deployed sample_service) (seen_by i h1) sh m o pi.
Proof.
  apply (paid_has_cause (HS := store1) (deployed sample_service) race race_ok db_empty db_empty_inv race_end.1 race_end.2 1 race_payment).
  - intros s t Ht. destruct (no_content s t Ht).
  - exact race_reachable.
  - exact race_stored.
  - reflexivity.
Defined.

Lemma session_has_source_witness :
  exists h1 h2 i pt sh m o pi a,
    race_end.1 = h1 ++ Called i pt (Ob (TUpdateCheckout sh m o "cs_1" pi) a) :: h2 /\
    by_key key_eq m o race_payment = true /\ session_cause (deployed sample_service) (seen_by i h1) sh m o "cs_1" pi.
Proof.
  apply (session_has_source (HS := store1) (deployed sample_service) race race_ok db_empty db_empty_inv race_end.1 race_end.2 1 race_payment).
  - intros s t Ht. destruct (no_content s t Ht).
  - exact race_reachable.
  - exact race_stored.
  - discriminate.
Defined.

(** The callback announces the payment with its last call. *)
Definition race_event : PaymentConfirmedEvent := {|
  pc_OrderID := "o1"; pc_MerchantID := "shop"; pc_Status := "paid"; pc_StripePaymentIntentID := "pi_1";
  pc_Amount := 1500; pc_Currency := "USD"; pc_ConfirmedAt := 1000 |}.
Definition race_before : list called := take 10 race_end.1.

Lemma race_split : race_end.1 = race_before ++ [Called 1 World (Ob (EPublish race_event) (Ok tt))].
Proof. vm_compute. reflexivity. Qed.

Lemma announced_was_stored_witness :
  exists h0 d1 sh m o t, h0 `prefix_of` race_before /\ reachable (deployed sample_service) race db_empty h0 d1 /\
    t ∈ content d1 sh /\ by_key key_eq m o t = true /\ t_Status t = pc_Status race_event /\
    key_eq (pc_MerchantID race_event) m = true /\ key_eq (pc_OrderID race_event) o = true.
Proof.
  apply (announced_was_stored (HS := store1) (deployed sample_service) race race_ok db_empty db_empty_inv race_end.1 race_end.2
    race_before [] 1 World race_event (Ok tt)).
  - exact race_reachable.
  - exact race_split.
Defined.

Lemma effects_have_causes_witness :
  publish_cause (seen_by 1 race_before) race_event.
Proof.
  apply (effects_have_causes (deployed sample_service) race race_ok db_empty race_end.1 race_end.2
    race_before (Called 1 World (Ob (EPublish race_event) (Ok tt))) []).
  - exact race_reachable.
  - exact race_split.
Defined.

(** Two visitors of the hosted checkout whose locks do not exclude each other:
    both find no session and both call Stripe. *)
Definition visitors (i : nat) : program :=
  match i with O => PCreate (sample_input shop "o1") | _ => PResolve "shop" "o1" end.

Lemma visitors_ok i : program_ok (visitors i).
Proof. destruct i; [split; [discriminate|reflexivity]|exact I]. Defined.

Definition visitors_schedule : list (nat * part) :=
  [(0, Repo); (1, World); (2, World); (1, Repo); (2, Repo); (1, World); (2, World); (1, Repo); (2, Repo);
   (1, World); (2, World); (1, Repo); (2, Repo)]%nat.

Definition visitors_end : list called * Db :=
  default ([], db_empty) (play (deployed lazy_service) visitors sample_world visitors_schedule ([], db_empty)).

Lemma visitors_played :
  play (deployed lazy_service) visitors sample_world visitors_schedule ([], db_empty) = Some visitors_end.
Proof. vm_compute. reflexivity. Qed.

Lemma visitors_reachable : reachable (deployed lazy_service) visitors db_empty visitors_end.1 visitors_end.2.
Proof.
  eapply (play_reachable _ _ _ sample_world visitors_schedule [] db_empty).
  - apply reach_start.
  - rewrite visitors_played. by destruct visitors_end.
Qed.

(** Every session Stripe answered with in the history is the sample session. *)
Definition sample_answered (x : called) : Prop :=
  match ca_obs x with
  | Ob (SSession _ _) (Ok s) => s = sample_session
  | _ => True
  end.

Lemma visitors_idempotent : stripe_idempotent visitors_end.1.
Proof.
  assert (Hall : Forall sample_answered visitors_end.1).
  { vm_compute. repeat constructor. }
  rewrite Forall_forall in Hall. intros i j pt pt' req key s1 s2 H1 H2.
  pose proof (Hall _ H1) as E1. pose proof (Hall _ H2) as E2. cbn in E1, E2. congruence.
Qed.

(** Both visitors record a session. *)
Definition recorded (i : nat) : called := Called i Repo (Ob (TUpdateCheckout 1 "shop" "o1" "cs_1" "pi_1") (Ok tt)).

Lemma recorded_by i n : visitors_end.1 !! n = Some (recorded i) -> recorded i ∈ visitors_end.1.
Proof. apply list_elem_of_lookup_2. Qed.

Lemma visitors_share_session_witness :
  recorded 1 ∈ visitors_end.1 /\ recorded 2 ∈ visitors_end.1 /\ "cs_1" = "cs_1" /\ "pi_1" = "pi_1".
Proof.
  assert (H1 : recorded 1 ∈ visitors_end.1) by (apply (recorded_by 1 11); vm_compute; reflexivity).
  assert (H2 : recorded 2 ∈ visitors_end.1) by (apply (recorded_by 2 12); vm_compute; reflexivity).
  split; [exact H1|]. split; [exact H2|].
  exact (visitors_share_session (HS := store1) (deployed lazy_service) visitors visitors_ok db_empty db_empty_inv
    visitors_end.1 visitors_end.2 1 2 Repo Repo 1 "shop" "o1" "cs_1" "pi_1" "cs_1" "pi_1" (Ok tt) (Ok tt)
    eq_refl visitors_idempotent visitors_reachable H1 H2).
Defined.

(** ** Two deliveries of one event *)

(** The marks of a history, on the sample Redis. *)
Definition run_mark (x : called) (r : gmap string string) : option (gmap string string) :=
  match ca_obs x with
  | Ob (RSetNX k v ttl) (Ok b) =>
      match SetNX k v ttl r with (Ok b', r') => if Bool.eqb b b' then Some r' else None | _ => None end
  | Ob (RSetNX _ _ _) (Err _) => None
  | _ => Some r
  end.

Fixpoint run_marks (h : list called) (r : gmap string string) : option (gmap string string) :=
  match h with
  | [] => Some r
  | x :: rest => match run_mark x r with Some r' => run_marks rest r' | None => None end
  end.

Lemma setnx_lasting k v ttl r a r' : SetNX k v ttl r = (a, r') -> lasting r r'.
Proof.
  unfold SetNX, sample_redis, lasting. cbn. intros E k' Hk. destruct (r !! k) eqn:Er; injection E as _ <-; [done|].
  destruct (decide (k' = k)) as [->|Hne]; [by rewrite lookup_insert_eq|by rewrite lookup_insert_ne].
Qed.

Lemma run_mark_runs r0 h r x r' : redis_runs r0 h r -> run_mark x r = Some r' -> redis_runs r0 (h ++ [x]) r'.
Proof.
  intros Hr. destruct x as [i pt [c a]]. destruct c; cbn;
    try (intros [= <-]; eapply rr_other; [exact Hr|done|intros ? Hk; exact Hk]).
  destruct a as [b|e]; [|done]. destruct (SetNX k v ttl r) as [[b'|e] r2] eqn:Es; [|done].
  destruct (Bool.eqb b b') eqn:Eb; [|done]. apply Bool.eqb_prop in Eb as ->. intros [= <-].
  eapply rr_setnx; [exact Hr|exact Es|by eapply setnx_lasting].
Qed.

Lemma run_marks_runs r0 h' h r r' : redis_runs r0 h r -> run_marks h' r = Some r' -> redis_runs r0 (h ++ h') r'.
Proof.
  revert h r. induction h' as [|x h' IH]; intros h r Hr; cbn [run_marks].
  - intros [= <-]. by rewrite app_nil_r.
  - destruct (run_mark x r) as [r1|] eqn:E; [|done]. intros Hm. rewrite cons_middle, app_assoc.
    eapply IH; [|exact Hm]. by eapply run_mark_runs.
Qed.

(** The second delivery, request 2, arrives while the first is being handled
    and finds the mark. *)
Definition marked_world (c : op) : answer c :=
  match c return answer c with RSetNX _ _ _ => Ok false | c => sample_world c end.

Definition delivered_end : list called * Db :=
  default ([], db_empty) (play (deployed sample_service) race marked_world [(2, World); (2, Redis); (1, World); (1, World); (1, Repo)]%nat
    (default ([], db_empty) (play (deployed sample_service) race sample_world [(0, Repo); (1, World); (1, Redis)]%nat ([], db_empty)))).

Lemma delivered_reachable : reachable (deployed sample_service) race db_empty delivered_end.1 delivered_end.2.
Proof.
  eapply (play_reachable _ _ _ marked_world [(2, World); (2, Redis); (1, World); (1, World); (1, Repo)]%nat).
  - eapply (play_reachable _ _ _ sample_world [(0, Repo); (1, World); (1, Redis)]%nat); [apply reach_start|].
    vm_compute. reflexivity.
  - vm_compute. reflexivity.
Qed.

Lemma delivered_marks : exists r, redis_runs (∅ : gmap string string) delivered_end.1 r.
Proof.
  eexists. apply (run_marks_runs ∅ delivered_end.1 [] ∅); [apply rr_start|]. vm_compute. reflexivity.
Qed.

(** The first delivery marks the payment as paid, and alone handles the event. *)
Lemma event_applied_by_one_witness :
  (exists ev, fresh_event (deployed sample_service) (seen_by 1 (take 7 delivered_end.1)) ev /\
    handles_alone (deployed sample_service) delivered_end.1 1 ev) \/ is_pass (seen_by 1 (take 7 delivered_end.1)).
Proof.
  destruct delivered_marks as [r Hr].
  apply (event_applied_by_one (deployed sample_service) race race_ok db_empty ∅ delivered_end.1 delivered_end.2 r
    (take 7 delivered_end.1) [] 1 Repo 1 "shop" "o1" TransactionStatusPaid "pi_1" (Ok tt)).
  - exact delivered_reachable.
  - exact Hr.
  - vm_compute. reflexivity.
Defined.

(** ** Two visitors and the lock *)

(** A generator of tokens that is told the next one. *)
#[local] Instance told_uuid : UUID string := fun u => (u, u).

(** The calls of the lock in a history, on the sample Redis. *)
Definition run_lock (x : called) (used : list string) (r : gmap string string) : option (list string * gmap string string) :=
  match ca_obs x with
  | Ob (LAcquire k _) (Ok l) =>
      if bool_decide (r !! ("lock:" +:+ k) = None) && bool_decide (lk_key l = "lock:" +:+ k) && negb (bool_decide (lk_token l ∈ used))
      then Some (lk_token l :: used, <["lock:" +:+ k := lk_token l]> r) else None
  | Ob (LRelease l) (Ok _) => Some (used, if bool_decide (r !! lk_key l = Some (lk_token l)) then delete (lk_key l) r else r)
  | Ob (LAcquire _ _) (Err _) | Ob (LRelease _) (Err _) => None
  | _ => Some (used, r)
  end.

Fixpoint run_locks (h : list called) (used : list string) (r : gmap string string) : option (gmap string string) :=
  match h with
  | [] => Some r
  | x :: rest => match run_lock x used r with Some (used', r') => run_locks rest used' r' | None => None end
  end.

Definition tokens_in (h : list called) (used : list string) : Prop :=
  forall x i k l, x ∈ h -> acquired x = Some (i, k, l) -> lk_token l ∈ used.

Lemma run_lock_runs r0 h r x used used' r' :
  lock_runs (U := string) r0 h r -> tokens_in h used -> run_lock x used r = Some (used', r') ->
  lock_runs (U := string) r0 (h ++ [x]) r' /\ tokens_in (h ++ [x]) used'.
Proof.
  intros Hr Hu. destruct x as [i pt [c a]].
  assert (Hplain : is_lock_call c = false -> run_lock (Called i pt (Ob c a)) used r = Some (used', r') ->
    lock_runs (U := string) r0 (h ++ [Called i pt (Ob c a)]) r' /\ tokens_in (h ++ [Called i pt (Ob c a)]) used').
  { intros Hc Hrun. assert (used' = used /\ r' = r) as [-> ->] by (destruct c; try discriminate Hc; cbn in Hrun; by simplify_eq).
    split; [eapply lr_other; [exact Hr|exact Hc|by intros k v]|].
    intros y j k l [Hy| ->%list_elem_of_singleton]%elem_of_app E; [by eapply Hu|]. by destruct c. }
  destruct c; try (apply Hplain; reflexivity); clear Hplain.
  - destruct a as [l|e]; [|done]. cbn.
    destruct (bool_decide (r !! ("lock:" +:+ k) = None)) eqn:E1; [|done]. apply bool_decide_eq_true in E1.
    destruct (bool_decide (lk_key l = "lock:" +:+ k)) eqn:E2; [|done]. apply bool_decide_eq_true in E2.
    destruct (bool_decide (lk_token l ∈ used)) eqn:E3; [done|]. apply bool_decide_eq_false in E3. intros [= <- <-]. split.
    + eapply lr_acquire with (u := lk_token l) (u' := lk_token l); [exact Hr| | |].
      * unfold redis_Acquire, bind, on_snd, on_fst, ret, uuid_NewString, told_uuid. cbn [fst snd].
        unfold SetNX, sample_redis. rewrite E1. cbn [fst snd]. destruct l as [lk tk]. cbn in *. by rewrite E2.
      * intros k' v Hne Hv. cbn in *. by rewrite lookup_insert_ne.
      * intros l0 y j k' l' [= <-] Hy E Et. apply E3. rewrite <- Et. by eapply Hu.
    + intros y j k' l' [Hy| ->%list_elem_of_singleton]%elem_of_app E; [right; by eapply Hu|]. cbn in E. injection E as _ _ <-. left.
  - destruct a as [[]|e]; [|done]. cbn. intros [= <- <-]. split.
    + eapply lr_release with (u := "") (u' := ""); [exact Hr| |].
      * unfold redis_Release, releaseScript, bind, on_fst, ret, Eval_script, sample_eval, cmd_GET, cmd_DEL, sample_strings.
        cbn [fst snd]. by case_bool_decide.
      * intros k' v Hne Hv. cbn in *. case_bool_decide; [by rewrite lookup_delete_ne|done].
    + intros y j k l' [Hy| ->%list_elem_of_singleton]%elem_of_app E; [by eapply Hu|done].
Qed.

Lemma run_locks_runs r0 h' h r used r' :
  lock_runs (U := string) r0 h r -> tokens_in h used -> run_locks h' used r = Some r' -> lock_runs (U := string) r0 (h ++ h') r'.
Proof.
  revert h r used. induction h' as [|x h' IH]; intros h r used Hr Hu; cbn [run_locks].
  - intros [= <-]. by rewrite app_nil_r.
  - destruct (run_lock x used r) as [[used' r1]|] eqn:E; [|done]. intros Hm. rewrite cons_middle, app_assoc.
    destruct (run_lock_runs _ _ _ _ _ _ _ Hr Hu E) as [Hr1 Hu1]. by eapply IH.
Qed.

(** Redis gives out a lock with the given token. *)
Definition lock_world (tok : string) (c : op) : answer c :=
  match c return answer c with LAcquire k _ => Ok {| lk_key := "lock:" +:+ k; lk_token := tok |} | c => sample_world c end.

(** Both visitors have seen that there is no session; the second gets the lock
    once the first has released it. *)
Definition turns_first : list (nat * part) :=
  [(0, Repo); (1, World); (1, Repo); (2, World); (2, Repo); (1, World); (1, Repo); (1, World); (1, Repo); (1, World)]%nat.
Definition turns_second : list (nat * part) := [(2, World); (2, Repo); (2, World)]%nat.

Definition turns_end : list called * Db :=
  default ([], db_empty) (play (deployed lazy_service) visitors (lock_world "t2") turns_second
    (default ([], db_empty) (play (deployed lazy_service) visitors (lock_world "t1") turns_first ([], db_empty)))).

Lemma turns_reachable : reachable (deployed lazy_service) visitors db_empty turns_end.1 turns_end.2.
Proof.
  eapply (play_reachable _ _ _ (lock_world "t2") turns_second).
  - eapply (play_reachable _ _ _ (lock_world "t1") turns_first); [apply reach_start|]. vm_compute. reflexivity.
  - vm_compute. reflexivity.
Qed.

Lemma turns_locked : exists r, lock_runs (U := string) (∅ : gmap string string) turns_end.1 r.
Proof.
  eexists. apply (run_locks_runs ∅ turns_end.1 [] ∅ []); [apply lr_start|intros x i k l Hx; by apply not_elem_of_nil in Hx|].
  vm_compute. reflexivity.
Qed.

(** The first visitor's request to Stripe. *)
Definition turns_request : CreateCheckoutRequest := sessionRequest sample_resolver (default race_payment (head (content turns_end.2 1))).

Lemma visitors_take_turns_witness :
  exists sh m o t q l ha hb r1,
    Ob (TGetOrder sh m o) (Ok t) ∈ seen_by 1 (take 7 turns_end.1) /\ t_StripeSessionID t = "" /\
    "checkout:shop:o1" = sessionKey t /\
    take 7 turns_end.1 = ha ++ Called 1 q (Ob (LAcquire (lockOf m o) (10 * second)) (Ok l)) :: hb /\
    Forall (fun x => releases (lk_token l) x = false) hb /\
    lock_runs (U := string) (∅ : gmap string string) (take 7 turns_end.1) r1 /\
    live r1 ("lock:" +:+ lockOf m o) = Some (lk_token l) /\
    forall hc y j l' hd, drop 8 turns_end.1 = hc ++ y :: hd -> acquired y = Some (j, lockOf m o, l') ->
      exists q2 l2 b, Called 1 q2 (Ob (LRelease l2) b) ∈ hc /\ lk_token l2 = lk_token l.
Proof.
  destruct turns_locked as [r Hr].
  apply (visitors_take_turns (U := string) (deployed lazy_service) visitors visitors_ok db_empty ∅ turns_end.1 turns_end.2 r
    (take 7 turns_end.1) 1 World turns_request "checkout:shop:o1" (Ok sample_session) (drop 8 turns_end.1)).
  - reflexivity.
  - exact turns_reachable.
  - exact Hr.
  - vm_compute. reflexivity.
Defined.

(** Both did acquire it, in turn. *)
Lemma both_acquired : omap acquired turns_end.1 =
  [(1%nat, "checkout:shop:o1", {| lk_key := "lock:checkout:shop:o1"; lk_token := "t1" |});
   (2%nat, "checkout:shop:o1", {| lk_key := "lock:checkout:shop:o1"; lk_token := "t2" |})].
Proof. vm_compute. reflexivity. Qed.

(** ** A reconciliation pass that overtakes a refund *)

(** Callbacks of two kinds, by their payload. *)
Definition refund_world (c : op) : answer c :=
  match c return answer c with
  | SVerify payload _ _ => Ok (if bool_decide (payload = "refunded")
      then {| ev_ID := "evt_2"; ev_Type := "charge.refunded"; ev_Created := 1000; ev_APIVersion := ""; ev_Data := "" |}
      else sample_event)
  | c => sample_world c
  end.

Definition overtaken (i : nat) : program :=
  match i with
  | 0 => PCreate (sample_input shop "o1") | 1 => PProcess "paid" "sig" | 2 => PProcess "refunded" "sig" | _ => PReconcile [Ticked]
  end%nat.

(** The pass lists the payment while it is still "created", then waits for
    Stripe; meanwhile it is paid and refunded. *)
Definition overtaken_schedule : list (nat * part) :=
  [(0, Repo); (0, World); (0, Repo); (3, World); (3, Repo);
   (1, World); (1, Redis); (1, World); (1, World); (1, Repo);
   (2, World); (2, Redis); (2, World); (2, Repo);
   (3, World); (3, Repo)]%nat.

Definition overtaken_end : list called * Db :=
  default ([], db_empty) (play (deployed sample_service) overtaken refund_world overtaken_schedule ([], db_empty)).

(** The statuses written, in order. *)
Definition status_writes (h : list called) : list (nat * string) :=
  omap (fun x => match ob_op (ca_obs x) with TUpdateStatus _ _ _ st _ => Some (ca_agent x, st) | _ => None end) h.

(** The pass writes "paid" over "refunded": nothing compares the status with
    the one the decision was based on. *)
Lemma reconciliation_overwrites_refund :
  reachable (deployed sample_service) overtaken db_empty overtaken_end.1 overtaken_end.2 /\
  status_writes overtaken_end.1 =
    [(1, TransactionStatusPaid); (2, TransactionStatusRefunded); (3, TransactionStatusPaid)]%nat /\
  t_Status <$> content overtaken_end.2 1 = [TransactionStatusPaid].
Proof.
  split_and!; [|vm_compute; reflexivity|vm_compute; reflexivity].
  apply (play_reachable _ _ _ refund_world overtaken_schedule [] db_empty); [apply reach_start|].
  vm_compute. reflexivity.
Qed.

(** ** A payment on the chain *)

(** The chain at block 100, with one pending transaction. *)
Definition chain_world (c : op) : answer c :=
  match c return answer c with
  | HBlock => Ok 100
  | OList _ _ => Ok [sample_tx "h1"]
  | HReceipt _ => Ok (Some {| rc_Status := 1 |})
  | OUpdate _ _ _ => Ok tt
  | c => sample_world c
  end.

Definition on_chain_payment (i : nat) : program :=
  match i with O => PCreate (sample_input shop "o1") | _ => PConfirmation [Ticked] end.

Definition chain_end : list called * Db :=
  default ([], db_empty) (play (deployed lazy_service) on_chain_payment chain_world
    [(0, Repo); (1, World); (1, Txs); (1, World); (1, Repo); (1, Txs); (1, Repo); (1, World); (1, World)]%nat ([], db_empty)).

(** The tracker marks the order as paid and announces it. *)
Lemma chain_pays :
  reachable (deployed lazy_service) on_chain_payment db_empty chain_end.1 chain_end.2 /\
  t_Status <$> content chain_end.2 1 = [TransactionStatusPaid] /\
  (fun x => match ob_op (ca_obs x) with EPublish ev => Some (pc_Status ev) | _ => None end) <$> last chain_end.1
    = Some (Some TransactionStatusPaid).
Proof.
  split_and!; [|vm_compute; reflexivity|vm_compute; reflexivity].
  apply (play_reachable _ _ _ chain_world
    [(0, Repo); (1, World); (1, Txs); (1, World); (1, Repo); (1, Txs); (1, Repo); (1, World); (1, World)]%nat [] db_empty);
    [apply reach_start|].
  vm_compute. reflexivity.
Qed.

(** ** A cross-shard read among writes *)

(** Two pools of two shards each; the order of the shop is in the second. *)
Definition router2 : multiShardRouter := {| pools := [0; 1]%nat; logicalToDB := [0; 0; 1; 1]%nat; logicalCount := 4 |}.

Lemma router2_ok : router_ok router2.
Proof. split; [cbn; lia|discriminate|exists 2; reflexivity|reflexivity]. Qed.

Definition db_two : Db := mkDb (mkPool [] [] :: d_pools db_paid) [2000] [].

Lemma db_two_inv : sql_inv db_two.
Proof. constructor; [split; [apply NoDup_nil_2|constructor]|exact db_paid_inv]. Qed.

(** The first pool is asked and reports; then the order is paid; then the
    second pool is asked and reports. *)
Definition db_two_paid : Db := TransactionTables.run_call router2 (CUpdateStatus 2 "shop" "o1" TransactionStatusPaid "pi_1") db_two.
Definition for_o1 (x : Row) : bool := coll_eq (r_order x) "o1".
Definition missed : result Transaction := Err (Sentinel ErrNotFound).
Definition found : result Transaction := scanRow (exec 1 (sql_select1 for_o1) db_two_paid).1.
Definition scatter_end : scatter :=
  mkScatter (<[1%nat := found]> (<[0%nat := missed]> ∅)) [(0%nat, missed); (1%nat, found)] (exec 1 (sql_select1 for_o1) db_two_paid).2.

Lemma scatter_steps : rtc (scatter_step router2 for_o1) (mkScatter ∅ [] db_two) scatter_end.
Proof.
  eapply rtc_l; [eapply (sc_query _ _ ∅ [] db_two 0 0); [reflexivity|reflexivity|vm_compute; reflexivity]|].
  eapply rtc_l; [eapply (sc_send _ _ _ _ _ 0); [reflexivity|apply not_elem_of_nil]|].
  eapply rtc_l; [eapply sc_other, (step_call router2 (CUpdateStatus 2 "shop" "o1" TransactionStatusPaid "pi_1")); exact I|].
  eapply rtc_l; [eapply (sc_query _ _ _ _ _ 1 1); [reflexivity|reflexivity|]|].
  { vm_compute. reflexivity. }
  eapply rtc_l; [eapply (sc_send _ _ _ _ _ 1); [reflexivity|vm_compute; intros Hin; inversion Hin as [|? ? ? Hin']; inversion Hin']|].
  vm_compute. apply rtc_refl.
Qed.

(** A lookup by an intent that no payment has. *)
Definition for_pi_9 (x : Row) : bool := bool_decide (r_pi x = Some "pi_9").
Definition miss_end : scatter :=
  mkScatter (<[1%nat := missed]> (<[0%nat := missed]> ∅)) [(0%nat, missed); (1%nat, missed)] (exec 1 (sql_select1 for_pi_9) db_two).2.

Lemma miss_steps : rtc (scatter_step router2 for_pi_9) (mkScatter ∅ [] db_two) miss_end.
Proof.
  eapply rtc_l; [eapply (sc_query _ _ ∅ [] db_two 0 0); [reflexivity|reflexivity|vm_compute; reflexivity]|].
  eapply rtc_l; [eapply (sc_send _ _ _ _ _ 0); [reflexivity|apply not_elem_of_nil]|].
  eapply rtc_l; [eapply (sc_query _ _ _ _ _ 1 1); [reflexivity|reflexivity|vm_compute; reflexivity]|].
  eapply rtc_l; [eapply (sc_send _ _ _ _ _ 1); [reflexivity|vm_compute; intros Hin; inversion Hin as [|? ? ? Hin']; inversion Hin']|].
  vm_compute. apply rtc_refl.
Qed.

(** What a read found, as its status. *)
Definition found_status (res : option (result Transaction)) : option string :=
  match res with Some (Ok t) => Some (t_Status t) | _ => None end.

Lemma scatter_concurrent_witness :
  (exists t, scattered router2 scatter_end = Some (Ok t) /\ t_Status t = TransactionStatusPaid /\
     (exists i h s1 rows x t0, All router2 !! i = Some h /\ route router2 (t_ShardIndex t) = Ok h /\
        asked router2 for_o1 (mkScatter ∅ [] db_two) scatter_end i s1 (Ok t0) /\
        tables (sc_db s1) !! h = Some rows /\ List.find for_o1 rows = Some x /\ scanTransaction x = Ok t0 /\
        t = with_shard (t_ShardIndex t) t0) /\
     exists t', t' ∈ sql_content router2 (sc_db scatter_end) (t_ShardIndex t) /\ Concurrency.same_core t t') /\
  scattered router2 miss_end = Some missed /\
  forall i h, All router2 !! i = Some h ->
    exists s1 e' rows1, asked router2 for_pi_9 (mkScatter ∅ [] db_two) miss_end i s1 (Err e') /\
      tables (sc_db s1) !! h = Some rows1 /\ Forall (fun x => for_pi_9 x = false) rows1 /\
      forall rows x, tables db_two !! h = Some rows -> x ∈ rows -> exists y, y ∈ rows1 /\ same_payment x y.
Proof.
  assert (Hst : found_status (scattered router2 scatter_end) = Some TransactionStatusPaid) by (vm_compute; reflexivity).
  split.
  - destruct (scattered router2 scatter_end) as [[t|e]|] eqn:E; [|discriminate Hst|discriminate Hst].
    exists t. split; [reflexivity|]. split; [by injection Hst|].
    exact (scatter_concurrent router2 router2_ok for_o1 db_two scatter_end (Ok t) db_two_inv scatter_steps E).
  - assert (E : scattered router2 miss_end = Some missed) by (vm_compute; reflexivity). split; [exact E|].
    exact (scatter_concurrent router2 router2_ok for_pi_9 db_two miss_end missed db_two_inv miss_steps E eq_refl).
Defined.

(** ** The metrics of a visit *)

(** The order has no session yet; the lock is free and Stripe answers. *)
Definition unpaid : Transaction := {|
  t_MerchantID := "shop"; t_TransactionID := "537c39a5b8782e6e201e99f28c4f6b2f"; t_OrderID := "o1"; t_Amount := 1500;
  t_Currency := "USD"; t_Status := TransactionStatusCreated; t_PaymentMethod := "card"; t_StripeSessionID := "";
  t_StripePaymentIntentID := ""; t_CreatedAt := 1000; t_UpdatedAt := 1000; t_ShardIndex := 1 |}.

Definition visit_world (c : op) : answer c :=
  match c return answer c with TGetOrder _ _ _ => Ok unpaid | c => sample_world c end.
Definition visit_queue : queue := {| q_seen := []; q_oracle := fun _ c => visit_world c |}.
Definition visit_run : result string * (queue * queue) := Resolve sample_resolver "shop" "o1" (visit_queue, visit_queue).

Lemma resolve_metrics_witness :
  label_of (q_seen visit_run.2.1) (q_seen visit_run.2.2) = Some "created" /\
  ResolveM sample_resolver "shop" "o1" ([], (visit_queue, visit_queue)) =
    (visit_run.1, (samples_of (q_seen visit_run.2.1) (q_seen visit_run.2.2), visit_run.2)).
Proof.
  split; [vm_compute; reflexivity|].
  pose proof (resolve_metrics sample_resolver "shop" "o1" [] visit_queue visit_queue eq_refl eq_refl) as Hm.
  fold visit_run in Hm. destruct visit_run as [res [q1' q2']]. exact (proj1 Hm).
Defined.

(** ** The routes of the sample server *)

(** A framework that takes paths literally. *)
Fixpoint literal_walk (es : list entry) (method path : string) : list middleware * option endpoint :=
  match es with
  | [] => ([], None)
  | Use prefix mw :: rest =>
      let '(mws, ep) := literal_walk rest method path in
      (if HasPrefix path prefix then mw :: mws else mws, ep)
  | On m pattern ep :: rest =>
      if bool_decide (m = method) && bool_decide (pattern = path) then ([], Some ep) else literal_walk rest method path
  end.

#[export] Instance literal_fiber : Fiber := {|
  match_prefix := fun prefix path => HasPrefix path prefix; match_path := fun pattern path => bool_decide (pattern = path);
  dispatched := literal_walk |}.

#[export] Instance literal_fiber_laws : FiberLaws.
Proof.
  split.
  - intros path. apply HasPrefix_spec. by exists path.
  - intros prefix rest path <-%bool_decide_eq_true. apply HasPrefix_app.
  - done.
  - intros prefix mw es method path. cbn. by destruct (literal_walk es method path).
  - done.
Defined.

Lemma server_api_guarded_witness :
  exists rest, [mw_RequestID; mw_Prometheus; mw_HMACAuth (sec_HMACTimestampSkew (Security server_cfg)); mw_RateLimit]
      = [mw_RequestID; mw_Prometheus] ++ rest /\
    (merchant_endpoint Payment_Create = true -> rest = [mw_HMACAuth (sec_HMACTimestampSkew (Security server_cfg)); mw_RateLimit]) /\
    (Payment_Create = Merchant_Create -> mw_AdminAuth (sec_AdminAPIKey (Security server_cfg)) ∈ rest /\ sec_AdminAPIKey (Security server_cfg) <> "") /\
    (home Payment_Create = "" -> rest = []).
Proof. apply (server_api_guarded server_cfg "POST" "/api/payments"). vm_compute. reflexivity. Defined.

(** A HEAD request to the status route passes the same guards. *)
Lemma head_is_guarded :
  dispatched (NewRouter (server_deps server_cfg)) "HEAD" "/api/payments/:id" =
  ([mw_RequestID; mw_Prometheus; mw_HMACAuth (sec_HMACTimestampSkew (Security server_cfg)); mw_RateLimit], Some PaymentStatus_Get).
Proof. vm_compute. reflexivity. Qed.
